(* ===== verification/_CoqProject ===== *)
-Q . S2P
Prelude.v
GoStrings.v
Allowlist.v
GoNet.v
Cidr.v
LogBuffer.v
HttpProxy.v
DnsServer.v
ControlApi.v
ProxyServer.v
Session.v
Manager.v
Cleanup.v
Teardown.v
Shell.v
GoTime.v
SshServer.v
SshChannel.v
SshExec.v
Keepalive.v
Forward.v
TtySession.v
WardScan.v
WardBar.v
WardLoop.v
WardInput.v
WardRun.v
Presets.v
Config.v
Setup.v
Tui.v
MonitorUI.v
MonitorLog.v
PresetUI.v
Selector.v
View.v
Header.v
Allow.v
Caches.v
Releases.v
SelfUpdate.v
Container.v
Sandbox.v
SandboxSpec.v
HostClient.v
Connect.v
StdinHandoff.v
Programs.v
Mtls.v
SshAuth.v
ProxyRun.v
ClientRun.v
Trust.v
Update.v
ProjectFile.v
Diagnostics.v
Commands.v
System.v
