(* ===== verification/Prelude.v ===== *)
(** * Vibepit: a verification library

    Vibepit runs a coding agent in a container whose only way out is a filtering
    proxy.  This library models the program's Go code (under [src/]) as Rocq
    functions and step relations, file by file, and proves what the program
    promises: that nothing leaves the sandbox ungranted and unlogged, that a
    session's terminal survives its connections, that only the session's own
    command line can talk to it, that starting and stopping leaves nothing behind,
    and that images and updates are signed.

    ** The program and its parts

    - The _proxy container_ runs [proxy/]: an HTTP proxy and a DNS server that
      consult one HTTP allowlist, one DNS allowlist and one address filter and
      write one log; a control API through which the host reads the log and adds
      entries; and a TCP forwarder to the sandbox's SSH server.
    - The _sandbox container_ runs [vibed]: [sshd/] accepts terminals and
      commands, [session/] keeps shells on PTYs alive while clients come and go.
    - The _host command_ ([cmd/], [config/], [container/], [tui/], [selfupdate/],
      [cosign/], [embed/]) merges configurations, drives Docker or Podman, shows
      the monitor, edits the project's configuration and updates itself.
    - [ward/] wraps a terminal program and draws a notification bar below it.

    ** Files

    Shared: [Prelude.v] (outcomes, machine integers, tactics, list lemmas),
    [GoStrings.v] (packages strings, bytes, strconv, unicode/utf8, fmt padding),
    [GoNet.v] (net, net/netip), [GoTime.v] (durations in IEEE 754 doubles).

    Proxy: [Allowlist.v] (proxy/allowlist.go; [Module Cas] is the lock-free
    Add), [Cidr.v] (cidr.go), [LogBuffer.v] (log.go), [HttpProxy.v] (http.go),
    [DnsServer.v] (dns.go), [ControlApi.v] (api.go), [ProxyServer.v] (server.go:
    the three servers over one shared store), [Forward.v] (server.go: the SSH
    forwarder), [Presets.v] (presets.go), [Mtls.v] (mtls.go and the session
    directory of cmd/session.go: certificates from their generation to the
    handshake), [ProxyRun.v] (server.go: the services from start to shutdown).

    Sandbox: [Session.v] (session/session.go, client.go: a session, its clients
    and goroutines as a step function over labels), [Manager.v] (manager.go,
    statefile.go), [Cleanup.v] (cleanup.go), [SshChannel.v] (sshd/rawsession.go),
    [SshServer.v] (sshd/server.go over the manager), [Keepalive.v] (its
    keepalives, in time), [Selector.v] (sshd/selector.go), [Shell.v]
    (sshd/shell_escape.go, cmd/exec.go), [SshExec.v] (the process of a command),
    [SshAuth.v] (keygen/, cmd/vibed.go: who may connect to whom, and what the
    sandbox can see of the keys), [Teardown.v] (session.go: feeding, draining and
    closing the terminal emulator).

    Ward: [WardScan.v] (scanner.go, osc133.go), [WardBar.v] (bar.go),
    [WardLoop.v] (the bar's event loop), [WardInput.v] (command.go and stdin),
    [WardRun.v] (all of them over one terminal, from start to exit).

    Host: [Config.v], [Setup.v] (config/), [Tui.v] (tui/cursor.go, window.go),
    [MonitorUI.v], [MonitorLog.v] (cmd/monitor*.go, session_ui.go; the second
    composes the screen with the proxy's log), [PresetUI.v] (config/setup_ui.go),
    [View.v] (what the screens show), [Header.v] (tui/header.go, status.go),
    [Allow.v] (cmd/allow.go, control.go,
    composed with [ControlApi.v] and [Setup.v]), [Caches.v] (cosign/image.go,
    embed/proxy), [Releases.v], [SelfUpdate.v] (selfupdate/, cmd/update.go),
    [Container.v] (container/client.go), [TtySession.v] (container/terminal.go),
    [Sandbox.v] and [SandboxSpec.v] (cmd/bootstrap.go, up.go, run.go, down.go),
    [HostClient.v] (sockets, pulls, cmd/bootstrap_ssh.go, status.go), [Connect.v],
    [StdinHandoff.v] and [ClientRun.v] (cmd/connect.go, exec.go, main.go),
    [Programs.v] (the terminal programs from start to result), [Trust.v]
    (cosign/: the signers, and the way from a verified digest to a container),
    [Update.v] (cmd/update.go: the whole command), [ProjectFile.v] (config/setup.go:
    the project file written and read back), [Diagnostics.v] (logs and other
    questions to the container runtime), [Commands.v] (cmd/root.go: the commands
    and their flags).

    All together: [System.v] takes the containers a start leaves behind, boots the
    proxy's process in one of them and follows it through every interleaving.

    ** How code is modelled

    Pure functions are functions.  A function that may fail returns [result] or
    [option].  Sequential code with effects passes its state: [Sandbox.v] has a
    monad with the stack of clean-ups.  Goroutines and remote parties are step
    functions [label -> state -> option state], one label for each critical
    section, channel operation or message; [reach_from] and [run_steps] below are
    the states and the executions of all of them, so that a theorem about reachable
    states is about every interleaving, and one about progress gives a run.  Integers have Go's width where it can
    matter (uint64 log identifiers, uint32 counters and exit statuses, uint16
    terminal sizes); [int] is unbounded.  Code outside the repository is a
    parameter or a class with the documented laws a theorem needs:
    [UnicodeTables], [Emulator] (the terminal emulator), [TermText] and [Lipgloss]
    (text measuring and styling), [Screen] (a TUI screen, with an instance for
    each), [AuditLog] (what the proxy's theorems need of a log, with [LogBuffer.v]
    as its instance), [Semver], [PosixShell], [CommandLoop] (what ward's input
    needs of its event loop),
    [Docker] with [DockerSpec] and [ImageLaws] (the container runtime), [DockerDiag]
    (its logs), [Cli] (what the command-line library selects and reads for a
    command line), [YamlSubset] (block lists in YAML), [PKI] and
    [Encoding] with [EncodingSpec] (keys, certificates, PEM and DER), [SSHFormat]
    with [SSHFormatSpec] (key files), [Sigstore] with [SigstoreSpec], and functions
    for DNS answers, JSON, YAML, tar, hashes, files and clocks.  Every
    theorem with hypotheses has a witness that meets them on concrete data.

    ** What the theorems show

    - The whole: [session_end_to_end], from the user's files and flags over the
      started containers to everything the running proxy lets out.
    - Egress: [audit_sound], [egress_logged], [rules_provenance] are about any
      sequence of requests, queries and API calls to a started proxy;
      [handleConnect_spec], [handleRequest_spec], [handler_spec] give the exact
      verdict of each server; [matches_glob], [HTTPAllows_spec],
      [ValidateHTTPEntry_iff], [IsBlocked_spec] the exact meaning of patterns,
      entries and address ranges; [add_no_lost_update], [add_returns] the
      lock-free Add; [LogBuffer_refines_history] the ring buffer;
      [relay_faithful] the forwarder; [proxy_services] the proxy as a process.
    - Access: [session_mtls] (the control API is open to the session's command line
      and to nobody whom its authority did not certify), [ssh_session_pinned] (so is its terminal, in both
      directions), [credentials_not_mounted] (the sandbox cannot see the keys).
    - Sessions: [stream_integrity], [writer_is_attached], [pump_not_stalled],
      [emulator_teardown], [state_file_fresh]; over the SSH server
      [clean_status_is_shell_exit], [handlers_accounted], [channel_protocol],
      [remote_command_round_trip]; at the client [keepalive_exact],
      [last_one_out], [stdin_handoff], [connect_action] and [exec_status].
    - Lifecycle: [up_all_or_nothing], [down_removes_session] over any runtime
      that satisfies [DockerSpec]; [session_images_signed] and [verified_once] for
      image signatures; [update_installs_verified] for the binary and
      [update_command] for the command; [tty_session_complete] for an attached
      terminal.
    - Configuration: [Expand_spec], [Merge_spec], [allow_command_spec],
      [project_file_lifecycle], and in [Setup.v] what an edit of the project file
      does to its text ([edited], [appendAllowEntries_edits]).
    - Screens: [monitor_shows_log], [marked_row_is_acted_on]; ward's
      [output_path], [input_faithful], [osc133_round_trip],
      [sanitizeMessage_safe], [bar_never_stuck], [ward_shutdown].

    ** Bounds and fuel

    Most functions recurse on their data.  [Presets.Expand] has fuel, the number
    of presets, shown to suffice for every registry.  [Config.RandomProxyPort]
    makes the source's 100 attempts, [Cleanup.v] its five rounds and
    [Sandbox.awaitSSH] as many attempts as fit into its 30 seconds, a parameter.
    [StdinHandoff.readLoop] has fuel for the bytes that are still to come, shown
    to be enough.  The theorems that count handlers assume fewer than 2^32 of
    them, those about log identifiers fewer than 2^64 entries.

    ** Not modelled

    Sockets, the cryptography behind keys, certificates and signatures, the wire
    formats of TLS, SSH, DNS and HTTP, raw terminal modes and signals beyond their
    effect on the program's state, the goproxy machinery around the handlers, the
    parsing of command lines (the commands and flags are data in [Commands.v], what
    they select is the class [Cli]) and of YAML beyond block lists: they are
    libraries.  Their outcomes are parameters of the parts that use them.  The doc.go files are comments. *)

From stdpp Require Export base tactics list gmap strings.
From Stdlib Require Export Ascii ZArith Lia.

(** ** Outcomes of fallible code

    A Go function that returns [(T, error)] is modelled by [result err T]; one
    that returns only an [error] by [option err], with [None] for [nil]. *)
Inductive result (E A : Type) : Type :=
  | Ok (a : A)
  | Err (e : E).
Arguments Ok {E A} a.
Arguments Err {E A} e.

Definition rbind {E A B} (m : result E A) (f : A → result E B) : result E B :=
  match m with Ok a => f a | Err e => Err e end.

Definition is_ok {E A} (m : result E A) : bool :=
  match m with Ok _ => true | Err _ => false end.

Declare Scope go_scope.
Delimit Scope go_scope with go.
Notation "'let?' x := m 'in' k" := (rbind m (λ x, k))
  (at level 10, x binder, m at level 100, k at level 200) : go_scope.

(** [first_error f xs] is the Go idiom
    [for _, x := range xs { if err := f(x); err != nil { return err } }; return nil]. *)
Fixpoint first_error {A E} (f : A → option E) (xs : list A) : option E :=
  match xs with
  | [] => None
  | x :: xs' => match f x with Some e => Some e | None => first_error f xs' end
  end.

(** ** Machine integers: Go's wrap-around at width *)

Definition wrap_uint (bits z : Z) : Z := (z mod 2 ^ bits)%Z.
Definition wrap_int (bits z : Z) : Z := ((z + 2 ^ (bits - 1)) mod 2 ^ bits - 2 ^ (bits - 1))%Z.

(** ** Shared automation *)

Create HintDb vibe.
#[export] Hint Constants Opaque : vibe.

(** Turns boolean tests of the code into the propositions they decide. *)
Ltac breflect :=
  repeat match goal with
  | H : (_ && _)%bool = true |- _ => apply andb_prop in H; destruct H
  | H : (_ || _)%bool = false |- _ => apply orb_false_elim in H; destruct H
  | H : negb _ = true |- _ => apply negb_true_iff in H
  | H : negb _ = false |- _ => apply negb_false_iff in H
  | H : bool_decide _ = true |- _ => apply bool_decide_eq_true in H
  | H : bool_decide _ = false |- _ => apply bool_decide_eq_false in H
  | H : (_ =? _)%Z = true |- _ => apply Z.eqb_eq in H
  | H : (_ =? _)%Z = false |- _ => apply Z.eqb_neq in H
  | H : (_ <=? _)%Z = true |- _ => apply Z.leb_le in H
  | H : (_ <=? _)%Z = false |- _ => apply Z.leb_gt in H
  | H : (_ <? _)%Z = true |- _ => apply Z.ltb_lt in H
  | H : (_ <? _)%Z = false |- _ => apply Z.ltb_ge in H
  | H : (_ =? _)%nat = true |- _ => apply Nat.eqb_eq in H
  | H : (_ =? _)%nat = false |- _ => apply Nat.eqb_neq in H
  | H : (_ <=? _)%nat = true |- _ => apply Nat.leb_le in H
  | H : (_ <=? _)%nat = false |- _ => apply Nat.leb_gt in H
  | H : (_ <? _)%nat = true |- _ => apply Nat.ltb_lt in H
  | H : (_ <? _)%nat = false |- _ => apply Nat.ltb_ge in H
  end.

(** Splits every [if] and [match] scrutinee of the goal, remembering it. *)
Ltac split_ifs :=
  repeat (case_match; breflect; simplify_eq/=).

(** [lia] with division and remainder. *)
Ltac zlia := Z.to_euclidean_division_equations; lia.

(** ** Step functions

    Goroutines and remote parties are modelled by step functions over labels;
    what is reachable under any schedule, and the execution of a given one, are
    the same for all of them. *)
Section steps.
Context {L S : Type} (step : L → S → option S).

Inductive reach_from (s0 : S) : S → Prop :=
  | reach_start : reach_from s0 s0
  | reach_next l s s' : reach_from s0 s → step l s = Some s' → reach_from s0 s'.

Fixpoint run_steps (ls : list L) (s : S) : option S :=
  match ls with
  | [] => Some s
  | l :: ls' => s' ← step l s; run_steps ls' s'
  end.

Lemma run_steps_app ls ks s : run_steps (ls ++ ks) s = run_steps ls s ≫= run_steps ks.
Proof. revert s. induction ls as [|l ls IH]; intros s; cbn; [done|].
  destruct (step l s); cbn; [apply IH|done].
Qed.

Lemma run_steps_reach s0 ls s s' : reach_from s0 s → run_steps ls s = Some s' → reach_from s0 s'.
Proof.
  revert s. induction ls as [|l ls IH]; intros s Hs; cbn; [by intros [= <-]|].
  destruct (step l s) eqn:Hl; [|done]. apply IH. by eapply reach_next.
Qed.

Lemma reach_run s0 s : reach_from s0 s → ∃ ls, run_steps ls s0 = Some s.
Proof.
  induction 1 as [|l s s' _ [ls IH] Hl]; [by exists []|].
  exists (ls ++ [l]). rewrite run_steps_app, IH. cbn. by rewrite Hl.
Qed.

(** An invariant that every step keeps holds in every reachable state. *)
Lemma reach_inv (I : S → Prop) s0 :
  I s0 → (∀ l s s', I s → step l s = Some s' → I s') → ∀ s, reach_from s0 s → I s.
Proof. intros H0 Hstep s. induction 1; eauto. Qed.

Lemma run_steps_inv (I : S → Prop) ls s s' :
  (∀ l s s', I s → step l s = Some s' → I s') → I s → run_steps ls s = Some s' → I s'.
Proof.
  intros Hstep. revert s. induction ls as [|l ls IH]; intros s Hs; cbn; [by intros [= <-]|].
  destruct (step l s) eqn:Hl; [|done]. apply IH. eauto.
Qed.

(** A step that is possible while [busy], and lowers a measure, leads to its end. *)
Lemma run_measure (busy : S → bool) (m : S → nat) (Inv : S → Prop) :
  (∀ s, Inv s → busy s = true → ∃ l s', step l s = Some s' ∧ Inv s' ∧ m s' < m s) →
  ∀ s, Inv s → ∃ ls s', run_steps ls s = Some s' ∧ Inv s' ∧ busy s' = false.
Proof.
  intros Hp s. remember (m s) as n eqn:Hn. revert s Hn.
  induction n as [n IH] using lt_wf_ind. intros s -> Hs.
  destruct (busy s) eqn:Hb; [|by exists [], s].
  destruct (Hp s Hs Hb) as (l & s1 & Hl & H1 & Hm).
  destruct (IH _ Hm s1 eq_refl H1) as (ls & s' & Hls & H'). exists (l :: ls), s'.
  split; [|done]. cbn. by rewrite Hl.
Qed.
End steps.

(** ** Generic lemmas *)

Lemma first_error_None {A E} (f : A → option E) xs :
  first_error f xs = None ↔ Forall (λ x, f x = None) xs.
Proof.
  induction xs as [|x xs IH]; simpl; [done|].
  rewrite Forall_cons, <- IH. destruct (f x); naive_solver.
Qed.

Lemma first_error_Some {A E} (f : A → option E) xs e :
  first_error f xs = Some e → ∃ x, x ∈ xs ∧ f x = Some e.
Proof.
  induction xs as [|x xs IH]; simpl; [done|].
  destruct (f x) eqn:Hx; intros ?; simplify_eq.
  - exists x. split; [left|done].
  - destruct IH as (y & ? & ?); [done|]. exists y. split; [by right|done].
Qed.

Lemma existsb_elem {A} (f : A → bool) xs :
  existsb f xs = true ↔ ∃ x, x ∈ xs ∧ f x = true.
Proof.
  rewrite existsb_exists. split; intros (x & Hx & ?); exists x;
    (split; [by apply list_elem_of_In|done]).
Qed.

(** The last [n] elements of a list. *)
Definition lastn {A} (n : nat) (l : list A) : list A := drop (length l - n) l.

Lemma lastn_ge {A} n (l : list A) : length l ≤ n → lastn n l = l.
Proof. intros. unfold lastn. by rewrite (proj2 (Nat.sub_0_le _ _)). Qed.

Lemma length_lastn {A} n (l : list A) : length (lastn n l) = length l `min` n.
Proof. unfold lastn. rewrite length_drop. lia. Qed.

Lemma lastn_app_lastn {A} n (l k : list A) : lastn n (lastn n l ++ k) = lastn n (l ++ k).
Proof.
  unfold lastn. rewrite !length_app, length_drop.
  destruct (decide (length l ≤ n)).
  - by replace (length l - n) with 0 by lia; rewrite drop_0, Nat.sub_0_r.
  - replace (length l - (length l - n) + length k - n) with (length k) by lia.
    destruct (decide (length k ≤ n)).
    + rewrite !drop_app_le by (rewrite ?length_drop; lia). rewrite drop_drop.
      f_equal. f_equal. lia.
    + rewrite !drop_app_ge by (rewrite ?length_drop; lia). rewrite length_drop.
      f_equal. lia.
Qed.

Lemma lastn_lastn {A} n m (l : list A) : lastn n (lastn m l) = lastn (n `min` m) l.
Proof. unfold lastn. rewrite length_drop, drop_drop. f_equal. lia. Qed.

(** An update at an index splits the list around it. *)
Lemma insert_split {A} (l : list A) i x y :
  l !! i = Some x → ∃ l1 l2, l = l1 ++ x :: l2 ∧ <[i := y]> l = l1 ++ y :: l2.
Proof.
  intros Hl. exists (take i l), (drop (S i) l). split.
  - symmetry. by apply take_drop_middle.
  - apply insert_take_drop. by eapply lookup_lt_Some.
Qed.

Lemma filter_id {A} (P : A → Prop) `{∀ x, Decision (P x)} (l : list A) :
  (∀ x, x ∈ l → P x) → filter P l = l.
Proof.
  induction l as [|x l IH]; intros Hl; [done|]. rewrite filter_cons, decide_True by (apply Hl; left).
  f_equal. apply IH. intros. apply Hl. by right.
Qed.

Lemma filter_empty {A} (P : A → Prop) `{∀ x, Decision (P x)} (l : list A) :
  (∀ x, x ∈ l → ¬ P x) → filter P l = [].
Proof.
  induction l as [|x l IH]; intros Hl; [done|]. rewrite filter_cons, decide_False by (apply Hl; left).
  apply IH. intros. apply Hl. by right.
Qed.

(** A stronger predicate keeps no more, and less where it rejects an element. *)
Lemma filter_length_mono {A} (P Q : A → Prop) `{∀ x, Decision (P x)} `{∀ x, Decision (Q x)} (l : list A) :
  (∀ x, P x → Q x) → length (filter P l) ≤ length (filter Q l).
Proof.
  intros HPQ. induction l as [|x l IH]; [done|]. rewrite !filter_cons.
  destruct (decide (P x)); [rewrite decide_True by auto|destruct (decide (Q x))]; cbn; lia.
Qed.

Lemma filter_length_strict {A} (P Q : A → Prop) `{∀ x, Decision (P x)} `{∀ x, Decision (Q x)} (l : list A) a :
  (∀ x, P x → Q x) → a ∈ l → Q a → ¬ P a → length (filter P l) < length (filter Q l).
Proof.
  intros HPQ Hin HQ HP. apply list_elem_of_split in Hin as (l1 & l2 & ->).
  rewrite !filter_app, !length_app, !filter_cons, (decide_True (P := Q a)), (decide_False (P := P a)) by done.
  pose proof (filter_length_mono P Q l1 HPQ). pose proof (filter_length_mono P Q l2 HPQ). cbn. lia.
Qed.
