(* ===== verification/GoStrings.v ===== *)
(** * Go strings and byte slices

    A Go [string] and a [[]byte] are finite sequences of bytes; both are
    [gostring], a list of [ascii].  The file models what the program uses of
    the packages [strings], [bytes], [strconv] and [unicode/utf8]: splitting
    and joining, searching, replacing, case mapping through UTF-8 decoding, and
    decimal conversion at the width of the target type.  The Unicode case table
    of package [unicode] beyond ASCII is the class [UnicodeTables]. *)

From S2P Require Import Prelude.
From stdpp Require Export pretty.

Abbreviation gostring := (list ascii).

(** Literals: [gs "abc"]. *)
Definition gs (s : string) : gostring := String.list_ascii_of_string s.
Arguments gs s%_string : simpl never.

(** The numeric value of a byte. *)
Definition b2z (c : ascii) : Z := Z.of_N (N_of_ascii c).

Definition z2b (z : Z) : ascii := ascii_of_N (Z.to_N z).

(** ** [strings]: search *)

Definition Contains1 (s : gostring) (c : ascii) : bool := bool_decide (c ∈ s).

(** [strings.LastIndex(s, string(c))]; [None] is -1. *)
Fixpoint LastIndex (s : gostring) (c : ascii) : option nat :=
  match s with
  | [] => None
  | x :: s' =>
      match LastIndex s' c with
      | Some i => Some (S i)
      | None => if bool_decide (x = c) then Some 0 else None
      end
  end.

(** [strings.HasPrefix]. *)
Fixpoint HasPrefix (s p : gostring) {struct p} : bool :=
  match p, s with
  | [], _ => true
  | x :: p', y :: s' => bool_decide (x = y) && HasPrefix s' p'
  | _ :: _, [] => false
  end.

Definition HasSuffix (s p : gostring) : bool := HasPrefix (reverse s) (reverse p).

(** [strings.TrimSuffix]. *)
Definition TrimSuffix (s p : gostring) : gostring :=
  if HasSuffix s p then take (length s - length p) s else s.

(** [strings.Contains]. *)
Fixpoint Contains (s p : gostring) : bool :=
  HasPrefix s p || match s with [] => false | _ :: s' => Contains s' p end.

(** [strings.Cut(s, string(c))]. *)
Fixpoint Cut (s : gostring) (c : ascii) : option (gostring * gostring) :=
  match s with
  | [] => None
  | x :: s' =>
      if bool_decide (x = c) then Some ([], s')
      else match Cut s' c with
           | Some (a, b) => Some (x :: a, b)
           | None => None
           end
  end.

(** [strings.Fields] on ASCII text: the maximal runs of non-space bytes. *)
Definition is_space (c : ascii) : bool :=
  (b2z c =? 0x20)%Z || ((0x09 <=? b2z c)%Z && (b2z c <=? 0x0D)%Z).

Fixpoint fieldsFrom (cur s : gostring) : list gostring :=
  match s with
  | [] => if bool_decide (cur = []) then [] else [cur]
  | c :: s' =>
      if is_space c then (if bool_decide (cur = []) then fieldsFrom [] s' else cur :: fieldsFrom [] s')
      else fieldsFrom (cur ++ [c]) s'
  end.
Definition Fields (s : gostring) : list gostring := fieldsFrom [] s.

(** [strings.TrimSpace] on ASCII text. *)
Fixpoint trimLeftSpace (s : gostring) : gostring :=
  match s with
  | c :: s' => if is_space c then trimLeftSpace s' else s
  | [] => []
  end.
Definition TrimSpace (s : gostring) : gostring := reverse (trimLeftSpace (reverse (trimLeftSpace s))).

(** ** [strings]: splitting, joining, replacing *)

(** [strings.Split(s, string(sep))]. *)
Fixpoint Split (s : gostring) (sep : ascii) : list gostring :=
  match s with
  | [] => [[]]
  | c :: s' =>
      if bool_decide (c = sep) then [] :: Split s' sep
      else match Split s' sep with
           | w :: ws => (c :: w) :: ws
           | [] => [[c]]
           end
  end.

(** [strings.Join(ws, sep)]. *)
Fixpoint Join (ws : list gostring) (sep : gostring) : gostring :=
  match ws with
  | [] => []
  | [w] => w
  | w :: ws' => w ++ sep ++ Join ws' sep
  end.

(** [strings.ReplaceAll] and [bytes.ReplaceAll] for a non-empty [old]: the
    matches are taken from the left and do not overlap. *)
Fixpoint replaceFrom (skip : nat) (s old new : gostring) : gostring :=
  match s with
  | [] => []
  | c :: s' =>
      match skip with
      | S k => replaceFrom k s' old new
      | 0 => if HasPrefix s old then new ++ replaceFrom (length old - 1) s' old new
             else c :: replaceFrom 0 s' old new
      end
  end.
Definition ReplaceAll (s old new : gostring) : gostring := replaceFrom 0 s old new.

(** [strings.ReplaceAll(s, string(c), new)] for a one-byte pattern. *)
Definition ReplaceAll1 (s : gostring) (c : ascii) (new : gostring) : gostring :=
  flat_map (λ x, if bool_decide (x = c) then new else [x]) s.

(** ** Paths *)

Fixpoint trimSlashes (r : gostring) : gostring :=
  match r with
  | c :: r' => if bool_decide (c = "/"%char) then trimSlashes r' else r
  | [] => []
  end.

Fixpoint untilSlash (r : gostring) : gostring :=
  match r with
  | c :: r' => if bool_decide (c = "/"%char) then [] else c :: untilSlash r'
  | [] => []
  end.

(** [filepath.Base]. *)
Definition Base (path : gostring) : gostring :=
  if bool_decide (path = []) then gs "."
  else match trimSlashes (reverse path) with
       | [] => gs "/"
       | r => reverse (untilSlash r)
       end.

(** [filepath.Join] of a clean path and a name. *)
Definition pathJoin (dir name : gostring) : gostring :=
  if HasSuffix dir (gs "/") then dir ++ name else dir ++ gs "/" ++ name.

Lemma pathJoin_inj dir a b : pathJoin dir a = pathJoin dir b → a = b.
Proof.
  unfold pathJoin. destruct (HasSuffix _ _); [by intros ?%app_inv_head|].
  by intros [= ?]%app_inv_head.
Qed.

(** A joined path is a directory, a slash and the name. *)
Lemma pathJoin_split dir : ∃ q, ∀ name, pathJoin dir name = q ++ "/"%char :: name.
Proof.
  unfold pathJoin, HasSuffix. destruct (reverse dir) as [|c r] eqn:Hr; [by exists dir|].
  change (reverse (gs "/")) with ["/"%char]. cbn [HasPrefix].
  case_bool_decide as Hc; [|by exists dir]. exists (reverse r). intros name. cbn [andb].
  apply (f_equal reverse) in Hr. rewrite reverse_involutive in Hr. subst dir c.
  by rewrite reverse_cons, <- app_assoc.
Qed.

(** ** UTF-8 *)

Definition RuneError : Z := 0xFFFD.

Definition cont (b : Z) : bool := (0x80 <=? b)%Z && (b <=? 0xBF)%Z.

(** The first/second byte table of [unicode/utf8]. *)
Definition is2 (b0 b1 : Z) : bool :=
  (0xC2 <=? b0)%Z && (b0 <=? 0xDF)%Z && cont b1.

Definition is3 (b0 b1 b2 : Z) : bool :=
  (0xE0 <=? b0)%Z && (b0 <=? 0xEF)%Z && cont b1 && cont b2 &&
  negb ((b0 =? 0xE0)%Z && (b1 <? 0xA0)%Z) && negb ((b0 =? 0xED)%Z && (0x9F <? b1)%Z).

Definition is4 (b0 b1 b2 b3 : Z) : bool :=
  (0xF0 <=? b0)%Z && (b0 <=? 0xF4)%Z && cont b1 && cont b2 && cont b3 &&
  negb ((b0 =? 0xF0)%Z && (b1 <? 0x90)%Z) && negb ((b0 =? 0xF4)%Z && (0x8F <? b1)%Z).

Definition rune2 (b0 b1 : Z) : Z := ((b0 - 0xC0) * 64 + (b1 - 0x80))%Z.
Definition rune3 (b0 b1 b2 : Z) : Z :=
  ((b0 - 0xE0) * 4096 + (b1 - 0x80) * 64 + (b2 - 0x80))%Z.
Definition rune4 (b0 b1 b2 b3 : Z) : Z :=
  ((b0 - 0xF0) * 262144 + (b1 - 0x80) * 4096 + (b2 - 0x80) * 64 + (b3 - 0x80))%Z.

(** [for _, r := range s]: an invalid byte yields [RuneError] and is skipped
    alone. *)
Fixpoint runes (s : gostring) : list Z :=
  match s with
  | [] => []
  | c0 :: s0 =>
      let b0 := b2z c0 in
      if (b0 <? 0x80)%Z then b0 :: runes s0
      else match s0 with
           | [] => RuneError :: runes s0
           | c1 :: s1 =>
               if is2 b0 (b2z c1) then rune2 b0 (b2z c1) :: runes s1
               else match s1 with
                    | [] => RuneError :: runes s0
                    | c2 :: s2 =>
                        if is3 b0 (b2z c1) (b2z c2) then
                          rune3 b0 (b2z c1) (b2z c2) :: runes s2
                        else match s2 with
                             | [] => RuneError :: runes s0
                             | c3 :: s3 =>
                                 if is4 b0 (b2z c1) (b2z c2) (b2z c3) then
                                   rune4 b0 (b2z c1) (b2z c2) (b2z c3) :: runes s3
                                 else RuneError :: runes s0
                             end
                    end
           end
  end.

(** [fmt]'s [%-ns]: padded to a number of characters. *)
Definition padRight (n : nat) (s : gostring) : gostring :=
  s ++ replicate (n - length (runes s)) " "%char.

(** [utf8.AppendRune]: surrogates and out-of-range values become [RuneError]. *)
Definition norm_rune (r : Z) : Z :=
  if (r <? 0)%Z || ((0xD800 <=? r)%Z && (r <=? 0xDFFF)%Z) || (0x10FFFF <? r)%Z
  then RuneError else r.

Definition encodeRune (r : Z) : gostring :=
  let r := norm_rune r in
  if (r <=? 0x7F)%Z then [z2b r]
  else if (r <=? 0x7FF)%Z then
    [z2b (0xC0 + r / 64); z2b (0x80 + r mod 64)]
  else if (r <=? 0xFFFF)%Z then
    [z2b (0xE0 + r / 4096); z2b (0x80 + r / 64 mod 64); z2b (0x80 + r mod 64)]
  else
    [z2b (0xF0 + r / 262144); z2b (0x80 + r / 4096 mod 64);
     z2b (0x80 + r / 64 mod 64); z2b (0x80 + r mod 64)].

(** ** Lower case *)

(** [unicode.ToLower] above ASCII: package [unicode]'s generated tables.  No
    table entry maps a non-ASCII rune to an ASCII rune other than a letter
    (U+212A lowers to [k], U+0130 to [i]). *)
Class UnicodeTables := {
  lower_hi : Z → Z;
  lower_hi_range : ∀ r, (0x80 ≤ r → 0x80 ≤ lower_hi r ∨ 0x61 ≤ lower_hi r ≤ 0x7A)%Z;
}.

Definition is_upper (b : Z) : bool := (0x41 <=? b)%Z && (b <=? 0x5A)%Z.

Definition lower_rune `{UnicodeTables} (r : Z) : Z :=
  if (r <=? 0x7F)%Z then (if is_upper r then r + 32 else r)%Z else lower_hi r.

Definition lower_byte (c : ascii) : ascii :=
  if is_upper (b2z c) then z2b (b2z c + 32) else c.

Definition isASCII (s : gostring) : bool := forallb (λ c, (b2z c <? 0x80)%Z) s.

(** [strings.ToLower]: byte-wise on ASCII, otherwise [strings.Map(unicode.ToLower, s)]. *)
Definition ToLower `{UnicodeTables} (s : gostring) : gostring :=
  if isASCII s then lower_byte <$> s
  else flat_map (λ r, encodeRune (lower_rune r)) (runes s).

(** ** [strconv] *)

Definition is_digit (c : ascii) : bool := (0x30 <=? b2z c)%Z && (b2z c <=? 0x39)%Z.

Definition digits_value (s : gostring) : Z :=
  fold_left (λ acc c, acc * 10 + (b2z c - 0x30))%Z s 0%Z.

Inductive numError := ErrSyntax | ErrRange.

(** [strconv.ParseUint(s, 10, bits)]: on a range error Go still returns the
    largest value, which callers that drop the error see. *)
Definition ParseUint (s : gostring) (bits : Z) : Z * option numError :=
  if bool_decide (s = []) || negb (forallb is_digit s) then (0%Z, Some ErrSyntax)
  else let v := digits_value s in
       if (2 ^ bits <=? v)%Z then ((2 ^ bits - 1)%Z, Some ErrRange) else (v, None).

(** [strconv.ParseInt(s, 10, bits)], and [strconv.Atoi] at 64 bits. *)
Definition ParseInt (s : gostring) (bits : Z) : result numError Z :=
  let '(neg, ds) :=
    match s with
    | c :: s' => if bool_decide (c = "-"%char) then (true, s')
                 else if bool_decide (c = "+"%char) then (false, s') else (false, s)
    | [] => (false, [])
    end in
  if bool_decide (ds = []) || negb (forallb is_digit ds) then Err ErrSyntax
  else let v := digits_value ds in
       if neg then (if (2 ^ (bits - 1) <? v)%Z then Err ErrRange else Ok (- v)%Z)
       else if (2 ^ (bits - 1) <=? v)%Z then Err ErrRange else Ok v.

Definition Atoi (s : gostring) : result numError Z := ParseInt s 64.

(** [strconv.Itoa] and the verb [%d]. *)
Definition Itoa (z : Z) : gostring := gs (pretty z).

Lemma Cut_Some s c k v : Cut s c = Some (k, v) → s = k ++ c :: v ∧ c ∉ k.
Proof.
  revert k. induction s as [|x s IH]; intros k; cbn; [done|].
  case_bool_decide as Hx.
  - intros [= <- <-]. subst. split; [done|apply not_elem_of_nil].
  - destruct (Cut s c) as [[k' v']|] eqn:Hc; [|done]. intros [= <- <-].
    destruct (IH k' eq_refl) as [-> Hn]. split; [done|]. rewrite elem_of_cons. naive_solver.
Qed.

Lemma Cut_app k c v : c ∉ k → Cut (k ++ c :: v) c = Some (k, v).
Proof.
  induction k as [|x k IH]; intros Hn; cbn.
  - by rewrite bool_decide_eq_true_2.
  - rewrite elem_of_cons in Hn. rewrite bool_decide_eq_false_2 by naive_solver.
    rewrite IH by naive_solver. done.
Qed.

(** ** Bytes *)

Lemma b2z_range c : (0 ≤ b2z c < 256)%Z.
Proof. unfold b2z. pose proof (N_ascii_bounded c). lia. Qed.

Lemma z2b_b2z c : z2b (b2z c) = c.
Proof. unfold z2b, b2z. rewrite N2Z.id. apply ascii_N_embedding. Qed.

Lemma b2z_z2b z : (0 ≤ z < 256)%Z → b2z (z2b z) = z.
Proof. intros. unfold z2b, b2z. rewrite N_ascii_embedding by lia. lia. Qed.

#[global] Instance b2z_inj : Inj (=) (=) b2z.
Proof. intros a b H. by rewrite <- (z2b_b2z a), H, z2b_b2z. Qed.

#[global] Instance gs_inj : Inj (=) (=) gs.
Proof.
  intros a b H. rewrite <- (String.string_of_list_ascii_of_string a).
  unfold gs in H. by rewrite H, String.string_of_list_ascii_of_string.
Qed.

#[global] Instance Itoa_inj : Inj (=) (=) Itoa.
Proof. intros x y H. by apply (inj gs), (inj pretty) in H. Qed.

(** ** Search lemmas *)

Lemma ReplaceAll_single s c new : ReplaceAll s [c] new = ReplaceAll1 s c new.
Proof.
  unfold ReplaceAll, ReplaceAll1. induction s as [|x s IH]; [done|].
  cbn [replaceFrom HasPrefix flat_map]. rewrite (bool_decide_ext (c = x) (x = c)) by done.
  case_bool_decide; cbn; by rewrite IH.
Qed.

Lemma HasPrefix_spec s p : HasPrefix s p = true ↔ ∃ k, s = p ++ k.
Proof.
  revert s. induction p as [|x p IH]; intros s; simpl; [split; eauto|].
  destruct s as [|y s]; [split; [done|by intros [??]]|].
  rewrite andb_true_iff, bool_decide_eq_true, IH.
  split; [intros [-> [k ->]]; eauto|intros [k [= -> ->]]; eauto].
Qed.

Lemma LastIndex_None s c : LastIndex s c = None ↔ c ∉ s.
Proof.
  induction s as [|x s IH]; simpl; [set_solver|].
  rewrite not_elem_of_cons. destruct (LastIndex s c) eqn:E.
  - naive_solver.
  - case_bool_decide; naive_solver.
Qed.

Lemma LastIndex_Some s c i :
  LastIndex s c = Some i ↔
  ∃ a b, s = a ++ c :: b ∧ length a = i ∧ c ∉ b.
Proof.
  revert i. induction s as [|x s IH]; intros i; simpl.
  - split; [done|]. intros ([|??] & ? & ? & _); done.
  - destruct (LastIndex s c) as [j|] eqn:E.
    + split.
      * intros [= <-]. destruct (proj1 (IH j) eq_refl) as (a & b & -> & Ha & Hb).
        exists (x :: a), b. naive_solver.
      * intros ([|y a] & b & Hs & Hi & Hb); simplify_eq/=.
        { apply LastIndex_None in Hb. congruence. }
        f_equal. assert (Some j = Some (length a)) by (apply IH; eauto). congruence.
    + apply LastIndex_None in E. case_bool_decide as Hx.
      * subst x. split.
        { intros [= <-]. by exists [], s. }
        intros ([|y a] & b & Hs & Hi & Hb); simplify_eq/=; [done|].
        exfalso. apply E. rewrite elem_of_app, elem_of_cons. auto.
      * split; [done|]. intros ([|y a] & b & Hs & Hi & Hb); simplify_eq/=.
        exfalso. apply E. rewrite elem_of_app, elem_of_cons. auto.
Qed.

Lemma Contains1_false s c : Contains1 s c = false ↔ c ∉ s.
Proof. apply bool_decide_eq_false. Qed.

(** ** Splitting and joining are inverse *)

Lemma Split_not_nil s sep : Split s sep ≠ [].
Proof. destruct s; simpl; [done|]. case_bool_decide; [done|]. by destruct (Split s sep). Qed.

Lemma Split_no_sep s sep : Forall (λ w, sep ∉ w) (Split s sep).
Proof.
  induction s as [|c s IH]; simpl.
  - constructor; [apply not_elem_of_nil|done].
  - case_bool_decide; [constructor; [apply not_elem_of_nil|done]|].
    destruct (Split s sep) as [|w ws]; [repeat constructor; set_solver|].
    inv IH. constructor; [set_solver|done].
Qed.

Lemma Join_Split s sep : Join (Split s sep) [sep] = s.
Proof.
  induction s as [|c s IH]; simpl; [done|].
  pose proof (Split_not_nil s sep).
  case_bool_decide; subst; destruct (Split s sep) as [|w ws]; simpl in *; try done.
  - by rewrite IH.
  - destruct ws; simpl in *; by rewrite IH.
Qed.

Lemma Split_word w sep : sep ∉ w → Split w sep = [w].
Proof.
  induction w as [|c w IH]; intros H; simpl; [done|].
  apply not_elem_of_cons in H as [? ?].
  rewrite bool_decide_eq_false_2 by congruence. by rewrite IH.
Qed.

Lemma Split_app_sep w s sep : sep ∉ w → Split (w ++ sep :: s) sep = w :: Split s sep.
Proof.
  induction w as [|c w IH]; intros H; simpl.
  - by rewrite bool_decide_eq_true_2.
  - apply not_elem_of_cons in H as [? ?].
    rewrite bool_decide_eq_false_2 by congruence. by rewrite IH.
Qed.

Lemma Split_Join ws sep :
  ws ≠ [] → Forall (λ w, sep ∉ w) ws → Split (Join ws [sep]) sep = ws.
Proof.
  intros Hne H. induction H as [|w ws Hw H IH]; [done|].
  destruct ws as [|w' ws]; [by apply Split_word|].
  change (Join (w :: w' :: ws) [sep]) with (w ++ sep :: Join (w' :: ws) [sep]).
  rewrite Split_app_sep by done. by rewrite IH.
Qed.

(** ** UTF-8 lemmas *)

Lemma is2_ascii b0 b1 : (b1 < 0x80)%Z → is2 b0 b1 = false.
Proof. unfold is2, cont. lia. Qed.
Lemma is3_ascii1 b0 b1 b2 : (b1 < 0x80)%Z → is3 b0 b1 b2 = false.
Proof. unfold is3, cont. lia. Qed.
Lemma is3_ascii2 b0 b1 b2 : (b2 < 0x80)%Z → is3 b0 b1 b2 = false.
Proof. unfold is3, cont. lia. Qed.
Lemma is4_ascii1 b0 b1 b2 b3 : (b1 < 0x80)%Z → is4 b0 b1 b2 b3 = false.
Proof. unfold is4, cont. lia. Qed.
Lemma is4_ascii2 b0 b1 b2 b3 : (b2 < 0x80)%Z → is4 b0 b1 b2 b3 = false.
Proof. unfold is4, cont. lia. Qed.
Lemma is4_ascii3 b0 b1 b2 b3 : (b3 < 0x80)%Z → is4 b0 b1 b2 b3 = false.
Proof. unfold is4, cont. lia. Qed.

Create HintDb utf8.
#[export] Hint Rewrite is2_ascii is3_ascii1 is3_ascii2 is4_ascii1 is4_ascii2 is4_ascii3
  using lia : utf8.

(** Unfolds one decoding step without touching the recursive calls. *)
Lemma runes_cons c0 s0 :
  runes (c0 :: s0) =
  if (b2z c0 <? 0x80)%Z then b2z c0 :: runes s0
  else match s0 with
       | [] => RuneError :: runes s0
       | c1 :: s1 =>
           if is2 (b2z c0) (b2z c1) then rune2 (b2z c0) (b2z c1) :: runes s1
           else match s1 with
                | [] => RuneError :: runes s0
                | c2 :: s2 =>
                    if is3 (b2z c0) (b2z c1) (b2z c2) then
                      rune3 (b2z c0) (b2z c1) (b2z c2) :: runes s2
                    else match s2 with
                         | [] => RuneError :: runes s0
                         | c3 :: s3 =>
                             if is4 (b2z c0) (b2z c1) (b2z c2) (b2z c3) then
                               rune4 (b2z c0) (b2z c1) (b2z c2) (b2z c3) :: runes s3
                             else RuneError :: runes s0
                         end
                end
       end.
Proof. reflexivity. Qed.

#[global] Arguments runes : simpl never.

Lemma runes_nil : runes [] = [].
Proof. reflexivity. Qed.

(** An ASCII byte is a decoding boundary, whatever surrounds it. *)
Lemma runes_app_ascii a c b :
  (b2z c < 0x80)%Z → runes (a ++ c :: b) = runes a ++ b2z c :: runes b.
Proof.
  intros Hc. remember (length a) as n eqn:Hn.
  revert a Hn. induction n as [n IH] using lt_wf_ind; intros a ->.
  assert (Hrec : ∀ a', length a' < length a →
                 runes (a' ++ c :: b) = runes a' ++ b2z c :: runes b)
    by (intros; eapply IH; eauto).
  clear IH.
  destruct a as [|c0 a0]; [cbn [app]; by rewrite runes_cons, (proj2 (Z.ltb_lt _ _) Hc)|].
  cbn [app]. rewrite !runes_cons. case_match; [by rewrite Hrec by (simpl; lia)|].
  destruct a0 as [|c1 a1]; cbn [app] in *.
  { rewrite is2_ascii by done. destruct b as [|b1 [|b2 b]];
      autorewrite with utf8; rewrite runes_nil, runes_cons, (proj2 (Z.ltb_lt _ _) Hc); done. }
  case_match; [by rewrite Hrec by (simpl; lia)|].
  destruct a1 as [|c2 a2]; cbn [app] in *.
  { rewrite is3_ascii2 by done.
    pose proof (Hrec [c1]) as Hr1. cbn [app] in Hr1.
    destruct b as [|b1 b]; autorewrite with utf8; by rewrite Hr1 by (simpl; lia). }
  case_match; [by rewrite Hrec by (simpl; lia)|].
  destruct a2 as [|c3 a3]; cbn [app] in *.
  { rewrite is4_ascii3 by done.
    pose proof (Hrec [c1; c2]) as Hr1. cbn [app] in Hr1. by rewrite Hr1 by (simpl; lia). }
  case_match; [by rewrite Hrec by (simpl; lia)|].
  pose proof (Hrec (c1 :: c2 :: c3 :: a3)) as Hr1. cbn [app] in Hr1.
  by rewrite Hr1 by (simpl; lia).
Qed.

Lemma runes_ascii s : isASCII s = true → runes s = b2z <$> s.
Proof.
  induction s as [|c s IH]; intros H; [done|].
  unfold isASCII in *. simpl in H. apply andb_prop in H as [H1 H2].
  rewrite runes_cons, H1. by rewrite IH.
Qed.

Lemma encodeRune_ascii r : (0 ≤ r ≤ 0x7F)%Z → encodeRune r = [z2b r].
Proof.
  intros H. unfold encodeRune.
  replace (norm_rune r) with r by (unfold norm_rune; case_match; lia). cbv zeta.
  by rewrite (proj2 (Z.leb_le _ _)) by lia.
Qed.

Definition valid_rune (r : Z) : Prop :=
  (0 ≤ r < 0xD800 ∨ 0xE000 ≤ r ≤ 0x10FFFF)%Z.

(** Every byte of the encoding of a non-ASCII rune is non-ASCII. *)
Lemma encodeRune_high r c :
  (0x80 ≤ r)%Z → c ∈ encodeRune r → (0x80 ≤ b2z c)%Z.
Proof.
  intros Hr. unfold encodeRune.
  assert (Hq : (0x80 ≤ norm_rune r ≤ 0x10FFFF)%Z)
    by (unfold norm_rune, RuneError; case_match; lia).
  generalize dependent (norm_rune r). clear Hr r. intros q Hq. cbv zeta.
  repeat case_match; breflect; try lia; intros Hin;
    repeat (apply elem_of_cons in Hin as [->|Hin]); try (by apply not_elem_of_nil in Hin);
    rewrite b2z_z2b; zlia.
Qed.

(** Decoding an encoded rune gives it back, in any context to its right. *)
Lemma runes_encodeRune r s : valid_rune r → runes (encodeRune r ++ s) = r :: runes s.
Proof.
  intros Hr. unfold encodeRune.
  replace (norm_rune r) with r
    by (unfold norm_rune, valid_rune in *; case_match; lia).
  cbv zeta. unfold valid_rune in Hr.
  repeat case_match; breflect; cbn [app]; rewrite runes_cons;
    repeat (rewrite b2z_z2b by zlia).
  - by rewrite (proj2 (Z.ltb_lt _ _)) by zlia.
  - rewrite (proj2 (Z.ltb_ge _ _)) by zlia.
    replace (is2 _ _) with true by (unfold is2, cont; zlia).
    f_equal. unfold rune2. zlia.
  - rewrite (proj2 (Z.ltb_ge _ _)) by zlia.
    replace (is2 _ _) with false by (unfold is2, cont; zlia).
    replace (is3 _ _ _) with true by (unfold is3, cont; zlia).
    f_equal. unfold rune3. zlia.
  - rewrite (proj2 (Z.ltb_ge _ _)) by zlia.
    replace (is2 _ _) with false by (unfold is2, cont; zlia).
    replace (is3 _ _ _) with false by (unfold is3, cont; zlia).
    replace (is4 _ _ _ _) with true by (unfold is4, cont; zlia).
    f_equal. unfold rune4. zlia.
Qed.

(** What a range loop yields is always a valid rune. *)
Lemma runes_valid s : Forall valid_rune (runes s).
Proof.
  remember (length s) as n eqn:Hn. revert s Hn.
  induction n as [n IH] using lt_wf_ind; intros s ->.
  destruct s as [|c0 s0]; [rewrite runes_nil; constructor|].
  assert (Hrec : ∀ s', length s' < S (length s0) → Forall valid_rune (runes s'))
    by (intros; eapply IH; eauto).
  clear IH. rewrite runes_cons.
  assert (valid_rune RuneError) by (unfold valid_rune, RuneError; lia).
  repeat case_match; subst; constructor; try done; try (apply Hrec; simpl; lia);
    pose proof (b2z_range c0);
    unfold valid_rune, is2, is3, is4, cont, rune2, rune3, rune4 in *; lia.
Qed.

(** An ASCII rune of the range loop is a byte of the string. *)
Lemma runes_ascii_elem r s : (r < 0x80)%Z → r ∈ runes s → z2b r ∈ s.
Proof.
  intros Hr. remember (length s) as n eqn:Hn. revert s Hn.
  induction n as [n IH] using lt_wf_ind; intros s ->.
  destruct s as [|c0 s0]; [rewrite runes_nil; set_solver|].
  assert (Hrec : ∀ s', length s' < S (length s0) → r ∈ runes s' → z2b r ∈ s')
    by (intros; eapply IH; eauto).
  clear IH. rewrite runes_cons.
  repeat case_match; subst; intros [Heq|Hin]%elem_of_cons;
    try (apply Hrec in Hin; [set_solver|simpl; lia]);
    try (exfalso; pose proof (b2z_range c0);
         unfold RuneError, is2, is3, is4, cont, rune2, rune3, rune4 in *; lia).
  subst. rewrite z2b_b2z. left.
Qed.

(** A string whose runes are all ASCII has only ASCII bytes. *)
Lemma runes_all_ascii s : Forall (λ r, (r < 0x80)%Z) (runes s) → isASCII s = true.
Proof.
  induction s as [|c s IH]; [done|]. rewrite runes_cons. unfold isASCII. cbn [forallb].
  destruct (Z.ltb_spec (b2z c) 0x80) as [_|Hge].
  - intros [_ Hs]%Forall_cons. by apply IH.
  - intros Hf. exfalso. revert Hf. repeat case_match; intros [Hr _]%Forall_cons;
      pose proof (b2z_range c); unfold RuneError, is2, is3, is4, cont, rune2, rune3, rune4 in *; lia.
Qed.

Lemma runes_flat_encode rs :
  Forall valid_rune rs → runes (flat_map encodeRune rs) = rs.
Proof.
  induction 1 as [|r rs Hr _ IH]; simpl; [done|]. by rewrite runes_encodeRune, IH.
Qed.

(** ** Case mapping commutes with splitting at dots *)

Section lower.
Context `{UnicodeTables}.

Lemma encode_lower_ascii c :
  (b2z c < 0x80)%Z → encodeRune (lower_rune (b2z c)) = [lower_byte c].
Proof.
  intros Hc. pose proof (b2z_range c).
  unfold lower_rune, lower_byte. rewrite (proj2 (Z.leb_le _ _)) by lia.
  destruct (is_upper (b2z c)) eqn:Hu; unfold is_upper in *;
    rewrite encodeRune_ascii by lia; [done|]. by rewrite z2b_b2z.
Qed.

Lemma ToLower_runes s : ToLower s = flat_map (λ r, encodeRune (lower_rune r)) (runes s).
Proof.
  unfold ToLower. destruct (isASCII s) eqn:Ha; [|done].
  rewrite runes_ascii by done. induction s as [|c s IH]; [done|].
  unfold isASCII in Ha. simpl in Ha. apply andb_prop in Ha as [Hc Ha].
  rewrite !fmap_cons, IH by done. simpl. by rewrite encode_lower_ascii by lia.
Qed.

Lemma ToLower_nil : ToLower [] = [].
Proof. done. Qed.

Lemma ToLower_app_ascii a c b :
  (b2z c < 0x80)%Z → ToLower (a ++ c :: b) = ToLower a ++ lower_byte c :: ToLower b.
Proof.
  intros Hc. rewrite !ToLower_runes, runes_app_ascii by done.
  rewrite flat_map_app. simpl. f_equal.
  by rewrite encode_lower_ascii by lia.
Qed.

(** A byte that is neither a letter nor high is in the output iff it is in
    the input. *)
Lemma ToLower_elem c s :
  (b2z c < 0x41 ∨ 0x5A < b2z c < 0x61)%Z → c ∈ ToLower s ↔ c ∈ s.
Proof.
  intros Hc. pose proof (b2z_range c). split.
  - rewrite ToLower_runes. intros (r & Hin & Hr)%list_elem_of_In%in_flat_map.
    apply list_elem_of_In in Hr, Hin.
    assert (Hr' : r = b2z c).
    { unfold lower_rune in Hr. destruct (r <=? 0x7F)%Z eqn:E; breflect.
      - pose proof (runes_valid s) as Hv. rewrite Forall_forall in Hv.
        specialize (Hv r Hin). unfold valid_rune in Hv.
        destruct (is_upper r) eqn:Hu; unfold is_upper in Hu;
          rewrite encodeRune_ascii in Hr by lia; apply list_elem_of_singleton in Hr as ->;
          rewrite b2z_z2b in * by lia; lia.
      - destruct (lower_hi_range r) as [Hh|Hl]; [lia| |].
        + apply encodeRune_high in Hr; lia.
        + rewrite encodeRune_ascii in Hr by lia. apply list_elem_of_singleton in Hr as ->.
          rewrite b2z_z2b in * by lia; lia. }
    subst r. rewrite <- (z2b_b2z c). apply runes_ascii_elem; [lia|done].
  - intros (a & b & ->)%list_elem_of_split. rewrite ToLower_app_ascii by lia.
    rewrite elem_of_app, elem_of_cons. right; left.
    unfold lower_byte, is_upper. case_match; breflect; [lia|done].
Qed.

Lemma ToLower_no_dot s : "."%char ∉ s → "."%char ∉ ToLower s.
Proof. intros Hs Hin. apply Hs. revert Hin. apply ToLower_elem. left. by vm_compute. Qed.

Lemma Split_ToLower s : Split (ToLower s) "." = ToLower <$> Split s ".".
Proof.
  assert (Hdot : (b2z "." < 0x80)%Z) by (vm_compute; done).
  remember (length s) as n eqn:Hn. revert s Hn.
  induction n as [n IH] using lt_wf_ind; intros s ->.
  destruct (decide ("."%char ∈ s)) as [Hin|Hin].
  - apply list_elem_of_split_l in Hin as (a & b & -> & Ha).
    rewrite ToLower_app_ascii by done.
    change (lower_byte ".") with "."%char.
    rewrite !Split_app_sep by auto using ToLower_no_dot.
    rewrite fmap_cons. f_equal. eapply IH; [|done].
    rewrite length_app. simpl. lia.
  - rewrite !Split_word by auto using ToLower_no_dot. done.
Qed.

Lemma ToLower_eq_nil s : ToLower s = [] ↔ s = [].
Proof.
  split; [|by intros ->]. rewrite ToLower_runes. destruct s as [|c s]; [done|].
  intros Hf. exfalso. assert (∃ r rs, runes (c :: s) = r :: rs) as (r & rs & Hr).
  { rewrite runes_cons. repeat case_match; eauto. }
  rewrite Hr in Hf. simpl in Hf. apply app_eq_nil in Hf as [Hf _].
  unfold encodeRune in Hf. repeat case_match; done.
Qed.
End lower.

(** A table that leaves every non-ASCII rune alone, for concrete evaluation. *)
Program Definition ascii_only : UnicodeTables := {| lower_hi r := r |}.
Next Obligation. auto. Qed.

(** ** Decimal numbers round-trip *)

Definition dfold (s : gostring) (acc : Z) : Z := fold_left (λ acc c, acc * 10 + (b2z c - 0x30))%Z s acc.

Lemma pretty_N_char_digit x :
  (x < 10)%N → is_digit (pretty_N_char x) = true ∧ b2z (pretty_N_char x) = (0x30 + Z.of_N x)%Z.
Proof.
  intros Hx. assert (x ∈ N.of_nat <$> seq 0 10) as Hin.
  { apply list_elem_of_fmap. exists (N.to_nat x). split; [lia|]. apply elem_of_seq. lia. }
  repeat (apply elem_of_cons in Hin as [->|Hin]; [done|]). by apply elem_of_nil in Hin.
Qed.

Lemma pretty_N_go_digits x s :
  ∃ ds, gs (pretty_N_go x s) = ds ++ gs s ∧ forallb is_digit ds = true ∧
        (ds = [] → x = 0%N) ∧
        ∀ acc, dfold ds acc = (acc * 10 ^ Z.of_nat (length ds) + Z.of_N x)%Z.
Proof.
  revert s. induction (N.lt_wf_0 x) as [x _ IH]. intros s.
  destruct (decide (x = 0)%N) as [->|Hx].
  { rewrite pretty_N_go_0. exists []. split_and!; [done..|]. intros acc. cbn. lia. }
  rewrite pretty_N_go_step by lia.
  assert (Hlt : (x `div` 10 < x)%N) by (apply N.div_lt; lia).
  destruct (IH _ Hlt (String (pretty_N_char (x `mod` 10)) s)) as (ds & Hs & Hd & _ & Hv).
  assert (Hm : (x `mod` 10 < 10)%N) by (by apply N.mod_lt).
  destruct (pretty_N_char_digit _ Hm) as [Hc1 Hc2].
  exists (ds ++ [pretty_N_char (x `mod` 10)]). split_and!.
  - rewrite Hs, <- app_assoc. done.
  - by rewrite forallb_app, Hd; cbn; rewrite Hc1.
  - by intros [_ [=]]%app_nil.
  - intros acc. unfold dfold in *. rewrite fold_left_app, Hv. cbn. rewrite Hc2, length_app. cbn.
    rewrite Nat2Z.inj_add, Z.pow_add_r by lia. cbn.
    rewrite N2Z.inj_div, N2Z.inj_mod. pose proof (Z.div_mod (Z.of_N x) 10). cbn in *. nia.
Qed.

Lemma gs_pretty_N x :
  gs (pretty x) ≠ [] ∧ forallb is_digit (gs (pretty x)) = true ∧ digits_value (gs (pretty x)) = Z.of_N x.
Proof.
  unfold pretty, pretty_N. case_decide as Hx; [by subst|].
  destruct (pretty_N_go_digits x "") as (ds & -> & Hd & Hn & Hv).
  change (gs "") with (@nil ascii). rewrite app_nil_r. split_and!; [naive_solver|done|].
  change (dfold ds 0 = Z.of_N x). rewrite Hv. lia.
Qed.

Lemma ParseUint_Itoa n bits : (0 ≤ n < 2 ^ bits)%Z → ParseUint (Itoa n) bits = (n, None).
Proof.
  intros Hn. unfold Itoa. replace (pretty n) with (pretty (Z.to_N n)) by (destruct n; [done|done|lia]).
  destruct (gs_pretty_N (Z.to_N n)) as (H1 & H2 & H3). unfold ParseUint.
  rewrite (bool_decide_eq_false_2 _ H1), H2, H3, Z2N.id by lia. cbn.
  by rewrite (proj2 (Z.leb_gt _ _)) by lia.
Qed.

Lemma digits_not_sign s c : forallb is_digit s = true → c ∈ s → c ≠ "-"%char ∧ c ≠ "+"%char ∧ c ≠ " "%char ∧ c ≠ ")"%char ∧ c ≠ "("%char.
Proof.
  intros Hd Hc. assert (is_digit c = true) as Hi.
  { rewrite forallb_forall in Hd. apply Hd. by apply list_elem_of_In. }
  split_and!; by intros ->.
Qed.

Lemma ParseInt_Itoa n bits :
  (- 2 ^ (bits - 1) ≤ n < 2 ^ (bits - 1))%Z → ParseInt (Itoa n) bits = Ok n.
Proof.
  intros Hn. unfold Itoa, ParseInt.
  destruct n as [|p|p].
  - change (gs (pretty 0%Z)) with ["0"%char].
    change ((if (2 ^ (bits - 1) <=? 0)%Z then Err ErrRange else Ok 0%Z) = @Ok numError Z 0%Z).
    by rewrite (proj2 (Z.leb_gt (2 ^ (bits - 1)) 0)) by lia.
  - change (pretty (Z.pos p)) with (pretty (N.pos p)).
    destruct (gs_pretty_N (N.pos p)) as (H1 & H2 & H3).
    destruct (gs (pretty (N.pos p))) as [|c s] eqn:E; [done|].
    destruct (digits_not_sign _ c H2) as (Hm & Hp & _); [left|].
    rewrite (bool_decide_eq_false_2 _ Hm), (bool_decide_eq_false_2 _ Hp), H2, H3.
    rewrite bool_decide_eq_false_2 by done. cbn [negb orb].
    by rewrite (proj2 (Z.leb_gt _ _)) by lia.
  - change (gs (pretty (Z.neg p))) with ("-"%char :: gs (pretty (N.pos p))).
    destruct (gs_pretty_N (N.pos p)) as (H1 & H2 & H3).
    rewrite (bool_decide_eq_true_2 ("-"%char = "-"%char)) by done.
    rewrite (bool_decide_eq_false_2 _ H1), H2, H3. cbn [negb orb].
    by rewrite (proj2 (Z.ltb_ge _ _)) by lia.
Qed.

Lemma Atoi_Itoa n : (- 2 ^ 63 ≤ n < 2 ^ 63)%Z → Atoi (Itoa n) = Ok n.
Proof. apply (ParseInt_Itoa n 64). Qed.

Lemma length_pretty_N_go k x s :
  (x < 10 ^ N.of_nat k)%N → length (gs (pretty_N_go x s)) ≤ k + length (gs s).
Proof.
  revert x s. induction k as [|k IH]; intros x s Hx.
  - assert (x = 0)%N as -> by (cbn in Hx; lia). by rewrite pretty_N_go_0.
  - destruct (decide (x = 0)%N) as [->|Hx0]; [rewrite pretty_N_go_0; lia|].
    rewrite pretty_N_go_step by lia.
    etransitivity; [apply IH|].
    + rewrite Nat2N.inj_succ, N.pow_succ_r' in Hx. by apply N.Div0.div_lt_upper_bound.
    + change (gs (String (pretty_N_char (x `mod` 10)) s))
        with (pretty_N_char (x `mod` 10) :: gs s). cbn [length]. lia.
Qed.

Lemma length_Itoa k n :
  0 < k → (- 10 ^ Z.of_nat k < n < 10 ^ Z.of_nat k)%Z → length (Itoa n) ≤ S k.
Proof.
  intros Hk Hn. unfold Itoa.
  assert (Hp : ∀ x : N, (Z.of_N x < 10 ^ Z.of_nat k)%Z → length (gs (pretty x)) ≤ k).
  { intros x Hx. unfold pretty, pretty_N. case_decide.
    { change (gs "0") with ["0"%char]. cbn. lia. }
    pose proof (length_pretty_N_go k x "") as Hl. change (gs "") with (@nil ascii) in Hl.
    cbn [length] in Hl. rewrite Nat.add_0_r in Hl. apply Hl.
    apply N2Z.inj_lt. rewrite N2Z.inj_pow, nat_N_Z. exact Hx. }
  destruct n as [|p|p].
  - change (gs (pretty 0%Z)) with ["0"%char]. cbn. lia.
  - change (pretty (Z.pos p)) with (pretty (N.pos p)). specialize (Hp (N.pos p)). lia.
  - change (gs (pretty (Z.neg p))) with ("-"%char :: gs (pretty (N.pos p))). cbn [length].
    specialize (Hp (N.pos p)). lia.
Qed.

(** A string longer than every given one, to stand for a fresh name. *)
Definition longerThan (names : list gostring) : gostring :=
  replicate (S (list_max (length <$> names))) "x"%char.

Lemma longerThan_fresh names prefix : prefix ++ longerThan names ∉ names.
Proof.
  intros Hin%(list_elem_of_fmap_2 length).
  assert (Hmax := proj1 (list_max_le (length <$> names) _) (Nat.le_refl _)).
  rewrite List.Forall_forall in Hmax. apply list_elem_of_In, Hmax in Hin.
  unfold longerThan in Hin at 1. rewrite length_app, length_replicate in Hin. lia.
Qed.

(** Decimal numbers have no control characters. *)
Lemma Itoa_printable z c : (b2z c < 0x20)%Z → c ∉ Itoa z.
Proof.
  assert (Hd : ∀ n : N, (b2z c < 0x20)%Z → c ∉ gs (pretty n)).
  { intros n Hc Hin. destruct (gs_pretty_N n) as (_ & Hd & _). rewrite forallb_forall in Hd.
    apply list_elem_of_In, Hd in Hin. unfold is_digit in Hin. lia. }
  intros Hc. destruct z as [|q|q].
  - intros ->%list_elem_of_singleton. by vm_compute in Hc.
  - apply (Hd (N.pos q)), Hc.
  - change (Itoa (Z.neg q)) with ("-"%char :: gs (pretty (N.pos q))). rewrite not_elem_of_cons.
    split; [|by apply Hd]. intros ->. by vm_compute in Hc.
Qed.
