(* ===== verification/Allowlist.v ===== *)
(** * Domain allowlists ([proxy/allowlist.go])

    Patterns, rules and the two allowlists of the proxy, their validation, and
    the lock-free [Add].  A validated pattern is shown to match exactly the
    hosts of a declarative glob relation, [Allows] to be the disjunction over
    the configured entries, and concurrent [Add]s to lose no update. *)

From S2P Require Import Prelude GoStrings.

(** ** Patterns *)

Record domainPattern := DomainPattern {
  labels : list gostring;       (* split by ".", lowercased *)
  doubleStarIdx : Z;            (* index of the "**" label, or -1 if none *)
}.

#[global] Instance domainPattern_eq_dec : EqDecision domainPattern.
Proof. solve_decision. Defined.

(** The loop of [parseDomainPattern], from index [i]. *)
Fixpoint findDoubleStar (i : Z) (ls : list gostring) : Z :=
  match ls with
  | [] => -1
  | l :: ls' => if bool_decide (l = gs "**") then i else findDoubleStar (i + 1) ls'
  end.

Definition labelMatches (pattern label : gostring) : bool :=
  if bool_decide (pattern = gs "*") then true else bool_decide (pattern = label).

Definition portMatches (pattern port : gostring) : bool :=
  if bool_decide (pattern = gs "*") then true else bool_decide (pattern = port).

(** [for i, pl := range pls { if !labelMatches(pl, hls[i]) { return false } }].
    The last case is Go's out-of-range panic; [labelsMatch_in_range] shows the
    callers never reach it. *)
Fixpoint labelsMatch (pls hls : list gostring) : bool :=
  match pls, hls with
  | [], _ => true
  | pl :: pls', h :: hls' => labelMatches pl h && labelsMatch pls' hls'
  | _ :: _, [] => false
  end.

(** ** Errors of the validation functions *)

Inductive domainErr :=
  | DomainEmpty
  | DomainEmptyLabel
  | DomainMixedStar (label : gostring)
  | DomainManyDoubleStars
  | DomainTooBroad (label : gostring).

Inductive entryErr :=
  | EntryEmpty
  | EntryExpectedDomainPort (entry : gostring)
  | EntryDomainColon (entry : gostring)
  | EntrySpaces (entry : gostring)
  | EntryDomain (entry : gostring) (e : domainErr)
  | EntryPort (entry : gostring)
  | EntryPortsNotAllowed (entry : gostring).

(** The label loop of [validateDomainPattern]: the number of ["**"] labels, or
    the first error. *)
Fixpoint validateLabels (ls : list gostring) (doubleStarCount : nat) : result domainErr nat :=
  match ls with
  | [] => Ok doubleStarCount
  | label :: ls' =>
      if bool_decide (label = []) then Err DomainEmptyLabel
      else if bool_decide (label = gs "**") then validateLabels ls' (S doubleStarCount)
      else if bool_decide (label = gs "*") then validateLabels ls' doubleStarCount
      else if Contains1 label "*" then Err (DomainMixedStar label)
      else validateLabels ls' doubleStarCount
  end.

Definition validateDomainPattern (domain : gostring) : option domainErr :=
  if bool_decide (domain = []) then Some DomainEmpty else
  let labels := Split domain "." in
  match validateLabels labels 0 with
  | Err e => Some e
  | Ok doubleStarCount =>
      if (1 <? doubleStarCount)%nat then Some DomainManyDoubleStars else
      match labels with
      | [l] => if bool_decide (l = gs "*") || bool_decide (l = gs "**")
               then Some (DomainTooBroad l) else None
      | _ => None
      end
  end.

Definition ValidateHTTPEntry (entry : gostring) : option entryErr :=
  if bool_decide (entry = []) then Some EntryEmpty else
  match LastIndex entry ":" with
  | None | Some 0 => Some (EntryExpectedDomainPort entry)
  | Some idx =>
      if (idx =? length entry - 1)%nat then Some (EntryExpectedDomainPort entry) else
      let domain := take idx entry in
      let port := drop (idx + 1) entry in
      if Contains1 domain ":" then Some (EntryDomainColon entry) else
      if Contains1 domain " " || Contains1 port " " then Some (EntrySpaces entry) else
      match validateDomainPattern domain with
      | Some e => Some (EntryDomain entry e)
      | None =>
          if bool_decide (port ≠ gs "*") &&
             existsb (λ ch, (ch <? 0x30)%Z || (0x39 <? ch)%Z) (runes port)
          then Some (EntryPort entry) else None
      end
  end.

Definition ValidateHTTPEntries (entries : list gostring) : option entryErr :=
  first_error ValidateHTTPEntry entries.

Definition ValidateDNSEntry (entry : gostring) : option entryErr :=
  if bool_decide (entry = []) then Some EntryEmpty else
  if Contains1 entry ":" then Some (EntryPortsNotAllowed entry) else
  if Contains1 entry " " then Some (EntrySpaces entry) else
  match validateDomainPattern entry with
  | Some e => Some (EntryDomain entry e)
  | None => None
  end.

Definition ValidateDNSEntries (entries : list gostring) : option entryErr :=
  first_error ValidateDNSEntry entries.

Record HTTPRule := MkHTTPRule { httpDomain : domainPattern; httpPort : gostring }.
Record DNSRule := MkDNSRule { dnsDomain : domainPattern }.

(** The value an [atomic.Pointer] of an allowlist holds; the pointer itself is
    in [Module Cas]. *)
Abbreviation HTTPAllowlist := (list HTTPRule).
Abbreviation DNSAllowlist := (list DNSRule).

Section ops.
Context `{UnicodeTables}.

Definition parseDomainPattern (pattern : gostring) : domainPattern :=
  if bool_decide (pattern = []) then DomainPattern [] (-1)
  else let ls := Split (ToLower pattern) "." in
       DomainPattern ls (findDoubleStar 0 ls).

Definition matches (p : domainPattern) (host : gostring) : bool :=
  if bool_decide (labels p = []) || bool_decide (host = []) then false else
  let hostLabels := Split (ToLower host) "." in
  if (0 <=? doubleStarIdx p)%Z then
    let idx := Z.to_nat (doubleStarIdx p) in
    let prefix := take idx (labels p) in
    let suffix := drop (idx + 1) (labels p) in
    let minLabels := length prefix + length suffix + 1 in
    if (length hostLabels <? minLabels)%nat then false else
    if negb (labelsMatch prefix hostLabels) then false else
    let hostSuffix := drop (length hostLabels - length suffix) hostLabels in
    labelsMatch suffix hostSuffix
  else if negb (length (labels p) =? length hostLabels)%nat then false
  else labelsMatch (labels p) hostLabels.

Definition parseHTTPRule (entry : gostring) : HTTPRule :=
  match LastIndex entry ":" with
  | None | Some 0 => MkHTTPRule (parseDomainPattern entry) []
  | Some idx => MkHTTPRule (parseDomainPattern (take idx entry)) (drop (idx + 1) entry)
  end.

Definition parseDNSRule (entry : gostring) : DNSRule := MkDNSRule (parseDomainPattern entry).

Definition NewHTTPAllowlist (entries : list gostring) : result entryErr HTTPAllowlist :=
  match ValidateHTTPEntries entries with
  | Some e => Err e
  | None => Ok (parseHTTPRule <$> entries)
  end.

Definition NewDNSAllowlist (entries : list gostring) : result entryErr DNSAllowlist :=
  match ValidateDNSEntries entries with
  | Some e => Err e
  | None => Ok (parseDNSRule <$> entries)
  end.

(** [Add] as one atomic transition: the final [CompareAndSwap].  The loop
    around it is [Module Cas]. *)
Definition HTTPAdd (al : HTTPAllowlist) (entries : list gostring) :
    HTTPAllowlist * option entryErr :=
  match ValidateHTTPEntries entries with
  | Some e => (al, Some e)
  | None => (al ++ (parseHTTPRule <$> entries), None)
  end.

Definition DNSAdd (al : DNSAllowlist) (entries : list gostring) :
    DNSAllowlist * option entryErr :=
  match ValidateDNSEntries entries with
  | Some e => (al, Some e)
  | None => (al ++ (parseDNSRule <$> entries), None)
  end.

Definition HTTPAllows (al : HTTPAllowlist) (host port : gostring) : bool :=
  if bool_decide (host = []) then false
  else existsb (λ r, portMatches (httpPort r) port && matches (httpDomain r) host) al.

Definition DNSAllows (al : DNSAllowlist) (host : gostring) : bool :=
  if bool_decide (host = []) then false
  else existsb (λ r, matches (dnsDomain r) host) al.
End ops.

#[global] Instance HTTPRule_eq_dec : EqDecision HTTPRule.
Proof. solve_decision. Defined.
#[global] Instance DNSRule_eq_dec : EqDecision DNSRule.
Proof. solve_decision. Defined.

(** ** What a pattern means

    [glob ps hs]: the host labels [hs] are an instance of the pattern labels
    [ps], where ["*"] stands for exactly one label and ["**"] for one or more. *)
Inductive glob : list gostring → list gostring → Prop :=
  | glob_nil : glob [] []
  | glob_lit l ps hs :
      l ≠ gs "*" → l ≠ gs "**" → glob ps hs → glob (l :: ps) (l :: hs)
  | glob_star h ps hs : glob ps hs → glob (gs "*" :: ps) (h :: hs)
  | glob_dstar h hs1 ps hs2 : glob ps hs2 → glob (gs "**" :: ps) (h :: hs1 ++ hs2).
#[export] Hint Constructors glob : vibe.

(** Label-wise match, the meaning of a pattern without ["**"]. *)
Definition lmatch (p h : gostring) : Prop := labelMatches p h = true.

Lemma lmatch_spec p h : lmatch p h ↔ p = gs "*" ∨ p = h.
Proof.
  unfold lmatch, labelMatches. case_bool_decide; [naive_solver|].
  rewrite bool_decide_eq_true. naive_solver.
Qed.

Lemma labelsMatch_spec pls hls :
  labelsMatch pls hls = true ↔ ∃ h1 h2, hls = h1 ++ h2 ∧ Forall2 lmatch pls h1.
Proof.
  revert hls. induction pls as [|p pls IH]; intros hls; simpl.
  - split; [|done]. intros _. exists [], hls. split; [done|constructor].
  - destruct hls as [|h hls].
    + split; [done|]. intros ([|??] & ? & ? & Hf); inv Hf; done.
    + rewrite andb_true_iff, IH. split.
      * intros (? & h1 & h2 & -> & ?). exists (h :: h1), h2. split; [done|by constructor].
      * intros (h1 & h2 & Heq & Hf). inv Hf. simplify_eq/=. eauto.
Qed.

(** The indexing of the two label loops stays inside the host's labels: with
    enough labels the out-of-range case of [labelsMatch] decides nothing. *)
Lemma labelsMatch_in_range pls hls :
  length pls ≤ length hls →
  labelsMatch pls hls = true ↔ Forall2 lmatch pls (take (length pls) hls).
Proof.
  intros Hlen. rewrite labelsMatch_spec. split.
  - intros (h1 & h2 & -> & Hf). pose proof (Forall2_length _ _ _ Hf) as ->.
    by rewrite take_app_length.
  - intros Hf. eexists _, _. split; [|done]. symmetry. apply take_drop.
Qed.

Lemma glob_no_dstar ps hs :
  gs "**" ∉ ps → glob ps hs ↔ Forall2 lmatch ps hs.
Proof.
  revert hs. induction ps as [|p ps IH]; intros hs Hn.
  - split; intros Hg; inv Hg; constructor.
  - apply not_elem_of_cons in Hn as [Hp Hn]. split; intros Hg.
    + inv Hg; try done; constructor; try (by apply IH); apply lmatch_spec; auto.
    + inv Hg. match goal with Hl : lmatch _ _ |- _ => apply lmatch_spec in Hl as Hl' end.
      destruct (decide (p = gs "*")) as [->|Hs].
      * constructor. by apply IH.
      * destruct Hl' as [-> | ->]; [done|]. constructor; [done..|]. by apply IH.
Qed.

Lemma glob_dstar_split pre suf hs :
  gs "**" ∉ pre → gs "**" ∉ suf →
  glob (pre ++ gs "**" :: suf) hs ↔
  ∃ h1 h hm h2, hs = h1 ++ (h :: hm) ++ h2 ∧ Forall2 lmatch pre h1 ∧ Forall2 lmatch suf h2.
Proof.
  intros Hpre Hsuf. revert hs. induction pre as [|p pre IH]; intros hs; cbn [app].
  - split.
    + intros Hg. inv Hg; try done. exists [], h, hs1, hs2.
      split_and!; [done|constructor|by apply glob_no_dstar].
    + intros (h1 & h & hm & h2 & -> & Hf1 & Hf2). inv Hf1. cbn.
      constructor. by apply glob_no_dstar.
  - apply not_elem_of_cons in Hpre as [Hp Hpre]. specialize (IH Hpre). split.
    + intros Hg.
      assert (∃ y hs', hs = y :: hs' ∧ lmatch p y ∧ glob (pre ++ gs "**" :: suf) hs')
        as (y & hs' & -> & Hl & Hg').
      { inv Hg; try done; eexists _, _; (split_and!; [done| |done]); apply lmatch_spec; auto. }
      apply IH in Hg' as (h1 & h & hm & h2 & -> & Hf1 & Hf2).
      exists (y :: h1), h, hm, h2. split_and!; [done|by constructor|done].
    + intros (h1 & h & hm & h2 & -> & Hf1 & Hf2).
      apply Forall2_cons_inv_l in Hf1 as (y & k & Hl & Hf1 & ->). cbn.
      apply lmatch_spec in Hl.
      assert (Hg : glob (pre ++ gs "**" :: suf) (k ++ (h :: hm) ++ h2))
        by (apply IH; eauto 10).
      destruct (decide (p = gs "*")) as [->|Hs]; [by constructor|].
      destruct Hl as [-> | ->]; [done|]. by constructor.
Qed.

(** ** [findDoubleStar] finds the first ["**"] *)

Lemma findDoubleStar_none i ls : gs "**" ∉ ls → findDoubleStar i ls = (-1)%Z.
Proof.
  revert i. induction ls as [|l ls IH]; intros i Hn; simpl; [done|].
  apply not_elem_of_cons in Hn as [? ?].
  rewrite bool_decide_eq_false_2 by congruence. auto.
Qed.

Lemma findDoubleStar_app i pre suf :
  gs "**" ∉ pre → findDoubleStar i (pre ++ gs "**" :: suf) = (i + Z.of_nat (length pre))%Z.
Proof.
  revert i. induction pre as [|l pre IH]; intros i Hn; cbn [app findDoubleStar length].
  - rewrite bool_decide_eq_true_2 by done. lia.
  - apply not_elem_of_cons in Hn as [? ?].
    rewrite bool_decide_eq_false_2 by congruence. rewrite IH by done. lia.
Qed.

(** A label list with at most one ["**"] either has none or splits around it. *)
Definition count_dstar (ls : list gostring) : nat :=
  length (filter (λ l, l = gs "**") ls).

Lemma count_dstar_le1 ls :
  count_dstar ls ≤ 1 →
  gs "**" ∉ ls ∨ ∃ pre suf, ls = pre ++ gs "**" :: suf ∧ gs "**" ∉ pre ∧ gs "**" ∉ suf.
Proof.
  unfold count_dstar. intros Hc. destruct (decide (gs "**" ∈ ls)) as [Hin|]; [right|by left].
  apply list_elem_of_split_l in Hin as (pre & suf & -> & Hpre).
  exists pre, suf. split_and!; [done..|]. intros Hsuf.
  rewrite filter_app, filter_cons_True, length_app in Hc by done. simpl in Hc.
  assert (0 < length (filter (λ l, l = gs "**") suf)); [|lia].
  destruct (filter (λ l, l = gs "**") suf) eqn:E; simpl; [|lia].
  exfalso. assert (Hf : gs "**" ∈ filter (λ l, l = gs "**") suf)
    by (by apply list_elem_of_filter).
  rewrite E in Hf. by apply not_elem_of_nil in Hf.
Qed.

(** ** Validation decides the documented grammar *)

(** A label is ["*"], ["**"], or non-empty without a star. *)
Definition wf_label (l : gostring) : Prop :=
  l ≠ [] ∧ (l = gs "*" ∨ l = gs "**" ∨ "*"%char ∉ l).

(** The grammar of a domain pattern. *)
Definition wf_domain (domain : gostring) : Prop :=
  let ls := Split domain "." in
  Forall wf_label ls ∧ count_dstar ls ≤ 1 ∧ ls ≠ [gs "*"] ∧ ls ≠ [gs "**"].

(** The grammar of an allow-http entry: [domain ":" port]. *)
Definition wf_http (entry domain port : gostring) : Prop :=
  entry = domain ++ ":"%char :: port ∧ wf_domain domain ∧
  ":"%char ∉ domain ∧ " "%char ∉ domain ∧ port ≠ [] ∧
  (port = gs "*" ∨ Forall (λ c, is_digit c = true) port).

Lemma count_dstar_cons l ls :
  count_dstar (l :: ls) = (if decide (l = gs "**") then 1 else 0) + count_dstar ls.
Proof.
  unfold count_dstar. case_decide; [by rewrite filter_cons_True|by rewrite filter_cons_False].
Qed.

Lemma validateLabels_ok ls n m :
  validateLabels ls n = Ok m ↔ m = n + count_dstar ls ∧ Forall wf_label ls.
Proof.
  revert n. induction ls as [|l ls IH]; intros n.
  - cbn. split; [intros [= <-]; split; [lia|constructor]|intros [-> _]; f_equal; lia].
  - cbn [validateLabels]. rewrite Forall_cons, count_dstar_cons. unfold wf_label at 1.
    case_bool_decide as H1; [naive_solver|].
    case_bool_decide as H2.
    { rewrite IH, decide_True by done. split; intros [-> ?]; (split; [lia|naive_solver]). }
    rewrite decide_False by done.
    case_bool_decide as H3; [rewrite IH; naive_solver|].
    unfold Contains1. case_bool_decide; [naive_solver|]. rewrite IH. naive_solver.
Qed.

Lemma Split_nil_inv d : Split d "." = [[]] → d = [].
Proof. intros E. by rewrite <- (Join_Split d "."), E. Qed.

Lemma validateDomainPattern_None domain :
  validateDomainPattern domain = None ↔ wf_domain domain.
Proof.
  unfold validateDomainPattern, wf_domain. case_bool_decide as Hd.
  { subst. split; [done|]. intros (Hf & _). inv Hf. unfold wf_label in *. naive_solver. }
  destruct (validateLabels (Split domain ".") 0) as [c|e] eqn:E.
  - apply validateLabels_ok in E as [-> Hf]. simpl.
    destruct (1 <? count_dstar (Split domain "."))%nat eqn:Hc; breflect; [naive_solver lia|].
    destruct (Split domain ".") as [|l [|l' ls]] eqn:Es; [by apply Split_not_nil in Es| |naive_solver].
    case_bool_decide; [naive_solver|]. case_bool_decide; naive_solver.
  - split; [done|]. intros (Hf & _).
    assert (validateLabels (Split domain ".") 0 = Ok (count_dstar (Split domain ".")))
      by (by apply validateLabels_ok). congruence.
Qed.

(** Ranging over runes rejects exactly the ports with a non-digit byte. *)
Lemma port_digits port :
  existsb (λ ch, (ch <? 0x30)%Z || (0x39 <? ch)%Z) (runes port) = false ↔
  Forall (λ c, is_digit c = true) port.
Proof.
  induction port as [|c port IH]; [split; [constructor|done]|].
  rewrite runes_cons, Forall_cons, <- IH. unfold is_digit. clear IH.
  destruct (b2z c <? 0x80)%Z eqn:Hc.
  - simpl. rewrite orb_false_iff. pose proof (b2z_range c). split; intros [? ?]; split; auto; lia.
  - breflect. split; [|lia]. intros Hf. exfalso. pose proof (b2z_range c).
    repeat case_match; cbn [existsb] in Hf; apply orb_false_elim in Hf as [Hf _];
      unfold RuneError, is2, is3, is4, cont, rune2, rune3, rune4 in *; lia.
Qed.

(** Splitting a validated entry at its last colon. *)
Lemma LastIndex_sep d p : ":"%char ∉ p → LastIndex (d ++ ":"%char :: p) ":" = Some (length d).
Proof. intros. apply LastIndex_Some. eauto. Qed.

Lemma take_drop_sep {A} (d p : list A) c :
  take (length d) (d ++ c :: p) = d ∧ drop (length d + 1) (d ++ c :: p) = p.
Proof.
  split; [by rewrite take_app_length|].
  rewrite Nat.add_1_r. replace (S (length d)) with (length (d ++ [c])) by (rewrite length_app; simpl; lia).
  replace (d ++ c :: p) with ((d ++ [c]) ++ p) by (by rewrite <- app_assoc).
  by rewrite drop_app_length.
Qed.

Lemma digit_not_special p c :
  Forall (λ c, is_digit c = true) p → is_digit c = false → c ∉ p.
Proof. rewrite Forall_forall. intros Hf Hc Hin. apply Hf in Hin. congruence. Qed.

Lemma wf_http_port entry d p :
  wf_http entry d p → ":"%char ∉ p ∧ " "%char ∉ p.
Proof.
  intros (_ & _ & _ & _ & _ & [-> | Hf]); [split; vm_compute; set_solver|].
  split; (eapply digit_not_special; [done|reflexivity]).
Qed.

Lemma wf_domain_nonempty d : wf_domain d → d ≠ [].
Proof.
  intros (Hf & _) ->. inv Hf. unfold wf_label in *. naive_solver.
Qed.

Lemma ValidateHTTPEntry_None entry :
  ValidateHTTPEntry entry = None ↔ ∃ domain port, wf_http entry domain port.
Proof.
  unfold ValidateHTTPEntry. split.
  - case_bool_decide as He; [done|].
    destruct (LastIndex entry ":") as [[|i]|] eqn:Ei; [done| |done].
    apply LastIndex_Some in Ei as (d & p & -> & Hl & Hp). rewrite <- Hl.
    destruct (take_drop_sep d p ":"%char) as [-> ->].
    case_match eqn:Elen; [done|].
    unfold Contains1. case_bool_decide as Hd; [done|].
    case_bool_decide as Hs1; [done|]. case_bool_decide as Hs2; [done|]. simpl.
    destruct (validateDomainPattern d) eqn:Hv; [done|].
    apply validateDomainPattern_None in Hv.
    destruct (bool_decide (p ≠ gs "*") && _) eqn:Hport; [done|]. intros _.
    exists d, p. split_and!; try done.
    + intros ->. rewrite length_app in Elen. simpl in Elen. breflect. lia.
    + apply andb_false_iff in Hport as [Hport|Hport].
      * left. apply bool_decide_eq_false in Hport. by apply dec_stable.
      * right. by apply port_digits.
  - intros (d & p & Hw). destruct (wf_http_port _ _ _ Hw) as [Hpc Hps].
    destruct Hw as (-> & Hd & Hdc & Hds & Hp & Hport).
    pose proof (wf_domain_nonempty d Hd) as Hne.
    rewrite bool_decide_eq_false_2 by (by destruct d).
    rewrite LastIndex_sep by done. destruct d as [|x d']; [done|]. set (d := x :: d') in *.
    change (length d) with (S (length d')) at 1. cbv iota.
    change (S (length d')) with (length d).
    destruct (take_drop_sep d p ":"%char) as [-> ->].
    case_match eqn:Elen.
    { breflect. rewrite length_app in Elen. simpl in Elen. destruct p; [done|]. simpl in Elen. lia. }
    rewrite !(proj2 (Contains1_false _ _)) by done. simpl.
    rewrite (proj2 (validateDomainPattern_None d)) by done.
    destruct Hport as [-> | Hf]; [by rewrite bool_decide_eq_false_2 by auto|].
    rewrite (proj2 (port_digits p)) by done. by rewrite andb_false_r.
Qed.

(** ** Matching is the glob relation *)

Section matching.
Context `{UnicodeTables}.

Lemma ToLower_star_cons s t :
  ToLower s = "*"%char :: t → ∃ s', s = "*"%char :: s' ∧ ToLower s' = t.
Proof.
  intros E.
  assert (Hin : "*"%char ∈ s).
  { assert (Hin : "*"%char ∈ ToLower s) by (rewrite E; left).
    revert Hin. apply ToLower_elem. left. by vm_compute. }
  apply list_elem_of_split_l in Hin as (a & b & -> & Ha).
  rewrite ToLower_app_ascii in E by (by vm_compute).
  change (lower_byte "*") with "*"%char in E.
  destruct (ToLower a) as [|c a'] eqn:Ea.
  - apply ToLower_eq_nil in Ea as ->. simplify_eq/=. eauto.
  - exfalso. simpl in E. inversion E; subst. apply Ha.
    assert (Hin : "*"%char ∈ ToLower a) by (rewrite Ea; left).
    revert Hin. apply ToLower_elem. left. by vm_compute.
Qed.

(** Lowering neither creates nor removes a ["**"] label. *)
Lemma ToLower_dstar l : ToLower l = gs "**" ↔ l = gs "**".
Proof.
  split; [|by intros ->; vm_compute].
  intros (s1 & -> & (s2 & -> & E)%ToLower_star_cons)%ToLower_star_cons.
  by apply ToLower_eq_nil in E as ->.
Qed.

Lemma count_dstar_lower ls : count_dstar (ToLower <$> ls) = count_dstar ls.
Proof.
  induction ls as [|l ls IH]; [done|].
  rewrite fmap_cons, !count_dstar_cons, IH. f_equal.
  apply decide_ext, ToLower_dstar.
Qed.

Lemma matches_no_dstar ls host :
  ls ≠ [] → host ≠ [] → gs "**" ∉ ls →
  matches (DomainPattern ls (findDoubleStar 0 ls)) host = true ↔
  Forall2 lmatch ls (Split (ToLower host) ".").
Proof.
  intros Hls Hh Hn. unfold matches. cbn [labels doubleStarIdx].
  rewrite !bool_decide_eq_false_2 by done. rewrite findDoubleStar_none by done. simpl.
  destruct (length ls =? _)%nat eqn:El; breflect; simpl.
  - rewrite labelsMatch_in_range by lia. by rewrite El, take_ge by done.
  - split; [done|]. intros Hf. apply Forall2_length in Hf. done.
Qed.

Lemma matches_dstar pre suf host :
  host ≠ [] → gs "**" ∉ pre →
  let ls := pre ++ gs "**" :: suf in
  matches (DomainPattern ls (findDoubleStar 0 ls)) host = true ↔
  ∃ h1 h hm h2, Split (ToLower host) "." = h1 ++ (h :: hm) ++ h2 ∧
                Forall2 lmatch pre h1 ∧ Forall2 lmatch suf h2.
Proof.
  intros Hh Hn ls. unfold matches. cbn [labels doubleStarIdx].
  rewrite !bool_decide_eq_false_2 by (try done; by destruct pre).
  unfold ls. rewrite findDoubleStar_app by done.
  rewrite (proj2 (Z.leb_le _ _)) by lia.
  replace (Z.to_nat (0 + Z.of_nat (length pre))) with (length pre) by lia.
  destruct (take_drop_sep pre suf (gs "**")) as [-> ->]. cbn [orb].
  generalize (Split (ToLower host) "."). intros hs.
  destruct (length hs <? _)%nat eqn:El; breflect.
  { split; [done|]. intros (h1 & h & hm & h2 & -> & Hf1 & Hf2).
    apply Forall2_length in Hf1, Hf2. rewrite !length_app in El. simpl in El. lia. }
  destruct (labelsMatch pre hs) eqn:Ep; cbn [negb].
  2: { split; [done|]. intros (h1 & h & hm & h2 & -> & Hf1 & Hf2).
       apply not_true_iff_false in Ep. destruct Ep. apply labelsMatch_spec. eauto. }
  apply labelsMatch_in_range in Ep; [|lia].
  rewrite labelsMatch_in_range by (rewrite length_drop; lia).
  rewrite take_ge by (rewrite length_drop; lia). split.
  - intros Hs. set (n := length hs) in *.
    assert (Hhs : hs = take (length pre) hs ++ drop (length pre) (take (n - length suf) hs)
                        ++ drop (n - length suf) hs).
    { rewrite app_assoc. rewrite <- (take_drop (n - length suf) hs) at 1. f_equal.
      rewrite <- (take_drop (length pre) (take (n - length suf) hs)) at 1.
      by rewrite take_take, Nat.min_l by lia. }
    destruct (drop (length pre) (take (n - length suf) hs)) as [|h hm] eqn:Em.
    { exfalso. apply (f_equal length) in Em. rewrite length_drop, length_take in Em. simpl in Em. lia. }
    exists (take (length pre) hs), h, hm, (drop (n - length suf) hs). done.
  - intros (h1 & h & hm & h2 & -> & Hf1 & Hf2).
    pose proof (Forall2_length _ _ _ Hf2) as ->.
    rewrite (app_assoc h1 (h :: hm) h2), length_app.
    rewrite Nat.add_sub. by rewrite drop_app_length.
Qed.

Lemma matches_iff_glob pattern host :
  validateDomainPattern pattern = None →
  matches (parseDomainPattern pattern) host = true ↔
  host ≠ [] ∧ glob (Split (ToLower pattern) ".") (Split (ToLower host) ".").
Proof.
  intros Hv%validateDomainPattern_None.
  pose proof (wf_domain_nonempty _ Hv) as Hne. destruct Hv as (_ & Hc & _ & _).
  unfold parseDomainPattern. rewrite bool_decide_eq_false_2 by done.
  destruct (decide (host = [])) as [->|Hh].
  { unfold matches. rewrite orb_true_r. naive_solver. }
  assert (Hcl : count_dstar (Split (ToLower pattern) ".") ≤ 1)
    by (by rewrite Split_ToLower, count_dstar_lower).
  pose proof (Split_not_nil (ToLower pattern) ".") as Hn.
  apply count_dstar_le1 in Hcl as [Hcl|(pre & suf & -> & Hpre & Hsuf)].
  - rewrite matches_no_dstar, glob_no_dstar by done. naive_solver.
  - rewrite matches_dstar, glob_dstar_split by done. naive_solver.
Qed.
End matching.

(** ** Allowlists answer by their configured entries *)

Section allows.
Context `{UnicodeTables}.

(** The documented meaning of an allow-http entry for a request. *)
Definition http_grants (entry host port : gostring) : Prop :=
  ∃ domain p, wf_http entry domain p ∧ (p = gs "*" ∨ p = port) ∧
              glob (Split (ToLower domain) ".") (Split (ToLower host) ".").

(** The documented meaning of an allow-dns entry for a query. *)
Definition dns_grants (entry host : gostring) : Prop :=
  wf_domain entry ∧ glob (Split (ToLower entry) ".") (Split (ToLower host) ".").

Lemma parseHTTPRule_wf entry d p :
  wf_http entry d p → parseHTTPRule entry = MkHTTPRule (parseDomainPattern d) p.
Proof.
  intros Hw. pose proof (wf_http_port _ _ _ Hw) as [Hpc _].
  destruct Hw as (-> & Hd & _). pose proof (wf_domain_nonempty d Hd).
  unfold parseHTTPRule. rewrite LastIndex_sep by done.
  destruct (take_drop_sep d p ":"%char) as [-> ->]. by destruct d.
Qed.

Lemma parseHTTPRule_grants entry host port :
  ValidateHTTPEntry entry = None → host ≠ [] →
  portMatches (httpPort (parseHTTPRule entry)) port
    && matches (httpDomain (parseHTTPRule entry)) host = true ↔ http_grants entry host port.
Proof.
  intros (d & p & Hw)%ValidateHTTPEntry_None Hh.
  rewrite (parseHTTPRule_wf _ _ _ Hw). cbn [httpPort httpDomain].
  pose proof Hw as (_ & Hd & _).
  rewrite andb_true_iff, matches_iff_glob by (by apply validateDomainPattern_None).
  assert (Hp : portMatches p port = true ↔ p = gs "*" ∨ p = port).
  { unfold portMatches. case_bool_decide; [naive_solver|].
    rewrite bool_decide_eq_true. naive_solver. }
  rewrite Hp. split; [intros [? [_ ?]]; by exists d, p|].
  intros (d' & p' & Hw' & ? & ?).
  assert (d' = d ∧ p' = p) as [-> ->]; [|done].
  pose proof (wf_http_port _ _ _ Hw) as [Hc1 _]. pose proof (wf_http_port _ _ _ Hw') as [Hc2 _].
  destruct Hw as [-> _], Hw' as [Heq _].
  pose proof (LastIndex_sep d p Hc1) as E1. pose proof (LastIndex_sep d' p' Hc2) as E2.
  rewrite Heq, E2 in E1. simplify_eq. apply app_inj_1 in Heq as [-> ?]; [|done]. naive_solver.
Qed.

(** What the rules of valid entries permit. *)
Lemma HTTPAllows_rules entries host port :
  ValidateHTTPEntries entries = None →
  HTTPAllows (parseHTTPRule <$> entries) host port = true ↔
  host ≠ [] ∧ ∃ entry, entry ∈ entries ∧ http_grants entry host port.
Proof.
  intros Hv. apply first_error_None in Hv. rewrite Forall_forall in Hv.
  unfold HTTPAllows. case_bool_decide as Hh; [naive_solver|].
  rewrite existsb_elem. split.
  - intros (r & (e & -> & He)%list_elem_of_fmap & Hm). split; [done|]. exists e.
    split; [done|]. apply parseHTTPRule_grants; auto.
  - intros (_ & e & He & Hg). exists (parseHTTPRule e). split; [by apply list_elem_of_fmap_2|].
    apply parseHTTPRule_grants; auto.
Qed.

(** An [HTTPAllowlist] built from entries permits [host:port] exactly
    when the host is non-empty and some configured entry grants it. *)
Theorem HTTPAllows_spec entries al host port :
  NewHTTPAllowlist entries = Ok al →
  HTTPAllows al host port = true ↔
  host ≠ [] ∧ ∃ entry, entry ∈ entries ∧ http_grants entry host port.
Proof.
  unfold NewHTTPAllowlist. destruct (ValidateHTTPEntries entries) eqn:Hv; [done|].
  intros [= <-]. by apply HTTPAllows_rules.
Qed.

Lemma ValidateDNSEntry_wf entry : ValidateDNSEntry entry = None → wf_domain entry.
Proof.
  unfold ValidateDNSEntry. repeat case_match; try done. intros _.
  by apply validateDomainPattern_None.
Qed.

(** A [DNSAllowlist] built from entries permits a name exactly when it is
    non-empty and some configured entry's pattern covers it. *)
Theorem DNSAllows_spec entries al host :
  NewDNSAllowlist entries = Ok al →
  DNSAllows al host = true ↔ host ≠ [] ∧ ∃ entry, entry ∈ entries ∧ dns_grants entry host.
Proof.
  unfold NewDNSAllowlist. destruct (ValidateDNSEntries entries) eqn:Hv; [done|].
  intros [= <-]. apply first_error_None in Hv. rewrite Forall_forall in Hv.
  unfold DNSAllows, dns_grants. case_bool_decide as Hh; [naive_solver|].
  assert (Hm : ∀ e, e ∈ entries → matches (dnsDomain (parseDNSRule e)) host = true ↔
                 glob (Split (ToLower e) ".") (Split (ToLower host) ".")).
  { intros e He%Hv%ValidateDNSEntry_wf. cbn.
    rewrite matches_iff_glob by (by apply validateDomainPattern_None). naive_solver. }
  rewrite existsb_elem. split.
  - intros (r & (e & -> & He)%list_elem_of_fmap & Hr). split; [done|]. exists e.
    split_and!; [done|by apply ValidateDNSEntry_wf, Hv|by apply Hm].
  - intros (_ & e & He & _ & Hg). exists (parseDNSRule e).
    split; [by apply list_elem_of_fmap_2|by apply Hm].
Qed.

(** Adding entries at run time gives exactly the allowlist a restart with
    the longer configuration would build; when any new entry is invalid
    nothing is added and the restart would be refused too. *)
Theorem HTTPAdd_rebuild entries0 entries al :
  NewHTTPAllowlist entries0 = Ok al →
  match HTTPAdd al entries with
  | (al', None) => NewHTTPAllowlist (entries0 ++ entries) = Ok al'
  | (al', Some e) => al' = al ∧ NewHTTPAllowlist (entries0 ++ entries) = Err e
  end.
Proof.
  unfold NewHTTPAllowlist, HTTPAdd.
  destruct (ValidateHTTPEntries entries0) eqn:H0; [done|]. intros [= <-].
  assert (Happ : ValidateHTTPEntries (entries0 ++ entries) = ValidateHTTPEntries entries).
  { revert H0. unfold ValidateHTTPEntries. induction entries0 as [|x xs IH]; simpl; [done|].
    destruct (ValidateHTTPEntry x); [done|]. auto. }
  rewrite Happ. destruct (ValidateHTTPEntries entries); [done|]. by rewrite fmap_app.
Qed.

Lemma HTTPAdd_mono al entries host port :
  HTTPAllows al host port = true → HTTPAllows (HTTPAdd al entries).1 host port = true.
Proof.
  unfold HTTPAdd, HTTPAllows. case_bool_decide; [done|]. intros Ha.
  case_match; [done|]. simpl. by rewrite existsb_app, Ha.
Qed.

Lemma DNSAdd_mono al entries host :
  DNSAllows al host = true → DNSAllows (DNSAdd al entries).1 host = true.
Proof.
  unfold DNSAdd, DNSAllows. case_bool_decide; [done|]. intros Ha.
  case_match; [done|]. simpl. by rewrite existsb_app, Ha.
Qed.
End allows.

(** ** Concurrent [Add]

    The retry loop of [HTTPAllowlist.Add] and [DNSAllowlist.Add], for any rule
    type.  An allowlist is an atomic pointer into a store of immutable rule
    slices; [n] calls run concurrently, and a schedule says which call takes
    the next atomic action: [Load], building the merged slice, or
    [CompareAndSwap]. *)
Module Cas.
Section cas.
Context {R : Type}.
Implicit Types new : list R.

Inductive pc :=
  | Start (new : list R)                        (* at the head of the [for] *)
  | Loaded (current : nat) (new : list R)       (* after [rules.Load()] *)
  | Merged (current merged : nat) (new : list R) (* before [CompareAndSwap] *)
  | Done.

Record state := State {
  ptr : nat;
  heap : gmap nat (list R);
  next : nat;                 (* the next fresh address *)
  threads : list pc;
}.

Definition init (rules : list R) (news : list (list R)) : state :=
  State 0 {[ 0 := rules ]} 1 (Start <$> news).

(** One atomic action of call [i]. *)
Definition step (i : nat) (st : state) : state :=
  match threads st !! i with
  | Some (Start new) =>
      State (ptr st) (heap st) (next st) (<[i := Loaded (ptr st) new]> (threads st))
  | Some (Loaded current new) =>
      State (ptr st) (<[next st := default [] (heap st !! current) ++ new]> (heap st))
            (S (next st)) (<[i := Merged current (next st) new]> (threads st))
  | Some (Merged current merged new) =>
      if bool_decide (ptr st = current)
      then State merged (heap st) (next st) (<[i := Done]> (threads st))
      else State (ptr st) (heap st) (next st) (<[i := Start new]> (threads st))
  | Some Done | None => st
  end.

Definition run (sched : list nat) (st : state) : state :=
  fold_left (λ st i, step i st) sched st.

(** The rules a concurrent [Allows] loads. *)
Definition rules (st : state) : list R := default [] (heap st !! ptr st).

Definition is_done (p : pc) : bool := match p with Done => true | _ => false end.

(** What each call's progress says about the store. *)
Definition pc_ok (st : state) (new : list R) (p : pc) : Prop :=
  match p with
  | Start new' => new' = new
  | Loaded c new' => new' = new ∧ is_Some (heap st !! c)
  | Merged c m new' =>
      new' = new ∧ m < next st ∧
      ∃ v, heap st !! c = Some v ∧ heap st !! m = Some (v ++ new)
  | Done => True
  end.

(** Some completion order of the finished calls explains the current rules. *)
Definition explained (rules0 : list R) (news : list (list R)) (st : state)
    (order : list nat) : Prop :=
  NoDup order ∧ (∀ i, i ∈ order ↔ threads st !! i = Some Done) ∧
  heap st !! ptr st = Some (rules0 ++ concat ((λ i, news !!! i) <$> order)).

Definition inv (rules0 : list R) (news : list (list R)) (st : state) : Prop :=
  (∀ a, is_Some (heap st !! a) → a < next st) ∧
  Forall2 (pc_ok st) news (threads st) ∧ ∃ order, explained rules0 news st order.

Lemma cas_inv_init rules0 news : inv rules0 news (init rules0 news).
Proof.
  split_and!.
  - intros a [v Hv]. cbn in *. apply lookup_singleton_Some in Hv as [<- _]. lia.
  - cbn. apply Forall2_fmap_r, Forall_Forall2_diag, Forall_forall. done.
  - exists []. split_and!.
    + constructor.
    + intros i. split; [by intros ?%not_elem_of_nil|]. cbn.
      rewrite list_lookup_fmap. by destruct (news !! i).
    + cbn. by rewrite app_nil_r, lookup_singleton_eq.
Qed.

(** Growing the store at a fresh address keeps what calls know. *)
Lemma pc_ok_mono st st' new p :
  (∀ a v, heap st !! a = Some v → heap st' !! a = Some v) → next st ≤ next st' →
  pc_ok st new p → pc_ok st' new p.
Proof.
  intros Hh Hn. destruct p as [|c ?|c m ?|]; simpl; [done| |intros (? & ? & v & ? & ?)|done].
  - intros [? [v Hv]]. split; [done|]. exists v. auto.
  - split_and!; [done|lia|]. exists v. auto.
Qed.

Lemma done_insert (ts : list pc) i p q j :
  ts !! i = Some p → is_done p = false → is_done q = false →
  <[i := q]> ts !! j = Some Done ↔ ts !! j = Some Done.
Proof.
  intros Hi Hp Hq. destruct (decide (i = j)) as [->|Hne].
  - rewrite list_lookup_insert_eq by (by eapply lookup_lt_Some).
    rewrite Hi. split; intros [= ->]; done.
  - by rewrite list_lookup_insert_ne.
Qed.

Lemma explained_same_done rules0 news st st' order :
  heap st' !! ptr st' = heap st !! ptr st →
  (∀ j, threads st' !! j = Some Done ↔ threads st !! j = Some Done) →
  explained rules0 news st order → explained rules0 news st' order.
Proof.
  intros Hh Ht (? & Ho & ?). split_and!; [done| |congruence].
  intros j. by rewrite Ho, Ht.
Qed.

Lemma Forall2_pc_insert st st' news ts i q :
  Forall2 (pc_ok st) news ts →
  (∀ new p, pc_ok st new p → pc_ok st' new p) →
  (∀ new, news !! i = Some new → pc_ok st' new q) →
  Forall2 (pc_ok st') news (<[i := q]> ts).
Proof.
  intros Hf Hm Hq. apply Forall2_same_length_lookup in Hf as [Hlen Hf].
  apply Forall2_same_length_lookup. split; [by rewrite length_insert|].
  intros j new p Hn Hp. destruct (decide (i = j)) as [->|Hne].
  - rewrite list_lookup_insert_eq in Hp by (apply lookup_lt_Some in Hn; lia).
    simplify_eq. auto.
  - rewrite list_lookup_insert_ne in Hp by done. eauto.
Qed.

(** A successful swap puts its call at the end of the order. *)
Lemma explained_swap rules0 news st order i current merged new :
  explained rules0 news st order → threads st !! i = Some (Merged current merged new) → news !! i = Some new →
  heap st !! merged = Some ((rules0 ++ concat ((λ i, news !!! i) <$> order)) ++ new) →
  explained rules0 news (State merged (heap st) (next st) (<[i := Done]> (threads st))) (order ++ [i]).
Proof.
  intros (Hnd & Ho & Hcur) Hi Hnew Hm. split_and!.
  - apply NoDup_app. split_and!; [done| |by apply NoDup_singleton].
    intros j Hj ->%list_elem_of_singleton. apply Ho in Hj. congruence.
  - intros j. rewrite elem_of_app, list_elem_of_singleton, Ho. cbn. destruct (decide (i = j)) as [->|Hne].
    + rewrite list_lookup_insert_eq by (by eapply lookup_lt_Some). naive_solver.
    + rewrite list_lookup_insert_ne by done. naive_solver.
  - cbn. rewrite Hm, fmap_app, concat_app. cbn.
    by rewrite (list_lookup_total_correct _ _ _ Hnew), app_nil_r, app_assoc.
Qed.

Lemma cas_inv_step rules0 news i st : inv rules0 news st → inv rules0 news (step i st).
Proof.
  intros (Hfresh & Hpc & order & He). pose proof He as (Hnd & Ho & Hcur).
  unfold step. destruct (threads st !! i) as [p|] eqn:Hi; [|by split_and!; eauto].
  assert (∃ new, news !! i = Some new ∧ pc_ok st new p) as (new & Hnew & Hok).
  { apply Forall2_same_length_lookup in Hpc as [Hlen Hpc].
    destruct (lookup_lt_is_Some_2 news i) as [new Hnew]; [apply lookup_lt_Some in Hi; lia|].
    eauto. }
  destruct p as [new'|c new'|c m new'|]; cbn in Hok.
  - subst new'. split_and!; [done| |].
    + cbn. eapply Forall2_pc_insert; [done| |]; [done|].
      intros ? ?. simplify_eq. cbn. eauto.
    + exists order. apply (explained_same_done _ _ st); [done| |done]. intros j. cbn.
      by eapply done_insert.
  - destruct Hok as [-> [v Hv]]. rewrite Hv. cbn [default].
    assert (Hn : heap st !! next st = None).
    { destruct (heap st !! next st) eqn:E; [|done].
      exfalso. assert (next st < next st) by (apply Hfresh; eauto). lia. }
    assert (Hext : ∀ a w, heap st !! a = Some w → <[next st:=v ++ new]> (heap st) !! a = Some w).
    { intros a w Ha. rewrite lookup_insert_ne by congruence. done. }
    split_and!.
    + cbn. intros a. rewrite lookup_insert_is_Some. intros [<-|[_ Ha]]; [lia|].
      specialize (Hfresh a Ha). lia.
    + cbn. eapply Forall2_pc_insert; [done| |].
      * intros ? ?. apply pc_ok_mono; [done|cbn; lia].
      * intros ? ?. simplify_eq. cbn. split_and!; [done|lia|]. exists v.
        split; [auto|]. by rewrite lookup_insert_eq.
    + exists order. apply (explained_same_done _ _ st); [| |done].
      * cbn. rewrite Hcur. by apply Hext.
      * intros j. cbn. by eapply done_insert.
  - destruct Hok as (-> & Hm & v & Hv & Hvm). case_bool_decide as Hptr.
    + rewrite <- Hptr, Hcur in Hv. injection Hv as <-. split_and!; [done| |].
      * cbn. eapply Forall2_pc_insert; [done| |]; done.
      * exists (order ++ [i]). by eapply explained_swap.
    + split_and!; [done| |].
      * cbn. eapply Forall2_pc_insert; [done| |]; [done|]. intros ? ?. by simplify_eq.
      * exists order. apply (explained_same_done _ _ st); [done| |done]. intros j. cbn.
        by eapply done_insert.
  - split_and!; eauto.
Qed.

Lemma cas_inv_run rules0 news sched st :
  inv rules0 news st → inv rules0 news (run sched st).
Proof.
  revert st. induction sched as [|i sched IH]; intros st Hi; [done|].
  cbn. apply IH, cas_inv_step, Hi.
Qed.

(** ** Every call returns

    [credit i st] bounds the actions call [i] still needs: three per
    attempt, one attempt lost per call that completes in between. *)
Definition busy (p : pc) : nat := if is_done p then 0 else 1.

Fixpoint busies (ts : list pc) : nat :=
  match ts with [] => 0 | t :: ts' => busy t + busies ts' end.

Definition undone (st : state) : nat := busies (threads st).

Definition credit (i : nat) (st : state) : nat :=
  match threads st !! i with
  | Some (Start _) => 3 * undone st
  | Some (Loaded c _) =>
      if bool_decide (ptr st = c) then 3 * undone st - 1 else 3 * undone st + 2
  | Some (Merged c _ _) =>
      if bool_decide (ptr st = c) then 3 * undone st - 2 else 3 * undone st + 1
  | Some Done | None => 0
  end.

Lemma busy_insert (ts : list pc) i p q :
  ts !! i = Some p →
  busies (<[i := q]> ts) + busy p = busies ts + busy q.
Proof.
  revert i. induction ts as [|t ts IH]; intros [|i] Hi; try done.
  - cbn in *. simplify_eq. lia.
  - change (<[S i := q]> (t :: ts)) with (t :: <[i := q]> ts). cbn [busies].
    specialize (IH i Hi). lia.
Qed.

Lemma undone_pos st i p : threads st !! i = Some p → is_done p = false → 1 ≤ undone st.
Proof.
  intros Hi Hp. pose proof (busy_insert _ _ _ Done Hi) as E.
  unfold undone, busy in *. rewrite Hp in E. cbn [is_done] in E. lia.
Qed.

(** A call's own action spends credit. *)
Lemma credit_own i st :
  (∃ p, threads st !! i = Some p ∧ is_done p = false) → credit i (step i st) < credit i st.
Proof.
  intros (p & Hi & Hp). pose proof (undone_pos _ _ _ Hi Hp).
  pose proof (lookup_lt_Some _ _ _ Hi) as Hlt.
  unfold credit, step. rewrite Hi.
  destruct p as [new|c new|c m new|]; [| | |done]; cbn [threads ptr].
  - rewrite list_lookup_insert_eq by done. rewrite bool_decide_eq_true_2 by done.
    pose proof (busy_insert _ _ _ (Loaded (ptr st) new) Hi). unfold undone, busy in *. cbn [is_done threads] in *. lia.
  - rewrite list_lookup_insert_eq by done.
    pose proof (busy_insert _ _ _ (Merged c (next st) new) Hi). unfold undone, busy in *. cbn [is_done threads] in *.
    case_bool_decide; lia.
  - case_bool_decide; cbn [threads ptr]; rewrite list_lookup_insert_eq by done; [lia|].
    pose proof (busy_insert _ _ _ (Start new) Hi). unfold undone, busy in *. cbn [is_done threads] in *. lia.
Qed.

(** Another call's action never costs more than it gives back. *)
Lemma credit_other i j st : i ≠ j → credit i (step j st) ≤ credit i st.
Proof.
  intros Hij. unfold credit, step.
  destruct (threads st !! j) as [q|] eqn:Hj; [|lia].
  destruct q as [new|c new|c m new|]; cbn [threads ptr]; [| | |lia].
  { rewrite list_lookup_insert_ne by done.
    pose proof (busy_insert _ _ _ (Loaded (ptr st) new) Hj).
    unfold undone, busy in *; cbn [is_done threads] in *; repeat case_match; lia. }
  { rewrite list_lookup_insert_ne by done.
    pose proof (busy_insert _ _ _ (Merged c (next st) new) Hj).
    unfold undone, busy in *; cbn [is_done threads] in *; repeat case_match; lia. }
  case_bool_decide as Hc; cbn [threads ptr]; rewrite list_lookup_insert_ne by done.
  - pose proof (busy_insert _ _ _ Done Hj) as E. unfold undone, busy in *. cbn [is_done threads] in *.
    destruct (threads st !! i) as [[| | |]|] eqn:Hi; try lia;
      assert (Hu : 1 ≤ undone (State (ptr st) (heap st) (next st) (<[j := Done]> (threads st))))
        by (eapply (undone_pos _ i); [by cbn; rewrite list_lookup_insert_ne|done]);
      unfold undone in Hu; cbn [threads] in Hu; repeat case_bool_decide; lia.
  - pose proof (busy_insert _ _ _ (Start new) Hj). unfold undone, busy in *. cbn [is_done threads] in *.
    repeat case_match; lia.
Qed.

Lemma step_length i st : length (threads (step i st)) = length (threads st).
Proof. unfold step. repeat case_match; cbn; by rewrite ?length_insert. Qed.

Lemma step_done i j st :
  threads st !! i = Some Done → threads (step j st) !! i = Some Done.
Proof.
  intros Hi. destruct (decide (i = j)) as [->|Hne]; [unfold step; by rewrite Hi|].
  unfold step. repeat case_match; cbn; rewrite ?list_lookup_insert_ne by done; done.
Qed.

Lemma run_done i sched st :
  threads st !! i = Some Done → threads (run sched st) !! i = Some Done.
Proof. revert st. induction sched; cbn; auto using step_done. Qed.

Lemma credit_run i sched st :
  i < length (threads st) →
  threads (run sched st) !! i = Some Done ∨
  credit i (run sched st) + count_occ Nat.eq_dec sched i ≤ credit i st.
Proof.
  revert st. induction sched as [|j sched IH]; intros st Hlen; [right; cbn; lia|].
  change (run (j :: sched) st) with (run sched (step j st)).
  destruct (IH (step j st)) as [?|Hc]; [by rewrite step_length|tauto|].
  destruct (Nat.eq_dec j i) as [->|Hne].
  - destruct (lookup_lt_is_Some_2 _ _ Hlen) as [p Hp].
    destruct (is_done p) eqn:Hd.
    + left. apply run_done, step_done. by destruct p.
    + right. pose proof (credit_own i st ltac:(eauto)).
      rewrite count_occ_cons_eq by done. lia.
  - right. rewrite count_occ_cons_neq by done.
    pose proof (credit_other i j st ltac:(done)). lia.
Qed.

Lemma credit_zero i st :
  i < length (threads st) → credit i st = 0 → threads st !! i = Some Done.
Proof.
  intros [p Hp]%lookup_lt_is_Some_2 Hz. unfold credit in Hz. rewrite Hp in *.
  destruct (is_done p) eqn:Hd; [by destruct p|]. pose proof (undone_pos _ _ _ Hp Hd).
  destruct p; try done; try lia; case_bool_decide; lia.
Qed.

Lemma run_length sched st : length (threads (run sched st)) = length (threads st).
Proof.
  revert st. induction sched as [|i sched IH]; intros st; [done|].
  cbn. fold (run sched (step i st)). by rewrite IH, step_length.
Qed.

Lemma credit_init rules0 news i : credit i (init rules0 news) ≤ 3 * length news.
Proof.
  unfold credit. cbn. rewrite list_lookup_fmap.
  destruct (news !! i); cbn [fmap option_fmap option_map]; [|lia].
  unfold undone. cbn. assert (busies (Start <$> news) = length news); [|lia].
  clear. induction news; cbn in *; lia.
Qed.

(** C34: however the loads, copies and compare-and-swaps of any number of
    concurrent [Add] calls interleave, the published rules are the initial
    rules followed by the new rules of exactly the calls that have
    returned, each once, in their completion order: no update is lost,
    duplicated or applied by halves. *)
Theorem add_no_lost_update (rules0 : list R) (news : list (list R)) (sched : list nat) :
  let st := run sched (init rules0 news) in
  ∃ order, NoDup order ∧ (∀ i, i ∈ order ↔ threads st !! i = Some Done) ∧
           rules st = rules0 ++ concat ((λ i, news !!! i) <$> order).
Proof.
  intros st. destruct (cas_inv_run rules0 news sched _ (cas_inv_init rules0 news))
    as (_ & _ & order & Hnd & Ho & Hcur).
  exists order. split_and!; [done..|]. unfold rules, st. by rewrite Hcur.
Qed.

(** C35: the retry loop of [Add] terminates under contention: with [n]
    concurrent calls, a call that gets [3 * n] turns has returned, whatever
    the others do. *)
Theorem add_returns (rules0 : list R) (news : list (list R)) (sched : list nat) (i : nat) :
  i < length news → 3 * length news ≤ count_occ Nat.eq_dec sched i →
  threads (run sched (init rules0 news)) !! i = Some Done.
Proof.
  intros Hi Hc. pose proof (credit_init rules0 news i).
  assert (Hlen : i < length (threads (init rules0 news))) by (cbn; by rewrite length_fmap).
  destruct (credit_run i sched (init rules0 news) Hlen) as [?|Hr]; [done|].
  apply credit_zero; [by rewrite run_length|lia].
Qed.
End cas.
Arguments pc R : clear implicits.
Arguments state R : clear implicits.

Lemma add_returns_witness :
  threads (run [0;1;0;1;1;0;0;0;0;0] (init [1] [[2]; [3]])) !! 0 = Some (@Done nat).
Proof. apply (add_returns [1] [[2]; [3]] [0;1;0;1;1;0;0;0;0;0] 0); vm_compute; lia. Defined.
End Cas.

(** ** Properties *)

(** C5: a pattern that passes validation matches a host exactly when the
    host's labels are an instance of the pattern's labels, both lower-cased:
    ["*"] stands for one label, ["**"] for one or more, anything else for
    itself; the empty host matches nothing. *)
Theorem matches_glob `{UnicodeTables} pattern host :
  validateDomainPattern pattern = None →
  matches (parseDomainPattern pattern) host = true ↔
  host ≠ [] ∧ glob (Split (ToLower pattern) ".") (Split (ToLower host) ".").
Proof. apply matches_iff_glob. Qed.

Lemma matches_glob_witness :
  validateDomainPattern (gs "*.Example.com") = None ∧
  (@matches ascii_only (@parseDomainPattern ascii_only (gs "*.Example.com")) (gs "API.example.com") = true
   ↔ gs "API.example.com" ≠ [] ∧
     glob (Split (@ToLower ascii_only (gs "*.Example.com")) ".")
          (Split (@ToLower ascii_only (gs "API.example.com")) ".")).
Proof.
  split; [vm_compute; reflexivity|].
  apply (@matches_glob ascii_only). vm_compute. reflexivity.
Defined.

(** C36: [ValidateHTTPEntry] returns nil on exactly the entries [domain:port] of
    the documented grammar: a domain of non-empty labels, each literal, ["*"]
    or ["**"], with at most one ["**"] and not a bare star, no colon or space,
    and a port that is ["*"] or all decimal digits. *)
Theorem ValidateHTTPEntry_iff entry :
  ValidateHTTPEntry entry = None ↔ ∃ domain port, wf_http entry domain port.
Proof. apply ValidateHTTPEntry_None. Qed.

Definition example_entries : list gostring := [gs "*.example.com:443"; gs "github.com:*"].

Lemma HTTPAllows_spec_witness :
  ∃ al, @NewHTTPAllowlist ascii_only example_entries = Ok al ∧
  (@HTTPAllows ascii_only al (gs "a.example.com") (gs "443") = true ↔
   gs "a.example.com" ≠ [] ∧
   ∃ entry, entry ∈ example_entries ∧ @http_grants ascii_only entry (gs "a.example.com") (gs "443")).
Proof.
  eexists. split; [vm_compute; reflexivity|].
  apply (@HTTPAllows_spec ascii_only). vm_compute. reflexivity.
Defined.

Lemma DNSAllows_spec_witness :
  ∃ al, @NewDNSAllowlist ascii_only [gs "**.corp.example"] = Ok al ∧
  (@DNSAllows ascii_only al (gs "x.y.corp.example") = true ↔
   gs "x.y.corp.example" ≠ [] ∧
   ∃ entry, entry ∈ [gs "**.corp.example"] ∧ @dns_grants ascii_only entry (gs "x.y.corp.example")).
Proof.
  eexists. split; [vm_compute; reflexivity|].
  apply (@DNSAllows_spec ascii_only). vm_compute. reflexivity.
Defined.

Lemma HTTPAdd_rebuild_witness :
  ∃ al, @NewHTTPAllowlist ascii_only example_entries = Ok al ∧
  match @HTTPAdd ascii_only al [gs "go.dev:443"] with
  | (al', None) => @NewHTTPAllowlist ascii_only (example_entries ++ [gs "go.dev:443"]) = Ok al'
  | (al', Some e) => al' = al ∧
      @NewHTTPAllowlist ascii_only (example_entries ++ [gs "go.dev:443"]) = Err e
  end.
Proof.
  eexists. split; [vm_compute; reflexivity|].
  apply (@HTTPAdd_rebuild ascii_only). vm_compute. reflexivity.
Defined.
