(* ===== verification/GoNet.v ===== *)
(** * Addresses: what the program uses of packages [net] and [net/netip]

    An IP is its byte slice, 4 or 16 bytes (nil is the empty list).  The
    parsers follow the library's grammar: dotted decimal without leading zeros,
    and RFC 4291 text with one [::] and an optional embedded IPv4 tail. *)

From S2P Require Import Prelude GoStrings.
Open Scope Z_scope.

Abbreviation IP := (list Z).

(** The result of [netip.ParseAddr]: an IPv4 address, or an IPv6 address with
    its zone. *)
Inductive Addr :=
  | Addr4 (b : list Z)
  | Addr6 (b : list Z) (zone : gostring).

Definition v4InV6Prefix : list Z := [0;0;0;0;0;0;0;0;0;0;255;255].

Definition As16 (a : Addr) : list Z :=
  match a with Addr4 b => v4InV6Prefix ++ b | Addr6 b _ => b end.

Definition BitLen (a : Addr) : Z := match a with Addr4 _ => 32 | Addr6 _ _ => 128 end.

Definition Zone (a : Addr) : gostring := match a with Addr4 _ => [] | Addr6 _ z => z end.

(** One decimal field of a dotted IPv4 address. *)
Definition parseOctet (s : gostring) : option Z :=
  if bool_decide (s = []) || negb (forallb is_digit s) then None
  else if bool_decide (s ≠ gs "0") && HasPrefix s (gs "0") then None
  else let v := digits_value s in if v <=? 255 then Some v else None.

Definition parseIPv4Fields (s : gostring) : option (list Z) :=
  match mapM parseOctet (Split s ".") with
  | Some [a; b; c; d] => Some [a; b; c; d]
  | _ => None
  end.

Definition hexval (c : ascii) : option Z :=
  let b := b2z c in
  if (0x30 <=? b) && (b <=? 0x39) then Some (b - 0x30)
  else if (0x61 <=? b) && (b <=? 0x66) then Some (b - 0x61 + 10)
  else if (0x41 <=? b) && (b <=? 0x46) then Some (b - 0x41 + 10)
  else None.

(** The hex digits at the front of [s]: their number, value and the rest. *)
Fixpoint hexrun (s : gostring) (n : nat) (acc : Z) : nat * Z * gostring :=
  match s with
  | c :: s' =>
      match hexval c with
      | Some v => hexrun s' (S n) (acc * 16 + v)
      | None => (n, acc, s)
      end
  | [] => (n, acc, [])
  end.

(** The group loop of [parseIPv6]: the bytes so far, where the ellipsis stands
    in them, and the rest of the text.  Each turn appends two bytes, so eight
    turns reach the sixteen the loop stops at. *)
Fixpoint parseIPv6Groups (fuel : nat) (bytes : list Z) (ellipsis : option nat)
    (s : gostring) : option (list Z * option nat * gostring) :=
  match fuel with
  | O => Some (bytes, ellipsis, s)
  | S fuel' =>
      let '(n, acc, rest) := hexrun s 0 0 in
      if (n =? 0)%nat || (4 <? n)%nat then None else
      match rest with
      | c :: rest' =>
          if bool_decide (c = "."%char) then
            if bool_decide (ellipsis = None) && negb (length bytes =? 12)%nat then None
            else if (16 <? length bytes + 4)%nat then None
            else match parseIPv4Fields s with
                 | Some v4 => Some (bytes ++ v4, ellipsis, [])
                 | None => None
                 end
          else if negb (bool_decide (c = ":"%char)) then None
          else let bytes' := bytes ++ [acc / 256; acc mod 256] in
               match rest' with
               | [] => None
               | c' :: rest'' =>
                   if bool_decide (c' = ":"%char) then
                     match ellipsis with
                     | Some _ => None
                     | None =>
                         if bool_decide (rest'' = []) then Some (bytes', Some (length bytes'), [])
                         else parseIPv6Groups fuel' bytes' (Some (length bytes')) rest''
                     end
                   else parseIPv6Groups fuel' bytes' ellipsis rest'
               end
      | [] => Some (bytes ++ [acc / 256; acc mod 256], ellipsis, [])
      end
  end.

Definition parseIPv6 (s0 : gostring) : option Addr :=
  let '(s, zone, badzone) :=
    match Cut s0 "%" with
    | Some (a, z) => (a, z, bool_decide (z = []))
    | None => (s0, [], false)
    end in
  if badzone then None else
  let lead := HasPrefix s (gs "::") in
  let body := if lead then drop 2 s else s in
  if lead && bool_decide (body = []) then Some (Addr6 (replicate 16 0) zone) else
  match parseIPv6Groups 8 [] (if lead then Some 0%nat else None) body with
  | Some (bytes, ellipsis, []) =>
      if (length bytes <? 16)%nat then
        match ellipsis with
        | None => None
        | Some e => Some (Addr6 (take e bytes ++ replicate (16 - length bytes) 0 ++ drop e bytes) zone)
        end
      else if bool_decide (ellipsis = None) then Some (Addr6 bytes zone) else None
  | _ => None
  end.

(** [netip.ParseAddr]: the first of [.], [:] and [%] decides the form. *)
Fixpoint firstOf (s : gostring) : option ascii :=
  match s with
  | [] => None
  | c :: s' =>
      if bool_decide (c ∈ [".";":";"%"]%char) then Some c else firstOf s'
  end.

Definition ParseAddr (s : gostring) : option Addr :=
  match firstOf s with
  | Some c =>
      if bool_decide (c = "."%char) then Addr4 <$> parseIPv4Fields s
      else if bool_decide (c = ":"%char) then parseIPv6 s
      else None
  | None => None
  end.

(** [net.ParseIP]: always 16 bytes; a zone is refused. *)
Definition ParseIP (s : gostring) : option IP :=
  match ParseAddr s with
  | Some a => if bool_decide (Zone a = []) then Some (As16 a) else None
  | None => None
  end.

(** ** Networks *)

Record IPNet := MkIPNet { netIP : list Z; netMask : list Z }.

#[global] Instance IPNet_eq_dec : EqDecision IPNet.
Proof. solve_decision. Defined.

Definition To4 (ip : IP) : option IP :=
  if (length ip =? 4)%nat then Some ip
  else if (length ip =? 16)%nat && bool_decide (take 12 ip = v4InV6Prefix) then Some (drop 12 ip)
  else None.

(** Byte [i] of a mask of [ones] leading one bits. *)
Definition maskByte (ones : Z) (i : nat) : Z :=
  let n := Z.max 0 (Z.min 8 (ones - 8 * Z.of_nat i)) in 256 - 2 ^ (8 - n).

Definition CIDRMask (ones bits : Z) : list Z :=
  maskByte ones <$> seq 0 (Z.to_nat (bits / 8)).

Definition land_bytes (a m : list Z) : list Z := zip_with Z.land a m.

(** [IP.Mask]. *)
Definition Mask (ip mask : list Z) : list Z :=
  let mask := if (length mask =? 16)%nat && (length ip =? 4)%nat &&
                 bool_decide (take 12 mask = replicate 12 255) then drop 12 mask else mask in
  let ip := if (length mask =? 4)%nat && (length ip =? 16)%nat &&
               bool_decide (take 12 ip = v4InV6Prefix) then drop 12 ip else ip in
  if (length ip =? length mask)%nat then land_bytes ip mask else [].

Definition ParseCIDR (s : gostring) : option IPNet :=
  match Cut s "/" with
  | None => None
  | Some (addr, mask) =>
      match ParseAddr addr with
      | None => None
      | Some a =>
          if negb (bool_decide (Zone a = [])) then None else
          if bool_decide (mask = []) || negb (forallb is_digit mask) then None else
          let n := digits_value mask in
          if BitLen a <? n then None else
          let m := CIDRMask n (BitLen a) in
          Some (MkIPNet (Mask (As16 a) m) m)
      end
  end.

Definition networkNumberAndMask (n : IPNet) : list Z * list Z :=
  let ip := match To4 (netIP n) with Some x => x | None => netIP n end in
  let m := netMask n in
  if negb (length ip =? 4)%nat && negb (length ip =? 16)%nat then ([], []) else
  if (length m =? 4)%nat then (if (length ip =? 4)%nat then (ip, m) else ([], []))
  else if (length m =? 16)%nat then (ip, if (length ip =? 4)%nat then drop 12 m else m)
  else ([], []).

(** [IPNet.Contains]. *)
Definition NetContains (n : IPNet) (ip : IP) : bool :=
  let '(nn, m) := networkNumberAndMask n in
  let ip := match To4 ip with Some x => x | None => ip end in
  if negb (length ip =? length nn)%nat then false
  else bool_decide (land_bytes nn m = land_bytes ip m).

(** ** Host and port *)

Inductive addrErr :=
  | missingPort | tooManyColons | missingBracket | unexpectedOpen | unexpectedClose.

Definition SplitHostPort (hostport : gostring) : result addrErr (gostring * gostring) :=
  match LastIndex hostport ":" with
  | None => Err missingPort
  | Some i =>
      let port := drop (i + 1) hostport in
      match hostport with
      | c :: rest =>
          if bool_decide (c = "["%char) then
            match Cut rest "]" with
            | None => Err missingBracket
            | Some (host, after) =>
                (* [end] is the position of the first ']' *)
                let end_ := S (length host) in
                if bool_decide (after = []) then Err missingPort
                else if negb (end_ + 1 =? i)%nat then
                  (if HasPrefix after (gs ":") then Err tooManyColons else Err missingPort)
                else if Contains1 (drop 1 hostport) "[" then Err unexpectedOpen
                else if Contains1 after "]" then Err unexpectedClose
                else Ok (host, port)
            end
          else
            let host := take i hostport in
            if Contains1 host ":" then Err tooManyColons
            else if Contains1 hostport "[" then Err unexpectedOpen
            else if Contains1 hostport "]" then Err unexpectedClose
            else Ok (host, port)
      | [] => Err missingPort
      end
  end.

Definition JoinHostPort (host port : gostring) : gostring :=
  if Contains1 host ":" then gs "[" ++ host ++ gs "]:" ++ port
  else host ++ gs ":" ++ port.

Example ParseIP_ex1 : ParseIP (gs "::ffff:10.0.0.1") = Some (v4InV6Prefix ++ [10;0;0;1]).
Proof. vm_compute. reflexivity. Qed.
Example ParseIP_ex2 : ParseIP (gs "10.0.0.01") = None.
Proof. vm_compute. reflexivity. Qed.
Example ParseIP_ex3 : ParseIP (gs "fe80::1") = Some ([254;128] ++ replicate 13 0 ++ [1]).
Proof. vm_compute. reflexivity. Qed.
Example SplitHostPort_ex : SplitHostPort (gs "[::1]:443") = Ok (gs "::1", gs "443").
Proof. vm_compute. reflexivity. Qed.

(** ** Printing *)

Definition hexdigit (z : Z) : ascii :=
  if z <? 10 then z2b (0x30 + z) else z2b (0x61 + (z - 10)).

(** [appendHex] on a 16-bit group: no leading zeros. *)
Definition groupHex (x : Z) : gostring :=
  (if 0x1000 <=? x then [hexdigit (x / 4096)] else []) ++
  (if 0x100 <=? x then [hexdigit (x / 256 mod 16)] else []) ++
  (if 0x10 <=? x then [hexdigit (x / 16 mod 16)] else []) ++ [hexdigit (x mod 16)].

Fixpoint groups (b : list Z) : list Z :=
  match b with
  | x :: y :: b' => x * 256 + y :: groups b'
  | _ => []
  end.

Fixpoint zeros (gs : list Z) : nat :=
  match gs with 0 :: gs' => S (zeros gs') | _ => O end.

(** The first longest run of at least two zero groups: start and length. *)
Fixpoint longestRun (i : nat) (gs : list Z) (best : nat * nat) : nat * nat :=
  match gs with
  | [] => best
  | _ :: gs' =>
      let l := zeros gs in
      longestRun (S i) gs' (if (2 <=? l)%nat && (best.2 <? l)%nat then (i, l) else best)
  end.

Definition IPv6String (b : list Z) : gostring :=
  let g := groups b in
  let '(start, len) := longestRun 0 g (0%nat, 0%nat) in
  let j xs := Join (groupHex <$> xs) (gs ":") in
  if (len =? 0)%nat then j g
  else j (take start g) ++ gs "::" ++ j (drop (start + len) g).

(** [IP.String]. *)
Definition IPString (ip : IP) : gostring :=
  match ip with
  | [] => gs "<nil>"
  | _ =>
      match To4 ip with
      | Some b => Join (Itoa <$> b) (gs ".")
      | None =>
          if (length ip =? 16)%nat then IPv6String ip
          else gs "?" ++ flat_map (λ x, [hexdigit (x / 16); hexdigit (x mod 16)]) ip
      end
  end.

Example IPString_ex : IPString <$> ParseIP (gs "FE80:0:0:0:1:0:0:1") = Some (gs "fe80::1:0:0:1").
Proof. vm_compute. reflexivity. Qed.
Example IPString_ex2 : IPString <$> ParseIP (gs "127.0.0.1") = Some (gs "127.0.0.1").
Proof. vm_compute. reflexivity. Qed.
Example IPString_ex3 : IPString <$> ParseIP (gs "::") = Some (gs "::").
Proof. vm_compute. reflexivity. Qed.
