(* ===== verification/Cidr.v ===== *)
(** * The CIDR blocker ([proxy/cidr.go])

    The default block list is shown to be exactly the private, loopback and
    link-local ranges, for IPv4 addresses in both byte forms. *)

From S2P Require Import Prelude GoStrings GoNet.
Open Scope Z_scope.

Definition defaultBlockedCIDRs : list gostring :=
  [gs "10.0.0.0/8"; gs "172.16.0.0/12"; gs "192.168.0.0/16"; gs "127.0.0.0/8";
   gs "169.254.0.0/16"; gs "::1/128"; gs "fc00::/7"; gs "fe80::/10"].

Record CIDRBlocker := MkCIDRBlocker { blockNets : list IPNet; allowNets : list IPNet }.

Definition parseCIDRs (cidrs : list gostring) : list IPNet := omap ParseCIDR cidrs.

Definition NewCIDRBlocker (block allow : list gostring) : CIDRBlocker :=
  let blocked := defaultBlockedCIDRs ++ block in
  MkCIDRBlocker (parseCIDRs blocked) (parseCIDRs allow).

Definition IsAllowed (b : CIDRBlocker) (ip : IP) : bool :=
  existsb (λ n, NetContains n ip) (allowNets b).

Definition IsBlocked (b : CIDRBlocker) (ip : IP) : bool :=
  if IsAllowed b ip then false
  else existsb (λ n, NetContains n ip) (blockNets b).

(** ** Specification *)

(** RFC 1918, loopback and link-local IPv4. *)
Definition private4 (a b : Z) : bool :=
  (a =? 10) || ((a =? 172) && (16 <=? b) && (b <=? 31)) || ((a =? 192) && (b =? 168))
  || (a =? 127) || ((a =? 169) && (b =? 254)).

(** Loopback, unique-local and link-local IPv6, for an address that is not an
    IPv4-mapped one. *)
Definition private6 (ip : IP) : bool :=
  bool_decide (ip = replicate 15 0 ++ [1]) ||
  match ip with
  | x :: y :: _ => (Z.land x 0xFE =? 0xFC) || ((x =? 0xFE) && (Z.land y 0xC0 =? 0x80))
  | _ => false
  end.

Definition is_byte (z : Z) : Prop := 0 ≤ z < 256.

(** The parsed default list; every entry of it parses. *)
Definition default_nets : list IPNet :=
  [MkIPNet [10;0;0;0] [255;0;0;0];
   MkIPNet [172;16;0;0] [255;240;0;0];
   MkIPNet [192;168;0;0] [255;255;0;0];
   MkIPNet [127;0;0;0] [255;0;0;0];
   MkIPNet [169;254;0;0] [255;255;0;0];
   MkIPNet (replicate 15 0 ++ [1]) (replicate 16 255);
   MkIPNet (0xFC :: replicate 15 0) (0xFE :: replicate 15 0);
   MkIPNet (0xFE :: 0x80 :: replicate 14 0) (0xFF :: 0xC0 :: replicate 14 0)].

Lemma default_nets_ok : parseCIDRs defaultBlockedCIDRs = default_nets.
Proof. vm_compute. reflexivity. Qed.

Lemma parseCIDRs_app l1 l2 : parseCIDRs (l1 ++ l2) = parseCIDRs l1 ++ parseCIDRs l2.
Proof. apply omap_app. Qed.

(** A property of all bytes, by evaluation. *)
Definition all_bytes (f : Z → bool) : bool := forallb (λ n, f (Z.of_nat n)) (seq 0 256).

Lemma all_bytes_spec f z : all_bytes f = true → is_byte z → f z = true.
Proof.
  unfold all_bytes, is_byte. rewrite forallb_forall. intros Hf Hz.
  rewrite <- (Z2Nat.id z) by lia. apply Hf. apply in_seq. lia.
Qed.

Lemma land_255 z : is_byte z → Z.land z 255 = z.
Proof.
  intros. apply Z.eqb_eq. revert z H. intros z.
  apply (all_bytes_spec (λ z, Z.land z 255 =? z)). vm_compute. reflexivity.
Qed.

Lemma land_240_16 z : is_byte z → (Z.land z 240 =? 16) = (16 <=? z) && (z <=? 31).
Proof.
  intros Hz. apply eqb_prop.
  by apply (all_bytes_spec (λ z, Bool.eqb (Z.land z 240 =? 16) ((16 <=? z) && (z <=? 31)))).
Qed.

(** A list of known length as its elements. *)
Ltac elems l :=
  repeat (destruct l as [|? l]; [discriminate|]); destruct l; [|discriminate].

Lemma contains_v4 n ip :
  length (netIP n) = 4%nat → length (netMask n) = 4%nat → length ip = 4%nat →
  NetContains n ip = bool_decide (land_bytes (netIP n) (netMask n) = land_bytes ip (netMask n)).
Proof.
  destruct n as [nn m]. cbn [netIP netMask]. intros Hn Hm Hi.
  do 4 (destruct nn as [|? nn]; [done|]). do 4 (destruct m as [|? m]; [done|]).
  do 4 (destruct ip as [|? ip]; [done|]).
  destruct nn, m, ip; done.
Qed.

Lemma contains_mapped n ip :
  length ip = 4%nat → NetContains n (v4InV6Prefix ++ ip) = NetContains n ip.
Proof.
  intros Hi. do 4 (destruct ip as [|? ip]; [done|]). by destruct ip.
Qed.

Lemma contains_v4_in_v6 n ip :
  To4 (netIP n) = None → length (netIP n) = 16%nat → length (netMask n) = 16%nat →
  length ip = 4%nat → NetContains n ip = false.
Proof.
  intros H4 Hn Hm Hi. unfold NetContains, networkNumberAndMask. rewrite H4, Hn, Hm. simpl.
  unfold To4. rewrite Hi. simpl. by rewrite Hi, Hn.
Qed.

(** The default nets contain exactly the private IPv4 addresses. *)
Lemma default_contains_v4 a b c d :
  is_byte a → is_byte b → is_byte c → is_byte d →
  existsb (λ n, NetContains n [a; b; c; d]) default_nets = private4 a b.
Proof.
  intros Ha Hb Hc Hd. unfold default_nets. cbn [existsb].
  rewrite !contains_v4 by done.
  rewrite !contains_v4_in_v6 by (vm_compute; reflexivity).
  cbn [netIP netMask land_bytes zip_with]. rewrite !Z.land_0_r, !land_255 by (done || by vm_compute).
  rewrite !orb_false_r. unfold private4.
  rewrite <- (andb_assoc (a =? 172)), <- (land_240_16 b Hb).
  change (Z.land 16 240) with 16. apply eq_iff_eq_true.
  rewrite !orb_true_iff, !andb_true_iff, !bool_decide_eq_true, !Z.eqb_eq.
  assert (Heq : ∀ w x y z w' x' y' z' : Z,
    [w;x;y;z] = [w';x';y';z'] ↔ w = w' ∧ x = x' ∧ y = y' ∧ z = z') by naive_solver.
  rewrite !Heq. intuition congruence.
Qed.

Lemma contains_v6_in_v4 n ip :
  length (netIP n) = 4%nat → length (netMask n) = 4%nat →
  length ip = 16%nat → To4 ip = None → NetContains n ip = false.
Proof.
  intros Hn Hm Hi H4. unfold NetContains, networkNumberAndMask. rewrite H4.
  assert (To4 (netIP n) = Some (netIP n)) as -> by (unfold To4; by rewrite Hn).
  rewrite Hn, Hm. simpl. by rewrite Hn, Hi.
Qed.

Lemma contains_v6 n ip :
  To4 (netIP n) = None → length (netIP n) = 16%nat → length (netMask n) = 16%nat →
  length ip = 16%nat → To4 ip = None →
  NetContains n ip = bool_decide (land_bytes (netIP n) (netMask n) = land_bytes ip (netMask n)).
Proof.
  intros Hn4 Hn Hm Hi H4. unfold NetContains, networkNumberAndMask.
  rewrite Hn4, Hn, Hm. simpl. by rewrite H4, Hi, Hn.
Qed.

Lemma land_bytes_ones ip :
  Forall is_byte ip → land_bytes ip (replicate (length ip) 255) = ip.
Proof.
  unfold land_bytes. induction 1 as [|x xs Hx _ IH]; simpl; [done|].
  by rewrite IH, land_255.
Qed.

Lemma land_bytes_zeros ip n :
  length ip = n → land_bytes ip (replicate n 0) = replicate n 0.
Proof.
  intros <-. unfold land_bytes. induction ip as [|x xs IH]; simpl; [done|].
  by rewrite IH, Z.land_0_r.
Qed.

(** The default nets contain exactly the private IPv6 addresses, among the
    addresses that are not IPv4-mapped. *)
Lemma default_contains_v6 ip :
  Forall is_byte ip → length ip = 16%nat → To4 ip = None →
  existsb (λ n, NetContains n ip) default_nets = private6 ip.
Proof.
  intros Hb Hlen H4. unfold default_nets. cbn [existsb].
  rewrite !contains_v6_in_v4 by done.
  rewrite !contains_v6 by (done || by vm_compute). cbn [netIP netMask].
  pose proof (land_bytes_ones ip Hb) as Hones. rewrite Hlen in Hones. rewrite Hones.
  destruct ip as [|x [|y ip]]; [done..|].
  assert (Hl : length ip = 14%nat) by (simpl in Hlen; lia).
  apply Forall_cons in Hb as [Hx _].
  change (land_bytes (x :: y :: ip) (0xFE :: replicate 15 0))
    with (Z.land x 0xFE :: land_bytes (y :: ip) (replicate 15 0)).
  change (land_bytes (x :: y :: ip) (0xFF :: 0xC0 :: replicate 14 0))
    with (Z.land x 0xFF :: Z.land y 0xC0 :: land_bytes ip (replicate 14 0)).
  rewrite !land_bytes_zeros by (simpl; lia). rewrite land_255 by done.
  rewrite orb_false_r, !orb_false_l. unfold private6. f_equal.
  - apply bool_decide_ext. split; intros E; symmetry; exact E.
  - f_equal; apply eq_iff_eq_true; rewrite ?andb_true_iff, bool_decide_eq_true, !Z.eqb_eq.
    + change (land_bytes _ _) with (0xFC :: replicate 15 0).
      split; [intros [= ->]; done|intros ->; done].
    + change (land_bytes _ _) with (0xFE :: 0x80 :: replicate 14 0).
      split; [intros [= -> ->]; done|intros [-> ->]; done].
Qed.

(** ** What the blocker decides *)

Definition listed (cidrs : list gostring) (ip : IP) : Prop :=
  ∃ s n, s ∈ cidrs ∧ ParseCIDR s = Some n ∧ NetContains n ip = true.

Lemma listed_spec cidrs ip :
  existsb (λ n, NetContains n ip) (parseCIDRs cidrs) = true ↔ listed cidrs ip.
Proof.
  rewrite existsb_elem. unfold parseCIDRs, listed. split.
  - intros (n & (s & Hs & Hp)%list_elem_of_omap & Hc). eauto.
  - intros (s & n & Hs & Hp & Hc). exists n. split; [|done]. apply list_elem_of_omap. eauto.
Qed.

Lemma IsBlocked_iff block allow ip :
  IsBlocked (NewCIDRBlocker block allow) ip = true ↔
  ¬ listed allow ip ∧
  (existsb (λ n, NetContains n ip) default_nets = true ∨ listed block ip).
Proof.
  unfold IsBlocked, IsAllowed, NewCIDRBlocker. cbn [blockNets allowNets].
  rewrite parseCIDRs_app, default_nets_ok, existsb_app, <- !listed_spec.
  destruct (existsb _ (parseCIDRs allow)); [naive_solver|].
  rewrite orb_true_iff. naive_solver.
Qed.

Lemma IsBlocked_v4 block allow a b c d ip :
  Forall is_byte [a; b; c; d] → ip = [a; b; c; d] ∨ ip = v4InV6Prefix ++ [a; b; c; d] →
  IsBlocked (NewCIDRBlocker block allow) ip = true ↔
  ¬ listed allow [a; b; c; d] ∧ (private4 a b = true ∨ listed block [a; b; c; d]).
Proof.
  rewrite !Forall_cons. intros (Ha & Hb & Hc & Hd & _) Hip.
  rewrite <- (default_contains_v4 a b c d), <- IsBlocked_iff by done.
  destruct Hip as [-> | ->]; [done|].
  unfold IsBlocked, IsAllowed. cbn [blockNets allowNets].
  assert (Hm : ∀ ns, existsb (λ n, NetContains n (v4InV6Prefix ++ [a; b; c; d])) ns =
                     existsb (λ n, NetContains n [a; b; c; d]) ns).
  { intros ns. induction ns as [|n ns IH]; cbn [existsb]; [done|]. by rewrite IH, contains_mapped. }
  by rewrite !Hm.
Qed.

(** C33: the address filter blocks exactly the private addresses.  An IPv4
    address, in its 4-byte form or as an IPv4-mapped IPv6 address, is blocked
    exactly when no allow-cidr entry contains it and it is in 10/8, 172.16/12,
    192.168/16, 127/8 or 169.254/16 or in a configured block-cidr entry: no
    default entry is lost in parsing, and writing the address as ::ffff:a.b.c.d
    does not get round the check.  Any other IPv6 address is blocked exactly
    when no allow-cidr entry contains it and it is ::1, in fc00::/7, in
    fe80::/10 or in a configured block-cidr entry. *)
Theorem IsBlocked_spec block allow a b c d ip ip6 :
  Forall is_byte [a; b; c; d] → ip = [a; b; c; d] ∨ ip = v4InV6Prefix ++ [a; b; c; d] →
  Forall is_byte ip6 → length ip6 = 16%nat → To4 ip6 = None →
  (IsBlocked (NewCIDRBlocker block allow) ip = true ↔
   ¬ listed allow [a; b; c; d] ∧ (private4 a b = true ∨ listed block [a; b; c; d])) ∧
  (IsBlocked (NewCIDRBlocker block allow) ip6 = true ↔
   ¬ listed allow ip6 ∧ (private6 ip6 = true ∨ listed block ip6)).
Proof.
  intros. split; [by apply IsBlocked_v4|]. by rewrite IsBlocked_iff, default_contains_v6.
Qed.

Lemma IsBlocked_spec_witness :
  let ip6 := 0xFD :: replicate 14 0 ++ [1] in
  (IsBlocked (NewCIDRBlocker [] [gs "10.1.0.0/16"]) (v4InV6Prefix ++ [10; 2; 0; 1]) = true ↔
   ¬ listed [gs "10.1.0.0/16"] [10; 2; 0; 1] ∧ (private4 10 2 = true ∨ listed [] [10; 2; 0; 1])) ∧
  (IsBlocked (NewCIDRBlocker [] [gs "10.1.0.0/16"]) ip6 = true ↔
   ¬ listed [gs "10.1.0.0/16"] ip6 ∧ (private6 ip6 = true ∨ listed [] ip6)).
Proof.
  apply (IsBlocked_spec [] [gs "10.1.0.0/16"] 10 2 0 1).
  - repeat constructor; vm_compute; congruence.
  - right. reflexivity.
  - repeat constructor; vm_compute; congruence.
  - reflexivity.
  - vm_compute. reflexivity.
Defined.
