(* ===== verification/LogBuffer.v ===== *)
(** * The request log ([proxy/log.go])

    A ring buffer of log entries with per-domain counters.  It is shown to
    refine a log that keeps the whole history: the buffer always holds the last
    [cap] entries in order, numbered from 1, and polling by identifier returns
    every retained entry once. *)

From S2P Require Import Prelude GoStrings.

Inductive Action := ActionAllow | ActionBlock.
Inductive Source := SourceProxy | SourceDNS.

#[global] Instance Action_eq_dec : EqDecision Action.
Proof. solve_decision. Defined.
#[global] Instance Source_eq_dec : EqDecision Source.
Proof. solve_decision. Defined.

Record LogEntry := MkLogEntry {
  ID : Z;                (* uint64 *)
  Time : Z;
  Domain : gostring;
  Port : gostring;
  EAction : Action;
  ESource : Source;
  Reason : gostring;
}.

Definition zeroEntry : LogEntry := MkLogEntry 0 0 [] [] ActionAllow SourceProxy [].

Record DomainStats := MkStats { Allowed : Z; Blocked : Z }.

Record LogBuffer := MkLogBuffer {
  entries : list LogEntry;
  cap : nat;
  pos : nat;
  full : bool;
  nextID : Z;
  stats : gmap gostring DomainStats;
}.

Definition NewLogBuffer (capacity : nat) : LogBuffer :=
  MkLogBuffer (replicate capacity zeroEntry) capacity 0 false 1 ∅.

Definition set_id (id : Z) (e : LogEntry) : LogEntry :=
  MkLogEntry id (Time e) (Domain e) (Port e) (EAction e) (ESource e) (Reason e).

(** The [switch entry.Action] at the end of [Add]. *)
Definition bump (a : Action) (s : DomainStats) : DomainStats :=
  match a with
  | ActionAllow => MkStats (wrap_int 64 (Allowed s + 1)) (Blocked s)
  | ActionBlock => MkStats (Allowed s) (wrap_int 64 (Blocked s + 1))
  end.

(** [Add].  The write is in range whenever the capacity is positive
    ([Add_in_range]); Go panics on the write to an empty buffer. *)
Definition Add (b : LogBuffer) (entry : LogEntry) : LogBuffer :=
  let entry := set_id (nextID b) entry in
  let pos' := (pos b + 1) mod cap b in
  let full' := if (pos' =? 0) && negb (full b) then true else full b in
  let s := default (MkStats 0 0) (stats b !! Domain entry) in
  MkLogBuffer (<[pos b := entry]> (entries b)) (cap b) pos' full'
    (wrap_uint 64 (nextID b + 1))
    (<[Domain entry := bump (EAction entry) s]> (stats b)).

Definition entriesLocked (b : LogBuffer) : list LogEntry :=
  if negb (full b) then take (pos b) (entries b)
  else drop (pos b) (entries b) ++ take (pos b) (entries b).

Definition Entries (b : LogBuffer) : list LogEntry := entriesLocked b.

(** The linear scan of [EntriesAfter]: the entries from the first one with a
    larger identifier on. *)
Fixpoint scanAfter (afterID : Z) (all : list LogEntry) : list LogEntry :=
  match all with
  | [] => []
  | e :: all' => if (afterID <? ID e)%Z then e :: all' else scanAfter afterID all'
  end.

Definition EntriesAfter (b : LogBuffer) (afterID : Z) : list LogEntry :=
  let all := entriesLocked b in
  if (afterID =? 0)%Z then
    (if (25 <? length all)%nat then drop (length all - 25) all else all)
  else scanAfter afterID all.

Definition Stats (b : LogBuffer) : gmap gostring DomainStats := stats b.

(** ** The abstract log: every entry ever added, numbered from 1 *)

Fixpoint numbered (n : Z) (es : list LogEntry) : list LogEntry :=
  match es with
  | [] => []
  | e :: es' => set_id n e :: numbered (n + 1) es'
  end.

Definition adds (b : LogBuffer) (es : list LogEntry) : LogBuffer := fold_left Add es b.

(** How often a domain was allowed or blocked in a history. *)
Definition count (a : Action) (d : gostring) (es : list LogEntry) : nat :=
  length (filter (λ e, EAction e = a ∧ Domain e = d) es).

(** ** Representation invariant *)

Record wf (b : LogBuffer) : Prop := {
  wf_cap : 0 < cap b;
  wf_len : length (entries b) = cap b;
  wf_pos : pos b < cap b;
}.

Lemma wf_new capacity : 0 < capacity → wf (NewLogBuffer capacity).
Proof. intros. split; cbn; rewrite ?length_replicate; lia. Qed.

Lemma wf_Add b e : wf b → wf (Add b e).
Proof.
  intros [??]. split; cbn; rewrite ?length_insert; try done. apply Nat.mod_upper_bound. lia.
Qed.

(** The write of [Add] lands in the buffer. *)
Lemma Add_in_range b e :
  wf b → entries (Add b e) !! pos b = Some (set_id (nextID b) e).
Proof. intros [? Hl ?]. cbn. apply list_lookup_insert_eq. lia. Qed.

Lemma wf_adds b es : wf b → wf (adds b es).
Proof. unfold adds. revert b. induction es; cbn; auto using wf_Add. Qed.

Lemma length_entriesLocked b :
  wf b → length (entriesLocked b) = if full b then cap b else pos b.
Proof.
  intros [? Hl ?]. unfold entriesLocked. destruct (full b); simpl.
  - rewrite length_app, length_drop, length_take. lia.
  - rewrite length_take. lia.
Qed.

(** [Add] appends to the logical sequence and drops the oldest element once
    the buffer is full. *)
Lemma entriesLocked_Add b e :
  wf b → entriesLocked (Add b e) = lastn (cap b) (entriesLocked b ++ [set_id (nextID b) e]).
Proof.
  intros Hwf. pose proof (length_entriesLocked b Hwf) as Hlen.
  destruct Hwf as [Hc Hl Hp]. set (x := set_id (nextID b) e).
  assert (Htake : take (S (pos b)) (<[pos b := x]> (entries b)) = take (pos b) (entries b) ++ [x]).
  { rewrite (take_S_r _ _ x) by (apply list_lookup_insert_eq; lia).
    by rewrite take_insert_ge by lia. }
  unfold entriesLocked at 1. cbn [Add full pos entries cap].
  destruct (decide (pos b + 1 = cap b)) as [Hw|Hw].
  - rewrite Hw, Nat.Div0.mod_same. cbn [Nat.eqb andb].
    replace (if negb (full b) then true else full b) with true by (by destruct (full b)).
    cbn [negb]. rewrite drop_0, take_0, app_nil_r. fold x.
    rewrite <- (take_ge (<[pos b:=x]> (entries b)) (S (pos b))) by (rewrite length_insert; lia).
    rewrite Htake. unfold entriesLocked, lastn in *.
    destruct (full b); simpl negb in *; cbv iota in *; rewrite !length_app in *; simpl length in *.
    + rewrite Hlen. replace (cap b + 1 - cap b) with 1 by lia.
      destruct (drop (pos b) (entries b)) as [|y [|z ys]] eqn:E;
        apply (f_equal length) in E; rewrite length_drop in E; simpl in E; try lia.
      done.
    + rewrite Hlen. replace (pos b + 1 - cap b) with 0 by lia. by rewrite drop_0.
  - rewrite Nat.mod_small by lia. rewrite Nat.add_1_r. cbn [Nat.eqb andb]. fold x.
    unfold entriesLocked, lastn in *.
    destruct (full b); simpl negb in *; cbv iota in *; rewrite !length_app in *; simpl length in *.
    + rewrite Hlen. replace (cap b + 1 - cap b) with 1 by lia.
      rewrite Htake, drop_insert_lt by lia.
      destruct (drop (pos b) (entries b)) as [|y ys] eqn:E.
      { apply (f_equal length) in E. rewrite length_drop in E. simpl in E. lia. }
      cbn. rewrite drop_0, <- app_assoc. f_equal.
      replace (drop (S (pos b)) (entries b)) with (drop 1 (drop (pos b) (entries b)))
        by (rewrite drop_drop; f_equal; lia).
      by rewrite E.
    + rewrite Hlen. replace (pos b + 1 - cap b) with 0 by lia. by rewrite drop_0, Htake.
Qed.

(** ** Histories *)

Lemma adds_snoc b es e : adds b (es ++ [e]) = Add (adds b es) e.
Proof. unfold adds. by rewrite fold_left_app. Qed.

Lemma cap_adds b es : cap (adds b es) = cap b.
Proof. unfold adds. revert b. induction es as [|e es IH]; intros b; cbn; [done|]. by rewrite IH. Qed.

Lemma nextID_adds capacity es :
  nextID (adds (NewLogBuffer capacity) es) = wrap_uint 64 (1 + Z.of_nat (length es)).
Proof.
  induction es as [|e es IH] using rev_ind; [done|].
  rewrite adds_snoc, length_app. cbn. rewrite IH. unfold wrap_uint.
  rewrite Zplus_mod_idemp_l. f_equal. lia.
Qed.

Lemma numbered_app n es es' :
  numbered n (es ++ es') = numbered n es ++ numbered (n + Z.of_nat (length es)) es'.
Proof.
  revert n. induction es as [|e es IH]; intros n; simpl; [f_equal; lia|].
  rewrite IH. do 3 f_equal. lia.
Qed.

Lemma length_numbered n es : length (numbered n es) = length es.
Proof. revert n. induction es; intros; simpl; auto. Qed.

Lemma numbered_lookup_ID n es i x : numbered n es !! i = Some x → ID x = (n + Z.of_nat i)%Z.
Proof.
  revert n i. induction es as [|e es IH]; intros n i; [done|]. destruct i as [|i]; cbn.
  - intros [= <-]. cbn. lia.
  - intros Hx%IH. lia.
Qed.

Lemma numbered_IDs n es : ID <$> numbered n es = seqZ n (Z.of_nat (length es)).
Proof.
  revert n. induction es as [|e es IH]; intros n; [done|]. cbn [numbered fmap list_fmap length].
  rewrite seqZ_cons by lia. rewrite (IH _ : list_fmap _ _ _ _ = _). f_equal. f_equal; lia.
Qed.

Lemma drop_numbered k n es :
  drop k (numbered n es) = numbered (n + Z.of_nat k) (drop k es).
Proof.
  revert n es. induction k as [|k IH]; intros n es; [rewrite !drop_0; f_equal; lia|].
  destruct es as [|e es]; [done|]. simpl. rewrite IH. f_equal. lia.
Qed.

Lemma adds_entries capacity es :
  0 < capacity → (Z.of_nat (length es) < 2 ^ 64 - 1)%Z →
  entriesLocked (adds (NewLogBuffer capacity) es) = lastn capacity (numbered 1 es).
Proof.
  intros Hc. induction es as [|e es IH] using rev_ind; intros Hn.
  { cbn. unfold entriesLocked. cbn. unfold lastn. by destruct capacity. }
  rewrite length_app in Hn. simpl in Hn.
  rewrite adds_snoc, entriesLocked_Add by (by apply wf_adds, wf_new).
  rewrite cap_adds. cbn [cap NewLogBuffer]. rewrite IH by lia.
  rewrite lastn_app_lastn, numbered_app. simpl. do 4 f_equal.
  rewrite nextID_adds. unfold wrap_uint. rewrite Z.mod_small by lia. lia.
Qed.

Lemma scanAfter_numbered k n es :
  scanAfter k (numbered n es) = drop (Z.to_nat (k + 1 - n)) (numbered n es).
Proof.
  revert n. induction es as [|e es IH]; intros n; cbn [numbered scanAfter].
  - by rewrite drop_nil.
  - cbn [ID set_id]. destruct (Z.ltb_spec k n).
    + by replace (Z.to_nat (k + 1 - n)) with 0 by lia.
    + rewrite IH. replace (Z.to_nat (k + 1 - n)) with (S (Z.to_nat (k + 1 - (n + 1)))) by lia.
      done.
Qed.

(** ** Per-domain counters *)

Definition stat_of (es : list LogEntry) (d : gostring) : option DomainStats :=
  if decide (Exists (λ e, Domain e = d) es) then
    Some (MkStats (Z.of_nat (count ActionAllow d es)) (Z.of_nat (count ActionBlock d es)))
  else None.

Lemma count_snoc a d es e :
  count a d (es ++ [e]) = count a d es + (if decide (EAction e = a ∧ Domain e = d) then 1 else 0).
Proof.
  unfold count. rewrite filter_app, length_app. f_equal.
  case_decide; [by rewrite filter_cons_True|by rewrite filter_cons_False].
Qed.

Lemma count_le a d es : count a d es ≤ length es.
Proof. apply length_filter. Qed.

Lemma count_none a d es : ¬ Exists (λ e, Domain e = d) es → count a d es = 0.
Proof.
  intros Hn. unfold count. apply length_zero_iff_nil.
  destruct (filter _ es) as [|e l] eqn:E; [done|]. exfalso. apply Hn.
  assert (He : e ∈ filter (λ e, EAction e = a ∧ Domain e = d) es) by (rewrite E; left).
  apply list_elem_of_filter in He as [[_ ?] ?]. apply Exists_exists. eauto.
Qed.

Lemma wrap_int64_small z : (0 ≤ z < 2 ^ 63)%Z → wrap_int 64 z = z.
Proof.
  intros. unfold wrap_int. change (2 ^ (64 - 1))%Z with (2 ^ 63)%Z.
  rewrite Z.mod_small by lia. lia.
Qed.

Lemma stats_adds capacity es d :
  (Z.of_nat (length es) < 2 ^ 63)%Z →
  stats (adds (NewLogBuffer capacity) es) !! d = stat_of es d.
Proof.
  induction es as [|e es IH] using rev_ind; intros Hn; [done|].
  rewrite length_app in Hn. simpl in Hn. specialize (IH ltac:(lia)).
  rewrite adds_snoc. cbn [Add stats set_id Domain EAction].
  unfold stat_of. rewrite !count_snoc.
  pose proof (count_le ActionAllow d es). pose proof (count_le ActionBlock d es).
  destruct (decide (Domain e = d)) as [Hd|Hd].
  - subst d. rewrite lookup_insert_eq, IH.
    rewrite (decide_True (P := Exists _ (es ++ [e]))) by (apply Exists_app; right; by constructor).
    unfold stat_of. f_equal.
    assert (Hs : default (MkStats 0 0)
      (if decide (Exists (λ e0, Domain e0 = Domain e) es)
       then Some (MkStats (Z.of_nat (count ActionAllow (Domain e) es))
                          (Z.of_nat (count ActionBlock (Domain e) es))) else None)
      = MkStats (Z.of_nat (count ActionAllow (Domain e) es))
                (Z.of_nat (count ActionBlock (Domain e) es))).
    { case_decide as Hx; [done|]. by rewrite !count_none. }
    rewrite Hs. unfold bump.
    destruct (EAction e) eqn:Ha; cbn [Allowed Blocked]; rewrite wrap_int64_small by lia;
      f_equal; rewrite ?decide_True, ?decide_False by naive_solver; lia.
  - rewrite lookup_insert_ne, IH by done. unfold stat_of.
    rewrite !(decide_False (P := _ ∧ Domain e = d)) by naive_solver. rewrite !Nat.add_0_r.
    destruct (decide (Exists _ es)) as [Hx|Hx].
    + by rewrite decide_True by (apply Exists_app; by left).
    + rewrite decide_False; [done|]. rewrite Exists_app, Exists_cons, Exists_nil. naive_solver.
Qed.

(** ** Properties *)

(** C8: the ring buffer refines an unbounded log.  After any sequence of
    [Add]s the entries it returns are the last [capacity] entries of the
    history, oldest first, numbered consecutively from 1; and the statistics
    count exactly the allowed and blocked entries of each domain over the
    whole history, also those the ring has overwritten. *)
Theorem LogBuffer_refines_history capacity es :
  0 < capacity → (Z.of_nat (length es) < 2 ^ 63)%Z →
  let b := adds (NewLogBuffer capacity) es in
  Entries b = lastn capacity (numbered 1 es) ∧ ∀ d, Stats b !! d = stat_of es d.
Proof.
  intros Hc Hn b. split; [apply adds_entries; [done|lia]|].
  intros d. by apply stats_adds.
Qed.

Definition example_log : list LogEntry :=
  (λ d, MkLogEntry 0 0 (gs d) (gs "443") ActionAllow SourceProxy [])
    <$> ["a.com"; "b.com"; "c.com"; "a.com"]%string.

Lemma LogBuffer_refines_history_witness :
  let b := adds (NewLogBuffer 3) example_log in
  Entries b = lastn 3 (numbered 1 example_log) ∧ ∀ d, Stats b !! d = stat_of example_log d.
Proof. apply (LogBuffer_refines_history 3 example_log); vm_compute; [lia|reflexivity]. Defined.

(** Polling the log with the last identifier seen, [k > 0], returns
    exactly the entries added after the first [k], in order, less those the
    ring has already dropped; so consecutive polls deliver every retained
    entry once.  The first poll, with 0, returns the last 25 at most. *)
Lemma EntriesAfter_spec capacity es k :
  0 < capacity → (Z.of_nat (length es) < 2 ^ 64 - 1)%Z → (0 ≤ k)%Z →
  let b := adds (NewLogBuffer capacity) es in
  EntriesAfter b k =
  if decide (k = 0%Z) then lastn (25 `min` capacity) (numbered 1 es)
  else drop (Z.to_nat k `max` (length es - capacity)) (numbered 1 es).
Proof.
  intros Hc Hn Hk b. unfold EntriesAfter, b. rewrite adds_entries by done.
  case_decide as Hk0.
  - subst k. cbn [Z.eqb]. rewrite <- lastn_lastn.
    destruct (Nat.ltb_spec 25 (length (lastn capacity (numbered 1 es)))); [done|].
    by rewrite (lastn_ge 25) by lia.
  - rewrite (proj2 (Z.eqb_neq _ _)) by done.
    unfold lastn. rewrite length_numbered, drop_numbered, scanAfter_numbered.
    rewrite <- drop_numbered, drop_drop. f_equal. lia.
Qed.
