(* ===== verification/HttpProxy.v ===== *)
(** * The filtering HTTP proxy ([proxy/http.go])

    The request filter shared by the CONNECT and plain HTTP handlers, the
    handlers themselves, and the host gateway configuration.  DNS is a
    parameter: [lookup], what [net.Resolver.LookupIPAddr] answers when it is
    asked.  The HTTP machinery of goproxy around the handlers is not modelled. *)

From S2P Require Import Prelude GoStrings GoNet Allowlist Cidr LogBuffer.
Open Scope Z_scope.

(** [LookupIPAddr]'s answer: the addresses, and whether it returned an error. *)
Abbreviation Resolver := (gostring → list IP * bool).

Record HTTPProxy := MkHTTPProxy {
  allowlist : HTTPAllowlist;
  cidr : CIDRBlocker;
  log : LogBuffer;
  hostGateway : gostring;
  allowHostPorts : gset Z;
}.

Record filterResult := MkFilter {
  action : Action;
  reason : gostring;
  rewrite : gostring;      (* non-empty when host.vibepit is rewritten *)
}.

Definition hostVibepit : gostring := gs "host.vibepit".

Definition set_log (p : HTTPProxy) (l : LogBuffer) : HTTPProxy :=
  MkHTTPProxy (allowlist p) (cidr p) l (hostGateway p) (allowHostPorts p).

Definition logEntry (now : Z) (hostname port : gostring) (a : Action) (why : gostring) : LogEntry :=
  MkLogEntry 0 now hostname port a SourceProxy why.

Definition add_log (p : HTTPProxy) (e : LogEntry) : HTTPProxy := set_log p (Add (log p) e).

(** [isHostPortAllowed]: a map lookup, false for a port that is no number. *)
Definition isHostPortAllowed (p : HTTPProxy) (port : gostring) : bool :=
  match Atoi port with
  | Err _ => false
  | Ok portNum => bool_decide (portNum ∈ allowHostPorts p)
  end.

(** [resolveAndCheckCIDR]: whether to block, and the offending address. *)
Definition resolveAndCheckCIDR (p : HTTPProxy) (lookup : Resolver) (hostname : gostring) :
    bool * option IP :=
  match ParseIP hostname with
  | Some ip => if IsBlocked (cidr p) ip then (true, Some ip) else (false, None)
  | None =>
      let '(addrs, err) := lookup hostname in
      if err && bool_decide (addrs = []) then (true, None)
      else match List.find (IsBlocked (cidr p)) addrs with
           | Some ip => (true, Some ip)
           | None => (false, None)
           end
  end.

Definition blocked_reason (ip : option IP) : gostring :=
  match ip with
  | Some ip => gs "resolved IP " ++ IPString ip ++ gs " is in blocked CIDR range"
  | None => gs "DNS resolution failed during CIDR check"
  end.

Section filter.
Context `{UnicodeTables}.

Definition checkRequest (p : HTTPProxy) (lookup : Resolver) (now : Z)
    (hostname port : gostring) : HTTPProxy * filterResult :=
  let notAllowed :=
    (add_log p (logEntry now hostname port ActionBlock (gs "domain not in allowlist")),
     MkFilter ActionBlock (gs "domain not in allowlist") []) in
  if bool_decide (hostname = hostVibepit) && bool_decide (hostGateway p ≠ []) then
    if negb (isHostPortAllowed p port) && negb (HTTPAllows (allowlist p) hostname port) then
      notAllowed
    else
      (add_log p (logEntry now hostname port ActionAllow (gs "host.vibepit")),
       MkFilter ActionAllow [] (JoinHostPort (hostGateway p) port))
  else if negb (HTTPAllows (allowlist p) hostname port) then notAllowed
  else
    match resolveAndCheckCIDR p lookup hostname with
    | (true, ip) =>
        (add_log p (logEntry now hostname port ActionBlock (blocked_reason ip)),
         MkFilter ActionBlock (blocked_reason ip) [])
    | (false, _) =>
        (add_log p (logEntry now hostname port ActionAllow []), MkFilter ActionAllow [] [])
    end.

Definition splitHostPort (hostport defaultPort : gostring) : gostring * gostring :=
  match SplitHostPort hostport with
  | Err _ => (ToLower hostport, defaultPort)
  | Ok (host, port) => (ToLower host, port)
  end.

(** ** The handlers registered by [NewHTTPProxy] *)

Inductive ConnectAction := RejectConnect | OkConnect.

Definition handleConnect (p : HTTPProxy) (lookup : Resolver) (now : Z) (host : gostring) :
    HTTPProxy * (ConnectAction * gostring) :=
  let '(hostname, port) := splitHostPort host (gs "443") in
  let '(p', result) := checkRequest p lookup now hostname port in
  match action result with
  | ActionBlock => (p', (RejectConnect, host))
  | ActionAllow =>
      if bool_decide (rewrite result ≠ []) then (p', (OkConnect, rewrite result))
      else (p', (OkConnect, host))
  end.

(** The body of a 403 answer; each names the request's host. *)
Inductive denial :=
  | NotInAllowlist (hostname : gostring)
  | ResolvesToBlockedIP (hostname : gostring)
  | CouldNotResolve (hostname : gostring).

Definition denial_of (hostname why : gostring) : denial :=
  if Contains why (gs "blocked CIDR") then ResolvesToBlockedIP hostname
  else if Contains why (gs "resolution failed") then CouldNotResolve hostname
  else NotInAllowlist hostname.

(** The two places a plain HTTP request names its host; the transport dials
    [URL.Host].  net/http fills both from the request line of a proxied
    request. *)
Record Request := MkRequest { URLHost : gostring; Host : gostring }.

(** Plain HTTP: the request that goes on, or a 403. *)
Definition handleRequest (p : HTTPProxy) (lookup : Resolver) (now : Z) (req : Request) :
    HTTPProxy * result denial Request :=
  let '(hostname, port) := splitHostPort (Host req) (gs "80") in
  let '(p', result) := checkRequest p lookup now hostname port in
  match action result with
  | ActionBlock => (p', Err (denial_of hostname (reason result)))
  | ActionAllow =>
      if bool_decide (rewrite result ≠ []) then
        (p', Ok (MkRequest (rewrite result) (rewrite result)))
      else (p', Ok req)
  end.
End filter.

Definition NewHTTPProxy (al : HTTPAllowlist) (c : CIDRBlocker) (l : LogBuffer) : HTTPProxy :=
  MkHTTPProxy al c l [] ∅.

Definition SetHostVibepit (p : HTTPProxy) (gateway : gostring) (allowedPorts : list Z) : HTTPProxy :=
  let host := match SplitHostPort gateway with Ok (h, _) => h | Err _ => gateway end in
  MkHTTPProxy (allowlist p) (cidr p) (log p) host (list_to_set allowedPorts).

(** ** Specification *)

(** No address the check saw may be blocked, and there must have been a check:
    either the name is a literal address or the resolver did not fail empty. *)
Definition addresses_ok (p : HTTPProxy) (lookup : Resolver) (hostname : gostring) : Prop :=
  match ParseIP hostname with
  | Some ip => IsBlocked (cidr p) ip = false
  | None => (∀ ip, ip ∈ (lookup hostname).1 → IsBlocked (cidr p) ip = false) ∧
            ¬ ((lookup hostname).2 = true ∧ (lookup hostname).1 = [])
  end.

Lemma resolveAndCheckCIDR_false p lookup hostname :
  (resolveAndCheckCIDR p lookup hostname).1 = false ↔ addresses_ok p lookup hostname.
Proof.
  unfold resolveAndCheckCIDR, addresses_ok.
  destruct (ParseIP hostname); [by destruct (IsBlocked _ _)|].
  destruct (lookup hostname) as [addrs err]. simpl.
  destruct (err && bool_decide (addrs = [])) eqn:E.
  { breflect. subst. naive_solver. }
  destruct (List.find _ addrs) as [ip|] eqn:Hf; simpl.
  - apply find_some in Hf as [Hin Hb]. apply list_elem_of_In in Hin.
    split; [done|]. intros [Hall _]. apply Hall in Hin. congruence.
  - split; [|done]. intros _. split.
    + intros ip Hin%list_elem_of_In. by apply (find_none _ _ Hf).
    + intros [-> ->]. done.
Qed.

Section spec.
Context `{UnicodeTables}.

(** What the proxy may let through. *)
Inductive permitted (p : HTTPProxy) (lookup : Resolver) (hostname port : gostring) :
    gostring → Prop :=
  | permit_host :
      hostname = hostVibepit → hostGateway p ≠ [] →
      isHostPortAllowed p port = true ∨ HTTPAllows (allowlist p) hostname port = true →
      permitted p lookup hostname port (JoinHostPort (hostGateway p) port)
  | permit_domain :
      ¬ (hostname = hostVibepit ∧ hostGateway p ≠ []) →
      HTTPAllows (allowlist p) hostname port = true → addresses_ok p lookup hostname →
      permitted p lookup hostname port [].

Lemma JoinHostPort_not_nil host port : JoinHostPort host port ≠ [].
Proof. unfold JoinHostPort. case_match; [done|]. by destruct host. Qed.

Lemma permitted_host_inv p lookup hostname port w :
  hostname = hostVibepit ∧ hostGateway p ≠ [] → permitted p lookup hostname port w →
  (isHostPortAllowed p port = true ∨ HTTPAllows (allowlist p) hostname port = true) ∧
  w = JoinHostPort (hostGateway p) port.
Proof. intros Hh Hp. destruct Hp; [auto|tauto]. Qed.

Lemma permitted_domain_inv p lookup hostname port w :
  ¬ (hostname = hostVibepit ∧ hostGateway p ≠ []) → permitted p lookup hostname port w →
  HTTPAllows (allowlist p) hostname port = true ∧ addresses_ok p lookup hostname ∧ w = [].
Proof. intros Hh Hp. destruct Hp; [tauto|auto]. Qed.

Lemma checkRequest_permitted p lookup now hostname port p' r :
  checkRequest p lookup now hostname port = (p', r) →
  (action r = ActionAllow → permitted p lookup hostname port (rewrite r)) ∧
  (∀ w, permitted p lookup hostname port w → action r = ActionAllow ∧ rewrite r = w) ∧
  ∃ why, p' = add_log p (logEntry now hostname port (action r) why).
Proof.
  unfold checkRequest. pose proof (resolveAndCheckCIDR_false p lookup hostname) as Hr.
  destruct (bool_decide (hostname = hostVibepit) && bool_decide (hostGateway p ≠ [])) eqn:Eh.
  - apply andb_prop in Eh as [Eh%bool_decide_eq_true Eg%bool_decide_eq_true].
    destruct (negb (isHostPortAllowed p port) && _) eqn:Ea; intros [= <- <-]; cbn [action rewrite];
      (split_and!; [| |by eexists]).
    + done.
    + intros w [Hor _]%permitted_host_inv; [|done]. destruct Hor as [Hor|Hor]; rewrite Hor in Ea;
        [done|by rewrite andb_false_r in Ea].
    + intros _. constructor 1; [done..|].
      destruct (isHostPortAllowed p port), (HTTPAllows _ _ _); auto.
    + by intros w [_ ->]%permitted_host_inv.
  - assert (Hno : ¬ (hostname = hostVibepit ∧ hostGateway p ≠ [])).
    { intros [-> Hg]. rewrite bool_decide_eq_true_2, bool_decide_eq_true_2 in Eh; done. }
    destruct (HTTPAllows (allowlist p) hostname port) eqn:Ea; cbn [negb].
    + destruct (resolveAndCheckCIDR p lookup hostname) as [[|] ip]; intros [= <- <-];
        cbn [action rewrite fst] in *; (split_and!; [| |by eexists]).
      * done.
      * intros w (_ & Hok & _)%permitted_domain_inv; [|done]. by apply Hr in Hok.
      * intros _. constructor 2; [done..|by apply Hr].
      * by intros w (_ & _ & ->)%permitted_domain_inv.
    + intros [= <- <-]. cbn [action rewrite]. split_and!; [done| |by eexists].
      intros w (Hc & _)%permitted_domain_inv; [congruence|done].
Qed.
(** Where an accepted CONNECT or request is sent. *)
Definition destination (original w : gostring) : gostring :=
  if bool_decide (w ≠ []) then w else original.

(** The shape of both handlers' answers. *)
Definition filtered (p : HTTPProxy) (lookup : Resolver) (now : Z) (hp : gostring * gostring)
    (p' : HTTPProxy) (accepted : option gostring) : Prop :=
  (∀ w, accepted = Some w ↔ permitted p lookup hp.1 hp.2 w) ∧
  ∃ why, p' = add_log p (logEntry now hp.1 hp.2
                           (if accepted then ActionAllow else ActionBlock) why).

Lemma checkRequest_filtered p lookup now hostname port p' r :
  checkRequest p lookup now hostname port = (p', r) →
  filtered p lookup now (hostname, port) p'
    (match action r with ActionAllow => Some (rewrite r) | ActionBlock => None end).
Proof.
  intros Hc. destruct (checkRequest_permitted _ _ _ _ _ _ _ Hc) as (H1 & H2 & why & ->).
  split; [|destruct (action r); by exists why].
  intros w. split.
  - destruct (action r); [|done]. intros [= <-]. by apply H1.
  - intros Hp. by destruct (H2 w Hp) as [-> ->].
Qed.

Lemma handleConnect_filtered p lookup now host :
  let '(p', (act, target)) := handleConnect p lookup now host in
  ∃ accepted, filtered p lookup now (splitHostPort host (gs "443")) p' accepted ∧
    match accepted with
    | Some w => act = OkConnect ∧ target = destination host w
    | None => act = RejectConnect ∧ target = host
    end.
Proof.
  unfold handleConnect, destination.
  destruct (splitHostPort host (gs "443")) as [hostname port]. simpl.
  destruct (checkRequest _ _ _ _ _) as [p' r] eqn:Hc. apply checkRequest_filtered in Hc.
  destruct (action r); [|by exists None].
  destruct (bool_decide (rewrite r ≠ [])) eqn:E; exists (Some (rewrite r)); by rewrite E.
Qed.

Lemma handleRequest_filtered p lookup now req :
  let '(p', answer) := handleRequest p lookup now req in
  ∃ accepted, filtered p lookup now (splitHostPort (Host req) (gs "80")) p' accepted ∧
    match accepted, answer with
    | Some w, Ok req' => URLHost req' = destination (URLHost req) w ∧
                         Host req' = destination (Host req) w
    | None, Err _ => True
    | _, _ => False
    end.
Proof.
  unfold handleRequest, destination.
  destruct (splitHostPort (Host req) (gs "80")) as [hostname port]. simpl.
  destruct (checkRequest _ _ _ _ _) as [p' r] eqn:Hc. apply checkRequest_filtered in Hc.
  destruct (action r); [|by exists None].
  destruct (bool_decide (rewrite r ≠ [])) eqn:E; exists (Some (rewrite r)); by rewrite E.
Qed.

(** C3: a CONNECT is tunnelled exactly when the request is permitted: the host
    gateway on one of its ports, or an allowlisted name none of whose checked
    addresses is blocked.  An accepted tunnel goes to the gateway or to the
    host asked for, and each request leaves one log entry with its verdict. *)
Theorem handleConnect_spec p lookup now host :
  let hp := splitHostPort host (gs "443") in
  let '(p', (act, target)) := handleConnect p lookup now host in
  ∃ accepted, filtered p lookup now hp p' accepted ∧
    match accepted with
    | Some w => act = OkConnect ∧ target = destination host w
    | None => act = RejectConnect ∧ target = host
    end.
Proof. apply handleConnect_filtered. Qed.

(** A plain HTTP request is forwarded exactly when it is permitted, under
    the same filter as CONNECT.  When net/http has set [URL.Host] and [Host]
    to the same name, the address dialled is the gateway or the very host
    that was checked. *)
Theorem handleRequest_spec p lookup now req :
  URLHost req = Host req →
  let hp := splitHostPort (Host req) (gs "80") in
  let '(p', answer) := handleRequest p lookup now req in
  ∃ accepted, filtered p lookup now hp p' accepted ∧
    match accepted, answer with
    | Some w, Ok req' => URLHost req' = destination (Host req) w ∧ Host req' = URLHost req'
    | None, Err _ => True
    | _, _ => False
    end.
Proof.
  intros Hsame. pose proof (handleRequest_filtered p lookup now req) as Hf. cbv zeta.
  destruct (handleRequest p lookup now req) as [p' answer].
  destruct Hf as (accepted & Hf & Ha). exists accepted. split; [done|].
  destruct accepted, answer; try done. rewrite Hsame in Ha. destruct Ha as [-> ->]. done.
Qed.
End spec.

(** ** A concrete proxy *)

Section example.
#[local] Existing Instance ascii_only.

Definition demo_proxy : HTTPProxy :=
  NewHTTPProxy (match NewHTTPAllowlist [gs "example.com:443"; gs "example.com:80"] with
                | Ok al => al | Err _ => [] end)
               (NewCIDRBlocker [] []) (NewLogBuffer 4).

Definition public_then (ip : IP) : Resolver := λ _, ([ip], false).

Lemma handleRequest_spec_witness :
  ∃ p', handleRequest demo_proxy (public_then [93; 184; 216; 34]) 0
          (MkRequest (gs "example.com") (gs "example.com")) =
        (p', Ok (MkRequest (gs "example.com") (gs "example.com"))) ∧
        ∃ accepted, filtered demo_proxy (public_then [93; 184; 216; 34]) 0
          (splitHostPort (gs "example.com") (gs "80")) p' accepted.
Proof.
  eexists. split; [vm_compute; reflexivity|].
  pose proof (handleRequest_spec demo_proxy (public_then [93; 184; 216; 34]) 0
    (MkRequest (gs "example.com") (gs "example.com")) eq_refl) as Hs.
  cbv zeta in Hs. destruct (handleRequest _ _ _ _) as [p' a] eqn:E.
  vm_compute in E. injection E as <- <-.
  destruct Hs as (acc & Hf & _). exists acc. exact Hf.
Defined.

(** [dialer.Dial] resolves the accepted target again: the addresses of the
    second answer are not the ones that were checked. *)
Definition dialed (lookup : Resolver) (hostname : gostring) : list IP :=
  match ParseIP hostname with Some ip => [ip] | None => (lookup hostname).1 end.

Example rebinding_after_check :
  (handleConnect demo_proxy (public_then [93; 184; 216; 34]) 0 (gs "example.com:443")).2 =
    (OkConnect, gs "example.com:443") ∧
  IsBlocked (cidr demo_proxy) [93; 184; 216; 34] = false ∧
  forallb (IsBlocked (cidr demo_proxy)) (dialed (public_then [10; 0; 0; 1]) (gs "example.com")) = true.
Proof. vm_compute. done. Qed.
End example.
