(* ===== verification/DnsServer.v ===== *)
(** * The filtering DNS server ([proxy/dns.go])

    The query handler and its address check.  The DNS library is a parameter:
    a message is its questions and answers, [exchange] is what the upstream
    resolver answers, and a reply names the library call that builds it. *)

From S2P Require Import Prelude GoStrings GoNet Allowlist Cidr LogBuffer.
Open Scope Z_scope.

Record Question := MkQuestion { Name : gostring; Qtype : Z }.

Definition TypeA : Z := 1.

(** An answer record: the two kinds the filter looks into, and the others. *)
Inductive RR :=
  | RR_A (ip : IP)
  | RR_AAAA (ip : IP)
  | RR_other (rrtype : Z) (rdata : gostring).

Record Msg := MkMsg { Questions : list Question; Answer : list RR }.

(** What is written to the client. *)
Inductive reply :=
  | ServerFailure                                   (* SetRcode, SERVFAIL *)
  | NameError                                       (* SetRcode, NXDOMAIN *)
  | Synthetic (name : gostring) (ttl : Z) (ip : IP) (* SetReply and one A record *)
  | Forwarded (resp : Msg).

Record DNSServer := MkDNSServer {
  allowlist : DNSAllowlist;
  cidr : CIDRBlocker;
  log : LogBuffer;
  proxyIP : option IP;
}.

Definition NewDNSServer (al : DNSAllowlist) (c : CIDRBlocker) (l : LogBuffer) : DNSServer :=
  MkDNSServer al c l None.

Definition SetProxyIP (s : DNSServer) (ip : IP) : DNSServer :=
  MkDNSServer (allowlist s) (cidr s) (log s) (Some ip).

Fixpoint hasBlockedRR (c : CIDRBlocker) (answers : list RR) : bool :=
  match answers with
  | [] => false
  | RR_A ip :: rest | RR_AAAA ip :: rest => if IsBlocked c ip then true else hasBlockedRR c rest
  | RR_other _ _ :: rest => hasBlockedRR c rest
  end.

Definition hasBlockedIP (s : DNSServer) (msg : Msg) : bool := hasBlockedRR (cidr s) (Answer msg).

Definition add_log (s : DNSServer) (e : LogEntry) : DNSServer :=
  MkDNSServer (allowlist s) (cidr s) (Add (log s) e) (proxyIP s).

Definition dnsEntry (now : Z) (domain : gostring) (a : Action) (why : gostring) : LogEntry :=
  MkLogEntry 0 now domain [] a SourceDNS why.

Section handler.
Context `{UnicodeTables}.

Definition query_domain (q : Question) : gostring := TrimSuffix (ToLower (Name q)) (gs ".").

(** [exchange] is [None] when the upstream query fails. *)
Definition handler (s : DNSServer) (exchange : Msg → option Msg) (now : Z) (r : Msg) :
    DNSServer * reply :=
  match Questions r with
  | [] => (s, ServerFailure)
  | q :: _ =>
      let domain := query_domain q in
      match (if bool_decide (domain = gs "host.vibepit") && (Qtype q =? TypeA)
             then proxyIP s else None) with
      | Some ip => (add_log s (dnsEntry now domain ActionAllow []), Synthetic (Name q) 60 ip)
      | None =>
          if negb (DNSAllows (allowlist s) domain) then
            (add_log s (dnsEntry now domain ActionBlock (gs "domain not in allowlist")), NameError)
          else match exchange r with
               | None => (s, ServerFailure)
               | Some resp =>
                   if hasBlockedIP s resp then
                     (add_log s (dnsEntry now domain ActionBlock
                                   (gs "resolved IP in blocked CIDR range")), NameError)
                   else (add_log s (dnsEntry now domain ActionAllow []), Forwarded resp)
               end
      end
  end.
End handler.

(** ** Properties *)

Definition rr_ip (rr : RR) : option IP :=
  match rr with RR_A ip | RR_AAAA ip => Some ip | RR_other _ _ => None end.

Lemma hasBlockedRR_spec c answers :
  hasBlockedRR c answers = false ↔
  ∀ rr ip, rr ∈ answers → rr_ip rr = Some ip → IsBlocked c ip = false.
Proof.
  induction answers as [|rr answers IH]; [by split; [intros _ rr ip []%elem_of_nil|]|].
  transitivity ((∀ ip, rr_ip rr = Some ip → IsBlocked c ip = false) ∧ hasBlockedRR c answers = false).
  - destruct rr; simpl; try destruct (IsBlocked c ip) eqn:?; naive_solver.
  - rewrite IH. setoid_rewrite elem_of_cons. naive_solver.
Qed.

Section spec.
Context `{UnicodeTables}.

(** The answers a client may see for a question. *)
Inductive answerable (s : DNSServer) (exchange : Msg → option Msg) (r : Msg) (q : Question) :
    reply → Prop :=
  | answer_host ip :
      query_domain q = gs "host.vibepit" → Qtype q = TypeA → proxyIP s = Some ip →
      answerable s exchange r q (Synthetic (Name q) 60 ip)
  | answer_forward resp :
      ¬ (query_domain q = gs "host.vibepit" ∧ Qtype q = TypeA ∧ is_Some (proxyIP s)) →
      DNSAllows (allowlist s) (query_domain q) = true → exchange r = Some resp →
      (∀ rr ip, rr ∈ Answer resp → rr_ip rr = Some ip → IsBlocked (cidr s) ip = false) →
      answerable s exchange r q (Forwarded resp).

Definition refusal (a : reply) : bool :=
  match a with ServerFailure | NameError => true | _ => false end.

(** The branch of [handler] taken by the host name. *)
Lemma host_branch s q :
  (if bool_decide (query_domain q = gs "host.vibepit") && (Qtype q =? TypeA)
   then proxyIP s else None) =
  if decide (query_domain q = gs "host.vibepit" ∧ Qtype q = TypeA) then proxyIP s else None.
Proof.
  case_bool_decide; simpl; [|by rewrite decide_False by tauto].
  destruct (Z.eqb_spec (Qtype q) TypeA); [by rewrite decide_True|by rewrite decide_False by tauto].
Qed.

Lemma handler_cases s exchange now r q qs s' a :
  Questions r = q :: qs → handler s exchange now r = (s', a) →
  (answerable s exchange r q a ∧ s' = add_log s (dnsEntry now (query_domain q) ActionAllow [])) ∨
  (refusal a = true ∧ (∀ a', ¬ answerable s exchange r q a') ∧
   (s' = s ∧ a = ServerFailure ∧ exchange r = None ∨
    a = NameError ∧ ∃ why, s' = add_log s (dnsEntry now (query_domain q) ActionBlock why))).
Proof.
  intros Hq. unfold handler. rewrite Hq, host_branch.
  destruct (if decide _ then _ else _) as [ip|] eqn:Eh.
  { case_decide as Hd; [|done]. intros [= <- <-]. left. split; [|done]. by destruct Hd; constructor 1. }
  assert (Hno : ¬ (query_domain q = gs "host.vibepit" ∧ Qtype q = TypeA ∧ is_Some (proxyIP s))).
  { intros (? & ? & [ip Hip]). rewrite decide_True in Eh by done. congruence. }
  assert (Hsyn : ∀ ip, query_domain q = gs "host.vibepit" → Qtype q = TypeA → proxyIP s ≠ Some ip).
  { intros ip ?? Hip. apply Hno. eauto. }
  destruct (DNSAllows (allowlist s) (query_domain q)) eqn:Ea; cbn [negb].
  - destruct (exchange r) as [resp|] eqn:Ee.
    + pose proof (hasBlockedRR_spec (cidr s) (Answer resp)) as Hb. unfold hasBlockedIP.
      destruct (hasBlockedRR _ _); intros [= <- <-].
      * right. split_and!; [done| |right; split; [done|by eexists]].
        intros a' Ha. destruct Ha as [?|resp' ? ? Hr Hall]; [by eapply Hsyn|].
        rewrite Ee in Hr. injection Hr as <-. by apply Hb in Hall.
      * left. split; [|done]. constructor 2; [done..|]. by apply Hb.
    + intros [= <- <-]. right. split_and!; [done| |by left].
      intros a' Ha. destruct Ha; [by eapply Hsyn|congruence].
  - intros [= <- <-]. right. split_and!; [done| |right; split; [done|by eexists]].
    intros a' Ha. destruct Ha; [by eapply Hsyn|congruence].
Qed.

End spec.

Definition demo_dns : DNSServer :=
  SetProxyIP (NewDNSServer (match NewDNSAllowlist (H := ascii_only) [gs "example.com"] with
                            | Ok al => al | Err _ => [] end)
                (NewCIDRBlocker [] []) (NewLogBuffer 4)) [10; 0; 0; 2].

Definition demo_query : Msg := MkMsg [MkQuestion (gs "Example.com.") TypeA] [].
Definition demo_upstream (ip : IP) (_ : Msg) : option Msg := Some (MkMsg [] [RR_A ip]).

