(* ===== verification/ControlApi.v ===== *)
(** * The control API ([proxy/api.go])

    The mTLS-protected endpoint through which the host reads the log and adds
    allowlist entries.  JSON is a parameter: [decode] is what the decoder makes
    of a request body, and responses carry the value that is encoded. *)

From S2P Require Import Prelude GoStrings Allowlist LogBuffer.

(** ** Panic recovery

    A handler is what it does to its [ResponseWriter], and whether it panics. *)
Inductive writerOp := WriteHeader (code : Z) | Write (body : gostring).

Record responseState := MkResponseState { sent : list writerOp; written : bool }.

Definition rs_do (rw : responseState) (op : writerOp) : responseState :=
  MkResponseState (sent rw ++ [op]) true.

Definition quoted (s : gostring) : gostring := "034"%char :: s ++ ["034"%char].

Definition internalError : gostring :=
  gs "{" ++ quoted (gs "error") ++ gs ":" ++ quoted (gs "internal server error") ++ gs "}" ++
  ["010"%char].

(** [ServeHTTP]: runs the handler on the tracking writer and, when it panics
    before anything was sent, answers 500 on the underlying writer. *)
Definition ServeHTTP (ops : list writerOp) (panics : bool) : list writerOp :=
  let rw := fold_left rs_do ops (MkResponseState [] false) in
  if panics && negb (written rw) then
    sent rw ++ [WriteHeader 500; Write internalError]
  else sent rw.

Lemma fold_rs_do ops rw :
  fold_left rs_do ops rw =
  MkResponseState (sent rw ++ ops) (written rw || bool_decide (ops ≠ [])).
Proof.
  revert rw. induction ops as [|op ops IH]; intros [s w]; simpl.
  - by rewrite app_nil_r, orb_false_r.
  - rewrite IH. cbn. f_equal; [by rewrite <- app_assoc|]. by rewrite orb_true_r.
Qed.

Lemma ServeHTTP_recover ops panics :
  ServeHTTP ops panics =
  match ops, panics with
  | [], true => [WriteHeader 500; Write internalError]
  | _, _ => ops
  end.
Proof. unfold ServeHTTP. rewrite fold_rs_do. by destruct ops, panics. Qed.

(** ** Routing and handlers *)

Inductive endpoint := EpLogs | EpStats | EpConfig | EpAllowHTTP | EpAllowDNS.

#[global] Instance endpoint_eq_dec : EqDecision endpoint.
Proof. solve_decision. Defined.

(** The patterns registered on the mux; a pattern for GET also takes HEAD.
    [None]: the mux answers by itself (not found, method not allowed). *)
Definition route (method path : gostring) : option endpoint :=
  let get := bool_decide (method = gs "GET") || bool_decide (method = gs "HEAD") in
  let post := bool_decide (method = gs "POST") in
  if get && bool_decide (path = gs "/logs") then Some EpLogs
  else if get && bool_decide (path = gs "/stats") then Some EpStats
  else if get && bool_decide (path = gs "/config") then Some EpConfig
  else if post && bool_decide (path = gs "/allow-http") then Some EpAllowHTTP
  else if post && bool_decide (path = gs "/allow-dns") then Some EpAllowDNS
  else None.

Section api.
Context `{UnicodeTables}.
(** The bytes of a body, the configuration, and the JSON decoder: the
    [entries] member of the decoded object, empty when it is missing. *)
Context {Body Config : Type} (decode : Body → option (list gostring)).

Record ControlAPI := MkControlAPI {
  log : LogBuffer;
  config : Config;
  httpAllowlist : HTTPAllowlist;
  dnsAllowlist : DNSAllowlist;
}.

Inductive badRequest := InvalidJSON | EntriesRequired | BadEntry (e : entryErr).

Inductive response :=
  | RLogs (es : list LogEntry)
  | RStats (st : gmap gostring DomainStats)
  | RConfig (c : Config)
  | RAdded (entries : list gostring)
  | RBadRequest (why : badRequest)
  | RUnrouted.

(** [after] is the query parameter, empty when absent.  The error of
    [ParseUint] is dropped: a malformed value reads as 0 and one that is too
    large as the largest identifier. *)
Definition handleLogs (a : ControlAPI) (after : gostring) : response :=
  let afterID := if bool_decide (after = []) then 0%Z else (ParseUint after 64).1 in
  RLogs (EntriesAfter (log a) afterID).

Definition handleStats (a : ControlAPI) : response := RStats (Stats (log a)).
Definition handleConfig (a : ControlAPI) : response := RConfig (config a).

Definition decodeAllowRequest (body : Body) : result badRequest (list gostring) :=
  match decode body with
  | None => Err InvalidJSON
  | Some entries => if bool_decide (entries = []) then Err EntriesRequired else Ok entries
  end.

Definition handleAllowHTTP (a : ControlAPI) (body : Body) : ControlAPI * response :=
  match decodeAllowRequest body with
  | Err e => (a, RBadRequest e)
  | Ok entries =>
      let '(al, err) := HTTPAdd (httpAllowlist a) entries in
      let a' := MkControlAPI (log a) (config a) al (dnsAllowlist a) in
      match err with
      | Some e => (a', RBadRequest (BadEntry e))
      | None => (a', RAdded entries)
      end
  end.

Definition handleAllowDNS (a : ControlAPI) (body : Body) : ControlAPI * response :=
  match decodeAllowRequest body with
  | Err e => (a, RBadRequest e)
  | Ok entries =>
      let '(al, err) := DNSAdd (dnsAllowlist a) entries in
      let a' := MkControlAPI (log a) (config a) (httpAllowlist a) al in
      match err with
      | Some e => (a', RBadRequest (BadEntry e))
      | None => (a', RAdded entries)
      end
  end.

Record apiRequest := MkApiRequest {
  method : gostring; path : gostring; after : gostring; body : Body }.

Definition serve (a : ControlAPI) (r : apiRequest) : ControlAPI * response :=
  match route (method r) (path r) with
  | Some EpLogs => (a, handleLogs a (after r))
  | Some EpStats => (a, handleStats a)
  | Some EpConfig => (a, handleConfig a)
  | Some EpAllowHTTP => handleAllowHTTP a (body r)
  | Some EpAllowDNS => handleAllowDNS a (body r)
  | None => (a, RUnrouted)
  end.

(** ** Properties *)

Lemma serve_mono a r host port :
  (HTTPAllows (httpAllowlist a) host port = true →
   HTTPAllows (httpAllowlist (serve a r).1) host port = true) ∧
  (DNSAllows (dnsAllowlist a) host = true →
   DNSAllows (dnsAllowlist (serve a r).1) host = true).
Proof.
  unfold serve, handleAllowHTTP, handleAllowDNS.
  destruct (route _ _) as [[]|]; try done; destruct (decodeAllowRequest _) as [es|]; try done.
  - pose proof (HTTPAdd_mono (httpAllowlist a) es host port) as Hm.
    destruct (HTTPAdd _ es) as [al [e|]]; cbn in *; auto.
  - pose proof (DNSAdd_mono (dnsAllowlist a) es host) as Hm.
    destruct (DNSAdd _ es) as [al [e|]]; cbn in *; auto.
Qed.

Lemma serve_frame a r : log (serve a r).1 = log a ∧ config (serve a r).1 = config a.
Proof.
  unfold serve, handleAllowHTTP, handleAllowDNS.
  destruct (route _ _) as [[]|]; try done; destruct (decodeAllowRequest _) as [es|]; try done.
  - by destruct (HTTPAdd _ es) as [al [e|]].
  - by destruct (DNSAdd _ es) as [al [e|]].
Qed.

(** Allowlist requests are all-or-nothing.  POST /allow-http answers with
    the entries exactly when the body decodes to a non-empty list of valid
    entries, and then the allowlist is extended by their rules in order; in
    every other case it answers 400 and nothing changes. *)
Theorem handleAllowHTTP_spec a b a' resp :
  handleAllowHTTP a b = (a', resp) →
  (∃ entries, decode b = Some entries ∧ entries ≠ [] ∧
     Forall (λ e, ValidateHTTPEntry e = None) entries ∧ resp = RAdded entries ∧
     a' = MkControlAPI (log a) (config a)
            (httpAllowlist a ++ (parseHTTPRule <$> entries)) (dnsAllowlist a)) ∨
  (∃ why, resp = RBadRequest why ∧ a' = a ∧
     ∀ entries, decode b = Some entries → entries ≠ [] →
       ¬ Forall (λ e, ValidateHTTPEntry e = None) entries).
Proof.
  unfold handleAllowHTTP, decodeAllowRequest, HTTPAdd.
  destruct (decode b) as [es|]; [|intros [= <- <-]; right; by eexists].
  case_bool_decide as He; [subst|].
  { intros [= <- <-]. right. eexists. split_and!; [done..|]. by intros ? [= <-]. }
  pose proof (first_error_None ValidateHTTPEntry es) as Hv. fold ValidateHTTPEntries in Hv.
  unfold ValidateHTTPEntries in *.
  destruct (first_error ValidateHTTPEntry es) as [e|]; intros [= <- <-].
  - right. exists (BadEntry e). split_and!; [done|by destruct a|]. intros ? [= <-] _ Hf.
    by apply Hv in Hf.
  - left. exists es. split_and!; try done. by apply Hv.
Qed.
End api.
Arguments ControlAPI : clear implicits.
Arguments response : clear implicits.
Arguments apiRequest : clear implicits.

(** A decoder for the witness: bodies are already lists, [None] is malformed. *)
Definition demo_api : ControlAPI unit :=
  MkControlAPI (NewLogBuffer 4) tt [] [].

Lemma handleAllowHTTP_spec_witness :
  let ans := handleAllowHTTP (H := ascii_only) (λ b : option (list gostring), b) demo_api
               (Some [gs "example.com:443"]) in
  ∃ entries, ans.2 = RAdded entries ∧
    httpAllowlist ans.1 = [] ++ (parseHTTPRule (H := ascii_only) <$> entries).
Proof.
  intros ans.
  destruct (handleAllowHTTP_spec (H := ascii_only) (λ b : option (list gostring), b) demo_api
    (Some [gs "example.com:443"]) ans.1 ans.2 (surjective_pairing ans))
    as [(es & _ & _ & _ & Hr & Ha)|(why & Hr & _)].
  - exists es. split; [exact Hr|]. rewrite Ha. reflexivity.
  - exfalso. vm_compute in Hr. discriminate Hr.
Defined.
