(* ===== verification/ProxyServer.v ===== *)
(** * The proxy server as a whole ([proxy/server.go])

    [Run] wires one HTTP allowlist, one DNS allowlist, one address filter and
    one log into the HTTP proxy, the DNS server and the control API.  The
    components share these objects by pointer, so the model keeps a single
    store, [world], of which each component sees its part; an [event] is one
    request to one of the three servers.  The theorems are about any sequence
    of events from a started server. *)

From S2P Require Import Prelude GoStrings GoNet HttpProxy DnsServer ControlApi.
From S2P Require Import Allowlist Cidr LogBuffer.
Open Scope Z_scope.

(** ** What the servers rely on in the log

    Only this interface is used below; [LogBuffer] implements it. *)
Class AuditLog (L : Type) := {
  audit_wf : L → Prop;
  audit_add : L → LogEntry → L;
  audit_entries : L → list LogEntry;
  audit_add_wf l e : audit_wf l → audit_wf (audit_add l e);
  audit_add_old l e e' :
    audit_wf l → e' ∈ audit_entries (audit_add l e) →
    (∃ id, e' = set_id id e) ∨ e' ∈ audit_entries l;
  audit_add_new l e :
    audit_wf l → ∃ id, last (audit_entries (audit_add l e)) = Some (set_id id e);
}.

#[global] Program Instance LogBuffer_audit : AuditLog LogBuffer := {|
  audit_wf := wf; audit_add := Add; audit_entries := Entries |}.
Next Obligation. apply wf_Add. Qed.
Next Obligation.
  unfold Entries. intros l e e' Hwf. rewrite entriesLocked_Add by done. unfold lastn.
  intros [i Hi]%list_elem_of_lookup. rewrite lookup_drop in Hi.
  apply list_elem_of_lookup_2, elem_of_app in Hi as [|Hi%list_elem_of_singleton]; eauto.
Qed.
Next Obligation.
  unfold Entries. intros l e Hwf. rewrite entriesLocked_Add by done. exists (nextID l).
  rewrite last_lookup, length_lastn, length_app. unfold lastn. rewrite lookup_drop, length_app. simpl.
  pose proof (length_entriesLocked l Hwf) as Hl. destruct Hwf as [Hc _ Hp].
  rewrite lookup_app_r by (destruct (full l); lia).
  replace (_ - _)%nat with 0%nat; [done|]. destruct (full l); lia.
Qed.

(** ** Configuration and start-up *)

Record ProxyConfig := MkProxyConfig {
  AllowHTTP : list gostring;
  AllowDNS : list gostring;
  BlockCIDR : list gostring;
  AllowCIDR : list gostring;
  UpstreamDNS : gostring;
  AllowHostPorts : list Z;
  ProxyIP : gostring;
  HostGateway : gostring;
  ProxyPort : Z;
  ControlAPIPort : Z;
  DNSPort : Z;
  SSHForwardAddr : gostring;
}.

Definition DefaultUpstreamDNS : gostring := gs "9.9.9.9:53".
Definition DefaultDNSPort : Z := 53.
Definition LogBufferCapacity : nat := N.to_nat 10000.

(** [NewServer] after the file was read and decoded. *)
Definition NewServer (cfg : ProxyConfig) : ProxyConfig :=
  if bool_decide (UpstreamDNS cfg = []) then
    MkProxyConfig (AllowHTTP cfg) (AllowDNS cfg) (BlockCIDR cfg) (AllowCIDR cfg)
      DefaultUpstreamDNS (AllowHostPorts cfg) (ProxyIP cfg) (HostGateway cfg) (ProxyPort cfg)
      (ControlAPIPort cfg) (DNSPort cfg) (SSHForwardAddr cfg)
  else cfg.

Definition dnsPort (cfg : ProxyConfig) : Z :=
  if 0 <? DNSPort cfg then DNSPort cfg else DefaultDNSPort.

Record world := World {
  w_http : HTTPAllowlist;
  w_dns : DNSAllowlist;
  w_cidr : CIDRBlocker;
  w_log : LogBuffer;
  w_gateway : gostring;
  w_ports : gset Z;
  w_proxyIP : option IP;
  w_config : ProxyConfig;
}.

Inductive runErr := ErrAllowHTTP (e : entryErr) | ErrAllowDNS (e : entryErr).

(** ** Each component's view of the store *)

Definition http_view (w : world) : HttpProxy.HTTPProxy :=
  HttpProxy.MkHTTPProxy (w_http w) (w_cidr w) (w_log w) (w_gateway w) (w_ports w).
Definition dns_view (w : world) : DnsServer.DNSServer :=
  DnsServer.MkDNSServer (w_dns w) (w_cidr w) (w_log w) (w_proxyIP w).
Definition api_view (w : world) : ControlApi.ControlAPI ProxyConfig :=
  ControlApi.MkControlAPI (w_log w) (w_config w) (w_http w) (w_dns w).

Definition put_http (w : world) (p : HttpProxy.HTTPProxy) : world :=
  World (HttpProxy.allowlist p) (w_dns w) (HttpProxy.cidr p) (HttpProxy.log p)
    (HttpProxy.hostGateway p) (HttpProxy.allowHostPorts p) (w_proxyIP w) (w_config w).
Definition put_dns (w : world) (s : DnsServer.DNSServer) : world :=
  World (w_http w) (DnsServer.allowlist s) (DnsServer.cidr s) (DnsServer.log s)
    (w_gateway w) (w_ports w) (DnsServer.proxyIP s) (w_config w).
Definition put_api (w : world) (a : ControlApi.ControlAPI ProxyConfig) : world :=
  World (ControlApi.httpAllowlist a) (ControlApi.dnsAllowlist a) (w_cidr w) (ControlApi.log a)
    (w_gateway w) (w_ports w) (w_proxyIP w) (ControlApi.config a).

Section system.
Context `{UnicodeTables}.
Context {Body : Type} (decode : Body → option (list gostring)).

(** [Run] up to the point where the servers listen. *)
Definition Run (cfg : ProxyConfig) : result runErr world :=
  match NewHTTPAllowlist (AllowHTTP cfg) with
  | Err e => Err (ErrAllowHTTP e)
  | Ok allowlist =>
      match NewDNSAllowlist (AllowDNS cfg) with
      | Err e => Err (ErrAllowDNS e)
      | Ok dnsAllowlist =>
          let cidr := NewCIDRBlocker (BlockCIDR cfg) (AllowCIDR cfg) in
          let log := NewLogBuffer LogBufferCapacity in
          let httpProxy := HttpProxy.NewHTTPProxy allowlist cidr log in
          let dnsServer := DnsServer.NewDNSServer dnsAllowlist cidr log in
          let dnsServer := match ParseIP (ProxyIP cfg) with
                           | Some ip => DnsServer.SetProxyIP dnsServer ip
                           | None => dnsServer
                           end in
          let httpProxy := if bool_decide (HostGateway cfg ≠ []) then
                             HttpProxy.SetHostVibepit httpProxy (HostGateway cfg) (AllowHostPorts cfg)
                           else httpProxy in
          Ok (World allowlist dnsAllowlist cidr log
                (HttpProxy.hostGateway httpProxy) (HttpProxy.allowHostPorts httpProxy)
                (DnsServer.proxyIP dnsServer) cfg)
      end
  end.

(** ** Events *)

Inductive event :=
  | EConnect (lookup : HttpProxy.Resolver) (now : Z) (host : gostring)
  | ERequest (lookup : HttpProxy.Resolver) (now : Z) (req : HttpProxy.Request)
  | EQuery (exchange : DnsServer.Msg → option DnsServer.Msg) (now : Z) (r : DnsServer.Msg)
  | EApi (r : ControlApi.apiRequest Body).

Inductive output :=
  | OConnect (act : HttpProxy.ConnectAction) (target : gostring)
  | ORequest (answer : result HttpProxy.denial HttpProxy.Request)
  | OReply (a : DnsServer.reply)
  | OApi (resp : ControlApi.response ProxyConfig).

Definition step (w : world) (ev : event) : world * output :=
  match ev with
  | EConnect lookup now host =>
      let '(p, (act, target)) := HttpProxy.handleConnect (http_view w) lookup now host in
      (put_http w p, OConnect act target)
  | ERequest lookup now req =>
      let '(p, answer) := HttpProxy.handleRequest (http_view w) lookup now req in
      (put_http w p, ORequest answer)
  | EQuery exchange now r =>
      let '(s, a) := DnsServer.handler (dns_view w) exchange now r in
      (put_dns w s, OReply a)
  | EApi r =>
      let '(a, resp) := ControlApi.serve decode (api_view w) r in
      (put_api w a, OApi resp)
  end.

Definition run (w : world) (evs : list event) : world := fold_left (λ w ev, (step w ev).1) evs w.

(** ** Every event either logs one entry or changes the allowlists *)

Definition with_log (w : world) (e : LogEntry) : world :=
  World (w_http w) (w_dns w) (w_cidr w) (audit_add (w_log w) e) (w_gateway w) (w_ports w)
    (w_proxyIP w) (w_config w).

(** A request that was let out of the sandbox. *)
Definition grant (o : output) : bool :=
  match o with
  | OConnect act _ => match act with HttpProxy.OkConnect => true | _ => false end
  | ORequest answer => is_ok answer
  | OReply a => negb (DnsServer.refusal a)
  | OApi _ => false
  end.

(** What makes an allowed entry of the log legitimate. *)
Definition justified (w : world) (e : LogEntry) : Prop :=
  match ESource e with
  | SourceProxy =>
      HTTPAllows (w_http w) (Domain e) (Port e) = true ∨
      (Domain e = gs "host.vibepit" ∧ w_gateway w ≠ [] ∧
       HttpProxy.isHostPortAllowed (http_view w) (Port e) = true)
  | SourceDNS =>
      DNSAllows (w_dns w) (Domain e) = true ∨
      (Domain e = gs "host.vibepit" ∧ is_Some (w_proxyIP w))
  end.

Lemma filtered_with_log w lookup now hp p accepted :
  HttpProxy.filtered (http_view w) lookup now hp p accepted →
  ∃ e, put_http w p = with_log w e ∧ (EAction e = ActionAllow ↔ is_Some accepted) ∧
       (EAction e = ActionAllow → justified w e).
Proof.
  intros [Hp [why ->]]. eexists. split; [reflexivity|].
  destruct accepted as [v|]; cbn; [|by split; [split; [|intros [? [=]]]|]].
  split; [by split; [eauto|]|]. intros _. unfold justified. cbn.
  destruct (proj1 (Hp v) eq_refl) as [-> ? [|]|]; cbn in *; auto.
Qed.

Lemma step_cases w ev :
  match ev with EApi _ => False | _ => True end →
  (∃ e, (step w ev).1 = with_log w e ∧ (EAction e = ActionAllow ↔ grant (step w ev).2 = true) ∧
        (EAction e = ActionAllow → justified w e)) ∨
  ((step w ev).1 = w ∧ grant (step w ev).2 = false ∧ ∃ ex now r, ev = EQuery ex now r).
Proof.
  destruct ev as [lookup now host|lookup now req|exchange now r|r]; [| | |done]; intros _; simpl.
  - left. pose proof (HttpProxy.handleConnect_filtered (http_view w) lookup now host) as Hs.
    destruct (HttpProxy.handleConnect _ _ _ _) as [p [act target]].
    destruct Hs as (acc & Hf & Ha).
    destruct (filtered_with_log _ _ _ _ _ _ Hf) as (e & He & Hiff & Hj).
    exists e. split_and!; [done| |done]. rewrite Hiff. simpl.
    by destruct acc; destruct Ha as [-> _]; rewrite ?is_Some_alt.
  - left. pose proof (HttpProxy.handleRequest_filtered (http_view w) lookup now req) as Hs.
    destruct (HttpProxy.handleRequest _ _ _ _) as [p a].
    destruct Hs as (acc & Hf & Ha).
    destruct (filtered_with_log _ _ _ _ _ _ Hf) as (e & He & Hiff & Hj).
    exists e. split_and!; [done| |done]. rewrite Hiff. simpl.
    by destruct acc, a; rewrite ?is_Some_alt.
  - destruct (DnsServer.handler _ _ _ _) as [s a] eqn:Hh.
    destruct (DnsServer.Questions r) as [|q qs] eqn:Hq.
    { unfold DnsServer.handler in Hh. rewrite Hq in Hh. injection Hh as <- <-.
      right. destruct w. by eauto 10. }
    destruct (DnsServer.handler_cases _ _ _ _ _ _ _ _ Hq Hh)
      as [[Ha ->]|(Hr & _ & [(-> & -> & _)|(-> & why & ->)])].
    + left. eexists. split_and!; [reflexivity|by destruct Ha|]. intros _. unfold justified. cbn.
      destruct Ha as [ip Hd _ Hip|]; eauto.
    + right. destruct w. by eauto 10.
    + left. eexists. split_and!; [reflexivity|done|done].
Qed.

(** ** The invariant *)

Record sound (w : world) : Prop := {
  sound_log : audit_wf (w_log w);
  sound_entries : ∀ e, e ∈ audit_entries (w_log w) → EAction e = ActionAllow → justified w e;
}.

Lemma justified_set_id w id e : justified w (set_id id e) ↔ justified w e.
Proof. done. Qed.

Lemma with_log_sound w e :
  sound w → (EAction e = ActionAllow → justified w e) → sound (with_log w e).
Proof.
  intros [Hl He] Hj. split; [by apply audit_add_wf|].
  intros e' [[id ->]|Hin]%audit_add_old Ha; [by apply Hj| |done]. by apply He.
Qed.

Lemma api_sound w r : sound w → sound (step w (EApi r)).1.
Proof.
  intros [Hl He]. simpl.
  pose proof (λ h p, ControlApi.serve_mono decode (api_view w) r h p) as Hm.
  pose proof (ControlApi.serve_frame decode (api_view w) r) as [Hlog _].
  destruct (ControlApi.serve decode (api_view w) r) as [a resp]. cbn in *.
  split; unfold put_api, justified; cbn; rewrite Hlog; [done|].
  intros e Hin Ha. specialize (He e Hin Ha). unfold justified in He.
  destruct (Hm (Domain e) (Port e)) as [Hh Hd].
  destruct (ESource e); destruct He as [He|He]; eauto.
Qed.

Lemma step_sound w ev : sound w → sound (step w ev).1.
Proof.
  intros Hs. destruct ev as [| | |r]; [| | |by apply api_sound].
  all: match goal with |- sound (step _ ?ev).1 =>
         destruct (step_cases w ev I) as [(e & -> & _ & Hj)|(-> & _)] end; auto using with_log_sound.
Qed.

Lemma run_sound w evs : sound w → sound (run w evs).
Proof.
  unfold run. revert w. induction evs as [|ev evs IH]; intros w Hs; simpl; [done|].
  apply IH. by apply step_sound.
Qed.

Lemma Run_sound cfg w : Run cfg = Ok w → sound w.
Proof.
  unfold Run. destruct (NewHTTPAllowlist _); [|done]. destruct (NewDNSAllowlist _); [|done].
  intros [= <-]. split.
  - apply wf_new. unfold LogBufferCapacity. lia.
  - intros e Hin. exfalso. revert Hin. apply not_elem_of_nil.
Qed.

(** ** Where the rules come from *)

(** The entries an event adds to the HTTP and to the DNS allowlist. *)
Definition added_by (ep : ControlApi.endpoint) (valid : list gostring → bool) (ev : event) :
    list gostring :=
  match ev with
  | EApi r =>
      if bool_decide (ControlApi.route (ControlApi.method r) (ControlApi.path r) = Some ep) then
        match decode (ControlApi.body r) with
        | Some es => if valid es then es else []
        | None => []
        end
      else []
  | _ => []
  end.

Definition http_added : event → list gostring :=
  added_by ControlApi.EpAllowHTTP (λ es, bool_decide (ValidateHTTPEntries es = None)).
Definition dns_added : event → list gostring :=
  added_by ControlApi.EpAllowDNS (λ es, bool_decide (ValidateDNSEntries es = None)).

(** The configuration part of the store. *)
Definition settings (w : world) :=
  (w_cidr w, w_gateway w, w_ports w, w_proxyIP w, w_config w).

Lemma step_rules w ev :
  w_http (step w ev).1 = w_http w ++ (parseHTTPRule <$> http_added ev) ∧
  w_dns (step w ev).1 = w_dns w ++ (parseDNSRule <$> dns_added ev) ∧
  settings (step w ev).1 = settings w.
Proof.
  destruct ev as [lookup now host|lookup now req|exchange now r|r].
  1-3: match goal with |- context [step _ ?ev] =>
         destruct (step_cases w ev I) as [(e & -> & _)|(-> & _)]; cbn; by rewrite !app_nil_r end.
  unfold http_added, dns_added, added_by. simpl.
  unfold ControlApi.serve, ControlApi.handleAllowHTTP, ControlApi.handleAllowDNS,
    ControlApi.decodeAllowRequest, HTTPAdd, DNSAdd.
  destruct (ControlApi.route _ _) as [[]|]; simpl; rewrite ?app_nil_r; try done.
  all: destruct (decode (ControlApi.body r)) as [es|]; simpl; rewrite ?app_nil_r; try done.
  all: case_bool_decide; subst; simpl; rewrite ?app_nil_r; try done.
  - destruct (ValidateHTTPEntries es); simpl; by rewrite ?app_nil_r.
  - destruct (ValidateDNSEntries es); simpl; by rewrite ?app_nil_r.
Qed.

Lemma run_rules w evs :
  w_http (run w evs) = w_http w ++ (parseHTTPRule <$> (evs ≫= http_added)) ∧
  w_dns (run w evs) = w_dns w ++ (parseDNSRule <$> (evs ≫= dns_added)) ∧
  settings (run w evs) = settings w.
Proof.
  unfold run. revert w. induction evs as [|ev evs IH]; intros w; cbn [fold_left].
  { by rewrite !app_nil_r. }
  destruct (IH (step w ev).1) as (-> & -> & ->). destruct (step_rules w ev) as (-> & -> & ->).
  cbn [mbind list_bind]. by rewrite !fmap_app, !app_assoc.
Qed.

(** ** Properties of the whole server *)

(** C2: audit soundness.  After any sequence of proxied requests, DNS queries
    and control API calls, every allowed entry still in the log is covered by
    the current allowlist; or it is a proxied request that names the host gateway
    on a port the configuration opens; or it is a DNS query for host.vibepit
    while the proxy has an address, whose synthetic answer is that address and
    asks for no opened port.  Nothing was let through on any other ground. *)
Theorem audit_sound cfg w0 evs e :
  Run cfg = Ok w0 →
  e ∈ Entries (w_log (run w0 evs)) → EAction e = ActionAllow → justified (run w0 evs) e.
Proof. intros Hw. apply (sound_entries _ (run_sound _ _ (Run_sound _ _ Hw))). Qed.

(** No silent egress.  Whenever the running server lets a connection, a
    request or a DNS answer out, the newest log entry is an allowed one; and
    whenever it refuses a proxied request the newest entry is a blocked one. *)
Theorem egress_logged cfg w0 evs ev :
  Run cfg = Ok w0 → (∀ r, ev ≠ EApi r) →
  let '(w', out) := step (run w0 evs) ev in
  (grant out = true →
     ∃ e, last (Entries (w_log w')) = Some e ∧ EAction e = ActionAllow ∧ justified w' e) ∧
  (grant out = false → (∀ ex now r, ev ≠ EQuery ex now r) →
     ∃ e, last (Entries (w_log w')) = Some e ∧ EAction e = ActionBlock).
Proof.
  intros Hw Hev.
  assert (Hapi : match ev with EApi _ => False | _ => True end) by (destruct ev; naive_solver).
  pose proof (run_sound w0 evs (Run_sound _ _ Hw)) as Hs.
  pose proof (step_sound (run w0 evs) ev Hs) as Hs'.
  destruct (step_cases (run w0 evs) ev Hapi) as [(e & He & Hg & Hj)|(He & Hg & ex & now & r & Heq)];
    destruct (step (run w0 evs) ev) as [w' out] eqn:Hst; cbn [fst snd] in *; subst w'.
  - destruct (audit_add_new (w_log (run w0 evs)) e (sound_log _ Hs)) as [id Hlast].
    split; intros Hgr.
    + exists (set_id id e). split; [exact Hlast|]. split; [by apply Hg|]. apply Hj. by apply Hg.
    + intros _. exists (set_id id e). split; [exact Hlast|]. cbn.
      destruct (EAction e); [|done]. pose proof (proj1 Hg eq_refl). congruence.
  - split; [congruence|]. intros _ Hq. by apply Hq in Heq.
Qed.

(** Only the control API changes what is permitted.  The allowlists are
    at all times the rules of the configured entries followed by those of the
    accepted API requests in order, and the address filter, the gateway and
    its ports, the synthetic address and the configuration never change. *)
Theorem rules_provenance cfg w0 evs :
  Run cfg = Ok w0 →
  w_http (run w0 evs) = parseHTTPRule <$> (AllowHTTP cfg ++ (evs ≫= http_added)) ∧
  w_dns (run w0 evs) = parseDNSRule <$> (AllowDNS cfg ++ (evs ≫= dns_added)) ∧
  settings (run w0 evs) = settings w0 ∧ w_config w0 = cfg.
Proof.
  intros Hw. destruct (run_rules w0 evs) as (-> & -> & ->). revert Hw. unfold Run.
  unfold NewHTTPAllowlist, NewDNSAllowlist.
  destruct (ValidateHTTPEntries _); [done|]. destruct (ValidateDNSEntries _); [done|].
  intros [= <-]. cbn. by rewrite !fmap_app.
Qed.
End system.

(** ** A concrete run *)

Section example.
#[local] Existing Instance ascii_only.

Definition demo_config : ProxyConfig := NewServer (MkProxyConfig
  [gs "example.com:443"] [gs "example.com"] [] [] [] [8080] (gs "10.0.0.2") (gs "172.17.0.1")
  3128 9000 0 []).

Definition demo_world : world :=
  match Run demo_config with
  | Ok w => w
  | Err _ => World [] [] (NewCIDRBlocker [] []) (NewLogBuffer 1) [] ∅ None demo_config
  end.

Lemma demo_started : Run demo_config = Ok demo_world.
Proof.
  assert (Hok : is_ok (Run demo_config) = true) by (vm_compute; reflexivity).
  unfold demo_world. by destruct (Run demo_config).
Qed.

Definition demo_resolver : HttpProxy.Resolver := λ _, ([[93; 184; 216; 34]], false).

Definition demo_events : list (event (Body := list gostring)) :=
  [EConnect demo_resolver 1 (gs "example.com:443");
   EConnect demo_resolver 2 (gs "evil.test:443");
   EApi (ControlApi.MkApiRequest (gs "POST") (gs "/allow-http") [] [gs "evil.test:443"]);
   EConnect demo_resolver 3 (gs "evil.test:443");
   EConnect demo_resolver 4 (gs "host.vibepit:8080")].

#[local] Abbreviation demo_final := (run (λ b, Some b) demo_world demo_events).

Example demo_verdicts :
  EAction <$> Entries (w_log demo_final) = [ActionAllow; ActionBlock; ActionAllow; ActionAllow].
Proof. vm_compute. reflexivity. Qed.

Lemma audit_sound_witness :
  ∃ e, head (Entries (w_log demo_final)) = Some e ∧ justified demo_final e.
Proof.
  assert (Ha : EAction <$> head (Entries (w_log demo_final)) = Some ActionAllow)
    by (vm_compute; reflexivity).
  destruct (head (Entries (w_log demo_final))) as [e|] eqn:He; [|discriminate Ha].
  injection Ha as Ha. exists e. split; [reflexivity|].
  apply (audit_sound (λ b, Some b) demo_config demo_world demo_events e demo_started); [|exact Ha].
  apply head_Some_elem_of, He.
Defined.

Lemma egress_logged_witness :
  let '(w', out) := step (λ b, Some b) demo_final (EConnect demo_resolver 5 (gs "example.com:443")) in
  grant out = true ∧
  ∃ e, last (Entries (w_log w')) = Some e ∧ EAction e = ActionAllow ∧ justified w' e.
Proof.
  pose proof (egress_logged (λ b, Some b) demo_config demo_world demo_events
    (EConnect demo_resolver 5 (gs "example.com:443")) demo_started ltac:(intros r [=])) as He.
  destruct (step _ demo_final _) as [w' out] eqn:Hs.
  assert (Hg : grant out = true).
  { change out with (w', out).2. rewrite <- Hs. vm_compute. reflexivity. }
  split; [exact Hg|]. exact (proj1 He Hg).
Defined.

Lemma rules_provenance_witness :
  w_http demo_final =
  parseHTTPRule <$> (AllowHTTP demo_config ++ (demo_events ≫= http_added (λ b, Some b))).
Proof. apply (rules_provenance (λ b, Some b) demo_config demo_world demo_events), demo_started. Defined.
End example.
