(* ===== verification/Session.v ===== *)
(** * Persistent sessions ([session/session.go], [session/client.go])

    A session is a shell on a PTY with any number of attached clients.  Its
    goroutines (the output pump, [waitForExit], the callers of the client's and
    the session's methods) share the session under [s.mu] and each client's
    channel under [outputMu].  The model is a step function over labels, one
    label per critical section or channel operation, so a run of the program is
    a sequence of labels; the theorems are about every run.

    The terminal emulator is a library: class [Emulator]. *)

From S2P Require Import Prelude GoStrings.
Open Scope Z_scope.

Abbreviation bytes := gostring.

(** ** The emulator, as far as a session uses it *)

Record Cell {style : Type} := MkCell { CellWidth : Z; Content : bytes; CellStyle : style }.
Arguments Cell : clear implicits.

Class Emulator := {
  vte : Type;
  style : Type;
  NewEmulator : Z → Z → vte;
  vteWrite : vte → bytes → vte;
  vteResize : vte → Z → Z → vte;
  IsAltScreen : vte → bool;
  Render : vte → bytes;
  CursorPosition : vte → Z * Z;                    (* X, Y from 0 *)
  ScrollbackLen : vte → nat;
  Width : vte → nat;
  ScrollbackCellAt : vte → nat → nat → option (Cell style);
  zeroStyle : style;
  IsZero : style → bool;
  StyleEqual : style → style → bool;
  StyleDiff : style → style → bytes;               (* from the first to the second *)
  ResetStyle : bytes;
}.

(** ** Output rendered for a raw-mode terminal *)

Definition CR : ascii := "013"%char.
Definition LF : ascii := "010"%char.
Definition ESC : ascii := "027"%char.

Definition ToCRLF (b : bytes) : bytes :=
  let b := ReplaceAll b [CR; LF] [LF] in
  ReplaceAll b [LF] [CR; LF].

Section scrollback.
Context `{Emulator}.

Definition scrollbackCellSignificant (cell : option (Cell style)) : bool :=
  match cell with
  | None => false
  | Some c =>
      if CellWidth c =? 0 then false
      else if bool_decide (Content c ≠ []) && bool_decide (Content c ≠ gs " ") then true
      else negb (IsZero (CellStyle c))
  end.

(** The backward search of a line: one more than the last significant column
    among the first [w], 0 when there is none. *)
Fixpoint lineLength (t : vte) (y w : nat) : nat :=
  match w with
  | 0%nat => 0
  | S x => if scrollbackCellSignificant (ScrollbackCellAt t x y) then S x else lineLength t y x
  end.

(** One cell: the bytes written and the style left active. *)
Definition renderCell (prev : style) (cell : option (Cell style)) : bytes * style :=
  match cell with
  | None => ([], prev)
  | Some c =>
      if CellWidth c =? 0 then ([], prev)
      else
        let '(sgr, prev') := if StyleEqual (CellStyle c) prev then ([], prev)
                             else (StyleDiff prev (CellStyle c), CellStyle c) in
        (sgr ++ (if bool_decide (Content c = []) then gs " " else Content c), prev')
  end.

Fixpoint renderCells (t : vte) (y x n : nat) (prev : style) : bytes * style :=
  match n with
  | 0%nat => ([], prev)
  | S n' => let '(b, prev') := renderCell prev (ScrollbackCellAt t x y) in
            let '(bs, prev'') := renderCells t y (S x) n' prev' in (b ++ bs, prev'')
  end.

Definition renderLine (t : vte) (y : nat) (prev : style) : bytes * style :=
  let '(b, prev') := renderCells t y 0 (lineLength t y (Width t)) prev in
  if negb (IsZero prev') then (b ++ ResetStyle ++ [LF], zeroStyle) else (b ++ [LF], prev').

Fixpoint renderLines (t : vte) (y n : nat) (prev : style) : bytes :=
  match n with
  | 0%nat => []
  | S n' => let '(b, prev') := renderLine t y prev in b ++ renderLines t (S y) n' prev'
  end.

Definition renderVTEScrollback (t : vte) : bytes :=
  if (ScrollbackLen t =? 0)%nat then []
  else renderLines t 0 (ScrollbackLen t) zeroStyle ++ ResetStyle.

(** The replay of [Attach]: what a new client is sent before live output. *)
Definition replayOf (t : vte) : bytes :=
  if IsAltScreen t then ESC :: gs "[?1049h" ++ ESC :: gs "[2J"
  else
    let screen := Render t in
    let '(x, y) := CursorPosition t in
    ToCRLF ((ESC :: gs "c") ++ renderVTEScrollback t ++ screen ++
            (if bool_decide (screen ≠ []) then
               ESC :: gs "[" ++ Itoa (y + 1) ++ gs ";" ++ Itoa (x + 1) ++ gs "H"
             else [])).
End scrollback.

(** ** Clients and sessions *)

Inductive DetachReason := DetachNone | DetachDisconnect | DetachKeepalive | DetachSlowConsumer.

#[global] Instance DetachReason_eq_dec : EqDecision DetachReason.
Proof. solve_decision. Defined.

Definition Label (r : DetachReason) : bytes :=
  match r with
  | DetachKeepalive => gs "connection lost"
  | DetachSlowConsumer => gs "dropped - slow"
  | _ => []
  end.

(** The state of [closeOnce]: [Do] not yet called, running, returned. *)
Inductive oncePhase := Idle | Running | Returned.

#[global] Instance oncePhase_eq_dec : EqDecision oncePhase.
Proof. solve_decision. Defined.

(** A client.  The last three fields are history: whether it was added to the
    session's clients, the replay and the number of chunks pumped at that time,
    and all bytes its reader got. *)
Record Client := MkClient {
  output : list bytes;          (* the buffered channel *)
  done : bool;                  (* [done] is closed *)
  pending : bytes;
  closeOnce : oncePhase;
  detachReason : DetachReason;
  outputClosed : bool;          (* [output] is closed *)
  attached : option (bytes * nat);
  received : bytes;
}.

Definition outputCap : nat := N.to_nat 1024.

Definition newClient : Client := MkClient [] false [] Idle DetachNone false None [].

(** Where the pump goroutine is. *)
Inductive pumpPC :=
  | PRead                                              (* at [ptmx.Read] *)
  | PFan (data : bytes) (rest : list nat) (err : bool) (* fanning a chunk out *)
  | PWait (c : nat) (data : bytes) (rest : list nat) (err : bool)
                                                       (* in [CloseWithReason] of [c] *)
  | PErr                                               (* before the final critical section *)
  | PClose (rest : list nat)                           (* closing the outputs *)
  | PDone.

(** Where [waitForExit] is. *)
Inductive waitPC :=
  | WWait                        (* in [cmd.Wait] *)
  | WCleanup (code : Z)          (* [exited] is set; killing descendants *)
  | WPump (code : Z)             (* [ptmx] is closed; at [<-pumpDone] *)
  | WDone.

Section session.
Context `{Emulator}.

Record Session := MkSession {
  heap : list Client;            (* every client ever created, by identity *)
  clients : list nat;
  writer : option nat;
  exited : bool;
  exitCode : Z;
  exitedAt : option Z;
  detachedAt : option Z;
  lastDetachReason : DetachReason;
  term : vte;
  cols : Z;
  rows : Z;
  pump : pumpPC;
  waiter : waitPC;
  input : bytes;                 (* everything written to the PTY *)
  inflight : list bytes;         (* input past the writer check, not yet written *)
  tombstones : nat;              (* expiry timers started *)
  cleanup : bool;                (* [cleanup] is closed *)
  hist : list bytes;             (* history: every chunk the pump read *)
}.

Definition newSession (c r : Z) : Session :=
  MkSession [] [] None false 0 None None DetachNone (NewEmulator c r) c r PRead WWait [] [] 0 false [].

(** Field updates. *)
Definition set_heap (s : Session) (h : list Client) : Session :=
  MkSession h (clients s) (writer s) (exited s) (exitCode s) (exitedAt s) (detachedAt s)
    (lastDetachReason s) (term s) (cols s) (rows s) (pump s) (waiter s) (input s) (inflight s)
    (tombstones s) (cleanup s) (hist s).

Definition set_clients (s : Session) (cs : list nat) (w : option nat) : Session :=
  MkSession (heap s) cs w (exited s) (exitCode s) (exitedAt s) (detachedAt s)
    (lastDetachReason s) (term s) (cols s) (rows s) (pump s) (waiter s) (input s) (inflight s)
    (tombstones s) (cleanup s) (hist s).

Definition set_exited (s : Session) (b : bool) : Session :=
  MkSession (heap s) (clients s) (writer s) b (exitCode s) (exitedAt s) (detachedAt s)
    (lastDetachReason s) (term s) (cols s) (rows s) (pump s) (waiter s) (input s) (inflight s)
    (tombstones s) (cleanup s) (hist s).

Definition set_exit (s : Session) (code at_ : Z) : Session :=
  MkSession (heap s) (clients s) (writer s) (exited s) code (Some at_) (detachedAt s)
    (lastDetachReason s) (term s) (cols s) (rows s) (pump s) (waiter s) (input s) (inflight s)
    (tombstones s) (cleanup s) (hist s).

Definition set_detached (s : Session) (at_ : option Z) (r : DetachReason) (t : nat) : Session :=
  MkSession (heap s) (clients s) (writer s) (exited s) (exitCode s) (exitedAt s) at_ r (term
    s) (cols s) (rows s) (pump s) (waiter s) (input s) (inflight s) t (cleanup s) (hist s).

Definition set_term (s : Session) (t : vte) (c r : Z) : Session :=
  MkSession (heap s) (clients s) (writer s) (exited s) (exitCode s) (exitedAt s) (detachedAt
    s) (lastDetachReason s) t c r (pump s) (waiter s) (input s) (inflight s) (tombstones s)
    (cleanup s) (hist s).

Definition set_pump (s : Session) (p : pumpPC) : Session :=
  MkSession (heap s) (clients s) (writer s) (exited s) (exitCode s) (exitedAt s) (detachedAt
    s) (lastDetachReason s) (term s) (cols s) (rows s) p (waiter s) (input s) (inflight s)
    (tombstones s) (cleanup s) (hist s).

Definition set_waiter (s : Session) (w : waitPC) : Session :=
  MkSession (heap s) (clients s) (writer s) (exited s) (exitCode s) (exitedAt s) (detachedAt
    s) (lastDetachReason s) (term s) (cols s) (rows s) (pump s) w (input s) (inflight s)
    (tombstones s) (cleanup s) (hist s).

Definition set_input (s : Session) (i : bytes) (fl : list bytes) : Session :=
  MkSession (heap s) (clients s) (writer s) (exited s) (exitCode s) (exitedAt s) (detachedAt
    s) (lastDetachReason s) (term s) (cols s) (rows s) (pump s) (waiter s) i fl (tombstones s)
    (cleanup s) (hist s).

Definition set_cleanup (s : Session) (t : nat) (b : bool) : Session :=
  MkSession (heap s) (clients s) (writer s) (exited s) (exitCode s) (exitedAt s) (detachedAt
    s) (lastDetachReason s) (term s) (cols s) (rows s) (pump s) (waiter s) (input s) (inflight
    s) t b (hist s).

Definition set_hist (s : Session) (t : vte) (h : list bytes) : Session :=
  MkSession (heap s) (clients s) (writer s) (exited s) (exitCode s) (exitedAt s) (detachedAt
    s) (lastDetachReason s) t (cols s) (rows s) (pump s) (waiter s) (input s) (inflight s)
    (tombstones s) (cleanup s) h.

(** ** Operations on one client *)

Definition put (s : Session) (c : nat) (cl : Client) : Session := set_heap s (<[c := cl]> (heap s)).

Definition set_output (cl : Client) (q : list bytes) : Client :=
  MkClient q (done cl) (pending cl) (closeOnce cl) (detachReason cl) (outputClosed cl)
    (attached cl) (received cl).

(** The first half of [CloseWithReason], inside [closeOnce]: the reason is
    stored and [done] closed.  Its second half is the [Detach] step. *)
Definition closeBegin (cl : Client) (reason : DetachReason) : Client :=
  MkClient (output cl) true (pending cl) Running reason (outputClosed cl) (attached cl) (received cl).

Definition closeReturn (cl : Client) : Client :=
  MkClient (output cl) (done cl) (pending cl) Returned (detachReason cl) (outputClosed cl)
    (attached cl) (received cl).

Definition closeOutput (cl : Client) : Client :=
  MkClient (output cl) (done cl) (pending cl) (closeOnce cl) (detachReason cl) true
    (attached cl) (received cl).

(** The critical section of [deliver].  [Select] chooses freely when both the
    channel has room and [done] is closed: [skip] takes the second. *)
Inductive delivery := Delivered (cl : Client) | Dropped (cl : Client).

Definition deliver (cl : Client) (data : bytes) (skip : bool) : delivery :=
  if outputClosed cl then Delivered cl
  else if (length (output cl) <? outputCap)%nat then
    (if done cl && skip then Delivered cl else Delivered (set_output cl (output cl ++ [data])))
  else if done cl then Delivered cl
  else Dropped cl.

(** [Read] with a buffer of [n] bytes: the bytes read, or [None] for EOF; the
    whole is [None] when the call blocks.  [viaDone] resolves the choice of
    [select] when both cases are ready. *)
Definition setRead (cl : Client) (q : list bytes) (rest got : bytes) : Client :=
  MkClient q (done cl) rest (closeOnce cl) (detachReason cl) (outputClosed cl)
    (attached cl) (received cl ++ got).

Definition Read (cl : Client) (n : nat) (viaDone : bool) : option (option bytes * Client) :=
  match pending cl with
  | _ :: _ => Some (Some (take n (pending cl)), setRead cl (output cl) (drop n (pending cl)) (take n (pending cl)))
  | [] =>
      if done cl && viaDone then Some (None, cl)
      else match output cl with
           | data :: q => Some (Some (take n data), setRead cl q (drop n data) (take n data))
           | [] => if outputClosed cl || done cl then Some (None, cl) else None
           end
  end.

(** ** Operations on the session *)

Definition resizeLocked (s : Session) (c r : Z) : Session := set_term s (vteResize (term s) c r) c r.

Definition resizeIf (s : Session) (c r : Z) : Session :=
  if (0 <? c) && (0 <? r) && (negb (c =? cols s) || negb (r =? rows s)) then resizeLocked s c r else s.

(** The critical section of [Attach] and the Ctrl-L that follows it.  The
    snapshot is taken before the resize. *)
Definition Attach (s : Session) (c r : Z) : Session :=
  let id := length (heap s) in
  if exited s then set_heap s (heap s ++ [closeOutput newClient])
  else
    let replay := replayOf (term s) in
    let cl := MkClient [replay] false [] Idle DetachNone false (Some (replay, length (hist s))) [] in
    let altScreen := IsAltScreen (term s) in
    let becameWriter := bool_decide (writer s = None) in
    let s1 := if becameWriter then resizeIf (set_clients s (clients s) (Some id)) c r else s in
    let s2 := set_heap s1 (heap s1 ++ [cl]) in
    let s3 := set_clients s2 (clients s2 ++ [id]) (writer s2) in
    if altScreen && becameWriter then set_input s3 (input s3) (inflight s3 ++ [["012"%char]]) else s3.

Definition TakeOver (s : Session) (id : nat) (c r : Z) : Session :=
  resizeIf (set_clients s (clients s) (Some id)) c r.

(** The first occurrence is removed. *)
Fixpoint remove1 (c : nat) (cs : list nat) : list nat :=
  match cs with
  | [] => []
  | x :: cs' => if (x =? c)%nat then cs' else x :: remove1 c cs'
  end.

Definition Detach (s : Session) (c : nat) (reason : DetachReason) (now : Z) : Session :=
  let cs := remove1 c (clients s) in
  let w := if bool_decide (writer s = Some c) then last cs else writer s in
  let s1 := set_clients s cs w in
  set_detached s1
    (if bool_decide (cs = []) then Some now else detachedAt s)
    (if bool_decide (reason ≠ DetachNone) then reason else lastDetachReason s)
    (if bool_decide (cs = []) && exited s then S (tombstones s) else tombstones s).

Definition Resize (s : Session) (id : nat) (c r : Z) : Session :=
  if negb (bool_decide (writer s = Some id)) then s
  else if (c =? cols s) && (r =? rows s) then s
  else resizeLocked s c r.

Inductive writeErr := NotTheWriter.

(** [WriteInput]: the check under the lock; the write itself happens after the
    lock is released. *)
Definition WriteInput (s : Session) (c : nat) (p : bytes) : Session * option writeErr :=
  if negb (bool_decide (writer s = Some c)) then (s, Some NotTheWriter)
  else (set_input s (input s) (inflight s ++ [p]), None).

Inductive Status := Attached | Detached | Exited.

Definition InfoStatus (s : Session) : Status :=
  if exited s then Exited else if (0 <? length (clients s))%nat then Attached else Detached.

(** ** The goroutines *)

Inductive label :=
  | LAttach (c r : Z)
  | LTakeOver (id : nat) (c r : Z)
  | LCloseBegin (id : nat) (reason : DetachReason)   (* [closeOnce.Do] starts *)
  | LDetach (id : nat) (now : Z)                     (* ... and ends with [Detach] *)
  | LResize (id : nat) (c r : Z)
  | LWriteInput (id : nat) (p : bytes)
  | LInputWritten (i : nat)                          (* a checked input reaches the PTY *)
  | LRead (id : nat) (n : nat) (viaDone : bool)
  | LPumpRead (data : bytes) (err : bool)            (* [ptmx.Read] returns *)
  | LPump (skip : bool)                              (* the pump's next action *)
  | LShellExit (code : Z)                            (* [cmd.Wait] returns *)
  | LWait (now : Z)                                  (* [waitForExit]'s next action *)
  | LExpire.                                         (* a tombstone timer fires *)

(** [ptmx.Read] returned: the chunk is fed to the emulator and the clients are
    snapshot in one critical section. *)
Definition pumpRead (s : Session) (data : bytes) (err : bool) : Session :=
  if bool_decide (data ≠ []) then
    let s1 := set_hist s (vteWrite (term s) data) (hist s ++ [data]) in
    set_pump s1 (PFan data (clients s1) err)
  else set_pump s (if err then PErr else PRead).

Definition pumpStep (s : Session) (skip : bool) : option Session :=
  match pump s with
  | PRead | PDone => None
  | PFan data [] err => Some (set_pump s (if err then PErr else PRead))
  | PFan data (c :: rest) err =>
      cl ← heap s !! c;
      match deliver cl data skip with
      | Delivered cl' => Some (set_pump (put s c cl') (PFan data rest err))
      | Dropped cl' =>
          Some (set_pump (put s c (if bool_decide (closeOnce cl' = Idle)
                                   then closeBegin cl' DetachSlowConsumer else cl'))
                  (PWait c data rest err))
      end
  | PWait c data rest err =>
      cl ← heap s !! c;
      if bool_decide (closeOnce cl = Returned) then Some (set_pump s (PFan data rest err)) else None
  | PErr => Some (set_pump (set_exited s true) (PClose (clients s)))
  | PClose [] => Some (set_pump s PDone)
  | PClose (c :: rest) =>
      cl ← heap s !! c; Some (set_pump (put s c (closeOutput cl)) (PClose rest))
  end.

Definition waitStep (s : Session) (now : Z) : option Session :=
  match waiter s with
  | WWait | WDone => None
  | WCleanup code => Some (set_waiter s (WPump code))
  | WPump code =>
      match pump s with
      | PDone =>
          let s1 := set_exit s code now in
          Some (set_waiter (if bool_decide (clients s = []) then
                              set_cleanup s1 (S (tombstones s1)) (cleanup s1) else s1) WDone)
      | _ => None
      end
  end.

(** [None]: the action is not possible in this state.  [TakeOver] itself does
    not look whether its client is attached; nothing in the program calls it but a
    test, for a client that is attached. *)
Definition step (l : label) (s : Session) : option Session :=
  match l with
  | LAttach c r => Some (Attach s c r)
  | LTakeOver id c r => if bool_decide (id ∈ clients s) then Some (TakeOver s id c r) else None
  | LCloseBegin id reason =>
      cl ← heap s !! id;
      if bool_decide (closeOnce cl = Idle) then Some (put s id (closeBegin cl reason)) else None
  | LDetach id now =>
      cl ← heap s !! id;
      if bool_decide (closeOnce cl = Running) then
        Some (put (Detach s id (detachReason cl) now) id (closeReturn cl))
      else None
  | LResize id c r => Some (Resize s id c r)
  | LWriteInput id p => Some (WriteInput s id p).1
  | LInputWritten i =>
      p ← inflight s !! i; Some (set_input s (input s ++ p) (delete i (inflight s)))
  | LRead id n viaDone =>
      cl ← heap s !! id; '(_, cl') ← Read cl n viaDone; Some (put s id cl')
  | LPumpRead data err => match pump s with PRead => Some (pumpRead s data err) | _ => None end
  | LPump skip => pumpStep s skip
  | LShellExit code =>
      match waiter s with WWait => Some (set_waiter (set_exited s true) (WCleanup code)) | _ => None end
  | LWait now => waitStep s now
  | LExpire =>
      match tombstones s with
      | S t => Some (set_cleanup s t true)
      | 0%nat => None
      end
  end.

Definition reachable (c r : Z) : Session → Prop := reach_from step (newSession c r).

(** ** The invariant *)

(** The clients the pump has yet to serve with the current chunk, or to close. *)
Definition fan_rest (p : pumpPC) : list nat :=
  match p with PFan _ rest _ | PWait _ _ rest _ | PClose rest => rest | _ => [] end.

(** The part of the history a client still has to be given. *)
Definition backlog (p : pumpPC) (id : nat) : bytes :=
  match p with
  | PFan data rest _ | PWait _ data rest _ => if decide (id ∈ rest) then data else []
  | _ => []
  end.

Definition closing (p : pumpPC) : bool := match p with PClose _ | PDone => true | _ => false end.

(** All that was sent to a client: read, left over from the last read, queued. *)
Definition sent (cl : Client) : bytes := received cl ++ pending cl ++ concat (output cl).

Record attached_ok (cs : list nat) (p : pumpPC) (h : list bytes) (id : nat) (cl : Client)
    (replay : bytes) (since : nat) : Prop := {
  ok_member : id ∈ cs ↔ closeOnce cl ≠ Returned;
  ok_since : (since ≤ length h)%nat;
  ok_stream : done cl = false → sent cl ++ backlog p id = replay ++ concat (drop since h);
  ok_open : outputClosed cl = true → closing p = true;
  ok_closed : done cl = false → closing p = true → id ∈ fan_rest p ∨ outputClosed cl = true;
}.

Record client_ok (cs : list nat) (p : pumpPC) (h : list bytes) (id : nat) (cl : Client) : Prop := {
  ok_done : done cl = true ↔ closeOnce cl ≠ Idle;
  ok_cap : (length (output cl) ≤ outputCap)%nat;
  ok_attached :
    match attached cl with
    | Some (replay, since) => attached_ok cs p h id cl replay since
    | None => id ∉ cs ∧ outputClosed cl = true ∧ sent cl = []
    end;
}.

Definition is_attached (h : list Client) (id : nat) : Prop :=
  ∃ cl, h !! id = Some cl ∧ is_Some (attached cl).

Definition is_done (h : list Client) (id : nat) : Prop :=
  ∃ cl, h !! id = Some cl ∧ done cl = true.

Record pump_ok (h : list Client) (p : pumpPC) : Prop := {
  pump_nodup : NoDup (fan_rest p);
  pump_attached : ∀ id, id ∈ fan_rest p → is_attached h id;
  pump_wait : ∀ c data rest err, p = PWait c data rest err → is_done h c;
}.

Record Inv (s : Session) : Prop := {
  inv_clients : ∀ id cl, heap s !! id = Some cl → client_ok (clients s) (pump s) (hist s) id cl;
  inv_pump : pump_ok (heap s) (pump s);
  inv_nodup : NoDup (clients s);
  inv_attached : ∀ id, id ∈ clients s → is_attached (heap s) id;
  inv_exited : closing (pump s) = true → exited s = true;
  inv_writer : match writer s with Some w => w ∈ clients s | None => clients s = [] end;
}.

Lemma is_attached_put h id cl cl' i :
  h !! id = Some cl → (is_Some (attached cl) → is_Some (attached cl')) →
  is_attached h i → is_attached (<[id := cl']> h) i.
Proof.
  intros Hl Ha (x & Hx & Hs). destruct (decide (i = id)) as [->|].
  - exists cl'. rewrite list_lookup_insert_eq by (by eapply lookup_lt_Some). naive_solver.
  - exists x. by rewrite list_lookup_insert_ne.
Qed.

Lemma is_done_put h id cl cl' i :
  h !! id = Some cl → (done cl = true → done cl' = true) →
  is_done h i → is_done (<[id := cl']> h) i.
Proof.
  intros Hl Ha (x & Hx & Hs). destruct (decide (i = id)) as [->|].
  - exists cl'. rewrite list_lookup_insert_eq by (by eapply lookup_lt_Some). naive_solver.
  - exists x. by rewrite list_lookup_insert_ne.
Qed.

Lemma pump_ok_put h id cl cl' p :
  h !! id = Some cl → attached cl' = attached cl → (done cl = true → done cl' = true) →
  pump_ok h p → pump_ok (<[id := cl']> h) p.
Proof.
  intros Hl Ha Hd [Hn Hat Hw]. split; [done| |].
  - intros i Hi. eapply is_attached_put; eauto. by rewrite Ha.
  - intros. eapply is_done_put; eauto.
Qed.

(** A step that only replaces one client. *)
Lemma inv_put s id cl cl' :
  Inv s → heap s !! id = Some cl → attached cl' = attached cl →
  (done cl = true → done cl' = true) →
  client_ok (clients s) (pump s) (hist s) id cl' → Inv (put s id cl').
Proof.
  intros [Hc Hp Hn Hat He Hw] Hl Ha Hd Hok. split; cbn; try done.
  - intros i x. destruct (decide (i = id)) as [->|].
    + rewrite list_lookup_insert_eq by (by eapply lookup_lt_Some). by intros [= <-].
    + rewrite list_lookup_insert_ne by done. apply Hc.
  - by eapply pump_ok_put.
  - intros i Hi. eapply is_attached_put; eauto. by rewrite Ha.
Qed.

(** A step of the pump that leaves the clients alone. *)
Lemma inv_set_pump s p :
  Inv s → pump_ok (heap s) p → closing p = closing (pump s) →
  (∀ id, is_attached (heap s) id → backlog p id = backlog (pump s) id) →
  (∀ id, is_attached (heap s) id → ¬ is_done (heap s) id →
     id ∈ fan_rest (pump s) → closing p = true → id ∈ fan_rest p) →
  Inv (set_pump s p).
Proof.
  intros [Hc Hp Hn Hat He Hw] Hp' Hcl Hb Hr. split; cbn; try done; [|by rewrite Hcl].
  intros id cl Hl. destruct (Hc id cl Hl) as [Hd Hcap Hok]. split; [done..|].
  destruct (attached cl) as [[replay since]|] eqn:Ea; [|done].
  assert (Hi : is_attached (heap s) id) by (exists cl; rewrite Ea; eauto).
  destruct Hok as [H1 H2 H3 H4 H5]. split; try done.
  - by rewrite (Hb id Hi).
  - by rewrite Hcl.
  - rewrite Hcl. intros Hf Hc1. destruct (H5 Hf Hc1) as [Hin|]; [left|by right].
    apply Hr; try done; [|by rewrite Hcl]. intros (x & Hx & Hdx). congruence.
Qed.

(** A step that keeps what the invariant reads, but for the writer. *)
Lemma inv_frame s s' :
  Inv s → heap s' = heap s → clients s' = clients s → pump s' = pump s → hist s' = hist s →
  (exited s = true → exited s' = true) →
  (writer s' = writer s ∨ ∃ w, writer s' = Some w ∧ w ∈ clients s) → Inv s'.
Proof.
  intros [Hc Hp Hn Hat He Hw] E1 E2 E3 E4 E5 E6.
  split; rewrite ?E1, ?E2, ?E3, ?E4; auto. destruct E6 as [->|(w & -> & ?)]; auto.
Qed.

Lemma resizeIf_frame s c r :
  heap (resizeIf s c r) = heap s ∧ clients (resizeIf s c r) = clients s ∧
  pump (resizeIf s c r) = pump s ∧ hist (resizeIf s c r) = hist s ∧
  exited (resizeIf s c r) = exited s ∧ writer (resizeIf s c r) = writer s ∧
  input (resizeIf s c r) = input s ∧ inflight (resizeIf s c r) = inflight s.
Proof. unfold resizeIf. by destruct (_ && _). Qed.

Lemma inv_TakeOver s id c r : Inv s → id ∈ clients s → Inv (TakeOver s id c r).
Proof.
  intros Hi Hin. unfold TakeOver.
  destruct (resizeIf_frame (set_clients s (clients s) (Some id)) c r)
    as (E1 & E2 & E3 & E4 & E5 & E6 & _).
  eapply inv_frame; [exact Hi|rewrite ?E1, ?E2, ?E3, ?E4, ?E5, ?E6; eauto..].
Qed.

Lemma inv_Resize s id c r : Inv s → Inv (Resize s id c r).
Proof.
  intros Hi. unfold Resize. destruct (negb _); [done|]. destruct (_ && _); [done|].
  eapply inv_frame; eauto.
Qed.

Lemma sent_Read cl n viaDone res cl' :
  Read cl n viaDone = Some (res, cl') →
  sent cl' = sent cl ∧ attached cl' = attached cl ∧ done cl' = done cl ∧
  closeOnce cl' = closeOnce cl ∧ outputClosed cl' = outputClosed cl ∧
  (length (output cl') ≤ length (output cl))%nat.
Proof.
  unfold Read, sent. destruct (pending cl) as [|b bs] eqn:Ep.
  - destruct (done cl && viaDone); [by intros [= <- <-]; rewrite Ep|].
    destruct (output cl) as [|data q] eqn:Eo.
    + destruct (_ || _); [|done]. intros [= <- <-]. by rewrite Ep, Eo.
    + intros [= <- <-]. cbn. split_and!; try done; [|lia].
      by rewrite <- !app_assoc, (app_assoc (take n data)), take_drop.
  - intros [= <- <-]. cbn [setRead received pending output attached done closeOnce outputClosed].
    split_and!; try done. by rewrite <- !app_assoc, (app_assoc (take n (b :: bs))), take_drop.
Qed.

Lemma inv_Read s id cl n viaDone res cl' :
  Inv s → heap s !! id = Some cl → Read cl n viaDone = Some (res, cl') → Inv (put s id cl').
Proof.
  intros Hi Hl Hr. destruct (sent_Read _ _ _ _ _ Hr) as (Es & Ea & Ed & Ec & Eo & Hcap).
  eapply inv_put; [done..|by rewrite Ed|].
  destruct (inv_clients s Hi id cl Hl) as [H1 H2 H3]. split; [by rewrite Ed, Ec|lia|].
  rewrite Ea. destruct (attached cl) as [[replay since]|]; [|by rewrite Eo, Es].
  destruct H3. split; rewrite ?Ed, ?Ec, ?Eo, ?Es; auto.
Qed.

Lemma inv_closeBegin s id cl reason :
  Inv s → heap s !! id = Some cl → closeOnce cl = Idle → Inv (put s id (closeBegin cl reason)).
Proof.
  intros Hi Hl Hc. eapply inv_put; [done..|].
  destruct (inv_clients s Hi id cl Hl) as [H1 H2 H3]. split; [done..|]. cbn.
  destruct (attached cl) as [[replay since]|]; [|done].
  destruct H3 as [Hm]. split; try done. cbn. rewrite Hm, Hc. done.
Qed.

Lemma elem_of_remove1 c cs x : NoDup cs → x ∈ remove1 c cs ↔ x ∈ cs ∧ x ≠ c.
Proof.
  induction cs as [|y cs IH]; intros Hn; simpl; [by rewrite elem_of_nil; naive_solver|].
  apply NoDup_cons in Hn as [Hy Hn]. destruct (Nat.eqb_spec y c) as [->|];
    rewrite ?elem_of_cons, ?IH by done; naive_solver.
Qed.

Lemma NoDup_remove1 c cs : NoDup cs → NoDup (remove1 c cs).
Proof.
  induction cs as [|y cs IH]; intros Hn; simpl; [done|].
  pose proof Hn as Hn'. apply NoDup_cons in Hn as [Hy Hn]. destruct (Nat.eqb_spec y c); [done|].
  apply NoDup_cons. split; [|auto]. rewrite elem_of_remove1 by done. tauto.
Qed.

Lemma last_elem (cs : list nat) w : last cs = Some w → w ∈ cs.
Proof. intros Hl. rewrite last_lookup in Hl. by eapply list_elem_of_lookup_2. Qed.

Lemma inv_Detach s id cl now :
  Inv s → heap s !! id = Some cl → closeOnce cl = Running →
  Inv (put (Detach s id (detachReason cl) now) id (closeReturn cl)).
Proof.
  intros [Hc Hp Hn Hat He Hw] Hl Hr. split; cbn.
  - intros i x. destruct (decide (i = id)) as [->|Hne].
    + rewrite list_lookup_insert_eq by (by eapply lookup_lt_Some). intros [= <-].
      destruct (Hc id cl Hl) as [H1 H2 H3]. split; [cbn; rewrite H1, Hr; done|done|]. cbn.
      destruct (attached cl) as [[replay since]|].
      * destruct H3 as [Hm]. split; try done; cbn. rewrite elem_of_remove1 by done. naive_solver.
      * rewrite elem_of_remove1 by done. naive_solver.
    + rewrite list_lookup_insert_ne by done. intros Hx. destruct (Hc i x Hx) as [H1 H2 H3].
      split; [done..|]. destruct (attached x) as [[replay since]|].
      * destruct H3 as [Hm]. split; try done. rewrite elem_of_remove1 by done. naive_solver.
      * rewrite elem_of_remove1 by done. naive_solver.
  - by eapply pump_ok_put.
  - by apply NoDup_remove1.
  - intros i [Hi _]%elem_of_remove1; [|done]. eapply is_attached_put; eauto.
  - done.
  - case_bool_decide as Ew.
    + destruct (last (remove1 id (clients s))) eqn:El; [by apply last_elem|].
      by apply last_None in El.
    + destruct (writer s) as [w|]; [|by rewrite Hw].
      apply elem_of_remove1; [done|]. split; [done|]. congruence.
Qed.

Lemma backlog_not_in p id : id ∉ fan_rest p → backlog p id = [].
Proof. by destruct p; simpl; intros; rewrite ?decide_False. Qed.

Lemma inv_alloc s s' cl :
  Inv s → heap s' = heap s ++ [cl] → pump s' = pump s → hist s' = hist s →
  exited s' = exited s →
  client_ok (clients s') (pump s) (hist s) (length (heap s)) cl →
  (∀ id, id < length (heap s) → id ∈ clients s' ↔ id ∈ clients s)%nat →
  NoDup (clients s') →
  (∀ id, id ∈ clients s' → (id < length (heap s))%nat ∨ id = length (heap s) ∧ is_Some (attached cl)) →
  match writer s' with Some w => w ∈ clients s' | None => clients s' = [] end →
  Inv s'.
Proof.
  intros [Hc Hp Hn Hat He Hw] E1 E2 E3 E4 Hnew Hmem Hn' Hin Hw'.
  assert (Hatt : ∀ id, is_attached (heap s) id → is_attached (heap s ++ [cl]) id).
  { intros id (x & Hx & ?). exists x. split; [by apply lookup_app_l_Some|done]. }
  split; rewrite ?E1, ?E2, ?E3, ?E4; try done.
  - intros id x Hx. apply lookup_app_Some in Hx as [Hx|[Hge Hx]].
    + destruct (Hc id x Hx) as [H1 H2 H3]. apply lookup_lt_Some in Hx. split; [done..|].
      destruct (attached x) as [[replay since]|]; [|by rewrite Hmem].
      destruct H3. split; try done. by rewrite Hmem.
    + apply list_lookup_singleton_Some in Hx as [Hz <-].
      by replace id with (length (heap s)) by lia.
  - destruct Hp as [Hp1 Hp2 Hp3]. split; [done|auto|].
    intros c data rest err Ep. destruct (Hp3 _ _ _ _ Ep) as (x & Hx & ?).
    exists x. split; [by apply lookup_app_l_Some|done].
  - intros id Hi. destruct (Hin id Hi) as [Hlt|[-> Ha]].
    + apply Hatt, Hat. by apply Hmem.
    + exists cl. split; [by apply list_lookup_middle|done].
Qed.

Lemma clients_lt s id : Inv s → id ∈ clients s → (id < length (heap s))%nat.
Proof. intros Hi (x & Hx & _)%(inv_attached s Hi). by eapply lookup_lt_Some. Qed.

Lemma fan_rest_lt s id : Inv s → id ∈ fan_rest (pump s) → (id < length (heap s))%nat.
Proof. intros Hi (x & Hx & _)%(pump_attached _ _ (inv_pump s Hi)). by eapply lookup_lt_Some. Qed.

(** The session after [Attach], up to fields the invariant does not read. *)
Lemma Attach_live s c r :
  exited s = false →
  heap (Attach s c r) =
    heap s ++ [MkClient [replayOf (term s)] false [] Idle DetachNone false
                 (Some (replayOf (term s), length (hist s))) []] ∧
  clients (Attach s c r) = clients s ++ [length (heap s)] ∧
  writer (Attach s c r) = Some (default (length (heap s)) (writer s)) ∧
  pump (Attach s c r) = pump s ∧ hist (Attach s c r) = hist s ∧ exited (Attach s c r) = exited s.
Proof.
  intros Hx. unfold Attach. rewrite Hx.
  destruct (resizeIf_frame (set_clients s (clients s) (Some (length (heap s)))) c r)
    as (E1 & E2 & E3 & E4 & E5 & E6 & E7 & E8).
  destruct (writer s) as [w|] eqn:Ew; cbn.
  - rewrite andb_false_r. cbn. by rewrite Ew.
  - destruct (IsAltScreen (term s)); cbn; rewrite ?E1, ?E2, ?E3, ?E4, ?E5, ?E6; done.
Qed.

Lemma inv_Attach s c r : Inv s → Inv (Attach s c r).
Proof.
  intros Hi. set (n := length (heap s)).
  assert (Hfresh : n ∉ clients s) by (intros Hn%clients_lt; [lia|done]).
  assert (Hrest : n ∉ fan_rest (pump s)) by (intros Hn%fan_rest_lt; [lia|done]).
  destruct (exited s) eqn:Hx.
  - unfold Attach. rewrite Hx. apply (inv_alloc s _ (closeOutput newClient)); try done.
    + split; [done|cbn; lia|done].
    + apply (inv_nodup s Hi).
    + intros id Hid. left. by apply clients_lt.
    + apply (inv_writer s Hi).
  - destruct (Attach_live s c r Hx) as (E1 & E2 & E3 & E4 & E5 & E6).
    eapply inv_alloc; eauto; rewrite ?E2, ?E3.
    + split; [done|unfold outputCap; simpl length; lia|]. cbn. split; cbn; try done.
      * rewrite elem_of_app, list_elem_of_singleton. naive_solver.
      * intros _. unfold sent. cbn. by rewrite backlog_not_in, drop_all, !app_nil_r.
      * intros _ Hcl%(inv_exited s Hi). congruence.
    + intros id Hlt. rewrite elem_of_app, list_elem_of_singleton. split; [|by left].
      intros [|]; [done|lia].
    + apply NoDup_app. split_and!; [by apply inv_nodup| |apply NoDup_singleton].
      intros id Hid ->%list_elem_of_singleton. done.
    + intros id [Hid| ->%list_elem_of_singleton]%elem_of_app; [left; by apply clients_lt|].
      right. by eauto.
    + pose proof (inv_writer s Hi) as Hw. destruct (writer s); cbn; apply elem_of_app; [by left|right].
      by apply list_elem_of_singleton.
Qed.

Lemma inv_pumpRead s data err : Inv s → pump s = PRead → Inv (pumpRead s data err).
Proof.
  intros Hi Hp. unfold pumpRead. case_bool_decide as Hd.
  - destruct Hi as [Hc Hpo Hn Hat He Hw]. split; cbn; try done.
    + intros id cl Hl. destruct (Hc id cl Hl) as [H1 H2 H3]. split; [done..|].
      destruct (attached cl) as [[replay since]|]; [|done].
      destruct H3 as [H3 H4 H5 H6 H7]. rewrite Hp in *. split; try done.
      * rewrite length_app. lia.
      * intros Hf. cbn. rewrite decide_True.
        -- rewrite drop_app_le by done. rewrite concat_app. cbn. rewrite app_nil_r, app_assoc.
           rewrite <- (H5 Hf). cbn. by rewrite app_nil_r.
        -- apply H3. intros Hr. assert (done cl = true) by (apply H1; congruence). congruence.
  - apply inv_set_pump; [done| | | |]; rewrite ?Hp; destruct err; try done;
      (split; cbn; [constructor|by intros ? []%elem_of_nil|by intros]).
Qed.

Lemma deliver_Delivered cl data skip cl' :
  deliver cl data skip = Delivered cl' →
  attached cl' = attached cl ∧ done cl' = done cl ∧ closeOnce cl' = closeOnce cl ∧
  outputClosed cl' = outputClosed cl ∧ received cl' = received cl ∧ pending cl' = pending cl ∧
  ((length (output cl) ≤ outputCap)%nat → (length (output cl') ≤ outputCap)%nat) ∧
  (output cl' = output cl ++ [data] ∨ cl' = cl ∧ (done cl = true ∨ outputClosed cl = true)).
Proof.
  unfold deliver. destruct (outputClosed cl) eqn:Eo; [intros [= <-]; naive_solver|].
  destruct (Nat.ltb_spec (length (output cl)) outputCap).
  - destruct (done cl && skip) eqn:Ed; intros [= <-].
    + apply andb_prop in Ed as [? _]. naive_solver.
    + cbn. split_and!; auto. intros _. rewrite length_app. cbn. lia.
  - destruct (done cl) eqn:Ed; [|done]. intros [= <-]. naive_solver.
Qed.

Lemma NoDup_fan_cons (c : nat) rest : NoDup (c :: rest) → NoDup rest ∧ c ∉ rest.
Proof. rewrite NoDup_cons. tauto. Qed.

(** The pump moves on after it served the head of the snapshot. *)
Lemma inv_fan_deliver s c rest data err cl cl' skip :
  Inv s → pump s = PFan data (c :: rest) err → heap s !! c = Some cl →
  deliver cl data skip = Delivered cl' → Inv (set_pump (put s c cl') (PFan data rest err)).
Proof.
  intros Hi Hp Hl Hd.
  destruct (deliver_Delivered _ _ _ _ Hd) as (Ea & Ed & Ec & Eo & Er & Epe & Hcap & Hout).
  destruct Hi as [Hc [Hpn Hpa Hpw] Hn Hat He Hw]. rewrite Hp in *. cbn in Hpn, Hpa.
  apply NoDup_fan_cons in Hpn as [Hnr Hcr].
  split; cbn; try done.
  - intros i x. destruct (decide (i = c)) as [->|Hne].
    + rewrite list_lookup_insert_eq by (by eapply lookup_lt_Some). intros [= <-].
      destruct (Hc c cl Hl) as [H1 H2 H3]. split; [by rewrite Ed, Ec|auto|]. rewrite Ea.
      destruct (Hpa c) as (cl0 & Hl0 & Hs0); [left|].
      assert (cl0 = cl) as -> by congruence.
      destruct (attached cl) as [[replay since]|]; [|by destruct Hs0].
      destruct H3 as [H3 H4 H5 H6 H7]. split; rewrite ?Ec, ?Ed, ?Eo; try done.
      intros Hf. cbn. rewrite decide_False by done. rewrite <- (H5 Hf). cbn.
      rewrite decide_True by left.
      destruct Hout as [Hout|[-> [?|Hx]]]; [|congruence|by apply H6 in Hx].
      unfold sent. rewrite Er, Epe, Hout, concat_app. cbn. by rewrite !app_nil_r, !app_assoc.
    + rewrite list_lookup_insert_ne by done. intros Hx.
      destruct (Hc i x Hx) as [H1 H2 H3]. split; [done..|].
      destruct (attached x) as [[replay since]|]; [|done].
      destruct H3 as [H3 H4 H5 H6 H7]. split; try done.
      intros Hf. rewrite <- (H5 Hf). cbn. f_equal.
      apply decide_ext. rewrite elem_of_cons. naive_solver.
  - split; cbn; [done| |by intros].
    intros i Hir. eapply is_attached_put; eauto; [by rewrite Ea|]. apply Hpa. by right.
  - intros i Hin. eapply is_attached_put; eauto. by rewrite Ea.
Qed.

(** Dropping a slow consumer, and coming back from it. *)
Lemma inv_fan_drop s c rest data err cl :
  Inv s → pump s = PFan data (c :: rest) err → heap s !! c = Some cl → done cl = false →
  Inv (set_pump (put s c (closeBegin cl DetachSlowConsumer)) (PWait c data rest err)).
Proof.
  intros Hi Hp Hl Hd.
  assert (Hidle : closeOnce cl = Idle).
  { destruct (inv_clients s Hi c cl Hl) as [H1 _ _]. destruct (closeOnce cl); [done|..];
      exfalso; assert (done cl = true) by (by apply H1); congruence. }
  pose proof (inv_closeBegin s c cl DetachSlowConsumer Hi Hl Hidle) as Hi'.
  pose proof (inv_pump s Hi) as [Hpn Hpa _]. rewrite Hp in *. cbn in Hpn, Hpa.
  apply NoDup_fan_cons in Hpn as [Hnr Hcr].
  destruct Hi' as [Hc' [_ _ _] Hn' Hat' He' Hw'].
  split; cbn [set_pump put set_heap heap clients pump hist exited writer] in *; try done.
  - intros i x Hx. destruct (Hc' i x Hx) as [H1 H2 H3]. split; [done..|].
    destruct (attached x) as [[replay since]|]; [|done].
    cbn in H3. rewrite Hp in H3.
    destruct H3 as [H3 H4 H5 H6 H7]. split; try done.
    intros Hf. rewrite <- (H5 Hf). cbn. f_equal.
    apply decide_ext. rewrite elem_of_cons. split; [by right|]. intros [->|]; [|done].
    cbn in Hx. rewrite list_lookup_insert_eq in Hx by (by eapply lookup_lt_Some).
    injection Hx as <-. done.
  - split; cbn; [done| |].
    + intros i Hir. eapply is_attached_put; [exact Hl|done|]. apply Hpa. by right.
    + intros ? ? ? ? [= <- <- <- <-]. exists (closeBegin cl DetachSlowConsumer).
      by rewrite list_lookup_insert_eq by (by eapply lookup_lt_Some).
Qed.

(** The pump closes the output of the next client. *)
Lemma inv_closeOutput s c cl rest :
  Inv s → pump s = PClose (c :: rest) → heap s !! c = Some cl →
  Inv (set_pump (put s c (closeOutput cl)) (PClose rest)).
Proof.
  intros Hi Hp Hl. pose proof (inv_pump s Hi) as [Hpn Hpa Hpw]. rewrite Hp in Hpn, Hpa, Hpw.
  cbn in Hpn, Hpa. apply NoDup_fan_cons in Hpn as [Hnr Hcr].
  destruct Hi as [Hc Hpo Hn Hat He Hw]. rewrite Hp in *. split; cbn; try done.
  + intros i x. destruct (decide (i = c)) as [->|Hne].
    * rewrite list_lookup_insert_eq by (by eapply lookup_lt_Some). intros [= <-].
      destruct (Hc c cl Hl) as [H1 H2 H3]. split; [done..|]. cbn.
      destruct (attached cl) as [[replay since]|]; [|by destruct H3 as (? & ? & ?)].
      destruct H3 as [H3 H4 H5 H6 H7]. split; try done. by right.
    * rewrite list_lookup_insert_ne by done. intros Hx.
      destruct (Hc i x Hx) as [H1 H2 H3]. split; [done..|].
      destruct (attached x) as [[replay since]|]; [|done].
      destruct H3 as [H3 H4 H5 H6 H7]. split; try done. cbn in *.
      intros Hf Ht. destruct (H7 Hf Ht) as [[|]%elem_of_cons|]; auto.
  + split; cbn; [done| |by intros].
    intros i Hir. eapply is_attached_put; [exact Hl|done|]. apply Hpa. by right.
  + intros i Hin. eapply is_attached_put; [exact Hl|done|]. by apply Hat.
Qed.

Lemma inv_pumpStep s skip s' : Inv s → pumpStep s skip = Some s' → Inv s'.
Proof.
  intros Hi. unfold pumpStep. pose proof (inv_pump s Hi) as [Hpn Hpa Hpw].
  assert (Hidle : ∀ p, fan_rest p = [] → (∀ c data rest err, p ≠ PWait c data rest err) →
                       pump_ok (heap s) p).
  { intros p Hf Hnw. split; rewrite ?Hf; [constructor|by intros ? []%elem_of_nil|].
    intros ? ? ? ? ->. by edestruct Hnw. }
  destruct (pump s) as [|data [|c rest] err|c data rest err| |[|c rest]|] eqn:Hp; try done.
  - intros [= <-]. apply inv_set_pump; rewrite ?Hp; by destruct err; try apply Hidle.
  - destruct (heap s !! c) as [cl|] eqn:Hl; [|done]. cbn.
    destruct (deliver cl data skip) as [cl'|cl'] eqn:Hd; intros [= <-].
    + by eapply inv_fan_deliver.
    + assert (cl' = cl ∧ done cl = false) as [-> Hdn].
      { revert Hd. unfold deliver. destruct (outputClosed cl); [done|].
        destruct (_ <? _)%nat; [by destruct (_ && _)|]. destruct (done cl) eqn:E; [done|].
        by intros [= <-]. }
      assert (Hidl : closeOnce cl = Idle).
      { destruct (inv_clients s Hi c cl Hl) as [H1 _ _]. destruct (closeOnce cl); [done|..];
          exfalso; assert (done cl = true) by (by apply H1); congruence. }
      rewrite bool_decide_eq_true_2 by done. by apply inv_fan_drop.
  - destruct (heap s !! c) as [cl|] eqn:Hl; [|done]. cbn. case_bool_decide; [|done].
    intros [= <-]. apply inv_set_pump; rewrite ?Hp; done.
  - intros [= <-]. destruct Hi as [Hc Hpo Hn Hat He Hw]. split; cbn; try done.
    + intros i x Hx. destruct (Hc i x Hx) as [H1 H2 H3]. split; [done..|].
      destruct (attached x) as [[replay since]|]; [|done]. rewrite Hp in H3.
      destruct H3 as [H3 H4 H5 H6 H7]. split; try done. intros Hf _. left. apply H3.
      intros Hr. assert (done x = true) by (apply H1; congruence). congruence.
  - intros [= <-]. apply inv_set_pump; rewrite ?Hp; by try apply Hidle.
  - destruct (heap s !! c) as [cl|] eqn:Hl; [|done]. cbn. intros [= <-]. by apply inv_closeOutput.
Qed.

Lemma inv_step s l s' : Inv s → step l s = Some s' → Inv s'.
Proof.
  intros Hi. destruct l as [c r|id c r|id reason|id now|id c r|id p|i|id n viaDone|data err|skip|code|now|];
    cbn [step].
  - intros [= <-]. by apply inv_Attach.
  - case_bool_decide; [|done]. intros [= <-]. by apply inv_TakeOver.
  - destruct (heap s !! id) as [cl|] eqn:Hl; [|done]. cbn. case_bool_decide; [|done].
    intros [= <-]. by apply inv_closeBegin.
  - destruct (heap s !! id) as [cl|] eqn:Hl; [|done]. cbn. case_bool_decide; [|done].
    intros [= <-]. by apply inv_Detach.
  - intros [= <-]. by apply inv_Resize.
  - intros [= <-]. unfold WriteInput. destruct (negb _); [done|]. eapply inv_frame; eauto.
  - destruct (inflight s !! i); [|done]. intros [= <-]. eapply inv_frame; eauto.
  - destruct (heap s !! id) as [cl|] eqn:Hl; [|done]. cbn.
    destruct (Read cl n viaDone) as [[res cl']|] eqn:Hr; [|done]. cbn. intros [= <-].
    by eapply inv_Read.
  - destruct (pump s) eqn:Hp; try done. intros [= <-]. by apply inv_pumpRead.
  - by apply inv_pumpStep.
  - destruct (waiter s); try done. intros [= <-]. eapply inv_frame; eauto.
  - unfold waitStep. destruct (waiter s); try done.
    + intros [= <-]. eapply inv_frame; eauto.
    + destruct (pump s); try done. intros [= <-]. case_bool_decide; eapply inv_frame; eauto.
  - destruct (tombstones s); [done|]. intros [= <-]. eapply inv_frame; eauto.
Qed.

Lemma inv_init c r : Inv (newSession c r).
Proof.
  split; cbn; try done; [|constructor|by intros ? []%elem_of_nil].
  split; cbn; [constructor|by intros ? []%elem_of_nil|done].
Qed.

Lemma inv_reachable c r s : reachable c r s → Inv s.
Proof. induction 1; [apply inv_init|by eapply inv_step]. Qed.

(** ** Exit and expiry *)

Definition exit_ok (s : Session) : Prop :=
  (waiter s ≠ WWait → exited s = true) ∧
  (waiter s = WDone → clients s = [] → (0 < tombstones s)%nat ∨ cleanup s = true).

Lemma exit_ok_frame s s' :
  exit_ok s → waiter s' = waiter s → (clients s' = [] → clients s = []) →
  (exited s = true → exited s' = true) → tombstones s' = tombstones s → cleanup s' = cleanup s →
  exit_ok s'.
Proof. unfold exit_ok. intros [H1 H2] -> Hc He -> ->. split; auto. Qed.

Lemma exit_ok_pumpStep s skip s' : exit_ok s → pumpStep s skip = Some s' → exit_ok s'.
Proof.
  intros Hx. unfold pumpStep.
  destruct (pump s) as [|data [|c rest] err|c data rest err| |[|c rest]|]; try done.
  1,4,5: intros [= <-]; eapply exit_ok_frame; eauto.
  all: destruct (heap s !! c) as [cl|]; [|done]; cbn.
  - destruct (deliver _ _ _); intros [= <-]; eapply exit_ok_frame; eauto.
  - case_bool_decide; [|done]. intros [= <-]. eapply exit_ok_frame; eauto.
  - intros [= <-]. eapply exit_ok_frame; eauto.
Qed.

Lemma Attach_frame s c r :
  waiter (Attach s c r) = waiter s ∧ tombstones (Attach s c r) = tombstones s ∧
  cleanup (Attach s c r) = cleanup s ∧ exited (Attach s c r) = exited s.
Proof.
  unfold Attach, resizeIf. destruct (exited s) eqn:He; [done|].
  destruct (bool_decide (writer s = None)); [destruct (_ && (_ || _))|];
    by destruct (IsAltScreen _).
Qed.

Lemma exit_ok_Attach s c r : exit_ok s → exit_ok (Attach s c r).
Proof.
  intros Hx. destruct (Attach_frame s c r) as (E1 & E2 & E3 & E4).
  apply (exit_ok_frame s); rewrite ?E1, ?E2, ?E3, ?E4; try done.
  destruct (exited s) eqn:He; [by unfold Attach; rewrite He|].
  destruct (Attach_live s c r He) as (_ & -> & _). by intros [_ [=]]%app_nil.
Qed.

Lemma exit_ok_step s l s' : exit_ok s → step l s = Some s' → exit_ok s'.
Proof.
  intros Hx. destruct l as [c r|id c r|id reason|id now|id c r|id p|i|id n viaDone|data err|skip|code|now|];
    cbn [step].
  - intros [= <-]. by apply exit_ok_Attach.
  - case_bool_decide; [|done]. intros [= <-]. unfold TakeOver, resizeIf.
    destruct (_ && _); eapply exit_ok_frame; eauto.
  - destruct (heap s !! id) as [cl|]; [|done]. cbn. case_bool_decide; [|done].
    intros [= <-]. eapply exit_ok_frame; eauto.
  - destruct (heap s !! id) as [cl|]; [|done]. cbn. case_bool_decide; [|done].
    intros [= <-]. destruct Hx as [H1 H2]. split; [exact H1|]. cbn. intros Hw Hc. left.
    rewrite bool_decide_eq_true_2 by done. rewrite H1 by (by rewrite Hw). cbn. lia.
  - intros [= <-]. unfold Resize. destruct (negb _); [done|]. destruct (_ && _); [done|].
    eapply exit_ok_frame; eauto.
  - intros [= <-]. unfold WriteInput. destruct (negb _); [done|]. eapply exit_ok_frame; eauto.
  - destruct (inflight s !! i); [|done]. intros [= <-]. eapply exit_ok_frame; eauto.
  - destruct (heap s !! id) as [cl|]; [|done]. cbn.
    destruct (Read cl n viaDone) as [[res cl']|]; [|done]. cbn. intros [= <-].
    eapply exit_ok_frame; eauto.
  - destruct (pump s); try done. intros [= <-]. unfold pumpRead.
    case_bool_decide; eapply exit_ok_frame; eauto.
  - by apply exit_ok_pumpStep.
  - destruct (waiter s) eqn:Ew; try done. intros [= <-]. by split.
  - unfold waitStep. destruct (waiter s) eqn:Ew; try done; destruct Hx as [H1 H2].
    + intros [= <-]. split; [|done]. intros _. apply H1. by rewrite Ew.
    + destruct (pump s); try done. intros [= <-]. split.
      * intros _. case_bool_decide; apply H1; by rewrite Ew.
      * intros _. case_bool_decide; cbn; [|done]. intros _. left. lia.
  - destruct Hx as [H1 H2]. destruct (tombstones s) eqn:Et; [done|]. intros [= <-].
    split; [exact H1|]. cbn. by right.
Qed.

Lemma exit_ok_reachable c r s : reachable c r s → exit_ok s.
Proof. induction 1 as [|s l s' _ IH Hs]; [by split|by eapply exit_ok_step]. Qed.

(** ** Properties *)

(** C11: stream integrity.  In every reachable state, as long as a client has not
    been closed, what it has read, what is left over from its last read and
    what is queued, followed by the chunk the pump is about to hand it, is
    exactly the replay it got on attach followed by every chunk of PTY output
    since then: nothing is lost, repeated or reordered, whatever the other
    clients do. *)
Theorem stream_integrity c r s id cl replay since :
  reachable c r s → heap s !! id = Some cl → attached cl = Some (replay, since) →
  done cl = false →
  received cl ++ pending cl ++ concat (output cl) ++ backlog (pump s) id =
  replay ++ concat (drop since (hist s)).
Proof.
  intros Hs Hl Ha Hd. destruct (inv_clients s (inv_reachable _ _ _ Hs) id cl Hl) as [_ _ Hok].
  rewrite Ha in Hok. rewrite <- (ok_stream _ _ _ _ _ _ _ Hok Hd). unfold sent. by rewrite <- !app_assoc.
Qed.

(** End of file on a client that nobody closed means the shell is gone and
    the reader has had all of its output: the session is marked exited and the
    bytes read are the replay and every chunk since the client attached. *)
Lemma eof_is_complete s id cl n viaDone cl' replay since :
  Inv s → heap s !! id = Some cl → attached cl = Some (replay, since) →
  done cl = false → Read cl n viaDone = Some (None, cl') →
  exited s = true ∧ received cl = replay ++ concat (drop since (hist s)).
Proof.
  intros Hi Hl Ha Hd Hr.
  destruct (inv_clients s Hi id cl Hl) as [_ _ Hok]. rewrite Ha in Hok.
  assert (Heof : pending cl = [] ∧ output cl = [] ∧ outputClosed cl = true).
  { revert Hr. unfold Read. destruct (pending cl); [|done]. rewrite Hd. cbn.
    destruct (output cl); [|done]. destruct (outputClosed cl); done. }
  destruct Heof as (Hp & Ho & Hc). pose proof (ok_open _ _ _ _ _ _ _ Hok Hc) as Hcl.
  split; [by apply (inv_exited s Hi)|].
  rewrite <- (ok_stream _ _ _ _ _ _ _ Hok Hd). unfold sent. rewrite Hp, Ho. cbn.
  destruct (pump s); try done; by rewrite !app_nil_r.
Qed.

(** C13: a session with clients has exactly one writer and it is one of them, no
    client is listed twice, and without clients there is no writer: so the next
    to attach becomes one. *)
Theorem writer_is_attached c r s :
  reachable c r s →
  NoDup (clients s) ∧
  (∀ w, writer s = Some w → w ∈ clients s) ∧ (writer s = None ↔ clients s = []).
Proof.
  intros Hs%inv_reachable. pose proof (inv_writer s Hs) as Hw. split_and!.
  - by apply inv_nodup.
  - intros w E. by rewrite E in Hw.
  - destruct (writer s) as [w|]; [|done]. split; [done|]. intros E. rewrite E in Hw.
    by apply elem_of_nil in Hw.
Qed.

(** C37: a client cannot stall the pump.  While it fans out a chunk or closes the
    outputs, the pump's next action is possible at once; the one exception is a
    slow consumer it just dropped, and then that client's [Detach] is possible
    and lets the pump go on. *)
Theorem pump_not_stalled c r s skip now :
  reachable c r s → pump s ≠ PRead → pump s ≠ PDone →
  (∃ s', step (LPump skip) s = Some s') ∨
  (∃ id s' s'', step (LDetach id now) s = Some s' ∧ step (LPump skip) s' = Some s'').
Proof.
  intros Hs Hr Hd. pose proof (inv_reachable _ _ _ Hs) as Hi.
  pose proof (inv_pump s Hi) as [_ Hpa Hpw]. cbn [step]. unfold pumpStep.
  destruct (pump s) as [|data [|id rest] err|id data rest err| |[|id rest]|] eqn:Hp; try done;
    try (by left; eexists).
  - left. destruct (Hpa id) as (cl & -> & _); [left|]. cbn. destruct (deliver _ _ _); by eexists.
  - destruct (Hpw id data rest err eq_refl) as (cl & Hl & Hdn). rewrite Hl. cbn.
    apply (ok_done _ _ _ _ _ (inv_clients s Hi id cl Hl)) in Hdn.
    destruct (closeOnce cl) eqn:Ec; [done| |by left; eexists]. right.
    exists id. eexists _, _. rewrite Hl. cbn. rewrite Ec. cbn. split; [done|]. cbn. rewrite Hp.
    rewrite list_lookup_insert_eq by (by eapply lookup_lt_Some). done.
  - left. destruct (Hpa id) as (cl & -> & _); [left|]. by eexists.
Qed.

(** An exited session does not linger.  Once the exit was recorded and no
    client is attached, an expiry timer is running or the clean-up has been
    triggered, in whatever order the exit and the detaches happened. *)
Theorem tombstone_expires c r s :
  reachable c r s → waiter s = WDone → clients s = [] →
  (0 < tombstones s)%nat ∨ cleanup s = true.
Proof. intros Hs%exit_ok_reachable. by apply Hs. Qed.
End session.

(** ** A concrete session *)

(** An emulator whose screen is the text written so far. *)
#[local] Instance plain_emulator : Emulator := {|
  vte := bytes; style := unit;
  NewEmulator _ _ := []; vteWrite t b := t ++ b; vteResize t _ _ := t;
  IsAltScreen _ := false; Render t := t; CursorPosition _ := (0, 0);
  ScrollbackLen _ := 0%nat; Width _ := 80%nat; ScrollbackCellAt _ _ _ := None;
  zeroStyle := tt; IsZero _ := true; StyleEqual _ _ := true; StyleDiff _ _ := []; ResetStyle := [] |}.

Definition run `{Emulator} : list label → Session → option Session := run_steps step.

Definition demo_labels : list label :=
  [LPumpRead (gs "old") false; LPump false; LAttach 80 24; LAttach 100 30;
   LPumpRead (gs "hi") false; LPump false; LRead 0 3 false; LPump false; LRead 0 100 false;
   LRead 0 100 false].

(** The second client is still to be served the last chunk. *)
Definition demo_fan : list label := demo_labels ++ [LPump false; LPumpRead (gs "!") true; LPump false].

Definition demo_exit : list label :=
  demo_fan ++ [LPump false; LPump false; LPump false; LShellExit 0; LPump false; LRead 0 10 false;
               LPump false; LPump false; LWait 5; LWait 6;
               LCloseBegin 0 DetachNone; LDetach 0 7; LCloseBegin 1 DetachDisconnect; LDetach 1 8].

Definition demo_state (ls : list label) : Session := default (newSession 80 24) (run ls (newSession 80 24)).

Lemma demo_reachable ls :
  is_Some (run ls (newSession 80 24)) → reachable 80 24 (demo_state ls).
Proof.
  intros [s Hs]. unfold demo_state. rewrite Hs. cbn. eapply run_steps_reach; [constructor|done].
Qed.

Definition is_some_b {A} (o : option A) : bool := match o with Some _ => true | None => false end.

Lemma demo_ok ls : is_some_b (run ls (newSession 80 24)) = true → reachable 80 24 (demo_state ls).
Proof. intros Hs. apply demo_reachable. destruct (run _ _); [eauto|done]. Qed.

Definition demo_client (ls : list label) (id : nat) : Client := default newClient (heap (demo_state ls) !! id).

Lemma demo_client_lookup ls id :
  is_some_b (heap (demo_state ls) !! id) = true →
  heap (demo_state ls) !! id = Some (demo_client ls id).
Proof. unfold demo_client. by destruct (heap (demo_state ls) !! id). Qed.

Lemma stream_integrity_witness :
  ∃ replay since,
    attached (demo_client demo_fan 1) = Some (replay, since) ∧ since = 1%nat ∧
    backlog (pump (demo_state demo_fan)) 1 = gs "!" ∧
    received (demo_client demo_fan 1) ++ pending (demo_client demo_fan 1) ++
      concat (output (demo_client demo_fan 1)) ++ backlog (pump (demo_state demo_fan)) 1 =
    replay ++ concat (drop since (hist (demo_state demo_fan))).
Proof.
  eexists _, _. split; [vm_compute; reflexivity|]. split; [reflexivity|].
  split; [vm_compute; reflexivity|].
  apply (stream_integrity 80 24); [apply demo_ok| apply demo_client_lookup| |]; vm_compute; reflexivity.
Defined.

Definition demo_drained : list label := take 20 demo_exit.

Lemma writer_is_attached_witness :
  writer (demo_state demo_fan) = Some 0%nat ∧ 0%nat ∈ clients (demo_state demo_fan).
Proof.
  split; [vm_compute; reflexivity|].
  apply (writer_is_attached 80 24); [apply demo_ok|]; vm_compute; reflexivity.
Defined.

Lemma pump_not_stalled_witness :
  pump (demo_state demo_fan) = PFan (gs "!") [1%nat] true ∧
  ((∃ s', step (LPump false) (demo_state demo_fan) = Some s') ∨
   (∃ id s' s'', step (LDetach id 0) (demo_state demo_fan) = Some s' ∧ step (LPump false) s' = Some s'')).
Proof.
  split; [vm_compute; reflexivity|].
  apply (pump_not_stalled 80 24); [apply demo_ok; vm_compute; reflexivity|vm_compute; discriminate..].
Defined.

Lemma tombstone_expires_witness :
  clients (demo_state demo_exit) = [] ∧
  ((0 < tombstones (demo_state demo_exit))%nat ∨ cleanup (demo_state demo_exit) = true).
Proof.
  split; [vm_compute; reflexivity|].
  apply (tombstone_expires 80 24); [apply demo_ok|..]; vm_compute; reflexivity.
Defined.
