(* ===== verification/Manager.v ===== *)
(** * The session manager and its helpers ([session/manager.go],
    [session/statefile.go], [session/cleanup.go], and the helpers at the end of
    [session/session.go])

    The manager creates sessions up to a limit, removes them when their
    tombstone expires, and mirrors their state to a file. *)

From S2P Require Import Prelude GoStrings Session.
Open Scope Z_scope.

(** ** Newlines for raw-mode terminals *)

(** The two passes of [ToCRLF] as one-step recursions. *)
Fixpoint collapse (b : bytes) : bytes :=
  match b with
  | [] => []
  | c :: b' =>
      match b' with
      | d :: b'' => if bool_decide (c = CR) && bool_decide (d = LF) then LF :: collapse b''
                    else c :: collapse b'
      | [] => [c]
      end
  end.

Definition expand (b : bytes) : bytes := flat_map (λ c, if bool_decide (c = LF) then [CR; LF] else [c]) b.

Lemma collapse_cons2 c d b :
  collapse (c :: d :: b) =
  if bool_decide (c = CR) && bool_decide (d = LF) then LF :: collapse b else c :: collapse (d :: b).
Proof. done. Qed.

Lemma replace_cons2 c d b :
  ReplaceAll (c :: d :: b) [CR; LF] [LF] =
  if bool_decide (c = CR) && bool_decide (d = LF) then LF :: ReplaceAll b [CR; LF] [LF]
  else c :: ReplaceAll (d :: b) [CR; LF] [LF].
Proof.
  rewrite (bool_decide_ext (c = CR) (CR = c)), (bool_decide_ext (d = LF) (LF = d)) by done.
  unfold ReplaceAll. cbn [replaceFrom HasPrefix]. by rewrite andb_true_r.
Qed.

Lemma replace_crlf b : ReplaceAll b [CR; LF] [LF] = collapse b.
Proof.
  remember (length b) as n eqn:Hn. revert b Hn. induction (lt_wf n) as [n _ IH]. intros b ->.
  destruct b as [|c [|d b]]; [done| |].
  - unfold ReplaceAll. cbn. by rewrite andb_false_r.
  - rewrite replace_cons2, collapse_cons2.
    rewrite (IH (length b)), (IH (length (d :: b))) by (cbn; lia). done.
Qed.

Lemma replace_lf b : ReplaceAll b [LF] [CR; LF] = expand b.
Proof. apply ReplaceAll_single. Qed.

Lemma ToCRLF_passes b : ToCRLF b = expand (collapse b).
Proof. unfold ToCRLF. by rewrite replace_crlf, replace_lf. Qed.

Lemma expand_cons c b : expand (c :: b) = (if bool_decide (c = LF) then [CR; LF] else [c]) ++ expand b.
Proof. done. Qed.

(** The expansion never puts a line feed first. *)
Lemma expand_head b d b' : expand b = d :: b' → d ≠ LF.
Proof. destruct b as [|c b]; [done|]. rewrite expand_cons. case_bool_decide; cbn; unfold CR, LF in *; congruence. Qed.

Lemma collapse_expand b : collapse (expand b) = b.
Proof.
  induction b as [|c b IH]; [done|]. rewrite expand_cons. case_bool_decide as Hc; cbn [app].
  - rewrite collapse_cons2, !bool_decide_eq_true_2 by done. cbn. by rewrite IH, Hc.
  - destruct (expand b) as [|d b'] eqn:E.
    + destruct b as [|e b]; [done|]. rewrite expand_cons in E. by case_bool_decide.
    + rewrite collapse_cons2, (bool_decide_eq_false_2 (d = LF)), andb_false_r by (by eapply expand_head).
      by rewrite IH.
Qed.

Lemma expand_no_bare_lf b i : expand b !! i = Some LF → ∃ j, i = S j ∧ expand b !! j = Some CR.
Proof.
  revert i. induction b as [|c b IH]; intros i; [done|]. rewrite expand_cons.
  case_bool_decide as Hc; cbn [app].
  - destruct i as [|[|i]]; [done|eauto|]. cbn. intros (j & -> & Hj)%IH. exists (S (S j)). eauto.
  - destruct i as [|i]; cbn; [congruence|]. intros (j & -> & Hj)%IH. exists (S j). eauto.
Qed.

(** [ToCRLF] leaves no bare line feed, is idempotent (text that already uses
    CRLF is not given a second carriage return), and changes nothing but line
    ends: undoing it gives the line-feed form of the input.  It is one pass that
    collapses CRLF to LF and one that expands every LF. *)
Theorem ToCRLF_spec b :
  (∀ i, ToCRLF b !! i = Some LF → ∃ j, i = S j ∧ ToCRLF b !! j = Some CR) ∧
  ToCRLF (ToCRLF b) = ToCRLF b ∧
  ReplaceAll (ToCRLF b) [CR; LF] [LF] = ReplaceAll b [CR; LF] [LF] ∧
  ToCRLF b = expand (collapse b).
Proof.
  split_and!; [..|apply ToCRLF_passes].
  - rewrite ToCRLF_passes. apply expand_no_bare_lf.
  - by rewrite !ToCRLF_passes, collapse_expand.
  - by rewrite !replace_crlf, ToCRLF_passes, collapse_expand.
Qed.

(** ** Environments *)

Definition envAdd (env : gmap bytes bytes) (e : bytes) : gmap bytes bytes :=
  match Cut e "=" with
  | Some (k, v) => <[k := v]> env
  | None => env
  end.

Definition pubkeyVar : bytes := gs "VIBEPIT_SSH_PUBKEY".

(** [MergeEnv]; [environ] is [os.Environ()].  Go ranges over the map in some
    order, here [map_to_list]'s. *)
Definition MergeEnv (environ sessionEnv : list bytes) : list bytes :=
  let env := fold_left envAdd sessionEnv (fold_left envAdd environ ∅) in
  let env := delete pubkeyVar env in
  (λ '(k, v), k ++ gs "=" ++ v) <$> map_to_list env.

(** The value the last assignment of [k] gives it. *)
Definition binding (k : bytes) (es : list bytes) : option bytes :=
  last (omap (λ e, match Cut e "=" with
                   | Some (k', v) => if bool_decide (k' = k) then Some v else None
                   | None => None
                   end) es).

Lemma envAdd_binding es k : fold_left envAdd es ∅ !! k = binding k es.
Proof.
  induction es as [|e es IH] using rev_ind; [done|].
  rewrite fold_left_app. unfold binding in *. rewrite omap_app. cbn. unfold envAdd at 1.
  destruct (Cut e "=") as [[k' v]|]; [|by rewrite app_nil_r].
  case_bool_decide as Hk.
  - subst. by rewrite lookup_insert_eq, last_snoc.
  - by rewrite lookup_insert_ne, app_nil_r.
Qed.

Lemma binding_no_sep k es v : binding k es = Some v → "="%char ∉ k.
Proof.
  unfold binding. intros Hl%last_Some_elem_of.
  apply list_elem_of_omap in Hl as (e & _ & He).
  destruct (Cut e "=") as [[k' v']|] eqn:Hc; [|done]. case_bool_decide; [|done]. subst.
  by apply Cut_Some in Hc as [_ ?].
Qed.

(** The environment of a new shell assigns each variable the last value the
    session gave it, or else the container's, and nothing else; and the
    server's public key variable never reaches the shell, even when the client
    sends one. *)
Theorem MergeEnv_spec environ sessionEnv k v :
  "="%char ∉ k →
  k ++ gs "=" ++ v ∈ MergeEnv environ sessionEnv ↔
  k ≠ pubkeyVar ∧ binding k (environ ++ sessionEnv) = Some v.
Proof.
  intros Hk. unfold MergeEnv. rewrite <- fold_left_app, list_elem_of_fmap. split.
  - intros ([k' v'] & He & [Hne Hl]%elem_of_map_to_list%lookup_delete_Some).
    rewrite envAdd_binding in Hl.
    pose proof (binding_no_sep _ _ _ Hl) as Hk'.
    pose proof (Cut_app k "=" v Hk) as H1. pose proof (Cut_app k' "=" v' Hk') as H2.
    change (k ++ "="%char :: v = k' ++ "="%char :: v') in He.
    rewrite He in H1. rewrite H1 in H2. injection H2 as -> ->. done.
  - intros [Hne Hb]. exists (k, v). split; [done|].
    apply elem_of_map_to_list, lookup_delete_Some. by rewrite envAdd_binding.
Qed.

Lemma MergeEnv_spec_witness :
  gs "TERM" ++ gs "=" ++ gs "xterm" ∈
    MergeEnv [gs "TERM=dumb"; gs "VIBEPIT_SSH_PUBKEY=x"] [gs "TERM=xterm"].
Proof.
  apply (MergeEnv_spec [gs "TERM=dumb"; gs "VIBEPIT_SSH_PUBKEY=x"] [gs "TERM=xterm"] (gs "TERM") (gs "xterm")).
  - apply (bool_decide_unpack _). vm_compute. exact I.
  - split; [discriminate|vm_compute; reflexivity].
Defined.

(** ** The manager *)

Section manager.
Context `{Emulator}.

Record Manager := MkManager {
  sessions : gmap bytes Session;
  counter : Z;
  limit : Z;
}.

Definition NewManager (limit : Z) : Manager := MkManager ∅ 0 limit.

(** The sessions whose shell is alive. *)
Definition alive (ss : gmap bytes Session) : gmap bytes Session :=
  filter (λ ks, exited ks.2 = false) ss.

Definition active (m : Manager) : Z := Z.of_nat (size (alive (sessions m))).

Definition sessionID (n : Z) : bytes := gs "session-" ++ Itoa n.

Inductive createErr := LimitReached (limit : Z) | StartShell.

(** [Create]; [started] is whether the shell could be started.  A failed start
    has used up its number. *)
Definition Create (m : Manager) (c r : Z) (started : bool) : Manager * result createErr bytes :=
  if limit m <=? active m then (m, Err (LimitReached (limit m)))
  else
    let n := counter m + 1 in
    if started then
      (MkManager (<[sessionID n := newSession c r]> (sessions m)) n (limit m), Ok (sessionID n))
    else (MkManager (sessions m) n (limit m), Err StartShell).

Definition Get (m : Manager) (id : bytes) : option Session := sessions m !! id.

(** A snapshot of a session for display. *)
Record SessionInfo := MkInfo {
  ID : bytes;
  ClientCount : nat;
  IStatus : Status;
  ExitCode : Z;
  ExitedAt : option Z;
  DetachedAt : option Z;
  LastDetachReason : DetachReason;
}.

Definition Info (id : bytes) (s : Session) : SessionInfo :=
  MkInfo id (length (clients s)) (InfoStatus s) (exitCode s) (exitedAt s) (detachedAt s)
    (lastDetachReason s).

Definition List (m : Manager) : list SessionInfo :=
  (λ '(id, s), Info id s) <$> map_to_list (sessions m).

(** Sessions run by themselves; a session is removed after its clean-up. *)
Inductive mlabel :=
  | MCreate (c r : Z) (started : bool)
  | MSession (id : bytes) (l : label)
  | MRemove (id : bytes).

Definition mstep (m : Manager) (l : mlabel) : option Manager :=
  match l with
  | MCreate c r started => Some (Create m c r started).1
  | MSession id l =>
      s ← sessions m !! id; s' ← step l s;
      Some (MkManager (<[id := s']> (sessions m)) (counter m) (limit m))
  | MRemove id =>
      s ← sessions m !! id;
      if cleanup s then Some (MkManager (delete id (sessions m)) (counter m) (limit m)) else None
  end.

Definition mreachable (lim : Z) : Manager → Prop := reach_from (λ l m, mstep m l) (NewManager lim).

Lemma exited_step s l s' : exited s = true → step l s = Some s' → exited s' = true.
Proof.
  intros Hx. destruct l as [c r|id c r|id reason|id now|id c r|id p|i|id n viaDone|data err|skip|code|now|];
    cbn [step].
  - intros [= <-]. by destruct (Attach_frame s c r) as (_ & _ & _ & ->).
  - case_bool_decide; [|done]. intros [= <-]. unfold TakeOver. by destruct (resizeIf_frame
      (set_clients s (clients s) (Some id)) c r) as (_ & _ & _ & _ & -> & _).
  - destruct (heap s !! id); [|done]. cbn. case_bool_decide; [|done]. by intros [= <-].
  - destruct (heap s !! id); [|done]. cbn. case_bool_decide; [|done]. by intros [= <-].
  - intros [= <-]. unfold Resize. destruct (negb _); [done|]. by destruct (_ && _).
  - intros [= <-]. unfold WriteInput. by destruct (negb _).
  - destruct (inflight s !! i); [|done]. by intros [= <-].
  - destruct (heap s !! id); [|done]. cbn. destruct (Read _ _ _) as [[]|]; [|done]. by intros [= <-].
  - destruct (pump s); try done. intros [= <-]. unfold pumpRead. by case_bool_decide.
  - unfold pumpStep.
    destruct (pump s) as [|data [|c rest] err|c data rest err| |[|c rest]|]; try done.
    1,4,5: by intros [= <-].
    all: destruct (heap s !! c) as [cl|]; [|done]; cbn.
    + destruct (deliver _ _ _); by intros [= <-].
    + case_bool_decide; [|done]. by intros [= <-].
    + by intros [= <-].
  - destruct (waiter s); try done. by intros [= <-].
  - unfold waitStep. destruct (waiter s); try done; [by intros [= <-]|].
    destruct (pump s); try done. intros [= <-]. by case_bool_decide.
  - destruct (tombstones s); [done|]. by intros [= <-].
Qed.

Lemma size_alive_insert ss id s :
  (size (alive (<[id := s]> ss)) ≤ S (size (alive ss)))%nat.
Proof.
  unfold alive. destruct (decide (exited s = false)) as [Hx|Hx].
  - rewrite map_filter_insert_True by done. rewrite map_size_insert.
    case_match; unfold Datatypes.id; lia.
  - rewrite map_filter_insert_False by done. rewrite map_filter_delete, map_size_delete.
    case_match; unfold Datatypes.id; lia.
Qed.

Lemma size_alive_update ss id s s' :
  ss !! id = Some s → (exited s = true → exited s' = true) →
  (size (alive (<[id := s']> ss)) ≤ size (alive ss))%nat.
Proof.
  intros Hl Hx. unfold alive. destruct (decide (exited s' = false)) as [Hx'|Hx'].
  - rewrite map_filter_insert_True by done. rewrite map_size_insert.
    destruct (filter _ ss !! id) eqn:Hf; unfold Datatypes.id; [lia|exfalso].
    apply map_lookup_filter_None in Hf as [Hf|Hf]; [congruence|]. apply (Hf s Hl). cbn.
    destruct (exited s); [|done]. rewrite Hx in Hx' by done. done.
  - rewrite map_filter_insert_False by done. rewrite map_filter_delete, map_size_delete.
    case_match; unfold Datatypes.id; lia.
Qed.

Lemma size_alive_delete ss id : (size (alive (delete id ss)) ≤ size (alive ss))%nat.
Proof.
  unfold alive. rewrite map_filter_delete, map_size_delete. case_match; unfold Datatypes.id; lia.
Qed.

Record mgr_ok (lim : Z) (m : Manager) : Prop := {
  mok_limit : limit m = lim;
  mok_active : active m ≤ lim;
  mok_counter : 0 ≤ counter m;
  mok_ids : ∀ id s, sessions m !! id = Some s →
    (∃ n, 1 ≤ n ≤ counter m ∧ id = sessionID n) ∧ Inv s;
}.

Lemma mgr_ok_step lim m l m' : mgr_ok lim m → mstep m l = Some m' → mgr_ok lim m'.
Proof.
  intros [Hl Ha Hc Hi]. destruct l as [c r started|id l|id]; cbn [mstep].
  - intros [= <-]. unfold Create. destruct (Z.leb_spec (limit m) (active m)); [by split|].
    destruct started; cbn; split; cbn; try done; try lia.
    + unfold active in *. cbn.
      pose proof (size_alive_insert (sessions m) (sessionID (counter m + 1)) (newSession c r)). lia.
    + intros id s. destruct (decide (id = sessionID (counter m + 1))) as [->|].
      * rewrite lookup_insert_eq. intros [= <-]. split; [|apply inv_init]. exists (counter m + 1).
        split; [lia|done].
      * rewrite lookup_insert_ne by done. intros [(k & ? & ->) ?]%Hi. split; [|done].
        exists k. split; [lia|done].
    + intros id s [(k & ? & ->) ?]%Hi. split; [|done]. exists k. split; [lia|done].
  - destruct (sessions m !! id) as [s|] eqn:Hs; [|done]. cbn.
    destruct (step l s) as [s'|] eqn:Hst; [|done]. cbn. intros [= <-].
    destruct (Hi id s Hs) as [Hn Hinv]. split; cbn; try done.
    + unfold active in *. cbn.
      pose proof (size_alive_update (sessions m) id s s' Hs) as Hle.
      specialize (Hle (λ Hx, exited_step s l s' Hx Hst)). lia.
    + intros id' x. destruct (decide (id' = id)) as [->|].
      * rewrite lookup_insert_eq. intros [= <-]. split; [done|by eapply inv_step].
      * rewrite lookup_insert_ne by done. apply Hi.
  - destruct (sessions m !! id) as [s|] eqn:Hs; [|done]. cbn. destruct (cleanup s); [|done].
    intros [= <-]. split; cbn; try done.
    + unfold active in *. cbn. pose proof (size_alive_delete (sessions m) id). lia.
    + intros id' x [_ Hx]%lookup_delete_Some. by apply Hi.
Qed.

Lemma mgr_ok_reachable lim m : 0 ≤ lim → mreachable lim m → mgr_ok lim m.
Proof.
  intros Hlim. induction 1 as [|m l m' _ IH Hs]; [|by eapply mgr_ok_step].
  split; cbn; try done.
Qed.

Lemma sessionID_inj n n' : sessionID n = sessionID n' → n = n'.
Proof.
  unfold sessionID, Itoa. intros Hn%(inj _). apply (inj gs) in Hn. by apply (inj pretty) in Hn.
Qed.

(** However sessions are created, attached to, exit and expire, the number
    of live sessions never exceeds the limit, [Create] fails with the limit
    error exactly when it is reached, and a session it creates has an
    identifier no session of the manager has: none is ever replaced. *)
Theorem Create_spec lim m c r started :
  0 ≤ lim → mreachable lim m →
  active m ≤ lim ∧
  match Create m c r started with
  | (m', Ok id) => active m < lim ∧ started = true ∧ sessions m !! id = None ∧
                   sessions m' = <[id := newSession c r]> (sessions m)
  | (m', Err (LimitReached n)) => active m = lim ∧ n = lim ∧ m' = m
  | (m', Err StartShell) => active m < lim ∧ started = false ∧ sessions m' = sessions m
  end.
Proof.
  intros Hlim [Hl Ha Hc Hi]%mgr_ok_reachable; [|done]. split; [done|]. unfold Create. rewrite Hl.
  destruct (Z.leb_spec lim (active m)); [split_and!; try done; lia|].
  destruct started; cbn; split_and!; try done.
  destruct (sessions m !! _) as [s|] eqn:Hs; [|done].
  destruct (Hi _ _ Hs) as [(n & Hn & E%sessionID_inj) _]. lia.
Qed.
End manager.

Lemma Create_spec_witness :
  let m := NewManager (H := plain_emulator) 1 in
  let m1 := (Create m 80 24 true).1 in
  (Create m1 80 24 true).2 = Err (LimitReached 1) ∧ active m1 = 1.
Proof.
  intros m m1. split; [vm_compute; reflexivity|].
  assert (Hr : mreachable 1 m1) by (apply (reach_next _ _ (MCreate 80 24 true) m); [constructor|done]).
  destruct (Create_spec 1 m1 80 24 true ltac:(lia) Hr) as [_ Hc].
  vm_compute in Hc. vm_compute. exact (proj1 Hc).
Defined.

(** ** The state file

    [writeStateFile] runs in many goroutines.  A change of the manager's state
    makes a new version and starts a writer; a writer takes [stateFileMu],
    snapshots the current version, writes the temporary file and renames it.
    Each action is one step of writer [i]; any interleaving is possible. *)
Module StateFile.
Open Scope nat_scope.

Inductive pc := Start | Locked | Snapped (v : nat) | Wrote | Done.

Record state := State {
  version : nat;            (* of the manager's state *)
  file : nat;               (* the version in the state file *)
  tmp : nat;                (* ... in the temporary file *)
  mutex : option nat;       (* who holds [stateFileMu] *)
  failed : bool;            (* a write was abandoned because of an error *)
  writers : list pc;
}.

Definition init : state := State 0 0 0 None false [].

Inductive action := Change | Act (i : nat) | GiveUp (i : nat).

Definition act (i : nat) (p : pc) (st : state) : state :=
  let st' p v f t m := State v f t m (failed st) (<[i := p]> (writers st)) in
  match p with
  | Start => match mutex st with
             | None => st' Locked (version st) (file st) (tmp st) (Some i)
             | Some _ => st
             end
  | Locked => st' (Snapped (version st)) (version st) (file st) (tmp st) (mutex st)
  | Snapped v => st' Wrote (version st) (file st) v (mutex st)
  | Wrote => st' Done (version st) (tmp st) (tmp st) None
  | Done => st
  end.

Definition step (st : state) (a : action) : state :=
  match a with
  | Change => State (S (version st)) (file st) (tmp st) (mutex st) (failed st) (writers st ++ [Start])
  | Act i => match writers st !! i with Some p => act i p st | None => st end
  | GiveUp i => match writers st !! i with
               | Some (Snapped _) => State (version st) (file st) (tmp st) None true
                                       (<[i := Done]> (writers st))
               | _ => st
               end
  end.

Definition run (acts : list action) (st : state) : state := fold_left step acts st.

Definition holds (p : pc) : bool := match p with Start | Done => false | _ => true end.

(** The writer will put the newest version into the file. *)
Definition fresh (st : state) (p : pc) : Prop :=
  match p with
  | Start | Locked => True
  | Snapped v => v = version st
  | Wrote => tmp st = version st
  | Done => False
  end.

Record inv (st : state) : Prop := {
  inv_mutex : ∀ i p, writers st !! i = Some p → holds p = true ↔ mutex st = Some i;
  inv_holder : ∀ i, mutex st = Some i → i < length (writers st);
  inv_file : file st ≤ version st;
  inv_snap : ∀ i v, writers st !! i = Some (Snapped v) → file st ≤ v ≤ version st;
  inv_wrote : ∀ i, writers st !! i = Some Wrote → file st ≤ tmp st ≤ version st;
  inv_fresh : failed st = true ∨ file st = version st ∨
              ∃ i p, writers st !! i = Some p ∧ fresh st p;
}.

Lemma sf_inv_init : inv init.
Proof. split; cbn; try done. by right; left. Qed.

Lemma writers_insert (ws : list pc) i p q x j :
  ws !! i = Some p → <[i := q]> ws !! j = Some x → j = i ∧ x = q ∨ j ≠ i ∧ ws !! j = Some x.
Proof.
  intros Hi. destruct (decide (j = i)) as [->|].
  - rewrite list_lookup_insert_eq by (by eapply lookup_lt_Some). intros [= <-]. by left.
  - rewrite list_lookup_insert_ne by done. by right.
Qed.

(** Only the holder of the mutex is past [Start]. *)
Lemma other_idle st i p j q :
  inv st → writers st !! i = Some p → holds p = true → writers st !! j = Some q → j ≠ i →
  holds q = false.
Proof.
  intros Hi Hp Hh Hq Hne. apply not_true_is_false. intros Hh'.
  apply (inv_mutex st Hi i p Hp) in Hh. apply (inv_mutex st Hi j q Hq) in Hh'. congruence.
Qed.

(** Writer [i] moves on to [q]; the others see no change of the file. *)
Lemma inv_move st st' i p q :
  inv st → writers st !! i = Some p → writers st' = <[i := q]> (writers st) →
  version st' = version st → file st ≤ file st' ≤ version st →
  (holds p = true ∨ file st' = file st ∧ tmp st' = tmp st) →
  (mutex st' = if holds q then Some i else if holds p then None else mutex st) →
  (holds q = true → holds p = true ∨ mutex st = None) →
  (match q with Snapped v => file st' ≤ v ≤ version st | Wrote => file st' ≤ tmp st' ≤ version st
   | _ => True end) →
  (failed st = true → failed st' = true) →
  (failed st' = true ∨ fresh st' q ∨ file st' = version st ∨ (fresh st p → False)) →
  inv st'.
Proof.
  intros Hi Hp Ew Ev Hf Hex Em Hq Hsnap Hfl Hfr.
  assert (Hidle : ∀ j x, j ≠ i → writers st !! j = Some x → holds x = true → holds p = false).
  { intros j x Hne Hx Hh. apply not_true_is_false. intros Hh'.
    pose proof (other_idle st i p j x Hi Hp Hh' Hx Hne). congruence. }
  assert (Hkeep : ∀ j x, j ≠ i → writers st !! j = Some x → holds x = true →
                  file st' = file st ∧ tmp st' = tmp st).
  { intros j x Hne Hx Hh. destruct Hex as [Hh'|]; [|done].
    pose proof (Hidle j x Hne Hx Hh). congruence. }
  split; rewrite ?Ew, ?Ev.
  - intros j x [[-> ->]|[Hne Hx]]%(writers_insert _ _ p); [| |done].
    + rewrite Em. destruct (holds q); [done|]. split; [done|]. destruct (holds p) eqn:Ep; [done|].
      intros Hm. apply (inv_mutex st Hi i p Hp) in Hm. congruence.
    + rewrite Em. pose proof (inv_mutex st Hi j x Hx) as Hm.
      destruct (holds q) eqn:Eq.
      * split; [|congruence]. intros Hh. exfalso. destruct (Hq eq_refl) as [Hh'|Hn].
        -- pose proof (Hidle j x Hne Hx Hh). congruence.
        -- apply Hm in Hh. congruence.
      * destruct (holds p) eqn:Ep; [|done]. split; [|done]. intros Hh.
        pose proof (Hidle j x Hne Hx Hh). congruence.
  - intros j. rewrite Em, length_insert. pose proof (lookup_lt_Some _ _ _ Hp).
    destruct (holds q); [by intros [= <-]|]. destruct (holds p); [done|]. apply (inv_holder st Hi).
  - lia.
  - intros j v [[-> <-]|[Hne Hx]]%(writers_insert _ _ p); [done| |done].
    destruct (Hkeep j _ Hne Hx eq_refl) as [-> _]. by apply (inv_snap st Hi j).
  - intros j [[-> <-]|[Hne Hx]]%(writers_insert _ _ p); [done| |done].
    destruct (Hkeep j _ Hne Hx eq_refl) as [-> ->]. by apply (inv_wrote st Hi j).
  - destruct Hfr as [|[Hfr|[|Hstale]]]; [by left| |by right; left|].
    + right; right. exists i, q. split; [|done].
      apply list_lookup_insert_eq. by eapply lookup_lt_Some.
    + destruct (inv_fresh st Hi) as [|[Hv|(j & x & Hx & Hxf)]]; [left; auto|right; left; lia|].
      right; right. exists j, x. destruct (decide (j = i)) as [->|Hne].
      * exfalso. apply Hstale. congruence.
      * rewrite list_lookup_insert_ne by done. split; [done|]. unfold fresh in *. rewrite Ev.
        destruct x; try done. by destruct (Hkeep j _ Hne Hx eq_refl) as [_ ->].
Qed.

Lemma sf_inv_step st a : inv st → inv (step st a).
Proof.
  intros Hi. destruct a as [|i|i]; cbn.
  - destruct Hi as [H1 H0 H2 H3 H4 H5].
    assert (Hlk : ∀ j x, (writers st ++ [Start]) !! j = Some x → writers st !! j = Some x ∨ x = Start).
    { intros j x [Hx|[_ Hx]]%lookup_app_Some; [by left|right].
      by apply list_lookup_singleton_Some in Hx as [_ <-]. }
    split; cbn; [| |lia| | |].
    + intros j x Hx. destruct (Hlk j x Hx) as [Hx'| ->]; [by apply H1|]. split; [done|].
      intros Hm. exfalso. apply lookup_app_Some in Hx as [Hx|[Hge _]].
      * apply H1 in Hx. apply Hx in Hm. done.
      * apply H0 in Hm. lia.
    + intros j Hm%H0. rewrite length_app. cbn. lia.
    + intros j v [Hx|[=]]%Hlk. specialize (H3 j v Hx). lia.
    + intros j [Hx|[=]]%Hlk. specialize (H4 j Hx). lia.
    + right; right. exists (length (writers st)), Start. split; [|done].
      by apply list_lookup_middle.
  - destruct (writers st !! i) as [p|] eqn:Hp; [|done].
    destruct p as [| |v| |]; cbn; [destruct (mutex st) eqn:Hm; [done|]| | | |done];
      (eapply (inv_move st _ i); [done|exact Hp|reflexivity|reflexivity|..]); cbn; auto; try done.
    all: pose proof (inv_file st Hi).
    1,2,5: lia.
    2: lia.
    1,2: by apply (inv_mutex st Hi i _ Hp).
    + apply (inv_snap st Hi i v Hp).
    + destruct (decide (v = version st)); auto.
    + apply (inv_wrote st Hi i Hp).
    + destruct (decide (tmp st = version st)); auto.
  - destruct (writers st !! i) as [[| |v| |]|] eqn:Hp; try done.
    eapply (inv_move st _ i); [done|exact Hp|reflexivity|reflexivity|..]; cbn; auto; try done.
    pose proof (inv_file st Hi). lia.
Qed.

Lemma sf_inv_run acts st : inv st → inv (run acts st).
Proof. unfold run. revert st. induction acts; cbn; auto using sf_inv_step. Qed.

Lemma file_step st a : inv st → file st ≤ file (step st a).
Proof.
  intros Hi. destruct a as [|i|i]; cbn; [done| |].
  - destruct (writers st !! i) as [[| |v| |]|] eqn:Hp; cbn; try done; [by destruct (mutex st)|].
    apply (inv_wrote st Hi i Hp).
  - by destruct (writers st !! i) as [[| |v| |]|].
Qed.

(** The state file never goes back to an older state, whatever the
    interleaving of the writers; and when every writer has finished and none
    hit an error, the file holds the current state. *)
Theorem state_file_fresh acts a :
  let st := run acts init in
  file st ≤ file (step st a) ∧
  (failed st = false → Forall (λ p, p = Done) (writers st) → file st = version st).
Proof.
  intros st. assert (Hi : inv st) by apply sf_inv_run, sf_inv_init. split; [by apply file_step|].
  intros Hf Hd. destruct (inv_fresh st Hi) as [|[|(i & p & Hp & Hfr)]]; [congruence|done|].
  rewrite Forall_lookup in Hd. rewrite (Hd i p Hp) in Hfr. done.
Qed.
End StateFile.
