(* ===== verification/Cleanup.v ===== *)
(** * Killing a session's leftover processes ([session/cleanup.go])

    When a shell exits, the processes of its session are found through /proc,
    terminated by process group and then killed one by one, in at most five
    rounds.  What /proc says at each scan is a parameter. *)

From S2P Require Import Prelude GoStrings.
Open Scope Z_scope.

(** [parseProcStat]: pid, process group and session of a stat line. *)
Definition parseProcStat (line : gostring) : option (Z * Z * Z) :=
  match LastIndex line ")" with
  | None => None
  | Some closeParen =>
      if (length line <=? closeParen + 2)%nat then None else
      match Cut line " " with
      | None => None
      | Some (pidStr, _) =>
          match Atoi pidStr with
          | Err _ => None
          | Ok pid =>
              match Fields (drop (closeParen + 2) line) with
              | _ :: _ :: f2 :: f3 :: _ =>
                  match Atoi f2, Atoi f3 with
                  | Ok pgid, Ok sid => Some (pid, pgid, sid)
                  | _, _ => None
                  end
              | _ => None
              end
          end
      end
  end.

Record procInfo := MkProc { pid : Z; pgid : Z }.

#[global] Instance procInfo_eq_dec : EqDecision procInfo.
Proof. solve_decision. Defined.

(** [findProcessesBySID]: [stats] are the stat lines that could be read. *)
Definition findProcessesBySID (self : Z) (stats : list gostring) (sid shellPID : Z) : list procInfo :=
  omap (λ line,
    match parseProcStat line with
    | Some (p, g, procSID) =>
        if negb (procSID =? sid) || (p =? shellPID) || (p =? self) then None else Some (MkProc p g)
    | None => None
    end) stats.

Inductive kill := TermGroup (pgid : Z) | Kill9 (pid : Z).

(** The first loop of [cleanupDescendants], with the map [killed]. *)
Fixpoint termGroups (killed : gset Z) (procs : list procInfo) : list kill :=
  match procs with
  | [] => []
  | p :: procs' =>
      if (pgid p =? 0) || bool_decide (pgid p ∈ killed) then termGroups killed procs'
      else TermGroup (pgid p) :: termGroups ({[ pgid p ]} ∪ killed) procs'
  end.

(** The bounded loop: one element of [scans] per round. *)
Fixpoint killRounds (scan : nat → list procInfo) (round rounds : nat) : list kill :=
  match rounds with
  | 0%nat => []
  | S k => match scan round with
           | [] => []
           | procs => (Kill9 ∘ pid <$> procs) ++ killRounds scan (S round) k
           end
  end.

(** The signals sent; [scan 0] is the first scan, [scan i] that of round [i]. *)
Definition cleanupDescendants (scan : nat → list procInfo) : list kill :=
  match scan 0%nat with
  | [] => []
  | procs => termGroups ∅ procs ++ killRounds scan 1 5
  end.

(** ** Fields of a line *)

Lemma fieldsFrom_word cur w s :
  Forall (λ c, is_space c = false) w → fieldsFrom cur (w ++ s) = fieldsFrom (cur ++ w) s.
Proof.
  revert cur. induction w as [|c w IH]; intros cur Hw; cbn; [by rewrite app_nil_r|].
  apply Forall_cons in Hw as [Hc Hw]. rewrite Hc, IH by done. by rewrite <- app_assoc.
Qed.

(** [rest] ends the word before it. *)
Definition at_break (rest : gostring) : Prop :=
  match rest with [] => True | c :: _ => is_space c = true end.

Lemma Fields_word w rest :
  w ≠ [] → Forall (λ c, is_space c = false) w → at_break rest → Fields (w ++ rest) = w :: Fields rest.
Proof.
  intros Hn Hw Hb. unfold Fields. rewrite fieldsFrom_word by done. cbn [app].
  destruct rest as [|c rest]; cbn; [by rewrite bool_decide_eq_false_2|].
  cbn in Hb. rewrite Hb. by rewrite bool_decide_eq_false_2.
Qed.

Lemma Fields_space rest : Fields (gs " " ++ rest) = Fields rest.
Proof. done. Qed.

Lemma Itoa_word n : Itoa n ≠ [] ∧ Forall (λ c, is_space c = false ∧ c ≠ ")"%char ∧ c ≠ " "%char) (Itoa n).
Proof.
  assert (Hd : ∀ s, forallb is_digit s = true →
             Forall (λ c, is_space c = false ∧ c ≠ ")"%char ∧ c ≠ " "%char) s).
  { intros s Hs. apply Forall_forall. intros c Hc.
    destruct (digits_not_sign s c Hs Hc) as (_ & _ & ? & ? & _). split_and!; try done.
    rewrite forallb_forall in Hs. apply list_elem_of_In, Hs in Hc.
    unfold is_digit, is_space in *. lia. }
  unfold Itoa. destruct n as [|p|p].
  - split; [done|]. by apply Hd.
  - destruct (gs_pretty_N (N.pos p)) as (? & ? & _). split; [done|]. by apply Hd.
  - destruct (gs_pretty_N (N.pos p)) as (? & ? & _).
    change (gs (pretty (Z.neg p))) with ("-"%char :: gs (pretty (N.pos p))).
    split; [done|]. constructor; [done|by apply Hd].
Qed.

Lemma Itoa_no_space n : Forall (λ c, is_space c = false) (Itoa n).
Proof. eapply Forall_impl; [apply Itoa_word|]. by intros ? (? & _). Qed.

Lemma Itoa_not_elem n : ")"%char ∉ Itoa n ∧ " "%char ∉ Itoa n.
Proof.
  pose proof (proj2 (Itoa_word n)) as Hf. rewrite Forall_forall in Hf.
  split; intros Hc%Hf; naive_solver.
Qed.

(** A stat line as the kernel writes it. *)
Definition stat_line (p : Z) (comm state : gostring) (ppid g s : Z) (rest : gostring) : gostring :=
  Itoa p ++ gs " (" ++ comm ++ gs ") " ++ state ++ gs " " ++ Itoa ppid ++ gs " " ++ Itoa g ++
  gs " " ++ Itoa s ++ rest.

Definition int64 (z : Z) : Prop := - 2 ^ 63 ≤ z < 2 ^ 63.

(** [parseProcStat] reads back the pid, group and session of every stat
    line, whatever the command name contains, be it spaces, parentheses or text
    that looks like fields. *)
Theorem parseProcStat_stat_line p comm state ppid g s rest :
  int64 p → int64 g → int64 s →
  state ≠ [] → Forall (λ c, is_space c = false) state → ")"%char ∉ state →
  at_break rest → ")"%char ∉ rest →
  parseProcStat (stat_line p comm state ppid g s rest) = Some (p, g, s).
Proof.
  intros Hp Hg Hs Hst Hsp Hpar Hbr Hrest.
  set (tail := state ++ gs " " ++ Itoa ppid ++ gs " " ++ Itoa g ++ gs " " ++ Itoa s ++ rest).
  set (head := Itoa p ++ gs " (" ++ comm).
  assert (Hline : stat_line p comm state ppid g s rest = head ++ ")"%char :: " "%char :: tail).
  { unfold stat_line, head, tail. rewrite <- !app_assoc. done. }
  assert (Htail : ")"%char ∉ " "%char :: tail).
  { unfold tail. rewrite elem_of_cons, !elem_of_app.
    pose proof (Itoa_not_elem ppid). pose proof (Itoa_not_elem g). pose proof (Itoa_not_elem s).
    assert (")"%char ∉ gs " ") by (intros H9; inv H9; by eapply elem_of_nil). naive_solver. }
  unfold parseProcStat. rewrite Hline, (proj2 (LastIndex_Some _ ")" (length head))) by eauto.
  assert (Hlen : (length (head ++ ")"%char :: " "%char :: tail) <=? length head + 2)%nat = false).
  { apply Nat.leb_gt. rewrite length_app. cbn. unfold tail. rewrite length_app.
    destruct state; [done|]. cbn. lia. }
  rewrite Hlen.
  assert (Hcut : Cut (head ++ ")"%char :: " "%char :: tail) " " =
                 Some (Itoa p, gs "(" ++ comm ++ ")"%char :: " "%char :: tail)).
  { rewrite <- (Cut_app (Itoa p) " ") by apply Itoa_not_elem. f_equal. unfold head.
    by rewrite <- !app_assoc. }
  rewrite Hcut, Atoi_Itoa by done.
  replace (drop (length head + 2) (head ++ ")"%char :: " "%char :: tail)) with tail
    by (rewrite <- drop_drop, drop_app_length; done).
  unfold tail.
  rewrite Fields_word by done. rewrite Fields_space.
  rewrite Fields_word; [|apply Itoa_word|apply Itoa_no_space|done]. rewrite Fields_space.
  rewrite Fields_word; [|apply Itoa_word|apply Itoa_no_space|done]. rewrite Fields_space.
  rewrite Fields_word; [|apply Itoa_word|apply Itoa_no_space|done].
  by rewrite !Atoi_Itoa.
Qed.

Lemma parseProcStat_stat_line_witness :
  parseProcStat (stat_line 17 (gs "a) S 1 (b") (gs "S") 1 16 15 (gs " 0 -1")) = Some (17, 16, 15).
Proof.
  apply (parseProcStat_stat_line 17 (gs "a) S 1 (b") (gs "S") 1 16 15 (gs " 0 -1"));
    try (unfold int64; lia); try discriminate; try reflexivity.
  - repeat constructor.
  - apply (bool_decide_unpack _). vm_compute. exact I.
  - apply (bool_decide_unpack _). vm_compute. exact I.
Defined.
