(* ===== verification/Teardown.v ===== *)
(** * The life of a session's terminal emulator ([session/session.go: pump, drainVTE,
      waitForExit, closeVTEPipe])

    The emulator answers terminal queries into a synchronous pipe: the pump, which
    feeds it under the session's lock, blocks until the drain has read the answer.
    When the shell has exited, the emulator must be closed once, not while another
    goroutine is inside it, and nobody may be left waiting.  This file is about
    that; what the clients get is in [Session.v]. *)

From S2P Require Import Prelude GoStrings.
Open Scope Z_scope.

Inductive pumpPC :=
  | PRead
  | PGot (data : gostring) (err : bool)
  | PWriting (resp : gostring) (err : bool)   (* inside vte.Write, with the lock *)
  | PFan (err : bool)
  | PErr
  | PClosing
  | PGone.
Inductive drainPC := DBetween | DInRead | DGone.
Inductive waitPC :=
  WWait | WFlag | WKill | WPty | WPump | WPipe | WDrain (pipeClosed : bool) | WClose | WRecord | WDone.
Inductive owner := ByPump | ByOther.

#[global] Instance drainPC_eq_dec : EqDecision drainPC.
Proof. solve_decision. Defined.
#[global] Instance owner_eq_dec : EqDecision owner.
Proof. solve_decision. Defined.

Record term := MkTerm {
  pty : gostring;             (* output that was not read yet *)
  hungUp : bool;              (* no process has the terminal open *)
  ptyClosed : bool;
  mu : option owner;
  pump : pumpPC;
  drain : drainPC;
  pipeEnd : bool;             (* the response pipe is closed *)
  closes : nat;               (* calls of vte.Close *)
  raced : bool;               (* one was made while another goroutine was inside *)
  exited : bool;
  waiter : waitPC;
}.

Section emulator.
(** What the emulator answers to a chunk, and whether its pipe can be closed on
    its own ([pipeErrorCloser]). *)
Context (respond : gostring → gostring) (hasCloser : bool).

Definition newTerm : term := MkTerm [] false false None PRead DBetween false 0 false false WWait.

Definition setPump (s : term) (p : pumpPC) (m : option owner) : term :=
  MkTerm (pty s) (hungUp s) (ptyClosed s) m p (drain s) (pipeEnd s) (closes s) (raced s) (exited s) (waiter s).
Definition setDrain (s : term) (d : drainPC) : term :=
  MkTerm (pty s) (hungUp s) (ptyClosed s) (mu s) (pump s) d (pipeEnd s) (closes s) (raced s) (exited s) (waiter s).
Definition setWaiter (s : term) (w : waitPC) : term :=
  MkTerm (pty s) (hungUp s) (ptyClosed s) (mu s) (pump s) (drain s) (pipeEnd s) (closes s) (raced s) (exited s) w.

Definition isWriting (p : pumpPC) : bool := match p with PWriting _ _ => true | _ => false end.

(** [vte.Close] closes the pipe as well. *)
Definition closeEmulator (s : term) (w : waitPC) : term :=
  MkTerm (pty s) (hungUp s) (ptyClosed s) (mu s) (pump s) (drain s) true (S (closes s))
    (raced s || isWriting (pump s) || bool_decide (drain s = DInRead)) (exited s) w.

Definition closeVTEPipe (s : term) : term :=
  if hasCloser
  then MkTerm (pty s) (hungUp s) (ptyClosed s) (mu s) (pump s) (drain s) true (closes s) (raced s) (exited s)
         (WDrain true)
  else closeEmulator s (WDrain false).

(** The next step of [waitForExit]; [None] while it waits. *)
Definition waitForExit (s : term) : option term :=
  match waiter s with
  | WWait | WDone => None
  | WFlag =>
      if mu s then None
      else Some (MkTerm (pty s) (hungUp s) (ptyClosed s) (mu s) (pump s) (drain s) (pipeEnd s) (closes s) (raced s)
                   true WKill)
  | WKill => Some (setWaiter s WPty)
  | WPty =>
      Some (MkTerm (pty s) (hungUp s) true (mu s) (pump s) (drain s) (pipeEnd s) (closes s) (raced s) (exited s) WPump)
  | WPump => match pump s with PGone => Some (setWaiter s WPipe) | _ => None end
  | WPipe => Some (closeVTEPipe s)
  | WDrain pipeClosed =>
      match drain s with
      | DGone => Some (setWaiter s (if pipeClosed then WClose else WRecord))
      | _ => None
      end
  | WClose => Some (closeEmulator s WRecord)
  | WRecord => if mu s then None else Some (setWaiter s WDone)
  end.

(** The next step of the pump that is not a read. *)
Definition pumpStep (s : term) : option term :=
  match pump s with
  | PRead | PGone => None
  | PGot data err => if mu s then None else Some (setPump s (PWriting (respond data) err) (Some ByPump))
  | PWriting resp err => if bool_decide (resp = []) || pipeEnd s then Some (setPump s (PFan err) None) else None
  | PFan err => Some (setPump s (if err then PErr else PRead) (mu s))
  | PErr =>
      if mu s then None
      else Some (MkTerm (pty s) (hungUp s) (ptyClosed s) (mu s) PClosing (drain s) (pipeEnd s) (closes s) (raced s)
                   true (waiter s))
  | PClosing => Some (setPump s PGone (mu s))
  end.

Inductive tlabel :=
  | TOutput (data : gostring)      (* a process writes *)
  | THangUp
  | TRead (n : nat) (err : bool)
  | TReadErr
  | TPump
  | TDrainEnter
  | TDrainRead (n : nat)
  | TDrainEOF
  | TLock                          (* an attach, a detach, a resize *)
  | TUnlock
  | TExit                          (* the shell exits *)
  | TWaiter.

Definition tstep (l : tlabel) (s : term) : option term :=
  match l with
  | TOutput data =>
      if hungUp s then None
      else Some (MkTerm (pty s ++ data) (hungUp s) (ptyClosed s) (mu s) (pump s) (drain s) (pipeEnd s) (closes s)
                   (raced s) (exited s) (waiter s))
  | THangUp =>
      Some (MkTerm (pty s) true (ptyClosed s) (mu s) (pump s) (drain s) (pipeEnd s) (closes s) (raced s) (exited s)
              (waiter s))
  | TRead n err =>
      match pump s with
      | PRead =>
          if (0 <? n)%nat && (n <=? length (pty s))%nat && (Z.of_nat n <=? 32768) && negb (ptyClosed s) then
            Some (MkTerm (drop n (pty s)) (hungUp s) (ptyClosed s) (mu s) (PGot (take n (pty s)) err) (drain s)
                    (pipeEnd s) (closes s) (raced s) (exited s) (waiter s))
          else None
      | _ => None
      end
  | TReadErr =>
      match pump s with
      | PRead => if ptyClosed s || hungUp s && bool_decide (pty s = []) then Some (setPump s PErr (mu s)) else None
      | _ => None
      end
  | TPump => pumpStep s
  | TDrainEnter => match drain s with DBetween => Some (setDrain s DInRead) | _ => None end
  | TDrainRead n =>
      match drain s, pump s with
      | DInRead, PWriting resp err =>
          if (0 <? n)%nat && (n <=? length resp)%nat && (n <=? 1024)%nat
          then Some (setDrain (setPump s (PWriting (drop n resp) err) (mu s)) DBetween) else None
      | _, _ => None
      end
  | TDrainEOF => match drain s with DInRead => if pipeEnd s then Some (setDrain s DGone) else None | _ => None end
  | TLock => if mu s then None else Some (setPump s (pump s) (Some ByOther))
  | TUnlock => match mu s with Some ByOther => Some (setPump s (pump s) None) | _ => None end
  | TExit => match waiter s with WWait => Some (setWaiter s WFlag) | _ => None end
  | TWaiter => waitForExit s
  end.

Notation treach := (reach_from tstep newTerm).
Notation trun := (run_steps tstep).

(** ** The invariant *)

(** How far [waitForExit] is. *)
Definition stage (w : waitPC) : nat :=
  match w with
  | WWait => 0 | WFlag => 1 | WKill => 2 | WPty => 3 | WPump => 4 | WPipe => 5 | WDrain _ => 6 | WClose => 7
  | WRecord => 8 | WDone => 9
  end.

(** How often the emulator was closed by then. *)
Definition closedBy (w : waitPC) : nat :=
  match w with
  | WDrain b => if b then 0 else 1
  | WRecord | WDone => 1
  | _ => 0
  end.

Record tinv (s : term) : Prop := {
  ti_lock : mu s = Some ByPump ↔ isWriting (pump s) = true;
  ti_pty : (4 ≤ stage (waiter s))%nat → ptyClosed s = true;
  ti_pump : (5 ≤ stage (waiter s))%nat → pump s = PGone;
  ti_pipe : pipeEnd s = true ↔ (6 ≤ stage (waiter s))%nat;
  ti_drain : drain s = DGone → pipeEnd s = true;
  ti_gone : (7 ≤ stage (waiter s))%nat → drain s = DGone;
  ti_closes : closes s = closedBy (waiter s);
  ti_how : ∀ b, waiter s = WDrain b → b = hasCloser;
  ti_close : waiter s = WClose → hasCloser = true;
  ti_race : hasCloser = true → raced s = false;
}.

Lemma tinv_new : tinv newTerm.
Proof. split; cbn; try done; try lia. Qed.

(** Steps of [waitForExit]. *)
Lemma tinv_wait s s' : tinv s → waitForExit s = Some s' → tinv s'.
Proof.
  intros Hi Hw. pose proof Hi as [Hl Hpt Hpu Hpi Hdr Hg Hc Hh Hcl Hr]. unfold waitForExit in Hw.
  destruct (waiter s) as [| | | | | |b| | |] eqn:E; cbn in *; try done.
  - destruct (mu s) eqn:Hm; [done|]. injection Hw as <-. split; cbn; try done; try lia; try (rewrite Hpi; lia).
  - injection Hw as <-. split; cbn; try done; try lia. rewrite Hpi. lia.
  - injection Hw as <-. split; cbn; try done; try lia. rewrite Hpi. lia.
  - destruct (pump s) eqn:Hp; try done. injection Hw as <-. split; cbn; rewrite ?Hp; try done; try lia; [|].
    + intros _. apply Hpt. lia.
    + rewrite Hpi. lia.
  - injection Hw as <-. unfold closeVTEPipe. pose proof (Hpt ltac:(lia)). pose proof (Hpu ltac:(lia)) as Hp.
    destruct hasCloser eqn:Hhc; split; cbn; rewrite ?Hc; try done; try lia; try (by split; [lia|]);
      intros; first [by apply Hr|congruence].
  - destruct (drain s) eqn:Hd; try done. injection Hw as <-. pose proof (Hpt ltac:(lia)). pose proof (Hpu ltac:(lia)).
    pose proof (Hh b eq_refl) as Hb. destruct b; split; cbn; rewrite ?Hd, ?Hc; try done; try lia;
      rewrite Hpi; lia.
  - injection Hw as <-. pose proof (Hpt ltac:(lia)). pose proof (Hpu ltac:(lia)) as Hp. pose proof (Hg ltac:(lia)) as Hd.
    split; cbn; rewrite ?Hc, ?Hp, ?Hd; try done; try lia; [by rewrite Hp in Hl|].
    intros Hx. rewrite Hr by done. done.
  - destruct (mu s) eqn:Hm; [done|]. injection Hw as <-. pose proof (Hpt ltac:(lia)). pose proof (Hpu ltac:(lia)).
    pose proof (Hg ltac:(lia)). split; cbn; rewrite ?Hc, ?Hm; try done; try lia. rewrite Hpi. lia.
Qed.

(** A step of anybody else. *)
Lemma tinv_quiet s s' :
  tinv s → waiter s' = waiter s → ptyClosed s' = ptyClosed s → pipeEnd s' = pipeEnd s → closes s' = closes s →
  raced s' = raced s → (mu s' = Some ByPump ↔ isWriting (pump s') = true) → (pump s = PGone → pump s' = PGone) →
  (drain s = DGone → drain s' = DGone) → (drain s' = DGone → pipeEnd s = true) → tinv s'.
Proof. intros [] Ew Ep Ee Ec Er Hl Hp Hd Hd'. split; rewrite ?Ew, ?Ep, ?Ee, ?Ec, ?Er; auto. Qed.

Local Ltac quiet Hl := eapply tinv_quiet; cbn; try done; try congruence; try (by split; [|intros ?%Hl]).

Lemma tinv_step l s s' : tinv s → tstep l s = Some s' → tinv s'.
Proof.
  intros Hi. pose proof (ti_lock _ Hi) as Hl. pose proof (ti_drain _ Hi) as Hd.
  destruct l; cbn; [..|by apply tinv_wait].
  - destruct (hungUp s); [done|]. intros [= <-]. quiet Hl.
  - intros [= <-]. quiet Hl.
  - destruct (pump s) eqn:Hp; try done. destruct (_ && _); [|done]. intros [= <-].
    quiet Hl.
  - destruct (pump s) eqn:Hp; try done. destruct (_ || _); [|done]. intros [= <-].
    quiet Hl.
  - unfold pumpStep. destruct (pump s) eqn:Hp; try done.
    + destruct (mu s); [done|]. intros [= <-]. quiet Hl.
    + destruct (_ || _); [|done]. intros [= <-]. quiet Hl.
    + intros [= <-]. destruct err; quiet Hl.
    + destruct (mu s) eqn:Hm; [done|]. intros [= <-]. quiet Hl.
    + intros [= <-]. quiet Hl.
  - destruct (drain s) eqn:E; try done. intros [= <-]. quiet Hl.
  - destruct (drain s) eqn:E, (pump s) eqn:Hp; try done. destruct (_ && _); [|done]. intros [= <-].
    quiet Hl.
  - destruct (drain s) eqn:E; try done. destruct (pipeEnd s) eqn:Hpe; [|done]. intros [= <-].
    quiet Hl.
  - destruct (mu s) eqn:Hm; [done|]. intros [= <-]. quiet Hl.
  - destruct (mu s) as [[|]|] eqn:Hm; try done. intros [= <-]. quiet Hl.
  - destruct (waiter s) eqn:E; try done. intros [= <-]. destruct Hi. rewrite E in *. split; cbn in *; try done; try lia.
    rewrite ti_pipe0. lia.
Qed.

Lemma tinv_reach s : treach s → tinv s.
Proof. apply reach_inv; [apply tinv_new|]. intros. by eapply tinv_step. Qed.

(** ** Progress *)

(** What is left of the pump's, the drain's and the waiter's work. *)
Definition pumpWork (p : pumpPC) : nat :=
  match p with
  | PGot data _ => 2 * length (respond data) + 12
  | PWriting resp _ => 2 * length resp + 10
  | PFan _ => 8 | PRead => 6 | PErr => 4 | PClosing => 2 | PGone => 0
  end.
Definition drainWork (d : drainPC) : nat := match d with DBetween => 2 | DInRead => 1 | DGone => 0 end.
Definition work (s : term) : nat :=
  pumpWork (pump s) + drainWork (drain s) + (9 - stage (waiter s)) +
  match mu s with Some ByOther => 1 | _ => 0 end.

Definition less (s : term) : Prop := ∃ l s', tstep l s = Some s' ∧ waiter s' ≠ WWait ∧ (work s' < work s)%nat.

(** Whoever has the lock can give it back. *)
Lemma unlock_progress s : tinv s → waiter s ≠ WWait → mu s ≠ None → less s.
Proof.
  intros Hi Hw Hm. destruct (mu s) as [[|]|] eqn:E; [| |done].
  2: { exists TUnlock, (setPump s (pump s) None). unfold tstep. rewrite E. split_and!; try done.
       unfold work. cbn. rewrite E. cbn. lia. }
  pose proof (proj1 (ti_lock _ Hi) E) as Hp. destruct (pump s) as [| |resp err| | | |] eqn:Ep; try done.
  destruct resp as [|c resp].
  { exists TPump, (setPump s (PFan err) None). unfold tstep, pumpStep. rewrite Ep. cbn. split_and!; try done.
    unfold work. cbn. rewrite E, Ep. cbn. lia. }
  destruct (drain s) eqn:Ed.
  - exists TDrainEnter, (setDrain s DInRead). unfold tstep. rewrite Ed. split_and!; try done.
    unfold work. cbn. rewrite Ed. cbn. lia.
  - exists (TDrainRead 1), (setDrain (setPump s (PWriting resp err) (mu s)) DBetween). unfold tstep. rewrite Ed, Ep.
    cbn. split_and!; try done. unfold work. cbn. rewrite Ed, Ep. cbn. lia.
  - pose proof (ti_drain _ Hi Ed) as Hpe%(ti_pipe _ Hi). pose proof (ti_pump _ Hi ltac:(lia)). congruence.
Qed.

(** Once the terminal is closed the pump comes to its end. *)
Lemma pump_progress s :
  tinv s → waiter s ≠ WWait → ptyClosed s = true → pump s ≠ PGone → less s.
Proof.
  intros Hi Hw Hc Hp. destruct (mu s) as [o|] eqn:Hm; [apply unlock_progress; congruence|].
  destruct (pump s) as [|data err|resp err|err| | |] eqn:Ep; try done.
  - exists TReadErr, (setPump s PErr (mu s)). unfold tstep. rewrite Ep, Hc. split_and!; try done.
    unfold work. cbn. rewrite Ep. cbn. lia.
  - exists TPump. eexists. unfold tstep, pumpStep. rewrite Ep, Hm. split_and!; [done|done|].
    unfold work. cbn. rewrite Ep, Hm. cbn. lia.
  - pose proof (proj2 (ti_lock _ Hi)) as Hl. rewrite Ep in Hl. by rewrite Hl in Hm.
  - exists TPump. eexists. unfold tstep, pumpStep. rewrite Ep. split_and!; [done|done|].
    unfold work. cbn. rewrite Ep. destruct err; cbn; lia.
  - exists TPump. eexists. unfold tstep, pumpStep. rewrite Ep, Hm. split_and!; [done|done|].
    unfold work. cbn. rewrite Ep, Hm. cbn. lia.
  - exists TPump. eexists. unfold tstep, pumpStep. rewrite Ep. split_and!; [done|done|].
    unfold work. cbn. rewrite Ep. cbn. lia.
Qed.

Lemma drain_progress s : tinv s → waiter s ≠ WWait → pipeEnd s = true → drain s ≠ DGone → less s.
Proof.
  intros Hi Hw Hp Hd. destruct (drain s) eqn:Ed; [| |done].
  - exists TDrainEnter, (setDrain s DInRead). unfold tstep. rewrite Ed. split_and!; try done.
    unfold work. cbn. rewrite Ed. cbn. lia.
  - exists TDrainEOF, (setDrain s DGone). unfold tstep. rewrite Ed, Hp. split_and!; try done.
    unfold work. cbn. rewrite Ed. cbn. lia.
Qed.

Definition isDone (w : waitPC) : bool := match w with WDone => true | _ => false end.

Lemma wait_progress s :
  tinv s ∧ waiter s ≠ WWait → negb (isDone (waiter s)) = true →
  ∃ l s', tstep l s = Some s' ∧ (tinv s' ∧ waiter s' ≠ WWait) ∧ (work s' < work s)%nat.
Proof.
  intros [Hi Hw] Hb. cut (less s).
  { intros (l & s' & Hs & Hw' & Hm). exists l, s'. split_and!; try done. by eapply tinv_step. }
  assert (Hwait : ∀ s', waitForExit s = Some s' → waiter s' ≠ WWait → pump s' = pump s → drain s' = drain s →
            mu s' = mu s → (stage (waiter s) < stage (waiter s'))%nat → less s).
  { intros s' Hs Hw' Ep Ed Em Hst. exists TWaiter, s'. split_and!; try done. unfold work. rewrite Ep, Ed, Em.
    assert (stage (waiter s') ≤ 9)%nat by (destruct (waiter s'); cbn; lia). lia. }
  unfold waitForExit in Hwait. destruct (waiter s) as [| | | | | |b| | |] eqn:E; try done.
  - destruct (mu s) eqn:Hm; [by apply unlock_progress; rewrite ?E, ?Hm|]. eapply Hwait; [reflexivity|cbn; try done; lia..].
  - eapply Hwait; [reflexivity|cbn; try done; lia..].
  - eapply Hwait; [reflexivity|cbn; try done; lia..].
  - destruct (pump s) eqn:Hp; try (apply pump_progress; rewrite ?E, ?Hp; try done; apply (ti_pty _ Hi); rewrite E; cbn; lia).
    eapply Hwait; [reflexivity|cbn; try done; lia..].
  - eapply Hwait; [reflexivity|..]; unfold closeVTEPipe; destruct hasCloser; cbn; try done; lia.
  - destruct (drain s) eqn:Hd;
      try (apply drain_progress; rewrite ?E, ?Hd; try done; apply (ti_pipe _ Hi); rewrite E; cbn; lia).
    eapply Hwait; [reflexivity|..]; destruct b; cbn; try done; lia.
  - eapply Hwait; [reflexivity|cbn; try done; lia..].
  - destruct (mu s) eqn:Hm; [by apply unlock_progress; rewrite ?E, ?Hm|]. eapply Hwait; [reflexivity|cbn; try done; lia..].
Qed.

(** The pump is never stuck in the emulator. *)
Lemma write_progress err s :
  tinv s → (∃ r, pump s = PWriting r err) →
  ∃ l s', tstep l s = Some s' ∧
    (tinv s' ∧ ((∃ r, pump s' = PWriting r err) ∨ pump s' = PFan err ∧ mu s' = None)) ∧
    (pumpWork (pump s') + drainWork (drain s') < pumpWork (pump s) + drainWork (drain s))%nat.
Proof.
  intros Hi [resp Ep]. destruct resp as [|c resp].
  { exists TPump. eexists. split; [unfold tstep, pumpStep; rewrite Ep; reflexivity|]. split; [split; [|by right]|].
    - eapply (tinv_step TPump); [exact Hi|]. cbn. unfold pumpStep. by rewrite Ep.
    - cbn. rewrite Ep. cbn. lia. }
  destruct (drain s) eqn:Ed.
  - exists TDrainEnter, (setDrain s DInRead). assert (Hs : tstep TDrainEnter s = Some (setDrain s DInRead)) by (cbn; by rewrite Ed).
    split_and!; [done|by eapply tinv_step|left; by eexists|]. cbn. lia.
  - assert (Hs : tstep (TDrainRead 1) s = Some (setDrain (setPump s (PWriting resp err) (mu s)) DBetween))
      by (cbn; by rewrite Ed, Ep).
    exists (TDrainRead 1). eexists. split; [exact Hs|]. split; [split; [by eapply tinv_step|left; by eexists]|].
    cbn. rewrite Ep. cbn. lia.
  - pose proof (ti_drain _ Hi Ed) as Hpe%(ti_pipe _ Hi). pose proof (ti_pump _ Hi ltac:(lia)). congruence.
Qed.

Lemma write_returns s resp err :
  tinv s → pump s = PWriting resp err → ∃ ls s', trun ls s = Some s' ∧ pump s' = PFan err ∧ mu s' = None.
Proof.
  intros Hi Hp.
  destruct (run_measure tstep (λ s, isWriting (pump s)) (λ s, (pumpWork (pump s) + drainWork (drain s))%nat)
    (λ s, tinv s ∧ ((∃ r, pump s = PWriting r err) ∨ pump s = PFan err ∧ mu s = None))) with (s := s)
    as (ls & s' & Hr & [_ [[r Hw]|Hd]] & Hb).
  - intros s1 [H1 [Hw|[Hf _]]] Hb; [|by rewrite Hf in Hb]. by apply write_progress.
  - split; [done|]. left. by eexists.
  - by rewrite Hw in Hb.
  - by exists ls, s'.
Qed.

(** C12: a session's emulator is torn down safely and never blocks the session.
    In every interleaving of output, queries, attaches and the exit of the shell,
    the emulator is closed at most once and only after the pump is gone, so never
    under a write; if its pipe can be closed on its own, never while the drain is
    reading either.  A pump inside the emulator always gets out of it, however
    long the answers are, and gives the lock back, so every other caller can get
    it; and from the moment the shell has exited, [waitForExit] can always finish,
    and then the emulator was closed exactly once and both goroutines are gone. *)
Theorem emulator_teardown s :
  reach_from tstep newTerm s →
  (closes s ≤ 1)%nat ∧ (closes s = 1%nat → pump s = PGone) ∧ (hasCloser = true → raced s = false) ∧
  (∀ resp err, pump s = PWriting resp err → ∃ ls s', trun ls s = Some s' ∧ pump s' = PFan err ∧ mu s' = None) ∧
  (∃ ls s', trun ls s = Some s' ∧ mu s' = None) ∧
  (waiter s ≠ WWait → ∃ ls s', trun ls s = Some s' ∧ waiter s' = WDone) ∧
  (waiter s = WDone → closes s = 1%nat ∧ pump s = PGone ∧ drain s = DGone).
Proof.
  intros Hi%tinv_reach. pose proof Hi as [Hl Hpt Hpu Hpi Hdr Hg Hc Hh Hcl Hr]. split_and!.
  - rewrite Hc. destruct (waiter s) as [| | | | | |[]| | |]; cbn; lia.
  - rewrite Hc. intros H1. apply Hpu. destruct (waiter s); cbn in *; lia.
  - done.
  - intros resp err. by apply write_returns.
  - destruct (mu s) as [[|]|] eqn:Hm; [| |by exists [], s].
    + pose proof (proj1 Hl eq_refl) as Hw. destruct (pump s) as [| |resp err| | | |] eqn:Hp; try done.
      destruct (write_returns s resp err Hi Hp) as (ls & s' & Hls & _ & Hm'). by exists ls, s'.
    + exists [TUnlock]. eexists. cbn. by rewrite Hm.
  - intros Hw. destruct (run_measure tstep _ _ _ wait_progress s) as (ls & s' & Hls & _ & Hb); [done|].
    exists ls, s'. split; [done|]. by destruct (waiter s').
  - intros Hw. rewrite Hw in *. split_and!; [done|apply Hpu; cbn; lia|apply Hg; cbn; lia].
Qed.
End emulator.

(** ** A run: a query is answered, the shell exits, and everything is closed *)

Definition demo_respond (data : gostring) : gostring := if bool_decide (data = gs "q") then gs "answer" else [].

Definition demo_teardown : list tlabel :=
  [TOutput (gs "q"); TRead 1 false; TPump; TExit; TDrainEnter; TDrainRead 4; TDrainEnter; TDrainRead 2; TPump;
   TLock; TUnlock; TWaiter; TWaiter; TPump; TWaiter; TDrainEnter; TReadErr; TPump; TPump; TWaiter; TWaiter;
   TDrainEOF; TWaiter; TWaiter; TWaiter].

Lemma emulator_teardown_witness :
  ∃ s, run_steps (tstep demo_respond true) demo_teardown newTerm = Some s ∧ waiter s = WDone ∧
    closes s = 1%nat ∧ raced s = false ∧ drain s = DGone.
Proof.
  destruct (run_steps (tstep demo_respond true) demo_teardown newTerm) as [s|] eqn:E; [|vm_compute in E; discriminate E].
  exists s. split; [reflexivity|].
  assert (Hr : reach_from (tstep demo_respond true) newTerm s) by (eapply run_steps_reach; [apply reach_start|exact E]).
  destruct (emulator_teardown demo_respond true s Hr) as (_ & _ & Hrace & _ & _ & _ & Hend).
  assert (Hw : waiter s = WDone) by (vm_compute in E; injection E as <-; reflexivity).
  destruct (Hend Hw) as (Hc & _ & Hd). split; [exact Hw|]. split; [exact Hc|]. split; [exact (Hrace eq_refl)|exact Hd].
Defined.

(** Without a pipe that can be closed on its own, the emulator is closed under the
    drain's read. *)
Lemma fallback_races :
  ∃ s, run_steps (tstep demo_respond false) [TExit; TWaiter; TWaiter; TWaiter; TReadErr; TPump; TPump; TDrainEnter;
         TWaiter; TWaiter] newTerm = Some s ∧ raced s = true.
Proof. eexists. split; vm_compute; reflexivity. Qed.
