(* ===== verification/Shell.v ===== *)
(** * Shell quoting ([sshd/shell_escape.go], [cmd/exec.go])

    The command line of a remote command: every argument is quoted, the quoted
    arguments are joined with spaces, and the other side runs the result with
    [shell -c].  The shell is not part of the program; [PosixShell] states the
    rules of the POSIX shell language (XCU 2.2, 2.3, 2.4 and 2.10.2) the quoting
    relies on. *)

From S2P Require Import Prelude GoStrings.
Open Scope Z_scope.

Definition inRange (lo hi : ascii) (c : Z) : bool := (b2z lo <=? c) && (c <=? b2z hi).

(** A rune that needs no quotes. *)
Definition safeRune (c : Z) : bool :=
  inRange "a" "z" c || inRange "A" "Z" c || inRange "0" "9" c ||
  existsb (λ x, c =? b2z x) (gs "-_./:,+=").

Definition ShellEscape (s : gostring) : gostring :=
  if bool_decide (s = []) then gs "''"
  else if forallb safeRune (runes s) then s
  else gs "'" ++ ReplaceAll s (gs "'") (gs "'\''") ++ gs "'".

Definition buildRemoteCommand (args : list gostring) : gostring :=
  match args with
  | [] => []
  | _ => Join (ShellEscape <$> args) (gs " ")
  end.

Definition NUL : ascii := "000"%char.

(** The first word of a command line that is not quoted names the command unless
    it is an assignment, [name=value] or [name+=value], or a reserved word. *)
Definition nameChar (first : bool) (c : ascii) : bool :=
  inRange "a" "z" (b2z c) || inRange "A" "Z" (b2z c) || bool_decide (c = "_"%char) ||
  (negb first && inRange "0" "9" (b2z c)).

Fixpoint assignsFrom (first : bool) (w : gostring) : bool :=
  match w with
  | [] => false
  | c :: w' =>
      if bool_decide (c = "="%char) then negb first
      else if bool_decide (c = "+"%char) then negb first && bool_decide (head w' = Some "="%char)
      else nameChar first c && assignsFrom false w'
  end.
Definition assigns (w : gostring) : bool := assignsFrom true w.

Definition reservedWords : list gostring :=
  gs <$> ["case"; "do"; "done"; "elif"; "else"; "esac"; "fi"; "for"; "if"; "in"; "then"; "until"; "while";
          "function"; "select"; "time"; "coproc"]%string.

Definition namesCommand (w : gostring) : bool := negb (assigns w) && negb (bool_decide (w ∈ reservedWords)).

(** How a shell splits a command line without expansions into fields.
    [fields o s] are the fields of [s] when [o] is the word read so far, [None]
    between words; [quoted w s] is the same inside single quotes; [None] is
    whatever else a shell may do with a line.  [command s] is the argument vector
    when the shell runs the whole line as one simple command without
    assignments. *)
Class PosixShell := {
  fields : option gostring → gostring → option (list gostring);
  quoted : gostring → gostring → option (list gostring);
  (* the end of the line ends the word *)
  fields_end : fields None [] = Some [];
  fields_word_end w : fields (Some w) [] = Some [w];
  (* an unquoted blank separates words *)
  fields_blank s : fields None (" "%char :: s) = fields None s;
  fields_word_blank w s : fields (Some w) (" "%char :: s) = (w ::.) <$> fields None s;
  (* letters, digits and punctuation without a meaning to the shell *)
  fields_plain o c s :
    safeRune (b2z c) = true → fields o (c :: s) = fields (Some (default [] o ++ [c])) s;
  (* a backslash quotes the next character; a line feed would continue the line *)
  fields_backslash o c s :
    c ≠ "010"%char → c ≠ NUL →
    fields o ("\"%char :: c :: s) = fields (Some (default [] o ++ [c])) s;
  (* between single quotes every character stands for itself *)
  fields_quote o s : fields o ("'"%char :: s) = quoted (default [] o) s;
  quoted_literal w c s : c ≠ "'"%char → c ≠ NUL → quoted w (c :: s) = quoted (w ++ [c]) s;
  quoted_end w s : quoted w ("'"%char :: s) = fields (Some w) s;
  command : gostring → option (list gostring);
  (* a quoted word is neither an assignment nor reserved *)
  command_quoted s ws : fields None ("'"%char :: s) = Some ws → command ("'"%char :: s) = Some ws;
  (* a plain word that is neither *)
  command_plain w s ws :
    w ≠ [] → Forall (λ c, safeRune (b2z c) = true) w → s = [] ∨ head s = Some " "%char → namesCommand w = true →
    fields None (w ++ s) = Some ws → command (w ++ s) = Some ws;
}.

(** ** A shell that follows the rules *)

Fixpoint lex (inQuotes : bool) (o : option gostring) (s : gostring) : option (list gostring) :=
  match s with
  | [] => if inQuotes then None else Some (match o with Some w => [w] | None => [] end)
  | c :: s' =>
      if inQuotes then
        if bool_decide (c = "'"%char) then lex false o s'
        else lex true (Some (default [] o ++ [c])) s'
      else if bool_decide (c = " "%char) then
        match o with Some w => (w ::.) <$> lex false None s' | None => lex false None s' end
      else if bool_decide (c = "'"%char) then lex true (Some (default [] o)) s'
      else if bool_decide (c = "\"%char) then
        match s' with
        | d :: s'' => if bool_decide (d = "010"%char) then lex false o s''
                      else lex false (Some (default [] o ++ [d])) s''
        | [] => None
        end
      else if safeRune (b2z c) then lex false (Some (default [] o ++ [c])) s'
      else None
  end.

#[local] Instance lex_shell : PosixShell.
Proof.
  refine {| fields := lex false; quoted := λ w, lex true (Some w); command := lex false None |}; try done.
  - intros o c s Hc. cbn [lex]. repeat case_bool_decide; subst; [discriminate Hc..|]. by rewrite Hc.
  - intros o c s Hc _. cbn [lex]. by rewrite (bool_decide_eq_false_2 (c = _) Hc).
  - intros w c s Hc _. cbn. by rewrite bool_decide_eq_false_2.
Defined.

(** ** Quoting and splitting are inverse *)

Section quoting.
Context `{PosixShell}.

Lemma safe_ascii r : safeRune r = true → r < 0x80.
Proof.
  unfold safeRune, inRange, gs. cbn [existsb String.list_ascii_of_string].
  repeat rewrite orb_true_iff. rewrite !andb_true_iff, !Z.leb_le, !Z.eqb_eq.
  repeat match goal with |- context [b2z (Ascii ?a ?b ?c ?d ?e ?f ?g ?h)] =>
    let v := eval vm_compute in (b2z (Ascii a b c d e f g h)) in
    change (b2z (Ascii a b c d e f g h)) with v end.
  intuition (lia || discriminate).
Qed.

(** The bytes of an argument that is sent as it is. *)
Lemma safe_bytes s : forallb safeRune (runes s) = true → Forall (λ c, safeRune (b2z c) = true) s.
Proof.
  intros Hs. rewrite forallb_forall in Hs.
  assert (Ha : isASCII s = true).
  { apply runes_all_ascii, Forall_forall. intros r Hr. by apply safe_ascii, Hs, list_elem_of_In. }
  apply Forall_forall. intros c Hc. apply Hs. rewrite runes_ascii by done.
  apply list_elem_of_In. by apply list_elem_of_fmap_2.
Qed.

Lemma fields_plain_word o w s :
  Forall (λ c, safeRune (b2z c) = true) w → w ≠ [] →
  fields o (w ++ s) = fields (Some (default [] o ++ w)) s.
Proof.
  intros Hw. revert o. induction Hw as [|c w Hc Hw IH]; intros o; [done|]. intros _.
  cbn [app]. rewrite fields_plain by done. destruct (decide (w = [])) as [->|Hne]; [done|].
  rewrite IH by done. cbn. by rewrite <- app_assoc.
Qed.

(** The quoted form of any bytes: the quote itself leaves the quotes for a
    moment. *)
Lemma quoted_escaped w a s :
  NUL ∉ a →
  quoted w (ReplaceAll1 a "'" ["'"; "\"; "'"; "'"]%char ++ "'"%char :: s) = fields (Some (w ++ a)) s.
Proof.
  unfold ReplaceAll1. revert w. induction a as [|c a IH]; intros w Hn; cbn [flat_map app].
  - by rewrite quoted_end, app_nil_r.
  - apply not_elem_of_cons in Hn as [Hc Hn]. rewrite <- app_assoc. case_bool_decide as Hq.
    + cbn [app]. rewrite quoted_end, fields_backslash, fields_quote by done.
      cbn [default from_option id]. rewrite IH by done. rewrite <- app_assoc. by subst.
    + cbn [app]. rewrite quoted_literal by (done || by intros ->). rewrite IH by done.
      by rewrite <- app_assoc.
Qed.

Lemma fields_ShellEscape a s : NUL ∉ a → fields None (ShellEscape a ++ s) = fields (Some a) s.
Proof.
  intros Hn. unfold ShellEscape. case_bool_decide as He; [|destruct (forallb _ _) eqn:Hs].
  - subst. change (fields None ("'" :: "'" :: s)%char = fields (Some []) s).
    by rewrite fields_quote, quoted_end.
  - by rewrite fields_plain_word by (done || by apply safe_bytes).
  - change (gs "'") with ["'"%char]. rewrite ReplaceAll_single. cbn [app]. rewrite fields_quote.
    rewrite <- app_assoc. by apply (quoted_escaped []).
Qed.

Lemma fields_build args :
  Forall (λ a, NUL ∉ a) args → fields None (buildRemoteCommand args) = Some args.
Proof.
  unfold buildRemoteCommand. induction 1 as [|a args Ha Hs IH]; [apply fields_end|].
  destruct args as [|b args]; [|change (Join _ _) with
    (ShellEscape a ++ gs " " ++ Join (ShellEscape <$> b :: args) (gs " "))].
  - cbn. rewrite <- (app_nil_r (ShellEscape a)). by rewrite fields_ShellEscape, fields_word_end.
  - rewrite fields_ShellEscape by done. change (gs " ") with [" "%char]. cbn [app].
    rewrite fields_word_blank. by rewrite (IH : fields None (Join (ShellEscape <$> b :: args) [" "%char]) = _).
Qed.

(** An argument that is sent without quotes. *)
Definition sentPlain (a : gostring) : bool := bool_decide (a ≠ []) && forallb safeRune (runes a).

Lemma build_head a args :
  ∃ s, buildRemoteCommand (a :: args) = ShellEscape a ++ s ∧ (s = [] ∨ head s = Some " "%char).
Proof.
  destruct args as [|b args]; [exists []; cbn; rewrite app_nil_r; auto|].
  exists (gs " " ++ Join (ShellEscape <$> b :: args) (gs " ")). auto.
Qed.

End quoting.

