(* ===== verification/GoTime.v ===== *)
(** * Durations and their short forms

    [time.Duration] is a count of nanoseconds.  [Minutes] and [Seconds] are
    computed in double precision like Go's, with the Standard Library's
    executable specification of IEEE 754, so the roundings are the program's.
    The three formatters are [formatCoarseDuration] ([sshd/coarse_duration.go]),
    [formatDuration] ([sshd/selector.go]) and [formatUptime]
    ([cmd/session_ui.go]). *)

From Stdlib Require Import SpecFloat.
From S2P Require Import Prelude GoStrings.
Open Scope Z_scope.

Definition Second : Z := 10 ^ 9.
Definition Minute : Z := 60 * Second.
Definition Hour : Z := 60 * Minute.

Definition float64 (z : Z) : spec_float := binary_normalize 53 1024 z 0 false.

(** The conversion to an integer truncates towards zero. *)
Definition toInt (f : spec_float) : Z :=
  match f with
  | S754_finite s m e => (if s then Z.opp else id) (Z.shiftl (Z.pos m) e)
  | _ => 0
  end.

(** [d / unit] and the fraction of a unit, added in double precision. *)
Definition inUnit (unit d : Z) : spec_float :=
  SFadd 53 1024 (float64 (Z.quot d unit)) (SFdiv 53 1024 (float64 (Z.rem d unit)) (float64 unit)).

Definition Minutes : Z → spec_float := inUnit Minute.
Definition Seconds : Z → spec_float := inUnit Second.

Definition daysOf (totalMinutes : Z) : Z := Z.quot totalMinutes (60 * 24).
Definition hoursOf (totalMinutes : Z) : Z := Z.quot (Z.rem totalMinutes (60 * 24)) 60.
Definition minutesOf (totalMinutes : Z) : Z := Z.rem totalMinutes 60.

Definition formatCoarseDuration (d : Z) : gostring :=
  if d <? Minute then gs "<1m"
  else
    let totalMinutes := toInt (Minutes d) in
    let days := daysOf totalMinutes in
    let hours := hoursOf totalMinutes in
    let minutes := minutesOf totalMinutes in
    if (0 <? days) && (0 <? hours) then Itoa days ++ gs "d" ++ Itoa hours ++ gs "h"
    else if 0 <? days then Itoa days ++ gs "d"
    else if (0 <? hours) && (0 <? minutes) then Itoa hours ++ gs "h" ++ Itoa minutes ++ gs "m"
    else if 0 <? hours then Itoa hours ++ gs "h"
    else Itoa minutes ++ gs "m".

(** What [formatDuration] and [formatUptime] share from one minute on. *)
Definition formatMinutes (d : Z) : gostring :=
  let totalMinutes := toInt (Minutes d) in
  let days := daysOf totalMinutes in
  let hours := hoursOf totalMinutes in
  let minutes := minutesOf totalMinutes in
  if 0 <? days then Itoa days ++ gs "d " ++ Itoa hours ++ gs "h"
  else if 0 <? hours then Itoa hours ++ gs "h " ++ Itoa minutes ++ gs "m"
  else Itoa minutes ++ gs "m".

Definition formatDuration (d : Z) : gostring :=
  if d <? Minute then Itoa (Z.max (toInt (Seconds d)) 0) ++ gs "s" else formatMinutes d.

Definition formatUptime (started now : Z) : gostring :=
  let d := now - started in
  if d <? Minute then gs "< 1m" else formatMinutes d.

Example formatCoarseDuration_ex :
  formatCoarseDuration (26 * Hour + 90 * Second) = gs "1d2h" ∧
  formatDuration (61 * Minute + 59 * Second) = gs "1h 1m" ∧ formatDuration (- Second) = gs "0s".
Proof. by vm_compute. Qed.
