(* ===== verification/SshServer.v ===== *)
(** * The SSH server ([sshd/server.go])

    Handlers of one connection's session channel: a PTY handler picks or
    creates a session, attaches to it and reports an exit status when its output
    ends; an exec handler runs one command.  Handlers run concurrently with each
    other and with the sessions; the server counts them, and a client asks for
    the counts before it offers to shut the sandbox down.  The list of detached
    sessions and the choice made from it are separated in time, so the chosen
    session may be gone. *)

From S2P Require Import Prelude GoStrings Session Manager GoTime.
Open Scope Z_scope.

(** ** PTY sizes *)

Definition defaultPTYCols : Z := 80.
Definition defaultPTYRows : Z := 24.
Definition maxPTYCols : Z := 2048.
Definition maxPTYRows : Z := 2048.

Definition clampDim (v dflt limit : Z) : Z :=
  if v <=? 0 then dflt else if limit <? v then limit else wrap_uint 16 v.

Definition clampPTYSize (cols rows : Z) : Z * Z :=
  (clampDim cols defaultPTYCols maxPTYCols, clampDim rows defaultPTYRows maxPTYRows).

Lemma clampDim_range v dflt limit :
  0 < dflt ≤ limit → limit < 2 ^ 16 →
  0 < clampDim v dflt limit ≤ limit ∧ (0 < v ≤ limit → clampDim v dflt limit = v).
Proof.
  intros Hd Hl. unfold clampDim, wrap_uint.
  destruct (Z.leb_spec v 0); [lia|]. destruct (Z.ltb_spec limit v); [lia|].
  rewrite Z.mod_small by lia. lia.
Qed.

(** ** Exit statuses *)

Definition DisconnectExitCode : Z := 255.

Definition detachExitCode (reason : DetachReason) : Z :=
  if bool_decide (reason = DetachNone) then 0 else DisconnectExitCode.

(** ** The environment of a PTY session *)

(** [environ] are the client's variables, [colorterm] the server's own
    [COLORTERM]. *)
Definition ptyEnv (environ : list bytes) (term colorterm : bytes) : list bytes :=
  let sshEnv := environ ++ [gs "TERM=" ++ term] in
  if existsb (λ e, HasPrefix e (gs "COLORTERM=")) sshEnv then sshEnv
  else if bool_decide (colorterm = []) then sshEnv
  else sshEnv ++ [gs "COLORTERM=" ++ colorterm].

Definition userShell (shell : bytes) : bytes :=
  if bool_decide (shell = []) then gs "/bin/sh" else shell.

Section server.
Context `{Emulator}.
(** Fixed when a session is created: its command and creation time. *)
Context (command : bytes → bytes) (createdAt : bytes → Z).

(** ** Counting *)

Record Server := MkServer {
  execSessions : gmap Z bytes;
  execCounter : Z;
  ptyConns : Z;
}.

Definition registerExec (s : Server) (cmd : bytes) : Server * Z :=
  let id := wrap_uint 64 (execCounter s + 1) in
  (MkServer (<[id := cmd]> (execSessions s)) id (ptyConns s), id).

Definition deregisterExec (s : Server) (id : Z) : Server :=
  MkServer (delete id (execSessions s)) (execCounter s) (ptyConns s).

Definition addPTY (s : Server) (n : Z) : Server :=
  MkServer (execSessions s) (execCounter s) (ptyConns s + n).

Record SessionCountReply := MkReply {
  PTYConns : Z;
  AttachedPTY : Z;
  DetachedPTY : Z;
  ExecCount : Z;
  DetachedInfo : bytes;
}.

#[global] Instance Status_eq_dec : EqDecision Status.
Proof. solve_decision. Defined.

Definition withStatus (st : Status) (infos : list SessionInfo) : list SessionInfo :=
  filter (λ i, IStatus i = st) infos.

Definition detachedLine (now : Z) (info : SessionInfo) : bytes :=
  let cmd := command (ID info) in
  Join [ID info; if bool_decide (cmd = []) then gs "shell" else cmd;
        formatCoarseDuration (now - createdAt (ID info))] ["009"%char].

Definition sessionCount (s : Server) (m : Manager) (now : Z) : SessionCountReply :=
  let infos := List m in
  MkReply (wrap_uint 32 (ptyConns s))
    (wrap_uint 32 (Z.of_nat (length (withStatus Attached infos))))
    (wrap_uint 32 (Z.of_nat (length (withStatus Detached infos))))
    (wrap_uint 32 (Z.of_nat (size (execSessions s))))
    (Join (detachedLine now <$> withStatus Detached infos) ["010"%char]).

(** ** Handlers *)

(** Why a handler ended. *)
Inductive cause :=
  | CreateFailed (e : createErr)
  | SelectorFailed
  | NotFound (id : bytes)
  | UserQuit
  | OutputEnded (reason : DetachReason)
  | NoCommand
  | ExecExited (code : Z)
  | ExecFailed.

(** The code given to [Exit]. *)
Definition codeOf (c : cause) : Z :=
  match c with
  | CreateFailed _ | SelectorFailed | NotFound _ | NoCommand | ExecFailed => 1
  | UserQuit => 0
  | OutputEnded reason => detachExitCode reason
  | ExecExited code => code
  end.

Inductive handlerPC :=
  | PtyListing                            (* before [mgr.List] *)
  | PtyChoosing (offered : list bytes)    (* the selector is shown *)
  | PtyTarget (id : bytes)                (* before [target.Attach] *)
  | PtyAttached (id : bytes) (client : nat)
  | PtyCopied (id : bytes) (client : nat) (eof : bool)   (* the output copy has ended *)
  | ExecRunning (execID : Z)
  | Finished (why : cause).

(** [statuses]: the exit statuses sent to the client. *)
Record handler := MkHandler { pc : handlerPC; hcols : Z; hrows : Z; statuses : list Z }.

Definition goTo (h : handler) (p : handlerPC) : handler := MkHandler p (hcols h) (hrows h) (statuses h).

(** [rawSession.Exit], as the last action of a handler. *)
Definition Exit (h : handler) (why : cause) : handler :=
  MkHandler (Finished why) (hcols h) (hrows h) (statuses h ++ [wrap_uint 32 (codeOf why)]).

Record world := MkWorld { srv : Server; mgr : Manager; handlers : list handler }.

Inductive selection := SelError | SelQuit | SelNew | SelSession (id : bytes).
Inductive execResult := RunOk | RunExit (code : Z) | RunError.

Inductive action :=
  | AcceptPTY (winCols winRows : Z)
  | AcceptExec (cmd : bytes)
  | ListSessions (i : nat) (started : bool)
  | Selected (i : nat) (sel : selection) (started : bool)
  | AttachTarget (i : nat)
  | CopyEnds (i : nat) (eof viaDone : bool)        (* [io.Copy(sess, client)] returns *)
  | OutputEnds (i : nat) (reason : DetachReason)   (* then [DetachReason()] *)
  | RunEnds (i : nat) (r : execResult)
  | Mgr (l : mlabel).                              (* a step of the manager or of a session *)

Definition put_handler (w : world) (i : nat) (h : handler) : world :=
  MkWorld (srv w) (mgr w) (<[i := h]> (handlers w)).

(** [finishPTY]; the client of an attached handler is closed without a reason. *)
Definition finishPTY (w : world) (i : nat) (h : handler) (why : cause) : world :=
  let m := match pc h with
           | PtyAttached id c | PtyCopied id c _ => default (mgr w) (mstep (mgr w) (MSession id (LCloseBegin c DetachNone)))
           | _ => mgr w
           end in
  MkWorld (addPTY (srv w) (-1)) m (<[i := Exit h why]> (handlers w)).

(** The client of a handler, as long as the manager has its session. *)
Definition clientOf (m : Manager) (id : bytes) (c : nat) : option Client := s ← Get m id; heap s !! c.

Definition atEOF (cl : Client) (viaDone : bool) : bool :=
  match Read cl 1 viaDone with Some (None, _) => true | _ => false end.

(** The output copy ends at the end of the client's output, or at any time
    because a write to the SSH channel failed.  Of a session that was removed
    meanwhile nothing is known here. *)
Definition copyEnds (w : world) (id : bytes) (c : nat) (eof viaDone : bool) : bool :=
  match clientOf (mgr w) id c with Some cl => negb eof || atEOF cl viaDone | None => true end.

Definition reasonIs (w : world) (id : bytes) (c : nat) (reason : DetachReason) : bool :=
  match clientOf (mgr w) id c with Some cl => bool_decide (detachReason cl = reason) | None => true end.

Definition createTarget (w : world) (i : nat) (h : handler) (started : bool) : world :=
  let '(m, r) := Create (mgr w) (hcols h) (hrows h) started in
  let w1 := MkWorld (srv w) m (handlers w) in
  match r with
  | Ok id => put_handler w1 i (goTo h (PtyTarget id))
  | Err e => finishPTY w1 i h (CreateFailed e)
  end.

(** [handlePTYSession] up to the listing of sessions. *)
Definition acceptPTY (w : world) (winCols winRows : Z) : world :=
  let '(c, r) := clampPTYSize winCols winRows in
  MkWorld (addPTY (srv w) 1) (mgr w) (handlers w ++ [MkHandler PtyListing c r []]).

(** Without detached sessions a new one is created directly, otherwise the
    selector offers them. *)
Definition listSessions (w : world) (i : nat) (h : handler) (started : bool) : world :=
  let detached := withStatus Detached (List (mgr w)) in
  if bool_decide (detached = []) then createTarget w i h started
  else put_handler w i (goTo h (PtyChoosing (ID <$> detached))).

(** The selector has returned. *)
Definition selected (w : world) (i : nat) (h : handler) (sel : selection) (started : bool) : world :=
  match sel with
  | SelError => finishPTY w i h SelectorFailed
  | SelQuit => finishPTY w i h UserQuit
  | SelNew => createTarget w i h started
  | SelSession id =>
      match Get (mgr w) id with
      | Some _ => put_handler w i (goTo h (PtyTarget id))
      | None => finishPTY w i h (NotFound id)
      end
  end.

Definition attachTarget (w : world) (i : nat) (h : handler) (id : bytes) : world :=
  let c := match Get (mgr w) id with Some s => length (heap s) | None => 0%nat end in
  let m := default (mgr w) (mstep (mgr w) (MSession id (LAttach (hcols h) (hrows h)))) in
  MkWorld (srv w) m (<[i := goTo h (PtyAttached id c)]> (handlers w)).

(** [handleExecSession] up to running the command, and after it. *)
Definition acceptExec (w : world) (rawCmd : bytes) : world :=
  if bool_decide (rawCmd = []) then
    MkWorld (srv w) (mgr w) (handlers w ++ [Exit (MkHandler PtyListing 0 0 []) NoCommand])
  else
    let '(s, id) := registerExec (srv w) rawCmd in
    MkWorld s (mgr w) (handlers w ++ [MkHandler (ExecRunning id) 0 0 []]).

Definition runEnds (w : world) (i : nat) (h : handler) (execID : Z) (r : execResult) : world :=
  MkWorld (deregisterExec (srv w) execID) (mgr w)
    (<[i := Exit h (match r with
                    | RunOk => ExecExited 0
                    | RunExit code => ExecExited code
                    | RunError => ExecFailed
                    end)]> (handlers w)).

Definition wstep (w : world) (a : action) : option world :=
  match a with
  | AcceptPTY winCols winRows => Some (acceptPTY w winCols winRows)
  | AcceptExec cmd => Some (acceptExec w cmd)
  | ListSessions i started =>
      h ← handlers w !! i;
      match pc h with PtyListing => Some (listSessions w i h started) | _ => None end
  | Selected i sel started =>
      h ← handlers w !! i;
      match pc h with
      | PtyChoosing offered =>
          if match sel with SelSession id => bool_decide (id ∈ offered) | _ => true end
          then Some (selected w i h sel started) else None
      | _ => None
      end
  | AttachTarget i =>
      h ← handlers w !! i;
      match pc h with PtyTarget id => Some (attachTarget w i h id) | _ => None end
  | CopyEnds i eof viaDone =>
      h ← handlers w !! i;
      match pc h with
      | PtyAttached id c =>
          if copyEnds w id c eof viaDone then Some (put_handler w i (goTo h (PtyCopied id c eof))) else None
      | _ => None
      end
  | OutputEnds i reason =>
      h ← handlers w !! i;
      match pc h with
      | PtyCopied id c _ =>
          if reasonIs w id c reason then Some (finishPTY w i h (OutputEnded reason)) else None
      | _ => None
      end
  | RunEnds i r =>
      h ← handlers w !! i;
      match pc h with ExecRunning id => Some (runEnds w i h id r) | _ => None end
  | Mgr l => m ← mstep (mgr w) l; Some (MkWorld (srv w) m (handlers w))
  end.

Definition NewServer (limit : Z) : world := MkWorld (MkServer ∅ 0 0) (NewManager limit) [].

Definition wreachable (limit : Z) : world → Prop := reach_from (λ a w, wstep w a) (NewServer limit).

(** ** The invariant *)

#[local] Arguments mstep : simpl never.

Definition ptyLive (p : handlerPC) : bool :=
  match p with ExecRunning _ | Finished _ => false | _ => true end.
Definition execOf (p : handlerPC) : option Z := match p with ExecRunning id => Some id | _ => None end.

Definition livePTYs (hs : list handler) : nat := length (filter (λ h, ptyLive (pc h) = true) hs).
Definition execIDs (hs : list handler) : list Z := omap (execOf ∘ pc) hs.

#[global] Arguments livePTYs : simpl never.
#[global] Arguments execIDs : simpl never.

Definition status_ok (h : handler) : Prop :=
  statuses h = match pc h with Finished why => [wrap_uint 32 (codeOf why)] | _ => [] end.

Record winv (limit : Z) (w : world) : Prop := {
  wi_pty : ptyConns (srv w) = Z.of_nat (livePTYs (handlers w));
  wi_exec : dom (execSessions (srv w)) = list_to_set (execIDs (handlers w));
  wi_nodup : NoDup (execIDs (handlers w));
  wi_ids : Forall (λ id, 0 < id ≤ execCounter (srv w)) (execIDs (handlers w));
  wi_counter : 0 ≤ execCounter (srv w) ≤ Z.of_nat (length (handlers w));
  wi_status : Forall status_ok (handlers w);
  wi_mgr : mreachable limit (mgr w);
}.

Lemma livePTYs_app hs1 hs2 : livePTYs (hs1 ++ hs2) = (livePTYs hs1 + livePTYs hs2)%nat.
Proof. unfold livePTYs. by rewrite filter_app, length_app. Qed.
Lemma livePTYs_cons h hs : livePTYs (h :: hs) = ((if ptyLive (pc h) then 1 else 0) + livePTYs hs)%nat.
Proof. unfold livePTYs. rewrite filter_cons. destruct (ptyLive (pc h)) eqn:E; by case_decide. Qed.
Lemma execIDs_app hs1 hs2 : execIDs (hs1 ++ hs2) = execIDs hs1 ++ execIDs hs2.
Proof. apply omap_app. Qed.
Lemma length_execIDs hs : (length (execIDs hs) ≤ length hs)%nat.
Proof. unfold execIDs. induction hs as [|h hs IH]; cbn; [done|]. case_match; cbn; lia. Qed.
Lemma execIDs_cons h hs :
  execIDs (h :: hs) = match execOf (pc h) with Some id => [id] | None => [] end ++ execIDs hs.
Proof. unfold execIDs. cbn. by destruct (execOf (pc h)). Qed.

(** A PTY handler moves on; [n] is what the move does to the count. *)
Lemma winv_pty limit w i h h' m n :
  winv limit w → handlers w !! i = Some h → ptyLive (pc h) = true →
  (∀ id, pc h' ≠ ExecRunning id) → status_ok h' → mreachable limit m →
  n = (if ptyLive (pc h') then 0 else -1) →
  winv limit (MkWorld (addPTY (srv w) n) m (<[i := h']> (handlers w))).
Proof.
  intros Hw Hl Hp He Hs Hm ->. destruct (insert_split _ _ _ h' Hl) as (l1 & l2 & E1 & E2).
  destruct Hw as [H1 H2 H3 H4 H5 H6 H7]. rewrite E1 in H1, H2, H3, H4, H5, H6.
  assert (Hx : execOf (pc h') = None) by (destruct (pc h'); try done; by destruct (He execID)).
  assert (Hy : execOf (pc h) = None) by (by destruct (pc h)).
  assert (Hids : execIDs (l1 ++ h' :: l2) = execIDs (l1 ++ h :: l2)).
  { by rewrite !execIDs_app, !execIDs_cons, Hx, Hy. }
  split; cbn; rewrite ?E2, ?Hids; try done.
  - rewrite H1, !livePTYs_app, !livePTYs_cons, Hp. destruct (ptyLive (pc h')); lia.
  - rewrite length_app in *. done.
  - rewrite Forall_app, Forall_cons in *. naive_solver.
Qed.

Lemma winv_put limit w i h p m :
  winv limit w → handlers w !! i = Some h → ptyLive (pc h) = true → ptyLive p = true →
  mreachable limit m →
  winv limit (MkWorld (srv w) m (<[i := goTo h p]> (handlers w))).
Proof.
  intros Hw Hl Hp Hp' Hm.
  replace (srv w) with (addPTY (srv w) 0) by (unfold addPTY; destruct (srv w); cbn; f_equal; lia).
  eapply winv_pty; eauto; cbn; [by intros id ->| |by rewrite Hp'].
  pose proof (Forall_lookup_1 _ _ _ _ (wi_status _ _ Hw) Hl) as Hs. unfold status_ok in *. cbn.
  rewrite Hs. destruct (pc h), p; done.
Qed.

Lemma mreachable_default limit m l : mreachable limit m → mreachable limit (default m (mstep m l)).
Proof. intros Hm. destruct (mstep m l) eqn:E; cbn; [by econstructor|done]. Qed.

Lemma winv_finish limit w i h why :
  winv limit w → handlers w !! i = Some h → ptyLive (pc h) = true →
  winv limit (finishPTY w i h why).
Proof.
  intros Hw Hl Hp. unfold finishPTY. eapply winv_pty; eauto; cbn -[mstep]; try done.
  - pose proof (Forall_lookup_1 _ _ _ _ (wi_status _ _ Hw) Hl) as Hs. unfold status_ok in *. cbn.
    rewrite Hs. by destruct (pc h).
  - pose proof (wi_mgr _ _ Hw). destruct (pc h); try done; by apply mreachable_default.
Qed.

Lemma winv_create limit w i h started :
  winv limit w → handlers w !! i = Some h → ptyLive (pc h) = true →
  winv limit (createTarget w i h started).
Proof.
  intros Hw Hl Hp. unfold createTarget.
  assert (Hm : mreachable limit (Create (mgr w) (hcols h) (hrows h) started).1).
  { eapply (reach_next _ _ (MCreate _ _ _)); [apply Hw|done]. }
  destruct (Create _ _ _ _) as [m [id|e]]; cbn in Hm.
  - by apply (winv_put limit w i h (PtyTarget id) m).
  - apply winv_finish; try done. by destruct Hw; split.
Qed.

(** A new handler. *)
Lemma winv_accept limit w s h :
  winv limit w → status_ok h →
  ptyConns s = ptyConns (srv w) + (if ptyLive (pc h) then 1 else 0) →
  execSessions s = execSessions (srv w) → execCounter s = execCounter (srv w) →
  execOf (pc h) = None →
  winv limit (MkWorld s (mgr w) (handlers w ++ [h])).
Proof.
  intros [H1 H2 H3 H4 H5 H6 H7] Hs Hn He Hc Hx.
  split; cbn; rewrite ?execIDs_app, ?execIDs_cons, ?Hx, ?He, ?Hc, ?app_nil_r; try done.
  - rewrite Hn, H1, livePTYs_app, livePTYs_cons. change (livePTYs []) with 0%nat.
    destruct (ptyLive (pc h)); lia.
  - rewrite length_app. cbn. lia.
  - by apply Forall_app_2, Forall_singleton.
Qed.

Lemma winv_exec limit w cmd :
  winv limit w → Z.of_nat (length (handlers w)) < 2 ^ 64 - 1 →
  let '(s, id) := registerExec (srv w) cmd in
  winv limit (MkWorld s (mgr w) (handlers w ++ [MkHandler (ExecRunning id) 0 0 []])).
Proof.
  intros [H1 H2 H3 H4 H5 H6 H7] Hb. unfold registerExec, wrap_uint. rewrite Z.mod_small by lia.
  split; cbn -[Z.pow]; rewrite ?execIDs_app, ?execIDs_cons, ?dom_insert_L; cbn -[Z.pow]; try done.
  - rewrite H1, livePTYs_app, livePTYs_cons. change (livePTYs []) with 0%nat. cbn. lia.
  - rewrite H2, list_to_set_app_L. cbn. set_solver.
  - apply NoDup_app. split_and!; [done| |apply NoDup_singleton].
    rewrite Forall_forall in H4. intros x Hx ->%list_elem_of_singleton. apply H4 in Hx. lia.
  - apply Forall_app_2; [|apply Forall_singleton; lia].
    eapply Forall_impl; [exact H4|]. cbn. intros x. lia.
  - rewrite length_app. cbn. lia.
  - apply Forall_app_2; [done|by apply Forall_singleton].
Qed.

Lemma winv_run_ends limit w i h id why :
  winv limit w → handlers w !! i = Some h → pc h = ExecRunning id →
  winv limit (MkWorld (deregisterExec (srv w) id) (mgr w) (<[i := Exit h why]> (handlers w))).
Proof.
  intros Hw Hl Hp. destruct (insert_split _ _ _ (Exit h why) Hl) as (l1 & l2 & E1 & E2).
  destruct Hw as [H1 H2 H3 H4 H5 H6 H7]. rewrite E1 in H1, H2, H3, H4, H5, H6.
  rewrite execIDs_app, execIDs_cons, Hp in H2, H3, H4. cbn in H2, H3, H4.
  assert (Hids : execIDs (l1 ++ Exit h why :: l2) = execIDs l1 ++ execIDs l2) by by rewrite execIDs_app, execIDs_cons.
  split; cbn; rewrite ?E2, ?Hids; try done.
  - rewrite H1, !livePTYs_app, !livePTYs_cons, Hp. done.
  - rewrite dom_delete_L, H2. rewrite !list_to_set_app_L. cbn.
    apply NoDup_app in H3 as (_ & Hd & [Hn _]%NoDup_cons).
    assert (id ∉ execIDs l1) by (intros Hin; apply (Hd _ Hin); left). set_solver.
  - apply NoDup_app in H3 as (Hd1 & Hd2 & [_ Hd3]%NoDup_cons). apply NoDup_app. split_and!; try done.
    intros x Hx Hin. apply (Hd2 _ Hx). by right.
  - rewrite Forall_app, Forall_cons in H4. rewrite Forall_app. naive_solver.
  - rewrite length_app in *. done.
  - rewrite Forall_app, Forall_cons in *. destruct H6 as (? & Hs & ?). split_and!; try done.
    unfold status_ok in *. cbn. by rewrite Hs, Hp.
Qed.

Lemma winv_step limit w a w' :
  winv limit w → Z.of_nat (length (handlers w')) < 2 ^ 64 → wstep w a = Some w' → winv limit w'.
Proof.
  intros Hw Hb. destruct a as [wc wr|cmd|i st|i sel st|i|i eof v|i reason|i r|l]; cbn [wstep].
  - intros [= <-]. apply winv_accept; done.
  - intros [= <-]. revert Hb. unfold acceptExec.
    case_bool_decide; [intros _; apply winv_accept; cbn; (done || lia)|].
    pose proof (winv_exec limit w cmd Hw) as He. destruct (registerExec _ _) as [s id].
    intros Hb. apply He. cbn in Hb. rewrite length_app in Hb. cbn in Hb. lia.
  - destruct (handlers w !! i) as [h|] eqn:Hl; [cbn -[mstep]|done]. destruct (pc h) eqn:Hp; try done.
    intros [= <-]. unfold listSessions. case_bool_decide; [apply winv_create; by rewrite ?Hp|].
    apply winv_put; rewrite ?Hp; try done. apply Hw.
  - destruct (handlers w !! i) as [h|] eqn:Hl; [cbn -[mstep]|done]. destruct (pc h) eqn:Hp; try done.
    assert (Hlive : ptyLive (pc h) = true) by by rewrite Hp.
    case_match; [|done]. intros [= <-].
    destruct sel as [| | |id]; cbn [selected]; [by apply winv_finish..| |].
    + by apply winv_create.
    + destruct (Get _ _); [|by apply winv_finish].
      apply winv_put; try done. apply Hw.
  - destruct (handlers w !! i) as [h|] eqn:Hl; [cbn -[mstep]|done]. destruct (pc h) eqn:Hp; try done.
    intros [= <-]. apply winv_put; rewrite ?Hp; try done. apply mreachable_default, Hw.
  - destruct (handlers w !! i) as [h|] eqn:Hl; [cbn -[mstep]|done]. destruct (pc h) eqn:Hp; try done.
    case_match; [|done]. intros [= <-]. apply winv_put; rewrite ?Hp; try done. apply Hw.
  - destruct (handlers w !! i) as [h|] eqn:Hl; [cbn -[mstep]|done]. destruct (pc h) eqn:Hp; try done.
    case_match; [|done]. intros [= <-]. apply winv_finish; by rewrite ?Hp.
  - destruct (handlers w !! i) as [h|] eqn:Hl; [cbn -[mstep]|done]. destruct (pc h) eqn:Hp; try done.
    intros [= <-]. by apply winv_run_ends.
  - destruct (mstep _ _) as [m|] eqn:Hm; [cbn|done]. intros [= <-].
    destruct Hw; split; try done. by econstructor.
Qed.

(** Handlers are never forgotten. *)
Lemma wstep_length w a w' :
  wstep w a = Some w' → (length (handlers w) ≤ length (handlers w'))%nat.
Proof.
  assert (Hc : ∀ i h st, length (handlers (createTarget w i h st)) = length (handlers w)).
  { intros. unfold createTarget. destruct (Create _ _ _ _) as [m [e|id]]; cbn; apply length_insert. }
  destruct a as [wc wr|cmd|i st|i sel st|i|i eof v|i reason|i r|l]; cbn [wstep]; intros Hs.
  1: injection Hs as <-; cbn; rewrite length_app; cbn; lia.
  1: { unfold acceptExec in Hs. destruct (bool_decide _); injection Hs as <-; cbn; rewrite length_app; cbn; lia. }
  7: { destruct (mstep _ _) as [m|]; [|done]. injection Hs as <-. done. }
  all: destruct (handlers w !! i) as [h|] eqn:Hl; [|done]; cbn in Hs;
    unfold listSessions, selected in Hs; repeat case_match; simplify_eq; cbn; rewrite ?length_insert, ?Hc; done.
Qed.

Lemma winv_reachable limit w :
  wreachable limit w → Z.of_nat (length (handlers w)) < 2 ^ 64 → winv limit w.
Proof.
  induction 1 as [|w a w' Hr IH Hs]; intros Hb.
  - split; cbn; try done. apply NoDup_nil_2. constructor.
  - eapply winv_step; eauto. apply IH. apply wstep_length in Hs. lia.
Qed.

(** Every session alive is attached or detached. *)
Lemma NoDup_fst_filter {A B} (P : A * B → Prop) `{!∀ x, Decision (P x)} (l : list (A * B)) :
  NoDup l.*1 → NoDup (filter P l).*1.
Proof.
  induction l as [|[a b] l IH]; [done|]. rewrite fmap_cons. intros [Hn Hd]%NoDup_cons.
  rewrite filter_cons. case_decide; [|by apply IH]. rewrite fmap_cons. apply NoDup_cons. split; [|by apply IH].
  contradict Hn. apply list_elem_of_fmap in Hn as ([a' b'] & -> & [_ Hin]%list_elem_of_filter).
  by apply (list_elem_of_fmap_2 fst).
Qed.

Lemma size_alive_filter ss :
  size (alive ss) = length (filter (λ ks : bytes * Session, exited ks.2 = false) (map_to_list ss)).
Proof.
  unfold alive. rewrite map_filter_alt. apply map_size_list_to_map.
  apply NoDup_fst_filter, NoDup_fst_map_to_list.
Qed.

Lemma alive_statuses m :
  (length (withStatus Attached (List m)) + length (withStatus Detached (List m)))%nat =
  size (alive (sessions m)).
Proof.
  rewrite size_alive_filter. unfold withStatus, List. induction (map_to_list _) as [|[id s] l IH]; [done|].
  rewrite fmap_cons, !filter_cons. cbn [IStatus Info fst snd]. unfold InfoStatus.
  destruct (exited s), (0 <? length (clients s))%nat;
    repeat case_decide; try done; cbn [length]; lia.
Qed.

Lemma sessionCount_exact limit w (now : Z) :
  0 ≤ limit < 2 ^ 32 → wreachable limit w → Z.of_nat (length (handlers w)) < 2 ^ 32 →
  let r := sessionCount (srv w) (mgr w) now in
  PTYConns r = Z.of_nat (livePTYs (handlers w)) ∧
  ExecCount r = Z.of_nat (length (execIDs (handlers w))) ∧
  AttachedPTY r + DetachedPTY r = active (mgr w) ∧
  Forall status_ok (handlers w).
Proof.
  intros Hlim Hr Hb. cbn -[List]. assert (Hw : winv limit w) by (apply winv_reachable; [done|lia]).
  assert (Hp : (livePTYs (handlers w) ≤ length (handlers w))%nat) by apply length_filter.
  assert (He : (length (execIDs (handlers w)) ≤ length (handlers w))%nat) by apply length_execIDs.
  assert (Hact : active (mgr w) ≤ limit) by (apply (mgr_ok_reachable limit), Hw; lia).
  assert (Hsize : size (execSessions (srv w)) = length (execIDs (handlers w))).
  { rewrite <- (size_list_to_set (C := gset Z)) by apply Hw. rewrite <- (wi_exec _ _ Hw).
    symmetry. apply size_dom. }
  pose proof (alive_statuses (mgr w)) as Ha. unfold active in *. unfold wrap_uint.
  rewrite (wi_pty _ _ Hw), Hsize, !Z.mod_small by lia. split_and!; [done..|lia|apply Hw].
Qed.

(** C24: a client that asks for the session count gets the truth, and every
    handler reports exactly one exit status.  Whatever the handlers and the
    sessions do meanwhile, the reply counts the PTY handlers that have not
    finished, the commands that are running, and the sessions that are alive;
    a handler that has finished has sent the one status its cause calls for,
    one that has not has sent none. *)
Theorem handlers_accounted limit w (now : Z) :
  0 ≤ limit < 2 ^ 32 → wreachable limit w → Z.of_nat (length (handlers w)) < 2 ^ 32 →
  let r := sessionCount (srv w) (mgr w) now in
  PTYConns r = Z.of_nat (livePTYs (handlers w)) ∧
  ExecCount r = Z.of_nat (length (execIDs (handlers w))) ∧
  AttachedPTY r + DetachedPTY r = active (mgr w) ∧
  Forall status_ok (handlers w).
Proof. apply sessionCount_exact. Qed.

End server.

(** ** Status 0 *)

Section status.
Context `{Emulator}.
#[local] Arguments mstep : simpl never.

(** A client that was closed, by someone other than its own handler, has a
    reason; [drained]: its output is closed and was read to the end. *)
Definition reason_ok (cl : Client) : Prop := done cl = true → detachReason cl ≠ DetachNone.
Definition drained (cl : Client) : Prop := pending cl = [] ∧ output cl = [] ∧ outputClosed cl = true.

(** What a step may do to a client that its handler still has. *)
Definition follows (cl cl' : Client) : Prop :=
  (reason_ok cl → reason_ok cl') ∧ (done cl = true → done cl' = true) ∧ (drained cl → drained cl').

(** Client [id] is not closed without a reason. *)
Definition forced (id : nat) (l : label) : Prop :=
  match l with LCloseBegin id' reason => id' = id → reason ≠ DetachNone | _ => True end.

Definition client_follows (id : nat) (s s' : Session) : Prop :=
  ∀ cl, heap s !! id = Some cl → ∃ cl', heap s' !! id = Some cl' ∧ follows cl cl'.

Lemma follows_refl cl : follows cl cl.
Proof. by split_and!. Qed.

Lemma follows_same id s s' : heap s' = heap s → client_follows id s s'.
Proof. intros E cl Hl. rewrite <- E in Hl. exists cl. split; [done|apply follows_refl]. Qed.

Lemma follows_put id s s' i cl cl' :
  heap s' = <[i := cl']> (heap s) → heap s !! i = Some cl → (i = id → follows cl cl') → client_follows id s s'.
Proof.
  intros E Hi Hc x Hl. rewrite E. destruct (decide (i = id)) as [->|Hne].
  - rewrite list_lookup_insert_eq by (by eapply lookup_lt_Some). simplify_eq. eauto.
  - rewrite list_lookup_insert_ne by done. exists x. split; [done|apply follows_refl].
Qed.

Lemma Attach_heap s c r : ∃ cl, heap (Attach s c r) = heap s ++ [cl] ∧ done cl = false.
Proof. unfold Attach, resizeIf, resizeLocked. repeat case_match; eexists; split; try reflexivity. Qed.

Lemma follows_pumpStep id s skip s' : pumpStep s skip = Some s' → client_follows id s s'.
Proof.
  unfold pumpStep. destruct (pump s) as [|data [|i rest] err|i data rest err| |[|i rest]|]; try done.
  1,4,5: intros [= <-]; by apply follows_same.
  - destruct (heap s !! i) as [cl|] eqn:Hi; [cbn|done]. unfold deliver.
    destruct (outputClosed cl) eqn:Hc; [intros [= <-]; eapply follows_put; [reflexivity|exact Hi|by intros; apply follows_refl]|].
    assert (Hnd : ¬ drained cl) by (intros (_ & _ & ?); congruence).
    repeat case_match; intros [= <-]; eapply follows_put; try reflexivity; try exact Hi; simplify_eq; intros _;
      try apply follows_refl; try (by split_and!).
  - destruct (heap s !! i) as [cl|]; [cbn|done]. case_bool_decide; [|done]. intros [= <-].
    by apply follows_same.
  - destruct (heap s !! i) as [cl|] eqn:Hi; [cbn|done]. intros [= <-].
    eapply follows_put; [reflexivity|exact Hi|]. intros _. split_and!; try done. by intros (? & ? & ?).
Qed.

Lemma Read_follows cl n v o cl' : Read cl n v = Some (o, cl') → follows cl cl'.
Proof.
  unfold Read, follows, drained. destruct (pending cl) as [|b bs] eqn:Hp.
  - destruct (done cl && v); [intros [= <- <-]; by rewrite Hp|].
    destruct (output cl) as [|d q] eqn:Ho.
    + destruct (outputClosed cl || done cl); [|done]. intros [= <- <-]. by rewrite Hp, Ho.
    + intros [= <- <-]. split_and!; [done..|]. by intros (_ & ? & _).
  - intros [= <- <-]. split_and!; [done..|]. by intros (? & _).
Qed.

Lemma follows_step id s l s' : forced id l → step l s = Some s' → client_follows id s s'.
Proof.
  intros Hf. destruct l as [c r|i c r|i reason|i now|i c r|i p|i|i n v|data err|skip|code|now|]; cbn [step].
  - intros [= <-] cl Hl. destruct (Attach_heap s c r) as (x & -> & _). exists cl.
    split; [by apply lookup_app_l_Some|apply follows_refl].
  - case_bool_decide; [|done]. intros [= <-]. apply follows_same.
    unfold TakeOver, resizeIf. by repeat case_match.
  - destruct (heap s !! i) as [cl|] eqn:Hi; [cbn|done]. case_bool_decide; [|done]. intros [= <-].
    eapply follows_put; [reflexivity|exact Hi|]. intros E. split_and!; try done. intros _ _. by apply Hf.
  - destruct (heap s !! i) as [cl|] eqn:Hi; [cbn|done]. case_bool_decide; [|done]. intros [= <-].
    eapply follows_put; [reflexivity|exact Hi|]. intros _. by split_and!.
  - intros [= <-]. apply follows_same. unfold Resize. by repeat case_match.
  - intros [= <-]. apply follows_same. unfold WriteInput. by case_match.
  - destruct (inflight s !! i); [cbn|done]. intros [= <-]. by apply follows_same.
  - destruct (heap s !! i) as [cl|] eqn:Hi; [cbn|done].
    destruct (Read cl n v) as [[o cl']|] eqn:Hr; [cbn|done]. intros [= <-].
    eapply follows_put; [reflexivity|exact Hi|]. intros _. by eapply Read_follows.
  - destruct (pump s); try done. intros [= <-]. apply follows_same. unfold pumpRead. by case_match.
  - apply follows_pumpStep.
  - destruct (waiter s); try done. intros [= <-]. by apply follows_same.
  - unfold waitStep. repeat case_match; intros [= <-]; by apply follows_same.
  - destruct (tombstones s); [done|]. intros [= <-]. by apply follows_same.
Qed.

(** *** The clients of the handlers *)

Definition clientRef (p : handlerPC) : option (bytes * nat) :=
  match p with PtyAttached id c | PtyCopied id c _ => Some (id, c) | _ => None end.
Definition targetRef (p : handlerPC) : option bytes :=
  match p with PtyTarget id | PtyAttached id _ | PtyCopied id _ _ => Some id | _ => None end.

Definition clientOk (p : handlerPC) (cl : Client) : Prop :=
  reason_ok cl ∧ match p with PtyCopied _ _ true => done cl = true ∨ drained cl | _ => True end.

Definition named (m : Manager) (id : bytes) : Prop := ∃ n, n ≤ counter m ∧ id = sessionID n.

Record hinv (limit : Z) (m : Manager) (hs : list handler) : Prop := {
  hi_mgr : mgr_ok limit m;
  hi_named : ∀ i h id, hs !! i = Some h → targetRef (pc h) = Some id → named m id;
  hi_client : ∀ i h id c s, hs !! i = Some h → clientRef (pc h) = Some (id, c) → sessions m !! id = Some s →
    ∃ cl, heap s !! c = Some cl ∧ clientOk (pc h) cl;
  hi_unique : ∀ i j h h' ref, i ≠ j → hs !! i = Some h → hs !! j = Some h' →
    clientRef (pc h) = Some ref → clientRef (pc h') = Some ref → sessions m !! ref.1 = None;
}.

Lemma client_target p id c : clientRef p = Some (id, c) → targetRef p = Some id.
Proof. destruct p; cbn; by intros [= -> ->]. Qed.

Lemma clientOk_follows p cl cl' : follows cl cl' → clientOk p cl → clientOk p cl'.
Proof. intros (H1 & H2 & H3) [Hr Hp]. split; [auto|]. destruct p as [| | | |? ? []| |]; try done. naive_solver. Qed.

(** A step of the manager that closes no client of a handler without a reason. *)
Lemma hinv_mgr limit m hs l m' :
  hinv limit m hs → mstep m l = Some m' →
  (∀ i h id c, hs !! i = Some h → clientRef (pc h) = Some (id, c) →
     match l with MSession id' l' => id' = id → forced c l' | _ => True end) →
  hinv limit m' hs.
Proof.
  intros [Hm Hn Hc Hu] Hs Hf.
  assert (Hcnt : counter m ≤ counter m').
  { destruct l; unfold mstep in Hs; [injection Hs as <-; unfold Create; repeat case_match; cbn; lia|..];
      destruct (sessions m !! id); cbn in Hs; try done; repeat case_match; try done.
    - destruct (step l s); [|done]. by injection Hs as <-.
    - by injection Hs as <-. }
  assert (Hold : ∀ id s', named m id → sessions m' !! id = Some s' → ∃ s, sessions m !! id = Some s ∧
    ∀ c, match l with MSession id' l' => id' = id → forced c l' | _ => True end → client_follows c s s').
  { intros id s' (n & Hle & ->) Hl'. destruct l as [cc rr st|id' l'|id']; unfold mstep in Hs.
    - exists s'. split; [|by intros; apply follows_same]. injection Hs as <-. revert Hl'. unfold Create.
      repeat case_match; try done. cbn. rewrite lookup_insert_ne; [done|]. intros E%sessionID_inj. lia.
    - destruct (sessions m !! id') as [s|] eqn:Hx; [|done]. cbn in Hs. destruct (step l' s) as [s1|] eqn:Hst; [|done].
      injection Hs as <-. cbn in Hl'. destruct (decide (id' = sessionID n)) as [->|Hne].
      + rewrite lookup_insert_eq in Hl'. injection Hl' as <-. exists s. split; [done|].
        intros c Hfc. eapply follows_step; [by apply Hfc|done].
      + rewrite lookup_insert_ne in Hl' by done. exists s'. split; [done|]. intros. by apply follows_same.
    - destruct (sessions m !! id') as [s|]; [|done]. cbn in Hs. destruct (cleanup s); [|done]. injection Hs as <-.
      cbn in Hl'. apply lookup_delete_Some in Hl' as [_ Hl']. exists s'. split; [done|]. intros. by apply follows_same. }
  split; [by eapply mgr_ok_step|..].
  - intros i h id Hi Ht. destruct (Hn i h id Hi Ht) as (n & ? & ->). exists n. split; [lia|done].
  - intros i h id c s' Hi Hr Hl'. destruct (Hold id s') as (s & Hl & Hfol); [|done|].
    { eapply Hn; [done|by eapply client_target]. }
    destruct (Hc i h id c s Hi Hr Hl) as (cl & Hcl & Hok).
    destruct (Hfol c (Hf i h id c Hi Hr) cl Hcl) as (cl' & ? & ?). exists cl'. split; [done|].
    by eapply clientOk_follows.
  - intros i j h h' [id c] Hij Hi Hj Hri Hrj. cbn. pose proof (Hu i j h h' (id, c) Hij Hi Hj Hri Hrj) as Hnone.
    destruct (sessions m' !! id) as [s'|] eqn:Hl'; [|done].
    destruct (Hold id s') as (s & Hl & _); [eapply Hn; [exact Hi|by eapply client_target]|done|].
    cbn in Hnone. congruence.
Qed.

(** A handler moves on. *)
Lemma hinv_put limit m hs i h h' :
  hinv limit m hs → hs !! i = Some h →
  (∀ id, targetRef (pc h') = Some id → named m id) →
  (∀ id c s, clientRef (pc h') = Some (id, c) → sessions m !! id = Some s →
     (∃ cl, heap s !! c = Some cl ∧ clientOk (pc h') cl) ∧
     (∀ j h'', j ≠ i → hs !! j = Some h'' → clientRef (pc h'') ≠ Some (id, c))) →
  hinv limit m (<[i := h']> hs).
Proof.
  intros [Hm Hn Hc Hu] Hi Ht Hr.
  assert (Hlk : ∀ j x, <[i := h']> hs !! j = Some x → j = i ∧ x = h' ∨ j ≠ i ∧ hs !! j = Some x).
  { intros j x. rewrite list_lookup_insert_Some. naive_solver. }
  split; [done|..].
  - intros j x id [[-> ->]|[_ Hj]]%Hlk; eauto.
  - intros j x id c s [[-> ->]|[_ Hj]]%Hlk Hx Hs; [exact (proj1 (Hr _ _ _ Hx Hs))|by eapply Hc].
  - intros j k x y [id c] Hjk [[-> ->]|[Hj1 Hj]]%Hlk [[-> ->]|[Hk1 Hk]]%Hlk Hx Hy; [done|cbn..|].
    + destruct (sessions m !! id) as [s|] eqn:Hs; [|done]. by destruct (proj2 (Hr id c s Hx Hs) k y Hk1 Hk).
    + destruct (sessions m !! id) as [s|] eqn:Hs; [|done]. by destruct (proj2 (Hr id c s Hy Hs) j x Hj1 Hj).
    + by eapply (Hu j k).
Qed.

Lemma hinv_free limit m hs i h h' :
  hinv limit m hs → hs !! i = Some h → targetRef (pc h') = None → hinv limit m (<[i := h']> hs).
Proof.
  intros Hi Hl Hn. eapply hinv_put; try done; [by rewrite Hn|].
  intros id c s Hc%client_target. congruence.
Qed.

Lemma hinv_app limit m hs h : hinv limit m hs → targetRef (pc h) = None → hinv limit m (hs ++ [h]).
Proof.
  intros [Hm Hn Hc Hu] Ht.
  assert (Hr : clientRef (pc h) = None) by (by destruct (pc h)).
  assert (Hlk : ∀ j x, (hs ++ [h]) !! j = Some x → hs !! j = Some x ∨ x = h).
  { intros j x [?|[_ [_ <-]%list_lookup_singleton_Some]]%lookup_app_Some; auto. }
  split; [done|..].
  - intros j x id [Hj| ->]%Hlk Hx; [eauto|congruence].
  - intros j x id c s [Hj| ->]%Hlk Hx; [eauto|congruence].
  - intros j k x y ref Hjk [Hj| ->]%Hlk [Hk| ->]%Hlk Hx Hy; [by eapply (Hu j k)|congruence..].
Qed.

(** A handler that ends closes its own client, which no other handler has. *)
Lemma hinv_finish limit w i h why :
  hinv limit (mgr w) (handlers w) → handlers w !! i = Some h →
  hinv limit (mgr (finishPTY w i h why)) (handlers (finishPTY w i h why)).
Proof.
  intros Hi Hl. pose proof (hinv_free _ _ _ i h (Exit h why) Hi Hl eq_refl) as Hfree.
  unfold finishPTY. cbn -[mstep].
  assert (Hstep : ∀ id c, clientRef (pc h) = Some (id, c) →
    hinv limit (default (mgr w) (mstep (mgr w) (MSession id (LCloseBegin c DetachNone)))) (<[i := Exit h why]> (handlers w))).
  { intros id c Hr. destruct (mstep _ _) as [m|] eqn:Hs; [cbn|done]. eapply hinv_mgr; [done..|].
    intros j x id' c' Hj Hx <- . cbn. intros ->. exfalso.
    apply list_lookup_insert_Some in Hj as [(_ & <- & _)|[Hne Hj]]; [done|].
    pose proof (hi_unique _ _ _ Hi i j h x (id, c') Hne Hl Hj Hr Hx) as Hnone. cbn in Hnone.
    unfold mstep in Hs. by rewrite Hnone in Hs. }
  destruct (pc h); try done; by apply Hstep.
Qed.

Lemma hinv_create limit w i h started :
  hinv limit (mgr w) (handlers w) → handlers w !! i = Some h →
  hinv limit (mgr (createTarget w i h started)) (handlers (createTarget w i h started)).
Proof.
  intros Hi Hl. unfold createTarget.
  assert (Hm : hinv limit (Create (mgr w) (hcols h) (hrows h) started).1 (handlers w)).
  { by eapply (hinv_mgr _ _ _ (MCreate (hcols h) (hrows h) started)). }
  destruct (Create _ _ _ _) as [m [id|e]] eqn:Hc; cbn in Hm.
  - cbn. eapply hinv_put; [done..| |done]. intros id' [= <-]. unfold Create in Hc. repeat case_match; simplify_eq.
    by eexists.
  - apply (hinv_finish limit (MkWorld (srv w) m (handlers w))); done.
Qed.

Lemma hinv_attach limit w i h id :
  hinv limit (mgr w) (handlers w) → handlers w !! i = Some h → pc h = PtyTarget id →
  hinv limit (mgr (attachTarget w i h id)) (handlers (attachTarget w i h id)).
Proof.
  intros Hi Hl Hp. unfold attachTarget, Get. cbn -[mstep].
  assert (Hnm : named (mgr w) id) by (eapply (hi_named _ _ _ Hi); [done|by rewrite Hp]).
  destruct (sessions (mgr w) !! id) as [s|] eqn:Hs.
  - assert (Hst : mstep (mgr w) (MSession id (LAttach (hcols h) (hrows h))) =
      Some (MkManager (<[id := Attach s (hcols h) (hrows h)]> (sessions (mgr w))) (counter (mgr w)) (Manager.limit (mgr w)))).
    { unfold mstep. by rewrite Hs. }
    pose proof (hinv_mgr _ _ _ _ _ Hi Hst) as Hm. rewrite Hst. cbn.
    eapply hinv_put; [by apply Hm|done| |].
    + intros id' [= <-]. exact Hnm.
    + intros id' c s' [= <- <-]. cbn. rewrite lookup_insert_eq. intros [= <-].
      destruct (Attach_heap s (hcols h) (hrows h)) as (x & Hx & Hd). split.
      * exists x. rewrite Hx, lookup_app_r, Nat.sub_diag by done. split; [done|]. split; [|done].
        unfold reason_ok. by rewrite Hd.
      * intros j h'' Hne Hj Hr. destruct (hi_client _ _ _ Hi j h'' _ _ s Hj Hr Hs) as (cl & Hcl%lookup_lt_Some & _). lia.
  - assert (Hst : mstep (mgr w) (MSession id (LAttach (hcols h) (hrows h))) = None).
    { unfold mstep. by rewrite Hs. }
    rewrite Hst. cbn. eapply hinv_put; [done..| |].
    + intros id' [= <-]. exact Hnm.
    + intros id' c s' [= <- <-]. congruence.
Qed.

(** What runs in the server: every [CloseWithReason] but the one of [finishPTY]
    gives a reason. *)
Definition reasoned (a : action) : bool :=
  match a with Mgr (MSession _ (LCloseBegin _ DetachNone)) => false | _ => true end.

Definition serverStep (a : action) (w : world) : option world := if reasoned a then wstep w a else None.
Definition served (limit : Z) : world → Prop := reach_from serverStep (NewServer limit).

Lemma reasoned_forced l c : reasoned (Mgr l) = true → match l with MSession _ l' => forced c l' | _ => True end.
Proof. destruct l as [|id l|]; try done. destruct l as [| |i []| | | | | | | | | |]; done. Qed.

Lemma copyEnds_ok m id c eof v cl :
  clientOf m id c = Some cl → negb eof || atEOF cl v = true → eof = true → done cl = true ∨ drained cl.
Proof.
  intros _ He ->. cbn in He. unfold atEOF, Read in He. unfold drained.
  destruct (pending cl) eqn:Hp; [|done]. destruct (done cl); [by left|]. cbn in He.
  destruct (output cl); [|done]. destruct (outputClosed cl); [by right|done].
Qed.

Lemma handler_inv_step limit w a w' :
  hinv limit (mgr w) (handlers w) → serverStep a w = Some w' → hinv limit (mgr w') (handlers w').
Proof.
  intros Hi. unfold serverStep. destruct (reasoned a) eqn:Hre; [|done].
  destruct a as [wc wr|cmd|i st|i sel st|i|i eof v|i reason|i r|l]; cbn [wstep].
  1: by intros [= <-]; apply hinv_app.
  1: { intros [= <-]. unfold acceptExec. case_bool_decide; by apply hinv_app. }
  7: { destruct (mstep _ _) as [m|] eqn:Hm; [cbn|done]. intros [= <-]. eapply hinv_mgr; [done..|].
       intros i h id c _ _. pose proof (reasoned_forced l c Hre). by destruct l. }
  all: destruct (handlers w !! i) as [h|] eqn:Hl; [cbn -[mstep]|done]; destruct (pc h) as [|off|id|id c|id c b|id|why] eqn:Hp; try done.
  - intros [= <-]. unfold listSessions. case_bool_decide; [by apply hinv_create|]. by eapply hinv_free.
  - case_match; [|done]. intros [= <-]. destruct sel as [| | |id]; cbn [selected]; try by apply hinv_finish.
    + by apply hinv_create.
    + unfold Get. destruct (sessions (mgr w) !! id) as [s|] eqn:Hs; [|by apply hinv_finish].
      eapply hinv_put; [done..| |done]. intros id' [= <-].
      destruct (mok_ids _ _ (hi_mgr _ _ _ Hi) _ _ Hs) as [(n & ? & ->) _]. exists n. cbn. split; [lia|done].
  - intros [= <-]. by apply hinv_attach.
  - destruct (copyEnds w id c eof v) eqn:Hce; [|done]. intros [= <-]. cbn.
    assert (Hr : clientRef (pc h) = Some (id, c)) by by rewrite Hp.
    eapply hinv_put; [done..| |].
    + intros id' [= <-]. eapply (hi_named _ _ _ Hi); [done|by rewrite Hp].
    + intros id' c' s [= <- <-] Hs. split.
      * destruct (hi_client _ _ _ Hi i h id c s Hl Hr Hs) as (cl & Hcl & Hok & _). exists cl. split; [done|].
        split; [done|]. destruct eof; [|done]. unfold copyEnds in Hce.
        assert (Hco : clientOf (mgr w) id c = Some cl) by (unfold clientOf, Get; by rewrite Hs).
        rewrite Hco in Hce. by eapply copyEnds_ok.
      * intros j x Hne Hj Hx. pose proof (hi_unique _ _ _ Hi i j h x _ ltac:(done) Hl Hj Hr Hx). cbn in *. congruence.
  - case_match; [|done]. intros [= <-]. by apply hinv_finish.
  - intros [= <-]. by eapply hinv_free.
Qed.

Lemma hinv_served limit w : 0 ≤ limit → served limit w → hinv limit (mgr w) (handlers w).
Proof.
  intros Hlim. apply (reach_inv serverStep (λ w, hinv limit (mgr w) (handlers w))); [|by intros; eapply handler_inv_step].
  split; [apply (mgr_ok_reachable limit); [done|constructor]|done..].
Qed.

(** C23: a clean status means that the shell is gone.  In whatever order clients,
    shells and handlers act, when the output copy of a client ended at the end of
    its output and its handler then reports status 0, the shell has exited and
    the client has been given its replay and every byte of output since it
    attached; a client that was closed by anyone is reported as 255; no other
    status is sent.  (A copy that ends because a write to the channel failed is
    not covered, see [write_error_status].) *)
Theorem clean_status_is_shell_exit limit w i h id c reason w' s cl replay since :
  0 ≤ limit → served limit w → handlers w !! i = Some h → pc h = PtyCopied id c true →
  wstep w (OutputEnds i reason) = Some w' →
  Get (mgr w) id = Some s → heap s !! c = Some cl → attached cl = Some (replay, since) →
  ∃ h' code, handlers w' !! i = Some h' ∧ pc h' = Finished (OutputEnded reason) ∧ reason = detachReason cl ∧
    statuses h' = statuses h ++ [code] ∧ code ∈ [0; 255] ∧
    (code = 0 → exited s = true ∧ received cl = replay ++ concat (drop since (hist s))) ∧
    (done cl = true → code = 255).
Proof.
  intros Hlim Hw%hinv_served Hl Hp Hs Hg Hcl Ha; [|done]. cbn [wstep] in Hs. rewrite Hl in Hs. cbn [mbind option_bind] in Hs.
  rewrite Hp in Hs. unfold reasonIs, clientOf in Hs. rewrite Hg in Hs. cbn [mbind option_bind] in Hs. rewrite Hcl in Hs.
  case_bool_decide as Hre; [|done]. injection Hs as <-.
  destruct (hi_client _ _ _ Hw i h id c s Hl ltac:(by rewrite Hp) Hg) as (cl' & Hcl' & Hok & Heof). simplify_eq.
  rewrite Hp in Heof. cbn in Heof.
  exists (Exit h (OutputEnded (detachReason cl))), (detachExitCode (detachReason cl)). split_and!; try done.
  - cbn. apply list_lookup_insert_eq. by eapply lookup_lt_Some.
  - cbn. unfold detachExitCode. by case_bool_decide.
  - unfold detachExitCode. case_bool_decide; set_solver.
  - unfold detachExitCode. case_bool_decide as Hn; [intros _|done].
    assert (Hd : done cl = false) by (destruct (done cl) eqn:Hd; [by destruct (Hok Hd)|done]).
    destruct Heof as [|(Hpe & Ho & Hc)]; [congruence|].
    destruct (mok_ids _ _ (hi_mgr _ _ _ Hw) _ _ Hg) as [_ Hinv].
    apply (eof_is_complete s c cl 1 false cl); try done. unfold Read. by rewrite Hpe, Hd, Ho, Hc.
  - intros Hd%Hok. unfold detachExitCode. by rewrite bool_decide_eq_false_2.
Qed.
End status.

(** ** Concrete runs *)

#[local] Existing Instance plain_emulator.

(** A terminal's shell prints and exits, and its client reads to the end. *)
Definition in1 (l : label) : action := Mgr (MSession (sessionID 1) l).

Definition demo_shell : list action :=
  [AcceptPTY 80 24; ListSessions 0 true; AttachTarget 0; in1 (LRead 0 99 false);
   in1 (LPumpRead (gs "bye") true); in1 (LPump false); in1 (LPump false); in1 (LShellExit 0); in1 (LPump false);
   in1 (LPump false); in1 (LRead 0 99 false); CopyEnds 0 true false].

Definition demo_served : option world := run_steps (serverStep (H := plain_emulator)) demo_shell (NewServer 5).

Lemma clean_status_is_shell_exit_witness :
  ∃ w w' s cl replay since h', demo_served = Some w ∧
    wstep (H := plain_emulator) w (OutputEnds 0 DetachNone) = Some w' ∧
    handlers w' !! 0%nat = Some h' ∧ statuses h' = [0] ∧
    exited s = true ∧ received cl = replay ++ concat (drop since (hist s)) ∧ hist s = [gs "bye"].
Proof.
  destruct demo_served as [w|] eqn:E; [|vm_compute in E; discriminate E].
  assert (Hw : served (H := plain_emulator) 5 w) by (eapply run_steps_reach; [apply reach_start|exact E]).
  assert (Hd : ∃ h w' s cl replay since, handlers w !! 0%nat = Some h ∧ pc h = PtyCopied (sessionID 1) 0 true ∧
    statuses h = [] ∧ wstep w (OutputEnds 0 DetachNone) = Some w' ∧ Get (mgr w) (sessionID 1) = Some s ∧
    heap s !! 0%nat = Some cl ∧ attached cl = Some (replay, since) ∧ detachReason cl = DetachNone ∧ hist s = [gs "bye"]).
  { clear Hw. vm_compute in E. injection E as <-. do 6 eexists. split_and!; try (vm_compute; reflexivity). }
  destruct Hd as (h & w' & s & cl & replay & since & H1 & H2 & H3 & H4 & H5 & H6 & H7 & H8 & H9).
  destruct (clean_status_is_shell_exit 5 w 0 h (sessionID 1) 0 DetachNone w' s cl replay since ltac:(lia) Hw
              H1 H2 H4 H5 H6 H7) as (h' & code & Hh & Hpc & _ & Hst & Hin & Hz & _).
  assert (Hc : code = 0).
  { cbn [wstep] in H4. rewrite H1 in H4. cbn [mbind option_bind] in H4. rewrite H2 in H4.
    destruct (reasonIs w (sessionID 1) 0 DetachNone); [|discriminate H4]. injection H4 as <-.
    unfold finishPTY in Hh. cbn [handlers] in Hh.
    rewrite list_lookup_insert_eq in Hh by (by eapply lookup_lt_Some). injection Hh as <-.
    cbn in Hst. rewrite H3 in Hst. by injection Hst as <-. }
  subst code. destruct (Hz eq_refl) as [Hx Hr].
  exists w, w', s, cl, replay, since, h'. split_and!; try done. by rewrite Hst, H3.
Defined.

(** When the channel breaks and the copy ends on its write, before anyone has
    closed the client, the status is 0 with the shell still running. *)
Example write_error_status :
  (λ w, (statuses <$> handlers w, exited <$> Get (mgr w) (sessionID 1))) <$>
    run_steps (serverStep (H := plain_emulator))
      [AcceptPTY 80 24; ListSessions 0 true; AttachTarget 0; CopyEnds 0 false false; OutputEnds 0 DetachNone]
      (NewServer 5) = Some ([[0]], Some false).
Proof. vm_compute. reflexivity. Qed.

Definition wrun `{Emulator} : list action → world → option world := run_steps (λ a w, wstep w a).

(** Two terminals, a command, and a session left behind by the first. *)
Definition demo_world : list action :=
  [AcceptPTY 120 40; AcceptExec (gs "uptime"); ListSessions 0 true; AttachTarget 0; AcceptPTY 0 0;
   RunEnds 1 (RunExit 3); Mgr (MSession (sessionID 1) (LCloseBegin 0 DetachKeepalive));
   Mgr (MSession (sessionID 1) (LDetach 0 9)); CopyEnds 0 true true; OutputEnds 0 DetachKeepalive;
   ListSessions 2 true].

Lemma handlers_accounted_witness :
  ∃ w, wrun (H := plain_emulator) demo_world (NewServer 5) = Some w ∧
    statuses <$> handlers w = [[255]; [3]; []] ∧
    let r := sessionCount (λ _, []) (λ _, 0) (srv w) (mgr w) 0 in
    PTYConns r = 1 ∧ ExecCount r = 0 ∧ AttachedPTY r + DetachedPTY r = 1.
Proof.
  destruct (wrun (H := plain_emulator) demo_world (NewServer 5)) as [w|] eqn:E;
    [|vm_compute in E; discriminate E].
  exists w. split; [reflexivity|].
  assert (Hw : wreachable 5 w) by (eapply run_steps_reach; [apply reach_start|exact E]).
  pose proof (handlers_accounted (λ _, []) (λ _, 0) 5 w 0 ltac:(lia) Hw) as Hacc.
  vm_compute in E. injection E as <-.
  specialize (Hacc ltac:(vm_compute; reflexivity)). cbv zeta in Hacc.
  destruct Hacc as (H1 & H2 & H3 & _). cbv zeta. rewrite H1, H2, H3. split_and!; vm_compute; reflexivity.
Defined.
