(* ===== verification/SshChannel.v ===== *)
(** * The session channel ([sshd/rawsession.go]; input plumbing of [sshd/server.go])

    The request loop of one SSH session channel.  Requests set up a terminal and
    an environment and then start one handler, which runs concurrently with the
    rest of the loop and reads the same [rawSession]; from then on only window
    changes are accepted, and they travel through a one-slot channel.  Payloads
    are decoded by the SSH library: a request carries its decoded payload, or
    [None] when it does not decode. *)

From S2P Require Import Prelude GoStrings Session.
Open Scope Z_scope.

Record Window := MkWindow { Width : Z; Height : Z }.

Inductive reqBody :=
  | PtyReq (p : option (bytes * Window))        (* TERM and size *)
  | WindowChange (p : option Window)
  | EnvReq (p : option (bytes * bytes))
  | Shell
  | ExecReq (p : option bytes)
  | OtherReq.

Record request := MkRequest { WantReply : bool; body : reqBody }.

(** [winch]: [None] is a nil channel, otherwise its buffered sizes. *)
Record rawSession := MkRaw {
  env : list bytes;
  rawCmd : bytes;
  term : bytes;
  winch : option (list Window);
}.

Definition hasPty (s : rawSession) : bool := match winch s with Some _ => true | None => false end.

Inductive launch := LaunchPTY (win : Window) | LaunchExec.

(** [offered] and [applied] are history: the window changes accepted, and the
    sizes the resize goroutine received. *)
Record loopState := MkLoopState {
  sess : rawSession;
  initialWin : Window;
  dispatched : bool;
  replies : list bool;
  launched : list launch;
  offered : list Window;
  applied : list Window;
}.

Definition initState : loopState := MkLoopState (MkRaw [] [] [] None) (MkWindow 0 0) false [] [] [] [].

Definition replyReq (st : loopState) (r : request) (ok : bool) : loopState :=
  if WantReply r then
    MkLoopState (sess st) (initialWin st) (dispatched st) (replies st ++ [ok]) (launched st)
      (offered st) (applied st)
  else st.

Definition set_sess (st : loopState) (s : rawSession) : loopState :=
  MkLoopState s (initialWin st) (dispatched st) (replies st) (launched st) (offered st) (applied st).

(** Drop a stale size, then enqueue the new one if there is room. *)
Definition coalesce (q : list Window) (w : Window) : list Window :=
  let q1 := drop 1 q in if (length q1 <? 1)%nat then q1 ++ [w] else q1.

Definition dispatch (st : loopState) (cmd : bytes) : loopState :=
  let s := MkRaw (env (sess st)) cmd (term (sess st)) (winch (sess st)) in
  MkLoopState s (initialWin st) true (replies st)
    (launched st ++ [if hasPty s then LaunchPTY (initialWin st) else LaunchExec])
    (offered st) (applied st).

(** One request of [handleSessionChannel]'s loop. *)
Definition handleRequest (st : loopState) (r : request) : loopState :=
  match body r with
  | PtyReq p =>
      if dispatched st || hasPty (sess st) then replyReq st r false
      else match p with
           | None => replyReq st r false
           | Some (t, win) =>
               replyReq (MkLoopState (MkRaw (env (sess st)) (rawCmd (sess st)) t (Some [])) win
                           (dispatched st) (replies st) (launched st) (offered st) (applied st)) r true
           end
  | WindowChange p =>
      match p, winch (sess st) with
      | Some win, Some q =>
          replyReq (MkLoopState (MkRaw (env (sess st)) (rawCmd (sess st)) (term (sess st))
                                   (Some (coalesce q win)))
                      (initialWin st) (dispatched st) (replies st) (launched st)
                      (offered st ++ [win]) (applied st)) r true
      | _, _ => replyReq st r false
      end
  | EnvReq p =>
      if dispatched st then replyReq st r false
      else match p with
           | None => replyReq st r false
           | Some (name, value) =>
               replyReq (set_sess st (MkRaw (env (sess st) ++ [name ++ gs "=" ++ value])
                                        (rawCmd (sess st)) (term (sess st)) (winch (sess st)))) r true
           end
  | Shell => if dispatched st then replyReq st r false
             else replyReq (dispatch st (rawCmd (sess st))) r true
  | ExecReq p =>
      if dispatched st then replyReq st r false
      else match p with
           | None => replyReq st r false
           | Some cmd => replyReq (dispatch st cmd) r true
           end
  | OtherReq => replyReq st r false
  end.

(** The resize goroutine receives a size. *)
Definition takeWindow (st : loopState) : loopState :=
  match winch (sess st) with
  | Some (w :: q) =>
      MkLoopState (MkRaw (env (sess st)) (rawCmd (sess st)) (term (sess st)) (Some q)) (initialWin st)
        (dispatched st) (replies st) (launched st) (offered st) (applied st ++ [w])
  | _ => st
  end.

Inductive event := Req (r : request) | Take.

Definition stepChannel (st : loopState) (e : event) : loopState :=
  match e with Req r => handleRequest st r | Take => takeWindow st end.

Definition runChannel (es : list event) (st : loopState) : loopState := fold_left stepChannel es st.

(** ** Specification *)

(** The requests up to the one that starts the handler. *)
Definition starts (e : event) : bool :=
  match e with
  | Req r => match body r with Shell | ExecReq (Some _) => true | _ => false end
  | Take => false
  end.

Fixpoint beforeStart (es : list event) : list event :=
  match es with
  | [] => []
  | e :: es' => if starts e then [] else e :: beforeStart es'
  end.

(** The variable an event sets. *)
Definition envOf (e : event) : option bytes :=
  match e with
  | Req r => match body r with EnvReq (Some (n, v)) => Some (n ++ gs "=" ++ v) | _ => None end
  | Take => None
  end.

Definition wantsReply (e : event) : bool := match e with Req r => WantReply r | Take => false end.

(** What a handler may read while the loop goes on. *)
Definition shared (st : loopState) : list bytes * bytes * bytes * bool * Window :=
  (env (sess st), rawCmd (sess st), term (sess st), hasPty (sess st), initialWin st).

Definition pendingWin (st : loopState) : list Window := default [] (winch (sess st)).

Record chan_ok (st : loopState) : Prop := {
  ck_launched : if dispatched st then ∃ l, launched st = [l] ∧
                  l = (if hasPty (sess st) then LaunchPTY (initialWin st) else LaunchExec)
                else launched st = [];
  ck_room : (length (pendingWin st) ≤ 1)%nat;
  ck_latest : last (applied st ++ pendingWin st) = last (offered st);
}.

(** Replying changes nothing else. *)
Lemma replyReq_frame st r ok :
  sess (replyReq st r ok) = sess st ∧ initialWin (replyReq st r ok) = initialWin st ∧
  dispatched (replyReq st r ok) = dispatched st ∧ launched (replyReq st r ok) = launched st ∧
  offered (replyReq st r ok) = offered st ∧ applied (replyReq st r ok) = applied st ∧
  replies (replyReq st r ok) = replies st ++ (if WantReply r then [ok] else []).
Proof. unfold replyReq. destruct (WantReply r); by rewrite ?app_nil_r. Qed.

Lemma chan_ok_reply st r ok : chan_ok st → chan_ok (replyReq st r ok).
Proof. intros [? ? ?]. unfold replyReq. destruct (WantReply r); by split. Qed.

Lemma coalesce_one q w : (length q ≤ 1)%nat → coalesce q w = [w].
Proof. destruct q as [|x [|y q]]; cbn; [done..|lia]. Qed.

Lemma chan_ok_dispatch st cmd : chan_ok st → dispatched st = false → chan_ok (dispatch st cmd).
Proof.
  intros [Hl Hr Hw] Hd. rewrite Hd in Hl. split; [|done..]. cbn. rewrite Hl. by eexists.
Qed.

Lemma chan_ok_step st e : chan_ok st → chan_ok (stepChannel st e).
Proof.
  intros Hok. destruct e as [[wr b]|]; cbn [stepChannel].
  - unfold handleRequest. cbn [body].
    destruct b as [p|p|p| |p|]; try (apply chan_ok_reply; done).
    + destruct (dispatched st || hasPty (sess st)) eqn:E; [by apply chan_ok_reply|].
      apply orb_false_iff in E as [Hd Hp]. destruct p as [[t win]|]; apply chan_ok_reply; [|done].
      destruct Hok as [Hl _ Hw]. rewrite Hd in Hl. split; cbn; [by rewrite Hd|lia|].
      unfold pendingWin, hasPty in *. by destruct (winch (sess st)).
    + destruct p as [win|], (winch (sess st)) as [q|] eqn:Hq; apply chan_ok_reply; try done.
      destruct Hok as [Hl Hr Hw]. unfold pendingWin in Hr. rewrite Hq in Hr. cbn in Hr.
      split; unfold pendingWin; cbn; rewrite ?coalesce_one by done; cbn; [|lia|by rewrite !last_snoc].
      unfold hasPty in *. cbn. by rewrite Hq in Hl.
    + destruct (dispatched st); [by apply chan_ok_reply|].
      destruct p as [[n v]|]; apply chan_ok_reply; [|done]. by destruct Hok as [Hl Hr Hw]; split.
    + destruct (dispatched st) eqn:Hd; apply chan_ok_reply; [done|by apply chan_ok_dispatch].
    + destruct (dispatched st) eqn:Hd; [by apply chan_ok_reply|].
      destruct p as [cmd|]; apply chan_ok_reply; [by apply chan_ok_dispatch|done].
  - unfold takeWindow. destruct (winch (sess st)) as [[|w q]|] eqn:Hq; try done.
    destruct Hok as [Hl Hr Hw]. unfold pendingWin in *. rewrite Hq in Hr, Hw. cbn in Hr, Hw.
    split; unfold pendingWin; cbn; [|lia|by rewrite <- app_assoc].
    unfold hasPty in *. cbn. by rewrite Hq in Hl.
Qed.

Lemma chan_ok_run es st : chan_ok st → chan_ok (runChannel es st).
Proof. unfold runChannel. revert st. induction es; cbn; auto using chan_ok_step. Qed.

(** Once the handler has been started, nothing it reads changes any more. *)
Lemma frozen_step st e :
  dispatched st = true → dispatched (stepChannel st e) = true ∧ shared (stepChannel st e) = shared st.
Proof.
  intros Hd. unfold shared. destruct e as [[wr b]|]; cbn [stepChannel].
  - unfold handleRequest. cbn [body].
    destruct b as [p|[win|]|p| |p|]; rewrite ?Hd; cbn [orb];
      try (match goal with |- context [replyReq ?s ?r ?ok] =>
             by destruct (replyReq_frame s r ok) as (-> & -> & -> & _) end).
    destruct (winch (sess st)) as [q|] eqn:Hq;
      match goal with |- context [replyReq ?s ?r ?ok] =>
        destruct (replyReq_frame s r ok) as (-> & -> & -> & _) end; [|done].
    cbn. unfold hasPty. cbn. by rewrite Hq.
  - unfold takeWindow. destruct (winch (sess st)) as [[|w q]|] eqn:Hq; try done.
    cbn. unfold hasPty. cbn. by rewrite Hq.
Qed.

Lemma frozen_run es st :
  dispatched st = true → dispatched (runChannel es st) = true ∧ shared (runChannel es st) = shared st.
Proof.
  revert st. induction es as [|e es IH]; intros st Hd; cbn; [done|].
  destruct (frozen_step st e Hd) as [Hd' Hs]. destruct (IH _ Hd') as [Hd'' Hs']. split; [done|].
  exact (eq_trans Hs' Hs).
Qed.

(** Before that, the environment grows with every variable that is set. *)
Lemma env_step st e :
  dispatched st = false →
  env (sess (stepChannel st e)) = env (sess st) ++ (if starts e then [] else option_list (envOf e)) ∧
  dispatched (stepChannel st e) = starts e.
Proof.
  intros Hd. destruct e as [[wr b]|]; cbn [stepChannel starts envOf].
  - unfold handleRequest. cbn [body].
    destruct b as [p|[win|]|[[n v]|]| |[cmd|]|]; rewrite ?Hd; cbn [orb option_list];
      try (destruct (hasPty (sess st)); [|destruct p as [[t win]|]]);
      try (destruct (winch (sess st)) as [q|] eqn:Hq);
      (match goal with |- context [replyReq ?s ?r ?ok] =>
         destruct (replyReq_frame s r ok) as (-> & _ & -> & _) end);
      cbn; by rewrite ?app_nil_r.
  - unfold takeWindow. rewrite app_nil_r. by destruct (winch (sess st)) as [[|w q]|].
Qed.

Lemma env_run es st :
  dispatched st = false →
  env (sess (runChannel es st)) = env (sess st) ++ omap envOf (beforeStart es).
Proof.
  revert st. induction es as [|e es IH]; intros st Hd; cbn; [by rewrite app_nil_r|].
  destruct (env_step st e Hd) as [He Hs]. destruct (starts e) eqn:Es.
  - destruct (frozen_run es _ Hs) as [_ Hf]. injection Hf as Hf _. unfold runChannel in Hf.
    rewrite Hf, He, !app_nil_r. done.
  - rewrite (IH _ Hs : env (sess (fold_left _ _ _)) = _), He. rewrite <- app_assoc. f_equal.
    cbn. by destruct (envOf e).
Qed.

(** Exactly one reply for every request that wants one. *)
Lemma replies_step st e :
  length (replies (stepChannel st e)) =
  (length (replies st) + (if wantsReply e then 1 else 0))%nat.
Proof.
  destruct e as [[wr b]|]; cbn [stepChannel wantsReply WantReply].
  - unfold handleRequest. cbn [body].
    repeat case_match;
      (match goal with |- context [replyReq ?s ?r ?ok] =>
         destruct (replyReq_frame s r ok) as (_ & _ & _ & _ & _ & _ & ->) end);
      cbn; rewrite length_app; cbn; subst; done.
  - unfold takeWindow. destruct (winch (sess st)) as [[|w q]|]; cbn; lia.
Qed.

Lemma replies_run es st :
  length (replies (runChannel es st)) =
  (length (replies st) + length (filter (λ e, wantsReply e = true) es))%nat.
Proof.
  revert st. induction es as [|e es IH]; intros st; [cbn; lia|].
  change (runChannel (e :: es) st) with (runChannel es (stepChannel st e)).
  rewrite IH, replies_step, filter_cons.
  destruct (wantsReply e); case_decide; try done; cbn [length]; lia.
Qed.

(** The request loop hands every channel to at most one handler, and what
    that handler reads is stable.  After any sequence of requests and resize
    receipts, at most one handler was started, as a terminal exactly when a PTY
    was granted; its environment is the variables set before it started, in
    order; nothing it reads changes afterwards; every request that wants a
    reply gets one; and the newest window size is never lost: it is the last one
    received by the resize goroutine or waiting in the channel. *)
Theorem channel_protocol es es' :
  let st := runChannel es initState in
  let st' := runChannel es' st in
  (if dispatched st
   then launched st = [if hasPty (sess st) then LaunchPTY (initialWin st) else LaunchExec]
   else launched st = []) ∧
  env (sess st) = omap envOf (beforeStart es) ∧
  (dispatched st = true → shared st' = shared st ∧ launched st' = launched st) ∧
  length (replies st) = length (filter (λ e, wantsReply e = true) es) ∧
  last (applied st ++ pendingWin st) = last (offered st).
Proof.
  intros st st'. assert (Hi : chan_ok initState) by (split; cbn; [done|lia|done]).
  pose proof (chan_ok_run es _ Hi) as Hok. fold st in Hok. split_and!.
  - destruct Hok as [Hl _ _]. destruct (dispatched st); [|done]. by destruct Hl as (l & -> & ->).
  - apply (env_run es initState eq_refl).
  - intros Hd. destruct (frozen_run es' st Hd) as [Hd' Hs]. split; [exact Hs|].
    pose proof (ck_launched _ (chan_ok_run es' _ Hok)) as Hl'. fold st' in Hl'.
    pose proof (ck_launched _ Hok) as Hl. rewrite Hd in Hl. unfold st' in *. rewrite Hd' in Hl'.
    destruct Hl as (l & -> & ->), Hl' as (l' & -> & ->). unfold shared in Hs.
    by injection Hs as _ _ _ -> ->.
  - apply (replies_run es initState).
  - apply Hok.
Qed.

(** ** Input plumbing *)

(** [sshInputChannel]: the reader's chunks; [stop] is the chunk at whose send
    [done] was closed, if it was.  Empty reads send nothing. *)
Definition sshInputChannel (reads : list bytes) (stop : option nat) : list bytes :=
  let chunks := filter (λ d, d ≠ []) reads in
  match stop with Some n => take n chunks | None => chunks end.

(** [channelReader]: [ch] are the chunks to come, [closed] whether the channel
    was closed after them. *)
Record channelReader := MkReader { ch : list bytes; closed : bool; buf : bytes; stopped : bool }.

(** [Read] into [n] bytes, from chunks that are never empty; [viaDone] resolves the select when both are ready;
    [None] blocks. *)
Definition readChunk (r : channelReader) (n : nat) (viaDone : bool) : option (option bytes * channelReader) :=
  match buf r with
  | _ :: _ => Some (Some (take n (buf r)), MkReader (ch r) (closed r) (drop n (buf r)) (stopped r))
  | [] =>
      if stopped r && viaDone then Some (None, r)
      else match ch r with
           | data :: q => Some (Some (take n data), MkReader q (closed r) (drop n data) (stopped r))
           | [] => if closed r || stopped r then Some (None, r) else None
           end
  end.

(** Nothing is lost or reordered on the way through the reader. *)
Lemma readChunk_stream r n viaDone p r' :
  readChunk r n viaDone = Some (Some p, r') →
  buf r ++ concat (ch r) = p ++ buf r' ++ concat (ch r').
Proof.
  unfold readChunk. destruct r as [q c b s]. cbn. destruct b as [|x b].
  - destruct (s && viaDone); [done|]. destruct q as [|data q]; [by destruct (c || s)|].
    intros [= <- <-]. cbn. by rewrite app_assoc, take_drop.
  - intros [= <- <-]. cbn. by rewrite app_assoc, take_drop.
Qed.
