(* ===== verification/SshExec.v ===== *)
(** * Running a command over SSH ([sshd/rawsession.go: Stderr, crlfWriter],
      [sshd/server.go: handleExecSession], [ward/cmd/main.go])

    How the server turns an exec request into a process, what it prints when it
    cannot, and how the line endings of its own messages depend on the client's
    terminal.  The counters and the exit status are in [SshServer.v]. *)

From S2P Require Import Prelude GoStrings Session Manager SshServer SshChannel Shell.
Open Scope Z_scope.

(** ** Diagnostics *)

(** [crlfWriter.Write]: what reaches the channel, and the count the caller sees. *)
Definition crlfWrite (writeOk : bool) (p : bytes) : bytes * option Z :=
  if writeOk then (ToCRLF p, Some (Z.of_nat (length p))) else ([], None).

(** What a message on [Stderr] becomes. *)
Definition Stderr (s : rawSession) (p : bytes) : bytes := if hasPty s then (crlfWrite true p).1 else p.

(** A terminal in raw mode gets no bare line feed; without one, and for text that
    has its carriage returns, nothing is changed. *)
Lemma Stderr_spec s p :
  (hasPty s = true → ∀ i, Stderr s p !! i = Some LF → ∃ j, i = S j ∧ Stderr s p !! j = Some CR) ∧
  (hasPty s = false → Stderr s p = p) ∧
  Stderr s (Stderr s p) = Stderr s p.
Proof.
  destruct (ToCRLF_spec p) as (Hlf & Hid & _). unfold Stderr.
  destruct (hasPty s); cbn; split_and!; try done.
Qed.

(** ** The process *)

Record process := MkProcess { path : bytes; args : list bytes; penv : list bytes }.

(** [shell] is $SHELL, [environ] the daemon's environment. *)
Definition execProcess (shell : bytes) (environ : list bytes) (s : rawSession) : process :=
  MkProcess (userShell shell) [gs "-c"; rawCmd s] (MergeEnv environ (env s)).

Inductive execEnd := EndOk | EndExit (code : Z) | EndFailed (message : bytes).

(** What is started, what the server prints itself, and the status it sends; the
    output of the command is the command's own. *)
Definition handleExecSession (shell : bytes) (environ : list bytes) (s : rawSession) (pipe : option bytes)
    (r : execEnd) : option process * bytes * Z :=
  if bool_decide (rawCmd s = []) then (None, Stderr s (gs "no command specified" ++ [LF]), 1)
  else match pipe with
       | Some message => (None, Stderr s (gs "stdin pipe: " ++ message ++ [LF]), 1)
       | None =>
           let p := execProcess shell environ s in
           match r with
           | EndOk => (Some p, [], 0)
           | EndExit code => (Some p, [], code)
           | EndFailed message => (Some p, Stderr s (gs "failed to run command: " ++ message ++ [LF]), 1)
           end
       end.

(** An exec request without a PTY starts the handler with the command of the
    request, in the environment the client has set so far. *)
Lemma exec_request st cmd reply :
  dispatched st = false → hasPty (sess st) = false →
  let st' := handleRequest st (MkRequest reply (ExecReq (Some cmd))) in
  launched st' = launched st ++ [LaunchExec] ∧ rawCmd (sess st') = cmd ∧ env (sess st') = env (sess st) ∧
  hasPty (sess st') = false.
Proof.
  intros Hd Hp. unfold hasPty in *. cbn. rewrite Hd. unfold replyReq, dispatch, hasPty. cbn.
  destruct (winch (sess st)); [done|]. by destruct reply.
Qed.

(** The command line of [vibepit exec] as the server runs it: the login shell or
    /bin/sh gets the quoted arguments as one script, and never the key of the
    server.  Without arguments nothing is run and the client is told so. *)
Lemma exec_of_client st argv shell environ pipe r :
  dispatched st = false → hasPty (sess st) = false →
  let s := sess (handleRequest st (MkRequest true (ExecReq (Some (buildRemoteCommand argv))))) in
  let '(p, text, status) := handleExecSession shell environ s pipe r in
  (argv = [] → p = None ∧ text = gs "no command specified" ++ [LF] ∧ status = 1) ∧
  (∀ q, p = Some q → path q = userShell shell ∧ args q = [gs "-c"; buildRemoteCommand argv] ∧
     ∀ v, pubkeyVar ++ gs "=" ++ v ∉ penv q).
Proof.
  intros Hd Hp s. destruct (exec_request st (buildRemoteCommand argv) true Hd Hp) as (_ & Hc & _ & Hn).
  fold s in Hc, Hn. unfold handleExecSession. rewrite Hc. unfold Stderr. rewrite Hn.
  assert (Hk : ∀ v, pubkeyVar ++ gs "=" ++ v ∉ MergeEnv environ (env s)).
  { intros v [Hne _]%MergeEnv_spec; [done|]. apply (bool_decide_unpack _). vm_compute. exact I. }
  case_bool_decide as Hb; [done|].
  assert (Ha : argv ≠ []) by (by intros ->).
  destruct pipe as [m|]; [|destruct r]; (split; [done|]); intros q [= <-]; cbn; by rewrite Hc.
Qed.

(** ** The stand-alone ward command *)

Inductive wardEnd := WardUsage | WardFailed | WardExits (code : Z).

(** [run]: the exit code of [ward.Run], or its error. *)
Definition wardCommand (argv : list bytes) (run : option Z) : wardEnd :=
  match argv with
  | [] => WardUsage
  | _ => match run with None => WardFailed | Some code => WardExits code end
  end.

(** The argument of [os.Exit]. *)
Definition wardMain (e : wardEnd) : Z := match e with WardUsage | WardFailed => 1 | WardExits code => code end.
