(* ===== verification/Keepalive.v ===== *)
(** * Keepalives ([sshd/server.go]: the keepalive goroutine of [handlePTYSession],
      and [execKeepalive])

    Every two seconds the server sends a request to the terminal's client and
    waits up to three seconds for the reply.  Time is in nanoseconds since the
    ticker was started; [answer t] is what becomes of a request sent at [t]: a
    reply after some time, which may be an error, or nothing. *)

From S2P Require Import Prelude GoStrings GoTime Session.
Open Scope Z_scope.

Definition tickPeriod : Z := 2 * Second.
Definition replyTimeout : Z := 3 * Second.

Section keepalive.
Context (answer : Z → option (Z * bool)).
(** When the connection's context is cancelled, if ever. *)
Context (ctxDone : option Z).

Definition cancelledBy (t : Z) : bool := match ctxDone with Some c => c <=? t | None => false end.

(** The end of one request: when, and with which close of the client, if any.
    Of several events the earliest one wins. *)
Inductive roundEnd := Replied (at_ : Z) | Closed (at_ : Z) (reason : DetachReason).

Definition round (t : Z) : roundEnd :=
  let reply := match answer t with
               | Some (d, ok) => if d <=? replyTimeout then Some (t + d, ok) else None
               | None => None
               end in
  let until := match reply with Some (r, _) => r | None => t + replyTimeout end in
  if cancelledBy until then Closed (Z.max t (default until ctxDone)) DetachDisconnect
  else match reply with
       | Some (r, true) => Replied r
       | Some (r, false) => Closed r DetachKeepalive
       | None => Closed until DetachKeepalive
       end.

(** When the next tick is received by a loop that is back in its [select] at
    time [now], having taken a tick at [t]: a tick that fired meanwhile is
    waiting in the ticker's channel, which has room for one. *)
Definition nextTick (t now : Z) : Z :=
  if now / tickPeriod =? t / tickPeriod then (t / tickPeriod + 1) * tickPeriod else now.

(** The goroutine, for at most [fuel] requests: [None] while it is running. *)
Fixpoint keepalive (fuel : nat) (t : Z) : option (Z * DetachReason) :=
  match fuel with
  | O => None
  | S fuel =>
      if cancelledBy t then Some (default t ctxDone, DetachDisconnect)
      else match round t with
           | Closed at_ reason => Some (at_, reason)
           | Replied now => keepalive fuel (nextTick t now)
           end
  end.

(** The first tick comes one period after the start. *)
Definition runKeepalive (fuel : nat) : option (Z * DetachReason) := keepalive fuel tickPeriod.

(** ** Properties *)

Context (delay_nonneg : ∀ t d ok, answer t = Some (d, ok) → 0 ≤ d).

Lemma tickPeriod_pos : 0 < tickPeriod.
Proof. unfold tickPeriod, Second. lia. Qed.

(** Every request belongs to a later tick than the one before. *)
Lemma nextTick_later t now :
  t ≤ now → t / tickPeriod < nextTick t now / tickPeriod ∧ nextTick t now ≤ Z.max now (t + tickPeriod).
Proof.
  intros Hn. pose proof tickPeriod_pos as Hp. unfold nextTick.
  pose proof (Z.div_le_mono t now tickPeriod Hp Hn).
  destruct (Z.eqb_spec (now / tickPeriod) (t / tickPeriod)) as [E|E].
  - rewrite Z.div_mul by lia. pose proof (Z.mul_div_le t tickPeriod Hp). lia.
  - lia.
Qed.

Lemma round_replied t now : round t = Replied now → t ≤ now ∧ answer t = Some (now - t, true).
Proof.
  unfold round. destruct (answer t) as [[d ok]|] eqn:Ha; repeat case_match; intros; simplify_eq.
  pose proof (delay_nonneg _ _ _ Ha). split; [lia|]. do 2 f_equal. lia.
Qed.

Lemma round_keepalive t at_ :
  round t = Closed at_ DetachKeepalive →
  t ≤ at_ ∧ (answer t = Some (at_ - t, false) ∨
             at_ = t + replyTimeout ∧ ∀ d ok, answer t = Some (d, ok) → replyTimeout < d).
Proof.
  unfold round, replyTimeout, Second. destruct (answer t) as [[d ok]|] eqn:Ha;
    repeat case_match; intros; simplify_eq; breflect.
  - pose proof (delay_nonneg _ _ _ Ha). split; [lia|]. left. do 2 f_equal. lia.
  - split; [lia|]. right. split; [done|]. intros d' ok' [= <- <-]. lia.
  - split; [lia|]. right. by split.
Qed.

Lemma keepalive_sound fuel t at_ :
  keepalive fuel t = Some (at_, DetachKeepalive) →
  ∃ s, t ≤ s ≤ at_ ∧
    (answer s = Some (at_ - s, false) ∨
     at_ = s + replyTimeout ∧ ∀ d ok, answer s = Some (d, ok) → replyTimeout < d).
Proof.
  revert t. induction fuel as [|fuel IH]; intros t; cbn [keepalive]; [done|].
  destruct (cancelledBy t); [done|]. destruct (round t) as [now|a r] eqn:Hr.
  - intros (s & Hs & Ha)%IH. exists s. split; [|done].
    destruct (round_replied t now Hr) as [Hn _]. pose proof tickPeriod_pos as Hp.
    destruct (nextTick_later t now Hn) as [Hl _].
    assert (t ≤ nextTick t now); [|lia].
    apply Z.lt_le_incl, Z.lt_nge. intros Hle. pose proof (Z.div_le_mono _ _ tickPeriod Hp Hle). lia.
  - intros [= -> ->]. destruct (round_keepalive t at_ Hr) as [Hle H]. by exists t.
Qed.

(** Closing, for whatever reason, does not take longer than one reply timeout
    after the request. *)
Lemma round_bound t :
  match round t with
  | Closed at_ _ => at_ ≤ t + replyTimeout
  | Replied now => now ≤ t + replyTimeout
  end.
Proof.
  unfold round, cancelledBy, replyTimeout, Second.
  destruct (answer t) as [[d ok]|] eqn:Ha, ctxDone as [c|]; cbn [default];
    repeat case_match; breflect; simplify_eq; try lia.
  all: pose proof (delay_nonneg _ _ _ Ha); lia.
Qed.

(** From [dead] on the client answers nothing and no reply is under way. *)
Definition deadFrom (dead : Z) : Prop :=
  (∀ t, dead ≤ t → answer t = None) ∧ (∀ t d ok, answer t = Some (d, ok) → t + d ≤ dead).

Lemma keepalive_detects dead t (n : nat) :
  deadFrom dead → t ≤ dead + tickPeriod → dead / tickPeriod + 1 - t / tickPeriod < Z.of_nat n →
  ∃ at_ reason, keepalive n t = Some (at_, reason) ∧ at_ ≤ dead + tickPeriod + replyTimeout.
Proof.
  intros [Hdead Hlate]. revert t. induction n as [|n IH]; intros t Ht Hn.
  { exfalso. pose proof (Z.div_le_mono t (dead + tickPeriod) tickPeriod tickPeriod_pos Ht) as Hd.
    replace (dead + tickPeriod) with (dead + 1 * tickPeriod) in Hd by lia.
    rewrite Z.div_add in Hd by (pose proof tickPeriod_pos; lia). lia. }
  cbn [keepalive]. destruct (cancelledBy t) eqn:Hc.
  - unfold cancelledBy in Hc. destruct ctxDone as [c|]; [|done]. breflect. eexists _, _. split; [done|].
    cbn. unfold replyTimeout, Second. lia.
  - pose proof (round_bound t) as Hb. destruct (round t) as [now|a r] eqn:Hr.
    + destruct (round_replied t now Hr) as [Hle Ha]. pose proof (Hlate _ _ _ Ha).
      destruct (decide (dead ≤ t)) as [Hd|Hd]; [by rewrite Hdead in Ha|].
      destruct (nextTick_later t now Hle) as [Hl Hu]. pose proof tickPeriod_pos. apply IH; lia.
    + eexists _, _. split; [done|]. lia.
Qed.
End keepalive.

(** C39: a dead connection is noticed, a live one is left alone.  A client is closed
    as lost only when a keepalive request failed, or got no reply for three
    seconds; and when the client is dead from some moment on, its terminal is
    detached at most five seconds later. *)
Theorem keepalive_exact answer ctxDone :
  (∀ t d ok, answer t = Some (d, ok) → 0 ≤ d) →
  (∀ fuel at_, runKeepalive answer ctxDone fuel = Some (at_, DetachKeepalive) →
     ∃ s, tickPeriod ≤ s ≤ at_ ∧
       (answer s = Some (at_ - s, false) ∨
        at_ = s + replyTimeout ∧ ∀ d ok, answer s = Some (d, ok) → replyTimeout < d)) ∧
  (∀ dead, 0 ≤ dead → deadFrom answer dead →
     ∃ fuel at_ reason, runKeepalive answer ctxDone fuel = Some (at_, reason) ∧ at_ ≤ dead + 5 * Second).
Proof.
  intros Hd. split; [intros; by eapply keepalive_sound|]. intros dead H0 Hdead.
  destruct (keepalive_detects answer ctxDone Hd dead tickPeriod (Z.to_nat (dead / tickPeriod + 2)) Hdead)
    as (at_ & reason & Hk & Hb).
  - lia.
  - rewrite Z2Nat.id by (pose proof (Z.div_pos dead tickPeriod H0 tickPeriod_pos); lia).
    rewrite Z.div_same by (pose proof tickPeriod_pos; lia). lia.
  - exists (Z.to_nat (dead / tickPeriod + 2)), at_, reason. split; [done|].
    unfold tickPeriod, replyTimeout in Hb. lia.
Qed.

Lemma keepalive_exact_witness :
  let answer t := if t <=? 3 * Second then Some (Second, true) else None in
  ∃ fuel at_ reason, runKeepalive answer None fuel = Some (at_, reason) ∧ at_ ≤ 4 * Second + 5 * Second.
Proof.
  intros answer. destruct (keepalive_exact answer None) as [_ H].
  - intros t d ok. unfold answer. destruct (t <=? 3 * Second); [|discriminate].
    intros [= <- _]. unfold Second. lia.
  - destruct (H (4 * Second)) as (fuel & at_ & reason & Hk & Hb).
    + unfold Second. lia.
    + unfold deadFrom, answer. split.
      * intros t Ht. destruct (Z.leb_spec t (3 * Second)); [|reflexivity]. unfold Second in *. lia.
      * intros t d ok. destruct (Z.leb_spec t (3 * Second)); [|discriminate].
        intros [= <- _]. unfold Second in *. lia.
    + exists fuel, at_, reason. split; [exact Hk|exact Hb].
Defined.

(** ** Silent commands ([execKeepalive])

    A request without reply is written at every tick; a write moves the
    connection's idle deadline. *)
Definition execKeepaliveInterval : Z := 30 * Second.
Definition idleConnectionTimeout : Z := 2 * Minute.

(** The last write of [execKeepalive] at or before [now]; the handshake is at 0. *)
Definition lastKeepalive (now : Z) : Z := now / execKeepaliveInterval * execKeepaliveInterval.

(** While the command runs, however silently, the deadline is always at least
    ninety seconds away. *)
Lemma exec_never_idle now :
  0 ≤ now → now + 90 * Second < lastKeepalive now + idleConnectionTimeout.
Proof.
  intros Hn. unfold lastKeepalive.
  assert (Hp : 0 < execKeepaliveInterval) by (unfold execKeepaliveInterval, Second; lia).
  pose proof (Z.mod_pos_bound now execKeepaliveInterval Hp).
  pose proof (Z.div_mod now execKeepaliveInterval ltac:(lia)).
  unfold idleConnectionTimeout, Minute. unfold execKeepaliveInterval in *. lia.
Qed.
