(* ===== verification/Forward.v ===== *)
(** * The SSH forwarder ([proxy/server.go]: [runSSHForwarder], [forwardTCP])

    The proxy container accepts TCP connections and relays each of them to the
    SSH server of the sandbox: one goroutine copies each direction, the one
    towards the sandbox half-closes it at the end, and when both are done both
    connections are closed.  A direction is modelled with the stream its source
    has sent; the two copiers, the two peers and the waiting handler interleave
    freely. *)

From S2P Require Import Prelude GoStrings.
Open Scope nat_scope.

Abbreviation bytes := gostring.

(** [io.Copy] in one direction: reading, or writing what it has read; then
    [tc.CloseWrite] where there is one; then [done]. *)
Inductive copying := Reading | Writing (buf : bytes) | Returned | Done.

Record flow := MkFlow {
  sent : bytes;      (* by the source, so far *)
  fin : bool;        (* the source has closed its side *)
  unread : bytes;    (* sent and not yet read by the copier *)
  state : copying;
  delivered : bytes; (* accepted by the destination *)
  failed : bool;     (* a read or a write of this direction failed *)
  shut : bool;       (* the destination was told that nothing more comes *)
}.

Definition flow0 : flow := MkFlow [] false [] Reading [] false false.

Inductive flabel :=
  | FSend (data : bytes) | FFin
  | FRead (n : nat) | FEof | FReadErr
  | FWrite | FWriteErr (n : nat)
  | FCloseWrite | FDone.

Definition set_state (f : flow) (st : copying) (failed' : bool) : flow :=
  MkFlow (sent f) (fin f) (unread f) st (delivered f) failed' (shut f).

(** [half]: whether the direction half-closes its destination when it is over. *)
Definition fstep (half : bool) (l : flabel) (f : flow) : option flow :=
  match l, state f with
  | FSend data, st =>
      if fin f then None
      else Some (MkFlow (sent f ++ data) false (unread f ++ data) st (delivered f) (failed f) (shut f))
  | FFin, st => Some (MkFlow (sent f) true (unread f) st (delivered f) (failed f) (shut f))
  | FRead n, Reading =>
      if (0 <? n)%nat && (n <=? length (unread f))%nat then
        Some (MkFlow (sent f) (fin f) (drop n (unread f)) (Writing (take n (unread f)))
                (delivered f) (failed f) (shut f))
      else None
  | FEof, Reading =>
      if fin f && bool_decide (unread f = []) then Some (set_state f Returned (failed f)) else None
  | FReadErr, Reading => Some (set_state f Returned true)
  | FWrite, Writing buf =>
      Some (MkFlow (sent f) (fin f) (unread f) Reading (delivered f ++ buf) (failed f) (shut f))
  | FWriteErr n, Writing buf =>
      Some (MkFlow (sent f) (fin f) (unread f) Returned (delivered f ++ take n buf) true (shut f))
  | FCloseWrite, Returned =>
      if half then Some (MkFlow (sent f) (fin f) (unread f) Done (delivered f) (failed f) true) else None
  | FDone, Returned => if half then None else Some (set_state f Done (failed f))
  | _, _ => None
  end.

(** The handler dials the sandbox, relays, and returns, which closes both
    connections; the client may send before the dial has succeeded. *)
Inductive phase := Dialing | Relaying | Closed.

Record relay := MkRelay { toTarget : flow; toClient : flow; at_ : phase }.

Definition relay0 : relay := MkRelay flow0 flow0 Dialing.

Inductive rlabel := RTarget (l : flabel) | RClient (l : flabel) | RDial (ok : bool) | RReturn.

Definition isDone (f : flow) : bool := match state f with Done => true | _ => false end.

(** Moves of the source, not of the copier. *)
Definition isPeer (l : flabel) : bool := match l with FSend _ | FFin => true | _ => false end.

Definition forwardTCP (l : rlabel) (r : relay) : option relay :=
  match l, at_ r with
  | RTarget l, Dialing =>
      if isPeer l then f ← fstep true l (toTarget r); Some (MkRelay f (toClient r) Dialing) else None
  | RTarget l, Relaying => f ← fstep true l (toTarget r); Some (MkRelay f (toClient r) Relaying)
  | RClient l, Relaying => f ← fstep false l (toClient r); Some (MkRelay (toTarget r) f Relaying)
  | RDial ok, Dialing => Some (MkRelay (toTarget r) (toClient r) (if ok then Relaying else Closed))
  | RReturn, Relaying =>
      if isDone (toTarget r) && isDone (toClient r) then Some (MkRelay (toTarget r) (toClient r) Closed)
      else None
  | _, _ => None
  end.

Notation rreach := (reach_from forwardTCP relay0).
Notation rrun := (run_steps forwardTCP).

(** [runSSHForwarder]: the connections accepted so far, each with its own
    goroutine; [None] when [Accept] failed, which ends the loop (and the
    server), not the connections. *)
Record forwarder := MkForwarder { conns : list relay; accepting : bool }.

Inductive alabel := Accept (ok : bool) | Conn (i : nat) (l : rlabel).

Definition runSSHForwarder (l : alabel) (f : forwarder) : option forwarder :=
  match l with
  | Accept ok =>
      if accepting f then Some (if ok then MkForwarder (conns f ++ [relay0]) true
                                else MkForwarder (conns f) false) else None
  | Conn i l => r ← conns f !! i; r' ← forwardTCP l r; Some (MkForwarder (<[i := r']> (conns f)) (accepting f))
  end.

(** ** Properties *)

Definition buffered (f : flow) : bytes := match state f with Writing buf => buf | _ => [] end.

(** Whether [io.Copy] has returned. *)
Definition isOver (f : flow) : bool := match state f with Returned | Done => true | _ => false end.

Record flow_ok (half : bool) (f : flow) : Prop := {
  fo_live : isOver f = false → failed f = false ∧ sent f = delivered f ++ buffered f ++ unread f;
  fo_over : isOver f = true → failed f = false → fin f = true ∧ delivered f = sent f;
  fo_prefix : delivered f `prefix_of` sent f;
  fo_shut : shut f = half && isDone f;
}.

Lemma flow_ok_init half : flow_ok half flow0.
Proof. split; cbn; [done..|by exists []|by destruct half]. Qed.

Lemma flow_ok_step half l f f' : flow_ok half f → fstep half l f = Some f' → flow_ok half f'.
Proof.
  intros [Hlive Hover [k Hpre] Hshut] Hs.
  unfold fstep, set_state in Hs. unfold isOver, isDone, buffered in *.
  destruct f as [se fi un st de fa sh]; cbn [sent fin unread state delivered failed shut] in *.
  destruct st as [|buf| |].
  1, 2: destruct (Hlive eq_refl) as [-> Hlive']; clear Hlive.
  all: destruct l; repeat (case_match; breflect); simplify_eq; split; cbn; try done.
  all: try (by intros; rewrite ?app_nil_r, <- ?app_assoc, ?take_drop).
  all: try (by destruct half).
  all: try (intros Ho Hf; destruct (Hover Ho Hf); naive_solver).
  all: rewrite <- ?app_assoc; try (by eexists).
  - by exists un; rewrite <- app_assoc.
  - exists (drop n buf ++ un). by rewrite <- app_assoc, (app_assoc (take n buf)), take_drop.
Qed.

(** What the phases guarantee on top. *)
Definition phase_ok (r : relay) : Prop :=
  match at_ r with
  | Dialing => toClient r = flow0 ∧ delivered (toTarget r) = []
  | Relaying => True
  | Closed => (toClient r = flow0 ∧ delivered (toTarget r) = []) ∨
              (isDone (toTarget r) = true ∧ isDone (toClient r) = true)
  end.

Lemma peer_delivers_nothing half l f f' :
  isPeer l = true → fstep half l f = Some f' → delivered f' = delivered f.
Proof. destruct l; try done; intros _; cbn; [destruct (fin f)|]; by intros [= <-]. Qed.

Lemma relay_ok_reach r :
  rreach r → flow_ok true (toTarget r) ∧ flow_ok false (toClient r) ∧ phase_ok r.
Proof.
  induction 1 as [|l r r' _ (Ht & Hc & Hp) Hs].
  { split_and!; [apply flow_ok_init..|done]. }
  unfold forwardTCP in Hs. unfold phase_ok in *.
  destruct l as [l|l|ok|], (at_ r); repeat (case_match; breflect); try done;
    try (apply bind_Some in Hs as (f & Hf & Hs)); simplify_eq/=; split_and!; eauto using flow_ok_step.
  - apply Hp.
  - erewrite peer_delivers_nothing by done. apply Hp.
Qed.

(** A direction whose source has closed can always be completed. *)
Notation frun half := (run_steps (fstep half)).

Lemma flow_finishes half f :
  fin f = true → ∃ ls f', frun half ls f = Some f' ∧ isDone f' = true.
Proof.
  intros Hf. destruct f as [se fi un st de fa sh]. cbn in Hf. subst fi.
  set (last := if half then FCloseWrite else FDone).
  assert (Hdone : ∀ un de, ∃ f', frun half (match un : bytes with [] => [FEof; last] | _ => [FRead (length un); FWrite; FEof; last] end)
            (MkFlow se true un Reading de fa sh) = Some f' ∧ isDone f' = true).
  { intros un' de'. unfold last. destruct un' as [|c un'].
    - destruct half; eexists; (split; [reflexivity|done]).
    - cbn -[Nat.leb drop]. rewrite Nat.leb_refl. cbn. rewrite firstn_all, drop_all. cbn.
      destruct half; eexists; (split; [reflexivity|done]). }
  destruct st as [|buf| |].
  - destruct (Hdone un de) as (f' & ? & ?). by eexists _, f'.
  - destruct (Hdone un (de ++ buf)) as (f' & Hr & ?). eexists (FWrite :: _), f'.
    split; [exact Hr|done].
  - unfold last in *. exists [last], (MkFlow se true un Done de fa (sh || half)).
    unfold last. by destruct half, sh.
  - by exists [], (MkFlow se true un Done de fa sh).
Qed.

Lemma rrun_target ls r f :
  at_ r = Relaying → frun true ls (toTarget r) = Some f →
  rrun (RTarget <$> ls) r = Some (MkRelay f (toClient r) Relaying).
Proof.
  revert r. induction ls as [|l ls IH]; intros r Hp; cbn.
  - intros [= <-]. destruct r; cbn in *. by subst.
  - rewrite Hp. destruct (fstep true l (toTarget r)) as [f1|]; [|done]. cbn. intros Hf.
    by rewrite (IH (MkRelay f1 (toClient r) Relaying)).
Qed.

Lemma rrun_client ls r f :
  at_ r = Relaying → frun false ls (toClient r) = Some f →
  rrun (RClient <$> ls) r = Some (MkRelay (toTarget r) f Relaying).
Proof.
  revert r. induction ls as [|l ls IH]; intros r Hp; cbn.
  - intros [= <-]. destruct r; cbn in *. by subst.
  - rewrite Hp. destruct (fstep false l (toClient r)) as [f1|]; [|done]. cbn. intros Hf.
    by rewrite (IH (MkRelay (toTarget r) f1 Relaying)).
Qed.

Lemma relay_finishes r :
  at_ r = Relaying → fin (toTarget r) = true → fin (toClient r) = true →
  ∃ ls r', rrun ls r = Some r' ∧ at_ r' = Closed.
Proof.
  intros Hp Ht Hc. destruct (flow_finishes true _ Ht) as (ls & f & Hls & Hf).
  destruct (flow_finishes false _ Hc) as (ks & g & Hks & Hg).
  exists ((RTarget <$> ls) ++ (RClient <$> ks) ++ [RReturn]), (MkRelay f g Closed). split; [|done].
  rewrite run_steps_app, (rrun_target ls r f Hp Hls). cbn [mbind option_bind].
  rewrite run_steps_app, (rrun_client ks (MkRelay f (toClient r) Relaying) g eq_refl Hks).
  cbn. by rewrite Hf, Hg.
Qed.

(** C31: the forwarder is a faithful relay.  Whatever the interleaving, each
    side has received a prefix of what the other has sent; the sandbox is told
    that the client has finished only after it got everything the client sent,
    unless a read or a write of that direction failed; and the connections are closed only when the dial failed and nothing went
    either way, or when both directions are over, each of which then delivered
    the whole stream of a source that had closed its side, unless a read or a
    write failed.  The client is never told that the sandbox has finished: its
    connection stays open until it closes its own side; once both have, the relay
    can always finish. *)
Theorem relay_faithful r :
  rreach r →
  delivered (toTarget r) `prefix_of` sent (toTarget r) ∧
  delivered (toClient r) `prefix_of` sent (toClient r) ∧
  (shut (toTarget r) = true → failed (toTarget r) = false →
     fin (toTarget r) = true ∧ delivered (toTarget r) = sent (toTarget r)) ∧
  (at_ r = Closed →
     (delivered (toTarget r) = [] ∧ toClient r = flow0) ∨
     (∀ f, f ∈ [toTarget r; toClient r] → failed f = false → fin f = true ∧ delivered f = sent f)) ∧
  shut (toClient r) = false ∧
  (at_ r = Relaying → fin (toTarget r) = true → fin (toClient r) = true →
     ∃ ls r', rrun ls r = Some r' ∧ at_ r' = Closed).
Proof.
  intros Hr. destruct (relay_ok_reach r Hr) as ([_ Hot Hpt Hst] & [_ Hoc Hpc Hsc] & Hp).
  assert (Hd : ∀ f, isDone f = true → isOver f = true).
  { intros f. unfold isDone, isOver. by destruct (state f). }
  unfold phase_ok in Hp. split_and!; [done..| | | |].
  - rewrite Hst. intros Hdone. apply Hot. by apply Hd.
  - intros Hcl. rewrite Hcl in Hp. destruct Hp as [[? ?]|[Ht Hc]]; [by left|right].
    intros f [->|[->|[]%not_elem_of_nil]%elem_of_cons]%elem_of_cons; [by apply Hot, Hd|by apply Hoc, Hd].
  - done.
  - apply relay_finishes.
Qed.

(** A client that sends a request and closes its side gets the whole answer. *)
Definition demo_relay : list rlabel :=
  [RTarget (FSend (gs "SSH-2.0 client")); RDial true; RTarget (FRead 14); RTarget FWrite; RTarget FFin;
   RTarget FEof; RTarget FCloseWrite; RClient (FSend (gs "SSH-2.0 ")); RClient (FRead 8);
   RClient (FSend (gs "server")); RClient FFin; RClient FWrite; RClient (FRead 6); RClient FWrite;
   RClient FEof; RClient FDone; RReturn].

Lemma relay_faithful_witness :
  ∃ r, rrun demo_relay relay0 = Some r ∧ at_ r = Closed ∧ shut (toTarget r) = true ∧
    delivered (toTarget r) = gs "SSH-2.0 client" ∧ delivered (toClient r) = gs "SSH-2.0 server".
Proof.
  destruct (rrun demo_relay relay0) as [r|] eqn:E; [|vm_compute in E; discriminate E].
  pose proof (relay_faithful r (run_steps_reach _ _ _ _ _ (reach_start _ _) E)) as (_ & _ & _ & H & _).
  vm_compute in E. injection E as <-. eexists. split; [reflexivity|].
  destruct (H eq_refl) as [[_ Hd]|Hd]; [discriminate Hd|].
  destruct (Hd _ (list_elem_of_here _ _) eq_refl) as [_ H1].
  destruct (Hd _ (list_elem_of_further _ _ _ (list_elem_of_here _ _)) eq_refl) as [_ H2].
  split_and!; [reflexivity|reflexivity|exact H1|exact H2].
Defined.
