(* ===== verification/TtySession.v ===== *)
(** * Attached terminals ([container/terminal.go]; [AttachAndStartSession] and
      [ExecSession] of [container/client.go])

    The terminal is put into raw mode, one goroutine copies the container's
    output to it and one copies the keyboard to the container; the session is
    over when the output is, or when the context is cancelled.  The two copies
    are the flows of [Forward.v]. *)

From S2P Require Import Prelude GoStrings Forward.
Open Scope nat_scope.

(** How [runTTYSession] ended: with the output (and whether its copy failed),
    or with the context's error. *)
Inductive ttyEnd := OutputOver (failed : bool) | Cancelled.

Record ttyState := MkTty {
  keyboard : flow;      (* to the container, half-closed at the end *)
  screen : flow;        (* from the container *)
  raw : bool;           (* the terminal is in raw mode *)
  restored : bool;      (* [restoreOnce] ran in the output goroutine *)
  drained : bool;       (* the first [select] took [inputDone] *)
  ctx : bool;           (* the context is cancelled *)
  ended : option ttyEnd;
}.

Definition tty0 : ttyState := MkTty flow0 flow0 true false false false None.

Inductive tlabel :=
  | TKeyboard (l : flabel)
  | TScreen (l : flabel)
  | TRestore           (* the output goroutine, between its copy and [outputDone] *)
  | TTakeInput | TTakeOutput | TTakeCancel
  | TCancel.

(** The deferred [restoreOnce] runs when the function returns; a goroutine that
    is still running goes on. *)
Definition returns (s : ttyState) (e : ttyEnd) : ttyState :=
  MkTty (keyboard s) (screen s) false (restored s) (drained s) (ctx s) (Some e).

Definition runTTYSession (l : tlabel) (s : ttyState) : option ttyState :=
  match l, ended s with
  | TKeyboard l, e =>
      f ← fstep true l (keyboard s);
      Some (MkTty f (screen s) (raw s) (restored s) (drained s) (ctx s) e)
  | TScreen l, e =>
      match l with
      | FDone => if restored s then
                   f ← fstep false l (screen s);
                   Some (MkTty (keyboard s) f (raw s) (restored s) (drained s) (ctx s) e)
                 else None
      | _ => f ← fstep false l (screen s);
             Some (MkTty (keyboard s) f (raw s) (restored s) (drained s) (ctx s) e)
      end
  | TRestore, e =>
      match state (screen s) with
      | Returned => Some (MkTty (keyboard s) (screen s) false true (drained s) (ctx s) e)
      | _ => None
      end
  | TTakeInput, None =>
      if isDone (keyboard s) && negb (drained s)
      then Some (MkTty (keyboard s) (screen s) (raw s) (restored s) true (ctx s) None) else None
  | TTakeOutput, None =>
      if isDone (screen s) then Some (returns s (OutputOver (failed (screen s)))) else None
  | TTakeCancel, None => if ctx s then Some (returns s Cancelled) else None
  | TCancel, e => Some (MkTty (keyboard s) (screen s) (raw s) (restored s) (drained s) true e)
  | _, _ => None
  end.

Notation trun := (run_steps runTTYSession).
Notation treach := (reach_from runTTYSession tty0).

(** [watchResizeSignals] and the first resize: at most five attempts, the first
    that reads a size is passed on; then one resize for each signal that reads
    one. *)
Fixpoint firstResize (attempts : nat) (sizes : list (option (nat * nat))) : option (nat * nat) :=
  match attempts, sizes with
  | S n, Some hw :: _ => Some hw
  | S n, None :: sizes => firstResize n sizes
  | _, _ => None
  end.

Definition resizes (sizes : list (option (nat * nat))) (signals : list (option (nat * nat))) : list (nat * nat) :=
  option_list (firstResize 5 sizes) ++ omap id signals.

(** ** The callers *)

Inductive attachErr := AttachFailed | StartFailed | CreateFailed | TtyFailed | WaitFailed | ExitError (code : Z) | CtxErr.

(** What [ContainerWait], registered before the start, delivers. *)
Inductive waitEnd := WaitStatus (code : Z) | WaitErr | WaitCancelled.

Definition exitOf (code : Z) : option attachErr := if (code =? 0)%Z then None else Some (ExitError code).

Definition ofTty (e : ttyEnd) : option attachErr :=
  match e with OutputOver false => None | OutputOver true => Some TtyFailed | Cancelled => Some CtxErr end.

Definition AttachAndStartSession (attached started : bool) (tty : option ttyEnd) (wait : waitEnd) : option attachErr :=
  if negb attached then Some AttachFailed
  else if negb started then Some StartFailed
  else match tty with
       | None => Some TtyFailed            (* the terminal cannot be made raw *)
       | Some e => match ofTty e with
                   | Some err => Some err
                   | None => match wait with
                             | WaitStatus code => exitOf code
                             | WaitErr => Some WaitFailed
                             | WaitCancelled => Some CtxErr
                             end
                   end
       end.

(** [inspect]: the exit code of the exec process, [None] when it cannot be read. *)
Definition ExecSession (created attached : bool) (tty : option ttyEnd) (inspect : option Z) : option attachErr :=
  if negb created then Some CreateFailed
  else if negb attached then Some AttachFailed
  else match tty with
       | None => Some TtyFailed
       | Some e => match ofTty e with
                   | Some err => Some err
                   | None => match inspect with Some code => exitOf code | None => Some WaitFailed end
                   end
       end.

(** ** Properties *)

Record tty_ok (s : ttyState) : Prop := {
  to_keyboard : flow_ok true (keyboard s);
  to_screen : flow_ok false (screen s);
  to_raw : raw s = true ↔ restored s = false ∧ ended s = None;
  to_restored : restored s = true → isOver (screen s) = true;
  to_done : isDone (screen s) = true → restored s = true;
  to_ended : match ended s with
             | Some (OutputOver f) => isDone (screen s) = true ∧ f = failed (screen s)
             | Some Cancelled => ctx s = true
             | None => True
             end;
}.

(** A copy that has returned stays so, with the same outcome. *)
Lemma fstep_over half l f f' :
  fstep half l f = Some f' → isOver f = true →
  isOver f' = true ∧ failed f' = failed f ∧ (isDone f = true → isDone f' = true).
Proof.
  unfold fstep, isOver, isDone, set_state. destruct f as [se fi un st de fa sh]. cbn.
  destruct l, st; intros; repeat case_match; simplify_eq/=; done.
Qed.

Lemma fstep_done_label half l f f' :
  fstep half l f = Some f' → isDone f = false → isDone f' = true → half = false → l = FDone.
Proof.
  unfold fstep, isDone, set_state. destruct f as [se fi un st de fa sh]. cbn.
  destruct l, st; intros; repeat case_match; simplify_eq/=; done.
Qed.

Lemma isDone_over f : isDone f = true → isOver f = true.
Proof. unfold isDone, isOver. by destruct (state f). Qed.

Lemma tty_screen_step_ok s l f' :
  tty_ok s → fstep false l (screen s) = Some f' → (l = FDone → restored s = true) →
  tty_ok (MkTty (keyboard s) f' (raw s) (restored s) (drained s) (ctx s) (ended s)).
Proof.
  intros [Hk Hsc Hraw Hres Hdone Hend] Hf Hl. split; cbn; try done.
  - by eapply flow_ok_step.
  - intros Hr. apply (fstep_over _ _ _ _ Hf (Hres Hr)).
  - intros Hd. destruct (isDone (screen s)) eqn:E; [auto|]. apply Hl. by eapply fstep_done_label.
  - destruct (ended s) as [[fa|]|]; try done. destruct Hend as [Hd Hfa].
    destruct (fstep_over _ _ _ _ Hf (isDone_over _ Hd)) as (_ & Hf' & Hd'). split; [auto|congruence].
Qed.

Lemma tty_ok_step l s s' : tty_ok s → runTTYSession l s = Some s' → tty_ok s'.
Proof.
  intros Hok Hs. unfold runTTYSession in Hs.
  destruct l as [l|l| | | | |].
  - apply bind_Some in Hs as (f & Hf & [= <-]). destruct Hok as [Hk Hsc Hraw Hres Hdone Hend].
    split; cbn; try done. by eapply flow_ok_step.
  - assert (Hl : ∃ f, fstep false l (screen s) = Some f ∧ (l = FDone → restored s = true) ∧
                   s' = MkTty (keyboard s) f (raw s) (restored s) (drained s) (ctx s) (ended s)).
    { destruct l; try (apply bind_Some in Hs as (f & Hf & [= <-]); by exists f).
      destruct (restored s); [|done]. apply bind_Some in Hs as (f & Hf & [= <-]). by exists f. }
    destruct Hl as (f & Hf & Hl & ->). by eapply tty_screen_step_ok.
  - destruct (state (screen s)) eqn:E; try done. injection Hs as <-.
    destruct Hok as [Hk Hsc Hraw Hres Hdone Hend]. split; cbn; try done.
    + naive_solver.
    + intros _. unfold isOver. by rewrite E.
  - destruct (ended s) eqn:E; [done|]. destruct (_ && _); [|done]. injection Hs as <-.
    destruct Hok as [Hk Hsc Hraw Hres Hdone Hend]. rewrite E in Hraw, Hend. by split.
  - destruct (ended s) eqn:E; [done|]. destruct (isDone (screen s)) eqn:Ed; [|done]. injection Hs as <-.
    destruct Hok as [Hk Hsc Hraw Hres Hdone Hend]. split; cbn; try done. naive_solver.
  - destruct (ended s) eqn:E; [done|]. destruct (ctx s) eqn:Ec; [|done]. injection Hs as <-.
    destruct Hok as [Hk Hsc Hraw Hres Hdone Hend]. split; cbn; try done. naive_solver.
  - injection Hs as <-. destruct Hok as [Hk Hsc Hraw Hres Hdone Hend]. split; cbn; try done.
    destruct (ended s) as [[]|]; done.
Qed.

Lemma tty_ok_reach s : treach s → tty_ok s.
Proof.
  induction 1 as [|l s s' _ IH Hs]; [|by eapply tty_ok_step].
  split; cbn; try done; apply flow_ok_init.
Qed.

(** C38: the terminal is given back, and with everything on it.  Whenever
    [runTTYSession] has returned, the terminal is out of raw mode; while the
    session and its output go on it is in raw mode.  It returns only when the
    output is over or the context is cancelled, never because the keyboard is;
    a return without an error means that the container closed its output and
    every byte of it was printed; and the container is told that the input has
    ended only after all of it was delivered, unless copying it failed. *)
Theorem tty_session_complete s :
  reach_from runTTYSession tty0 s →
  (ended s ≠ None → raw s = false) ∧
  (ended s = None → isOver (screen s) = false → raw s = true) ∧
  (ended s = Some (OutputOver false) → fin (screen s) = true ∧ delivered (screen s) = sent (screen s)) ∧
  (ended s = Some Cancelled → ctx s = true) ∧
  (shut (keyboard s) = true → failed (keyboard s) = false →
     fin (keyboard s) = true ∧ delivered (keyboard s) = sent (keyboard s)).
Proof.
  intros Hr. destruct (tty_ok_reach s Hr) as [Hk Hsc Hraw Hres Hdone Hend]. split_and!.
  - intros He. destruct (raw s); [|done]. by destruct (proj1 Hraw eq_refl).
  - intros He Ho. apply Hraw. split; [|done]. destruct (restored s); [|done]. by rewrite Hres in Ho.
  - intros He. rewrite He in Hend. destruct Hend as [Hd Hf].
    apply (fo_over _ _ Hsc); [by apply isDone_over|done].
  - intros He. by rewrite He in Hend.
  - intros Hsh. apply (fo_over _ _ Hk). rewrite (fo_shut _ _ Hk) in Hsh. by apply isDone_over.
Qed.

(** A command that prints after the keyboard was closed. *)
Definition demo_tty : list tlabel :=
  [TKeyboard (FSend (gs "make")); TKeyboard FFin; TKeyboard (FRead 4); TKeyboard FWrite; TKeyboard FEof;
   TKeyboard FCloseWrite; TTakeInput; TScreen (FSend (gs "done")); TScreen FFin; TScreen (FRead 4);
   TScreen FWrite; TScreen FEof; TRestore; TScreen FDone; TTakeOutput].

Lemma tty_session_complete_witness :
  ∃ s, trun demo_tty tty0 = Some s ∧ ended s = Some (OutputOver false) ∧ raw s = false ∧
    delivered (screen s) = gs "done" ∧ delivered (keyboard s) = gs "make".
Proof.
  destruct (trun demo_tty tty0) as [s|] eqn:E; [|vm_compute in E; discriminate E].
  destruct (tty_session_complete s (run_steps_reach _ _ _ _ _ (reach_start _ _) E)) as (Hraw & _ & Hout & _ & Hin).
  vm_compute in E. injection E as <-. eexists. split; [reflexivity|]. split; [reflexivity|].
  split; [apply Hraw; discriminate|]. split; [exact (proj2 (Hout eq_refl))|exact (proj2 (Hin eq_refl eq_refl))].
Defined.
