(* ===== verification/WardScan.v ===== *)
(** * Ward's stream scanners ([ward/scanner.go], [ward/osc133.go], and the
    output goroutine of [ward/wrapper.go])

    Two byte-at-a-time state machines over the child's output: [escScanner]
    finds the sequences that damage the notification bar, [OSC133Parser] the
    semantic prompt markers.  Both keep their state between reads, so the way
    the kernel cuts the stream into chunks must not matter. *)

From S2P Require Import Prelude GoStrings.
Open Scope Z_scope.

(** ** The escape scanner *)

Inductive scanState := esGround | esEsc | esCsi | esString | esStringEsc.

#[global] Instance scanState_eq_dec : EqDecision scanState.
Proof. solve_decision. Defined.

Record escScanner := MkScanner {
  state : scanState;
  csiHasParams : bool;
  csiParamByte : Z;      (* byte *)
  csiNumParam : Z;       (* int *)
}.

Record scanResult := MkResult { ScrollReset : bool; BarErased : bool }.

Definition asciiBEL : Z := 0x07.
Definition asciiESC : Z := 0x1B.
Definition csiParamMin : Z := 0x30.
Definition csiParamMax : Z := 0x3F.
Definition csiFinalMin : Z := 0x40.
Definition csiFinalMax : Z := 0x7E.

(** The byte of a character literal. *)
Definition ch (c : ascii) : Z := b2z c.

Definition isAltScreenMode (param : Z) : bool := (param =? 1049) || (param =? 1047) || (param =? 47).

Definition noResult : scanResult := MkResult false false.
Definition merge (a b : scanResult) : scanResult :=
  MkResult (ScrollReset a || ScrollReset b) (BarErased a || BarErased b).

Definition goto (s : escScanner) (st : scanState) : escScanner :=
  MkScanner st (csiHasParams s) (csiParamByte s) (csiNumParam s).

(** What a complete CSI sequence does, from its parameters and final byte. *)
Definition csiEffect (hasParams : bool) (paramByte numParam b : Z) : scanResult :=
  if (b =? ch "r") && negb hasParams then MkResult true false
  else if (b =? ch "J") &&
          (negb hasParams || (paramByte =? ch "0") || (paramByte =? ch "2") || (paramByte =? ch "3"))
  then MkResult false true
  else if ((b =? ch "h") || (b =? ch "l")) && (paramByte =? ch "?") && isAltScreenMode numParam
  then MkResult true false
  else noResult.

(** The body of the loop of [Scan]. *)
Definition scanByte (s : escScanner) (b : Z) : escScanner * scanResult :=
  match state s with
  | esGround => (if b =? asciiESC then goto s esEsc else s, noResult)
  | esEsc =>
      if b =? ch "c" then (goto s esGround, MkResult true false)
      else if b =? ch "[" then (MkScanner esCsi false 0 0, noResult)
      else if (b =? ch "]") || (b =? ch "P") || (b =? ch "^") || (b =? ch "_")
      then (goto s esString, noResult)
      else (goto s esGround, noResult)
  | esCsi =>
      if (csiParamMin <=? b) && (b <=? csiParamMax) then
        let pb := if csiHasParams s then csiParamByte s else b in
        let np := if (pb =? ch "?") && (ch "0" <=? b) && (b <=? ch "9")
                  then wrap_int 64 (csiNumParam s * 10 + (b - ch "0")) else csiNumParam s in
        (MkScanner esCsi true pb np, noResult)
      else if (csiFinalMin <=? b) && (b <=? csiFinalMax) then
        (goto s esGround, csiEffect (csiHasParams s) (csiParamByte s) (csiNumParam s) b)
      else (s, noResult)
  | esString =>
      (if b =? asciiBEL then goto s esGround else if b =? asciiESC then goto s esStringEsc else s,
       noResult)
  | esStringEsc => (goto s esGround, if b =? ch "c" then MkResult true false else noResult)
  end.

Fixpoint Scan (s : escScanner) (data : gostring) : escScanner * scanResult :=
  match data with
  | [] => (s, noResult)
  | c :: data' =>
      let '(s1, r1) := scanByte s (b2z c) in
      let '(s2, r2) := Scan s1 data' in (s2, merge r1 r2)
  end.

Definition InGround (s : escScanner) : bool := bool_decide (state s = esGround).

(** ** The output goroutine *)

Record outState := MkOut {
  scanner : escScanner;
  pendingScrollReset : bool;
  pendingBarErased : bool;
}.

Definition initScanner : escScanner := MkScanner esGround false 0 0.
Definition initOut : outState := MkOut initScanner false false.

(** One read of [data].  [barScrollSeq] and [rendered] ([None] when the bar is
    hidden) are the shared bar state at that time; the result is the chunk as
    written and the repairs injected after it. *)
Definition outputChunk (tty : bool) (barScrollSeq : gostring) (rendered : option gostring)
    (o : outState) (data : gostring) : outState * (gostring * gostring) :=
  let '(s, r) := Scan (scanner o) data in
  let psr := pendingScrollReset o || ScrollReset r in
  let pbe := pendingBarErased o || BarErased r in
  if tty && InGround s then
    let inj := (if psr then barScrollSeq else []) ++
               (if psr || pbe then default [] rendered else []) in
    (MkOut s false false, (data, inj))
  else (MkOut s psr pbe, (data, [])).

(** ** The OSC 133 parser *)

Inductive Event := EventPromptStart | EventCommandStart | EventCommandExecuted
  | EventCommandFinished (exitCode : option Z).

Inductive Zone := ZoneUnknown | ZonePrompt | ZoneInput | ZoneOutput.

Inductive parserState := stateGround | stateEsc | stateOscParam | stateOscEsc.

Definition paramBufCap : nat := 32.

(** [params] is [paramBuf[:paramLen]]. *)
Record OSC133Parser := MkParser { pstate : parserState; zone : Zone; params : gostring }.

Definition NewOSC133Parser : OSC133Parser := MkParser stateGround ZoneUnknown [].

Definition dispatch (z : Zone) (ps : gostring) : Zone * list Event :=
  if (length ps <? 5)%nat || negb (bool_decide (take 4 ps = gs "133;")) then (z, [])
  else
    let cmd := ps !! 4%nat in
    if bool_decide (cmd = Some "A"%char) then (ZonePrompt, [EventPromptStart])
    else if bool_decide (cmd = Some "B"%char) then (ZoneInput, [EventCommandStart])
    else if bool_decide (cmd = Some "C"%char) then (ZoneOutput, [EventCommandExecuted])
    else if bool_decide (cmd = Some "D"%char) then
      let exitCode :=
        if (6 <? length ps)%nat && bool_decide (ps !! 5%nat = Some ";"%char) then
          match ParseInt (drop 6 ps) 32 with Ok code => Some code | Err _ => None end
        else None in
      (ZoneUnknown, [EventCommandFinished exitCode])
    else (z, []).

Definition pushByte (p : OSC133Parser) (c : ascii) : OSC133Parser * list Event :=
  let b := b2z c in
  match pstate p with
  | stateGround => (MkParser (if b =? asciiESC then stateEsc else stateGround) (zone p) (params p), [])
  | stateEsc =>
      if b =? ch "]" then (MkParser stateOscParam (zone p) [], [])
      else (MkParser stateGround (zone p) (params p), [])
  | stateOscParam =>
      if b =? asciiBEL then
        let '(z, evs) := dispatch (zone p) (params p) in (MkParser stateGround z (params p), evs)
      else if b =? asciiESC then (MkParser stateOscEsc (zone p) (params p), [])
      else if (length (params p) <? paramBufCap)%nat
      then (MkParser stateOscParam (zone p) (params p ++ [c]), [])
      else (p, [])
  | stateOscEsc =>
      let '(z, evs) := if b =? ch "\" then dispatch (zone p) (params p) else (zone p, []) in
      (MkParser stateGround z (params p), evs)
  end.

(** [Push]: the events passed to the callback, in order. *)
Fixpoint Push (p : OSC133Parser) (data : gostring) : OSC133Parser * list Event :=
  match data with
  | [] => (p, [])
  | c :: data' =>
      let '(p1, e1) := pushByte p c in
      let '(p2, e2) := Push p1 data' in (p2, e1 ++ e2)
  end.

(** ** Chunks do not matter *)

Lemma merge_assoc a b c : merge a (merge b c) = merge (merge a b) c.
Proof. unfold merge. cbn. by rewrite !orb_assoc. Qed.

Lemma merge_noResult a : merge a noResult = a.
Proof. destruct a. unfold merge. cbn. by rewrite !orb_false_r. Qed.

Lemma noResult_merge a : merge noResult a = a.
Proof. by destruct a. Qed.

Lemma Scan_app s d1 d2 :
  Scan s (d1 ++ d2) =
  let '(s1, r1) := Scan s d1 in let '(s2, r2) := Scan s1 d2 in (s2, merge r1 r2).
Proof.
  revert s. induction d1 as [|c d1 IH]; intros s; cbn.
  - by destruct (Scan s d2) as [s2 [? ?]].
  - destruct (scanByte s (b2z c)) as [s1 r1]. rewrite IH.
    destruct (Scan s1 d1) as [s2 r2]. destruct (Scan s2 d2) as [s3 r3]. by rewrite merge_assoc.
Qed.

Lemma Push_app p d1 d2 :
  Push p (d1 ++ d2) =
  let '(p1, e1) := Push p d1 in let '(p2, e2) := Push p1 d2 in (p2, e1 ++ e2).
Proof.
  revert p. induction d1 as [|c d1 IH]; intros p; cbn.
  - by destruct (Push p d2).
  - destruct (pushByte p c) as [p1 e1]. rewrite IH.
    destruct (Push p1 d1) as [p2 e2]. destruct (Push p2 d2) as [p3 e3]. by rewrite app_assoc.
Qed.

(** ** Escape sequences, declaratively *)

Inductive token :=
  | Text (s : gostring)                              (* no escape *)
  | Ris                                              (* ESC c *)
  | Csi (ps : gostring) (final : ascii)              (* ESC [ numbers final *)
  | CsiPrivate (mode : Z) (final : ascii)            (* ESC [ ? mode final *)
  | Str (intro : ascii) (body : gostring) (bel : bool). (* OSC, DCS, PM, APC *)

Definition ESCc : ascii := "027"%char.
Definition BELc : ascii := "007"%char.

Definition render (t : token) : gostring :=
  match t with
  | Text s => s
  | Ris => [ESCc; "c"%char]
  | Csi ps f => ESCc :: "["%char :: ps ++ [f]
  | CsiPrivate mode f => ESCc :: "["%char :: "?"%char :: Itoa mode ++ [f]
  | Str i body bel => ESCc :: i :: body ++ (if bel then [BELc] else [ESCc; "\"%char])
  end.

Definition isNumeric (c : ascii) : bool := is_digit c || bool_decide (c = ";"%char).
Definition isFinal (c : ascii) : bool := (csiFinalMin <=? b2z c) && (b2z c <=? csiFinalMax).

Definition token_ok (t : token) : Prop :=
  match t with
  | Text s => ESCc ∉ s
  | Ris => True
  | Csi ps f => Forall (λ c, isNumeric c = true) ps ∧ isFinal f = true
  | CsiPrivate mode f => 0 ≤ mode < 2 ^ 63 ∧ isFinal f = true
  | Str i body _ => i ∈ ["]"; "P"; "^"; "_"]%char ∧ ESCc ∉ body ∧ BELc ∉ body
  end.

(** Full reset, margin reset, or a switch of the alternate screen. *)
Definition resets (t : token) : bool :=
  match t with
  | Ris => true
  | Csi ps f => bool_decide (f = "r"%char) && bool_decide (ps = [])
  | CsiPrivate mode f => (bool_decide (f = "h"%char) || bool_decide (f = "l"%char)) && isAltScreenMode mode
  | _ => false
  end.

(** Erase in display, from the cursor on or all of it. *)
Definition erases (t : token) : bool :=
  match t with
  | Csi ps f => bool_decide (f = "J"%char) &&
      match ps with [] => true | c :: _ => bool_decide (c ∈ ["0"; "2"; "3"]%char) end
  | _ => false
  end.

Lemma b2z_eqb c d : (b2z c =? ch d) = bool_decide (c = d).
Proof.
  unfold ch. destruct (Z.eqb_spec (b2z c) (b2z d)) as [E|E].
  - rewrite bool_decide_eq_true_2; [done|]. by apply (inj b2z).
  - rewrite bool_decide_eq_false_2; [done|]. congruence.
Qed.

Lemma b2z_ESC c : (b2z c =? asciiESC) = bool_decide (c = ESCc).
Proof. apply (b2z_eqb c ESCc). Qed.

Lemma b2z_BEL c : (b2z c =? asciiBEL) = bool_decide (c = BELc).
Proof. apply (b2z_eqb c BELc). Qed.

Lemma Scan_text s data :
  state s = esGround → ESCc ∉ data → Scan s data = (s, noResult).
Proof.
  intros Hs. induction data as [|c data IH]; cbn; [done|]. rewrite not_elem_of_cons. intros [Hc Hd].
  unfold scanByte. rewrite Hs, b2z_ESC, bool_decide_eq_false_2 by congruence. by rewrite IH.
Qed.

Lemma Scan_string s data :
  state s = esString → ESCc ∉ data → BELc ∉ data → Scan s data = (s, noResult).
Proof.
  intros Hs. induction data as [|c data IH]; cbn; [done|]. rewrite !not_elem_of_cons.
  intros [Hc Hd] [Hc' Hd']. unfold scanByte.
  rewrite Hs, b2z_ESC, b2z_BEL, !bool_decide_eq_false_2 by congruence. by rewrite IH.
Qed.

Lemma numeric_param c :
  isNumeric c = true → (csiParamMin <=? b2z c) && (b2z c <=? csiParamMax) = true ∧ (b2z c =? ch "?") = false.
Proof.
  unfold isNumeric, is_digit, csiParamMin, csiParamMax. intros [Hd|Hd]%orb_prop.
  - change (ch "?") with 63. lia.
  - apply bool_decide_eq_true in Hd as ->. done.
Qed.

(** The numeric parameters of a plain CSI sequence. *)
Lemma Scan_numeric hp pb ps :
  Forall (λ c, isNumeric c = true) ps → (hp = true → (pb =? ch "?") = false) →
  Scan (MkScanner esCsi hp pb 0) ps =
  (MkScanner esCsi (hp || bool_decide (ps ≠ []))
     (if hp then pb else match ps with [] => pb | c :: _ => b2z c end) 0, noResult).
Proof.
  revert hp pb. induction ps as [|c ps IH]; intros hp pb Hps Hpb.
  { cbn. by destruct hp. }
  apply Forall_cons in Hps as [Hc Hps]. destruct (numeric_param c Hc) as [Hr Hq].
  cbn [Scan]. unfold scanByte. cbn [state csiHasParams csiParamByte csiNumParam]. rewrite Hr.
  assert (Hnq : ((if hp then pb else b2z c) =? ch "?") = false) by (destruct hp; auto).
  rewrite Hnq. cbn [andb]. rewrite IH by done. cbn. by destruct hp.
Qed.

Lemma Scan_final hp pb np f :
  isFinal f = true →
  Scan (MkScanner esCsi hp pb np) [f] = (MkScanner esGround hp pb np, csiEffect hp pb np (b2z f)).
Proof.
  intros Hf. cbn. unfold scanByte. cbn [state csiHasParams csiParamByte csiNumParam].
  assert (Hnp : (csiParamMin <=? b2z f) && (b2z f <=? csiParamMax) = false).
  { unfold isFinal, csiParamMin, csiParamMax, csiFinalMin, csiFinalMax in *. lia. }
  rewrite Hnp. unfold isFinal in Hf. rewrite Hf. by rewrite merge_noResult.
Qed.

Lemma dfold_ge ds acc : forallb is_digit ds = true → 0 ≤ acc → acc ≤ dfold ds acc.
Proof.
  unfold dfold. revert acc. induction ds as [|c ds IH]; intros acc Hd Ha; cbn in *; [lia|].
  apply andb_prop in Hd as [Hc Hd]. unfold is_digit in Hc.
  etransitivity; [|apply IH; [done|lia]]. lia.
Qed.

Lemma wrap_int64_id z : 0 ≤ z < 2 ^ 63 → wrap_int 64 z = z.
Proof. intros. unfold wrap_int. rewrite Z.mod_small; lia. Qed.

Lemma Scan_private ds acc :
  forallb is_digit ds = true → 0 ≤ acc → dfold ds acc < 2 ^ 63 →
  Scan (MkScanner esCsi true (ch "?") acc) ds = (MkScanner esCsi true (ch "?") (dfold ds acc), noResult).
Proof.
  revert acc. induction ds as [|c ds IH]; intros acc Hd Ha Hlt; cbn [Scan]; [done|].
  apply andb_prop in Hd as [Hc Hd]. pose proof Hc as Hc'. unfold is_digit in Hc'.
  assert (Hn : isNumeric c = true) by (unfold isNumeric; by rewrite Hc).
  destruct (numeric_param c Hn) as [Hr _].
  unfold scanByte. cbn [state csiHasParams csiParamByte csiNumParam]. rewrite Hr.
  change (ch "0") with 48. change (ch "9") with 57. rewrite Z.eqb_refl.
  assert (Hr2 : (48 <=? b2z c) && (b2z c <=? 57) = true) by lia. cbn [andb]. rewrite Hr2.
  assert (Hle : acc * 10 + (b2z c - 48) ≤ dfold ds (acc * 10 + (b2z c - 48))) by (apply dfold_ge; [done|lia]).
  assert (Hd' : dfold (c :: ds) acc = dfold ds (acc * 10 + (b2z c - 48))) by done.
  rewrite wrap_int64_id by lia. rewrite IH by (rewrite ?Hd' in Hlt; try done; lia).
  by rewrite Hd'.
Qed.

Lemma Itoa_digits n : 0 ≤ n → Itoa n ≠ [] ∧ forallb is_digit (Itoa n) = true ∧ dfold (Itoa n) 0 = n.
Proof.
  intros Hn. unfold Itoa. replace (pretty n) with (pretty (Z.to_N n)) by (destruct n; [done|done|lia]).
  destruct (gs_pretty_N (Z.to_N n)) as (? & ? & Hv). split_and!; [done..|].
  unfold digits_value in Hv. unfold dfold. lia.
Qed.

Definition csi_result (t : token) : scanResult := MkResult (resets t) (erases t).

Lemma csi_final_cases f :
  (b2z f =? ch "r") = bool_decide (f = "r"%char) ∧ (b2z f =? ch "J") = bool_decide (f = "J"%char) ∧
  (b2z f =? ch "h") = bool_decide (f = "h"%char) ∧ (b2z f =? ch "l") = bool_decide (f = "l"%char).
Proof. by rewrite !b2z_eqb. Qed.

Lemma Scan_csi_intro s :
  state s = esGround →
  Scan s [ESCc; "["%char] = (MkScanner esCsi false 0 0, noResult) ∧
  Scan s [ESCc; "["%char; "?"%char] = (MkScanner esCsi true (ch "?") 0, noResult).
Proof.
  intros Hs. assert (He : scanByte s (b2z ESCc) = (goto s esEsc, noResult)).
  { unfold scanByte. by rewrite Hs. }
  cbn [Scan]. rewrite He. done.
Qed.

Lemma Scan_token s t :
  state s = esGround → token_ok t →
  ∃ s', Scan s (render t) = (s', csi_result t) ∧ state s' = esGround.
Proof.
  intros Hs Hok. unfold csi_result.
  destruct t as [txt| |ps f|mode f|i body bel]; cbn [render resets erases].
  - exists s. split; [by apply Scan_text|done].
  - exists (goto s esGround). split; [|done]. cbn. unfold scanByte at 1. rewrite Hs. done.
  - destruct Hok as [Hps Hf]. eexists (MkScanner esGround _ _ 0). split; [|reflexivity].
    change (ESCc :: "["%char :: ps ++ [f]) with ([ESCc; "["%char] ++ (ps ++ [f])).
    rewrite Scan_app, (proj1 (Scan_csi_intro s Hs)).
    rewrite Scan_app, Scan_numeric, Scan_final by done.
    cbn [csiHasParams csiParamByte csiNumParam goto]. rewrite !noResult_merge. f_equal.
    unfold csiEffect. destruct (csi_final_cases f) as (-> & -> & -> & ->).
    rewrite andb_false_r, ?orb_false_l.
    destruct ps as [|c ps]; cbn -[ch]; rewrite ?andb_false_r, ?andb_true_r; cbn -[ch].
    + destruct (bool_decide_reflect (f = "r"%char)) as [->|]; [done|].
      by destruct (bool_decide (f = "J"%char)).
    + rewrite !b2z_eqb. cbn.
      destruct (bool_decide (f = "J"%char)); cbn; [|done].
      rewrite (bool_decide_ext (c ∈ ["0"; "2"; "3"]%char)
        (c = "0"%char ∨ c = "2"%char ∨ c = "3"%char)) by set_solver.
      rewrite !bool_decide_or, !orb_assoc. by destruct (_ || _).
  - destruct Hok as [Hm Hf]. destruct (Itoa_digits mode ltac:(lia)) as (_ & Hd & Hv).
    exists (MkScanner esGround true (ch "?") mode). split; [|reflexivity].
    change (ESCc :: "["%char :: "?"%char :: Itoa mode ++ [f])
      with ([ESCc; "["%char; "?"%char] ++ (Itoa mode ++ [f])).
    rewrite Scan_app, (proj2 (Scan_csi_intro s Hs)).
    rewrite Scan_app, Scan_private, Scan_final by (done || lia).
    rewrite !noResult_merge, Hv. f_equal. unfold csiEffect.
    destruct (csi_final_cases f) as (-> & -> & -> & ->). rewrite Z.eqb_refl. cbn.
    rewrite !andb_false_r. cbn. rewrite andb_true_r.
    by destruct ((_ || _) && isAltScreenMode mode).
  - destruct Hok as (Hi & He & Hb).
    assert (Hstart : Scan s [ESCc; i] = (goto s esString, noResult)).
    { cbn [Scan]. unfold scanByte at 1. rewrite Hs. cbn -[scanByte Scan]. unfold scanByte. cbn [state goto].
      rewrite !b2z_eqb.
      repeat (apply elem_of_cons in Hi as [->|Hi]; [done|]). by apply elem_of_nil in Hi. }
    change (ESCc :: i :: body ++ (if bel then [BELc] else [ESCc; "\"%char]))
      with ([ESCc; i] ++ (body ++ (if bel then [BELc] else [ESCc; "\"%char]))).
    rewrite Scan_app, Hstart, Scan_app, Scan_string by done.
    destruct bel; eexists (goto _ esGround); split; reflexivity.
Qed.

Definition any {A} (f : A → bool) (l : list A) : bool := existsb f l.

Lemma Scan_tokens s ts :
  state s = esGround → Forall token_ok ts →
  ∃ s', Scan s (concat (render <$> ts)) = (s', MkResult (any resets ts) (any erases ts)) ∧
        state s' = esGround.
Proof.
  revert s. induction ts as [|t ts IH]; intros s Hs Hok; [by exists s|].
  apply Forall_cons in Hok as [Ht Hok]. cbn [fmap list_fmap concat]. rewrite Scan_app.
  destruct (Scan_token s t Hs Ht) as (s1 & -> & Hs1).
  destruct (IH s1 Hs1 Hok) as (s2 & -> & Hs2). by exists s2.
Qed.

(** ** The whole output path *)

(** A read, with the bar state at that time. *)
Record readEv := MkRead { rdata : gostring; rseq : gostring; rbar : option gostring }.

Fixpoint outputRun (tty : bool) (o : outState) (evs : list readEv) : outState * list (gostring * gostring) :=
  match evs with
  | [] => (o, [])
  | e :: evs' =>
      let '(o1, out) := outputChunk tty (rseq e) (rbar e) o (rdata e) in
      let '(o2, outs) := outputRun tty o1 evs' in (o2, out :: outs)
  end.

Lemma outputRun_scanner tty o evs :
  scanner (outputRun tty o evs).1 = (Scan (scanner o) (concat (rdata <$> evs))).1.
Proof.
  revert o. induction evs as [|e evs IH]; intros o; cbn; [done|].
  unfold outputChunk. rewrite Scan_app. destruct (Scan (scanner o) (rdata e)) as [s r].
  destruct (tty && InGround s).
  - destruct (outputRun _ _ _) as [o2 outs] eqn:E. cbn.
    specialize (IH (MkOut s false false)). rewrite E in IH. cbn in IH. rewrite IH.
    by destruct (Scan s _).
  - destruct (outputRun _ _ _) as [o2 outs] eqn:E. cbn.
    specialize (IH (MkOut s (pendingScrollReset o || ScrollReset r) (pendingBarErased o || BarErased r))).
    rewrite E in IH. cbn in IH. rewrite IH. by destruct (Scan s _).
Qed.

(** The repair after read [j]. *)
Definition repairedAt (evs : list readEv) (outs : list (gostring * gostring)) (j : nat) : Prop :=
  ∃ e, evs !! j = Some e ∧ outs !! j = Some (rdata e, rseq e ++ default [] (rbar e)).

(** A reset that is pending is repaired by a later read. *)
Lemma outputRun_pending o evs o' outs :
  outputRun true o evs = (o', outs) → InGround (scanner o') = true →
  pendingScrollReset o = true → evs ≠ [] → ∃ j, repairedAt evs outs j.
Proof.
  revert o outs. induction evs as [|e evs IH]; intros o outs; cbn; [done|].
  unfold outputChunk. destruct (Scan (scanner o) (rdata e)) as [s r].
  destruct (InGround s) eqn:Hg; cbn [andb]; destruct (outputRun true _ evs) as [o2 outs2] eqn:E;
    intros [= <- <-] Hend Hp _.
  - rewrite Hp. exists 0%nat, e. done.
  - destruct (IH _ _ E Hend) as (j & e' & ?); [cbn; by rewrite Hp| |by exists (S j), e'].
    intros ->. cbn in E. injection E as <- <-. cbn in Hend. congruence.
Qed.

(** A byte that completes a reset is repaired at the end of its own read or of a
    later one. *)
Lemma outputRun_repair o evs o' outs a c b :
  outputRun true o evs = (o', outs) → InGround (scanner o') = true →
  concat (rdata <$> evs) = a ++ c :: b → ScrollReset (scanByte (Scan (scanner o) a).1 (b2z c)).2 = true →
  ∃ j, repairedAt evs outs j ∧ (length a < length (concat (rdata <$> take (S j) evs)))%nat.
Proof.
  revert o outs a. induction evs as [|e evs IH]; intros o outs a; cbn; [by destruct a|].
  unfold outputChunk. destruct (Scan (scanner o) (rdata e)) as [s r] eqn:Hsc. intros Hrun Hend Hcat Hr.
  apply app_eq_inv in Hcat as [(k & Hd & Hc)|(k & -> & Hrest)].
  - (* within this read, or the first byte of the next *)
    assert (Hin : k ≠ [] → ScrollReset r = true).
    { destruct k as [|c' k]; [done|]. intros _. injection Hc as <- _. rewrite Hd, Scan_app in Hsc.
      destruct (Scan (scanner o) a) as [s1 r1]. cbn [fst] in Hr. cbn [Scan] in Hsc.
      destruct (scanByte s1 _) as [s2 r2]. destruct (Scan s2 k) as [s3 r3]. injection Hsc as <- <-.
      cbn in *. by rewrite Hr, orb_true_r. }
    destruct (decide (k = [])) as [->|Hk].
    + rewrite app_nil_r in Hd. subst a. rewrite Hsc in Hr. cbn in Hc.
      assert (Hrec : ∃ o1 out1 outs1, scanner o1 = s ∧ outputRun true o1 evs = (o', outs1) ∧ outs = out1 :: outs1).
      { destruct (InGround s); cbn [andb] in Hrun; destruct (outputRun true _ evs) as [o2 outs2] eqn:E;
          injection Hrun as <- <-; do 3 eexists; (split; [|split; [exact E|done]]); done. }
      destruct Hrec as (o1 & out1 & outs1 & <- & E & ->).
      destruct (IH _ _ [] E Hend (eq_sym Hc)) as (j & (e' & Hj) & Hlt); [done|].
      exists (S j). split; [by exists e'|]. rewrite length_app. cbn in *. lia.
    + specialize (Hin Hk). assert (Hlen : (length a < length (rdata e))%nat).
      { rewrite Hd, length_app. destruct k; [done|]. cbn. lia. }
      rewrite Hin, orb_true_r in Hrun.
      destruct (InGround s) eqn:Hg; cbn [andb] in Hrun; destruct (outputRun true _ evs) as [o2 outs2] eqn:E;
        injection Hrun as <- <-.
      * exists 0%nat. split; [by exists e|]. cbn. rewrite app_nil_r. done.
      * destruct (outputRun_pending _ _ _ _ E Hend) as (j & e' & Hj); [done| |].
        { intros ->. cbn in E. injection E as <- <-. cbn in Hend. congruence. }
        exists (S j). split; [by exists e'|]. rewrite length_app. lia.
  - assert (Hrec : ∃ o1 out1 outs1, scanner o1 = s ∧ outputRun true o1 evs = (o', outs1) ∧ outs = out1 :: outs1).
    { destruct (InGround s); cbn [andb] in Hrun; destruct (outputRun true _ evs) as [o2 outs2] eqn:E;
        injection Hrun as <- <-; do 3 eexists; (split; [|split; [exact E|done]]); done. }
    destruct Hrec as (o1 & out1 & outs1 & <- & E & ->).
    destruct (IH _ _ k E Hend Hrest) as (j & (e' & Hj) & Hlt).
    { rewrite Scan_app, Hsc in Hr. by destruct (Scan (scanner o1) k). }
    exists (S j). split; [by exists e'|]. rewrite !length_app. cbn in *. lia.
Qed.

Lemma outputRun_passthrough tty o evs :
  concat ((outputRun tty o evs).2.*1) = concat (rdata <$> evs).
Proof.
  revert o. induction evs as [|e evs IH]; intros o; cbn; [done|].
  unfold outputChunk. destruct (Scan _ _) as [s r].
  destruct (tty && InGround s); destruct (outputRun _ _ evs) as [o2 outs] eqn:E; cbn;
    (f_equal; match type of E with outputRun _ ?o1 _ = _ => specialize (IH o1) end;
     rewrite E in IH; exact IH).
Qed.

Lemma outputRun_injects_in_ground tty o evs i out :
  (outputRun tty o evs).2 !! i = Some out → out.2 ≠ [] →
  InGround (Scan (scanner o) (concat (rdata <$> take (S i) evs))).1 = true.
Proof.
  revert o i. induction evs as [|e evs IH]; intros o i; cbn; [done|].
  unfold outputChunk. rewrite Scan_app. destruct (Scan (scanner o) (rdata e)) as [s r] eqn:Hs.
  destruct (tty && InGround s) eqn:Hg; destruct (outputRun _ _ evs) as [o2 outs] eqn:E; cbn;
    (destruct i as [|i]; cbn;
     [intros [= <-] Hne; cbn in Hne|intros Hi Hne;
      match type of E with outputRun _ ?o1 _ = _ => specialize (IH o1 i) end;
      rewrite E in IH; cbn in IH; specialize (IH Hi Hne);
      destruct (Scan s _) as [s2 r2] eqn:Hsc; cbn in IH |- *; cbn [take fmap list_fmap concat] in IH;
      rewrite ?Hsc in IH; exact IH]).
  - apply andb_prop in Hg as [_ Hg]. by destruct evs.
  - done.
Qed.

(** The last byte of a sequence that resets is the one that does it. *)
Lemma resets_last s t :
  state s = esGround → token_ok t → resets t = true →
  ∃ x c, render t = x ++ [c] ∧ ScrollReset (scanByte (Scan s x).1 (b2z c)).2 = true.
Proof.
  intros Hs Hok Hr. destruct (Scan_token s t Hs Hok) as (s' & Hscan & _).
  assert (Hx : ∃ x c, render t = x ++ [c] ∧ ScrollReset (Scan s x).2 = false).
  { destruct t as [| |ps f|mode f|]; try done; cbn [render].
    - exists [ESCc], "c"%char. split; [done|]. cbn. unfold scanByte. by rewrite Hs.
    - cbn in Hr. apply andb_true_iff in Hr as [->%bool_decide_eq_true ->%bool_decide_eq_true]. exists [ESCc; "["%char], "r"%char. split; [done|].
      by rewrite (proj1 (Scan_csi_intro s Hs)).
    - destruct Hok as [Hm _]. destruct (Itoa_digits mode ltac:(lia)) as (_ & Hd & Hv).
      exists ([ESCc; "["%char; "?"%char] ++ Itoa mode), f. split; [done|].
      rewrite Scan_app, (proj2 (Scan_csi_intro s Hs)), Scan_private by (done || lia). done. }
  destruct Hx as (x & c & Hx & Hno). exists x, c. split; [done|].
  rewrite Hx, Scan_app in Hscan. destruct (Scan s x) as [s1 r1]. cbn in *.
  destruct (scanByte s1 _) as [s2 r2]. injection Hscan as _ Hres _. cbn in *. by rewrite Hno, Hr, orb_false_r in Hres.
Qed.


Definition demo_tokens : list token := [Text (gs "a"); Csi [] "r"; Text (gs "b")].

(** The first reset is cut in the middle, the second comes in a read of its own. *)
Definition demo_reads : list readEv :=
  let d := concat (render <$> demo_tokens) in
  [MkRead (take 2 d) (gs "<region>") (Some (gs "<bar>"));
   MkRead (drop 2 d) (gs "<region>") (Some (gs "<bar>"));
   MkRead (render (CsiPrivate 1049 "h")) (gs "<region>") (Some (gs "<bar>"))].


(** ** OSC 133 markers, printed and parsed *)

Inductive item := Plain (s : gostring) | Marker (e : Event) (bel : bool).

Definition markerParams (e : Event) : gostring :=
  match e with
  | EventPromptStart => gs "133;A"
  | EventCommandStart => gs "133;B"
  | EventCommandExecuted => gs "133;C"
  | EventCommandFinished None => gs "133;D"
  | EventCommandFinished (Some n) => gs "133;D;" ++ Itoa n
  end.

Definition printItem (i : item) : gostring :=
  match i with
  | Plain s => s
  | Marker e bel =>
      [ESCc; "]"%char] ++ markerParams e ++ (if bel then [BELc] else [ESCc; "\"%char])
  end.

Definition item_ok (i : item) : Prop :=
  match i with
  | Plain s => ESCc ∉ s
  | Marker (EventCommandFinished (Some n)) _ => - 2 ^ 31 ≤ n < 2 ^ 31
  | Marker _ _ => True
  end.

Definition item_events (i : item) : list Event := match i with Plain _ => [] | Marker e _ => [e] end.

Definition zone_after (z : Zone) (e : Event) : Zone :=
  match e with
  | EventPromptStart => ZonePrompt
  | EventCommandStart => ZoneInput
  | EventCommandExecuted => ZoneOutput
  | EventCommandFinished _ => ZoneUnknown
  end.

Lemma Push_plain p data : pstate p = stateGround → ESCc ∉ data → Push p data = (p, []).
Proof.
  intros Hp. induction data as [|c data IH]; cbn; [done|]. rewrite not_elem_of_cons. intros [Hc Hd].
  unfold pushByte. rewrite Hp, b2z_ESC, bool_decide_eq_false_2 by congruence.
  replace (MkParser stateGround (zone p) (params p)) with p by (destruct p; cbn in *; by subst).
  by rewrite IH.
Qed.

Lemma Push_params z acc ps :
  ESCc ∉ ps → BELc ∉ ps → (length acc + length ps ≤ paramBufCap)%nat →
  Push (MkParser stateOscParam z acc) ps = (MkParser stateOscParam z (acc ++ ps), []).
Proof.
  revert acc. induction ps as [|c ps IH]; intros acc; cbn [Push length]; [by rewrite app_nil_r|].
  rewrite !not_elem_of_cons. intros [Hc Hps] [Hb Hps'] Hlen.
  unfold pushByte. cbn [pstate params zone].
  rewrite b2z_ESC, b2z_BEL, !bool_decide_eq_false_2 by congruence.
  rewrite (proj2 (Nat.ltb_lt _ _)) by lia. rewrite IH; [|done..|rewrite length_app; cbn; lia].
  by rewrite <- app_assoc.
Qed.

Lemma markerParams_clean e : ESCc ∉ markerParams e ∧ BELc ∉ markerParams e.
Proof.
  assert (Hlit : ∀ s, bool_decide (ESCc ∈ gs s ∨ BELc ∈ gs s) = false → ESCc ∉ gs s ∧ BELc ∉ gs s).
  { intros s Hs%bool_decide_eq_false. tauto. }
  destruct e as [| | |[n|]]; try (by apply Hlit).
  cbn [markerParams]. rewrite !elem_of_app.
  destruct (Hlit "133;D;"%string) as [H1 H2]; [done|].
  assert (Hn : ∀ c, c ∈ Itoa n → is_digit c = true ∨ c = "-"%char).
  { intros c Hc. unfold Itoa in Hc. destruct n as [|p|p].
    - change (gs (pretty 0)) with ["0"%char] in Hc. apply list_elem_of_singleton in Hc as ->. by left.
    - left. destruct (gs_pretty_N (N.pos p)) as (_ & Hd & _). rewrite forallb_forall in Hd.
      apply Hd. by apply list_elem_of_In.
    - change (gs (pretty (Z.neg p))) with ("-"%char :: gs (pretty (N.pos p))) in Hc.
      apply elem_of_cons in Hc as [->|Hc]; [by right|left].
      destruct (gs_pretty_N (N.pos p)) as (_ & Hd & _). rewrite forallb_forall in Hd.
      apply Hd. by apply list_elem_of_In. }
  split; intros [|[Hd|Hd]%Hn]; done.
Qed.

Lemma markerParams_length e bel : item_ok (Marker e bel) → (length (markerParams e) ≤ paramBufCap)%nat.
Proof.
  unfold paramBufCap. destruct e as [| | |[n|]]; cbn [item_ok markerParams]; intros Hok;
    try (vm_compute; lia).
  rewrite length_app. change (length (gs "133;D;")) with 6%nat.
  pose proof (length_Itoa 10 n ltac:(lia)) as Hl. cbn in Hl. lia.
Qed.

Lemma dispatch_marker z e bel :
  item_ok (Marker e bel) → dispatch z (markerParams e) = (zone_after z e, [e]).
Proof.
  destruct e as [| | |[n|]]; try done. cbn [item_ok markerParams zone_after]. intros Hn.
  unfold dispatch.
  assert (Hlen : (6 < length (gs "133;D;" ++ Itoa n))%nat).
  { rewrite length_app. change (length (gs "133;D;")) with 6%nat.
    assert (length (Itoa n) ≠ 0%nat); [|lia]. intros Hz%nil_length_inv.
    pose proof (ParseInt_Itoa n 32 Hn) as Hp. rewrite Hz in Hp. done. }
  rewrite (proj2 (Nat.ltb_ge (length _) 5)) by lia.
  rewrite (proj2 (Nat.ltb_lt 6 (length _))) by lia.
  change (take 4 (gs "133;D;" ++ Itoa n)) with (gs "133;").
  change ((gs "133;D;" ++ Itoa n) !! 4%nat) with (Some "D"%char).
  change ((gs "133;D;" ++ Itoa n) !! 5%nat) with (Some ";"%char).
  change (drop 6 (gs "133;D;" ++ Itoa n)) with (Itoa n).
  rewrite ParseInt_Itoa by done. done.
Qed.

Lemma Push_terminator z ps (bel : bool) :
  Push (MkParser stateOscParam z ps) (if bel then [BELc] else [ESCc; "\"%char]) =
  (MkParser stateGround (dispatch z ps).1 ps, (dispatch z ps).2).
Proof.
  assert (Hst : Push (MkParser stateOscEsc z ps) ["\"%char] =
                (MkParser stateGround (dispatch z ps).1 ps, (dispatch z ps).2)).
  { cbn [Push]. unfold pushByte. cbn [pstate zone params]. rewrite b2z_eqb, bool_decide_eq_true_2 by done.
    destruct (dispatch z ps). cbn. by rewrite app_nil_r. }
  destruct bel.
  - cbn [Push]. unfold pushByte. cbn [pstate zone params]. rewrite b2z_BEL, bool_decide_eq_true_2 by done.
    destruct (dispatch z ps). cbn. by rewrite app_nil_r.
  - change [ESCc; "\"%char] with ([ESCc] ++ ["\"%char]). rewrite Push_app.
    change (Push (MkParser stateOscParam z ps) [ESCc]) with (MkParser stateOscEsc z ps, @nil Event).
    cbv beta iota. by rewrite Hst.
Qed.

Lemma Push_item p i :
  pstate p = stateGround → item_ok i →
  ∃ p', Push p (printItem i) = (p', item_events i) ∧ pstate p' = stateGround ∧
        zone p' = fold_left zone_after (item_events i) (zone p).
Proof.
  intros Hp Hok. destruct i as [s|e bel].
  - exists p. split; [by apply Push_plain|done].
  - cbn [printItem item_events]. rewrite Push_app.
    assert (Hintro : Push p [ESCc; "]"%char] = (MkParser stateOscParam (zone p) [], [])).
    { cbn. unfold pushByte at 1. rewrite Hp. done. }
    rewrite Hintro, Push_app. destruct (markerParams_clean e) as [H1 H2].
    rewrite Push_params; [|done..|cbn; by eapply markerParams_length].
    exists (MkParser stateGround (zone_after (zone p) e) (markerParams e)).
    split; [|done]. cbn [app]. rewrite Push_terminator.
    rewrite (dispatch_marker (zone p) e bel Hok). done.
Qed.

(** Parsing inverts printing.  For any sequence of plain output and prompt
    markers, terminated either way and cut into any chunks, the parser reports
    exactly the markers in order, exit codes included, and ends in the zone of
    the last one. *)
Theorem osc133_round_trip items chunks :
  Forall item_ok items → concat chunks = concat (printItem <$> items) →
  let '(p, evs) := fold_left (λ '(p, evs) data, let '(p', evs') := Push p data in (p', evs ++ evs'))
                     chunks (NewOSC133Parser, []) in
  evs = items ≫= item_events ∧ pstate p = stateGround ∧
  zone p = fold_left zone_after (items ≫= item_events) ZoneUnknown.
Proof.
  intros Hok Hcat.
  assert (Hfold : ∀ cs p evs, fold_left (λ '(p, evs) data,
      let '(p', evs') := Push p data in (p', evs ++ evs')) cs (p, evs) =
      ((Push p (concat cs)).1, evs ++ (Push p (concat cs)).2)).
  { clear. induction cs as [|c cs IH]; intros p evs; cbn; [by rewrite app_nil_r|].
    rewrite Push_app. destruct (Push p c) as [p1 e1]. rewrite IH.
    destruct (Push p1 (concat cs)) as [p2 e2]. cbn. by rewrite app_assoc. }
  rewrite Hfold, Hcat. cbn [app].
  assert (Hgen : ∀ p, pstate p = stateGround →
    ∃ p', Push p (concat (printItem <$> items)) = (p', items ≫= item_events) ∧
      pstate p' = stateGround ∧ zone p' = fold_left zone_after (items ≫= item_events) (zone p)).
  { clear Hcat. induction Hok as [|i items Hi _ IH]; intros p Hp; [by exists p|].
    cbn [fmap list_fmap concat mbind list_bind]. rewrite Push_app.
    destruct (Push_item p i Hp Hi) as (p1 & -> & Hp1 & Hz1).
    destruct (IH p1 Hp1) as (p2 & -> & Hp2 & Hz2). exists p2. split_and!; [done..|].
    by rewrite fold_left_app, <- Hz1. }
  destruct (Hgen NewOSC133Parser eq_refl) as (p' & -> & ? & ?). done.
Qed.

Definition demo_items : list item :=
  [Plain (gs "hello"); Marker EventPromptStart true; Marker EventCommandExecuted false;
   Plain (gs "out"); Marker (EventCommandFinished (Some (-7))) false].

Lemma osc133_round_trip_witness :
  let d := concat (printItem <$> demo_items) in
  let '(p, evs) := fold_left (λ '(p, evs) data, let '(p', evs') := Push p data in (p', evs ++ evs'))
                     [take 8 d; drop 8 d] (NewOSC133Parser, []) in
  evs = demo_items ≫= item_events ∧ pstate p = stateGround ∧
  zone p = fold_left zone_after (demo_items ≫= item_events) ZoneUnknown.
Proof.
  apply (osc133_round_trip demo_items
    [take 8 (concat (printItem <$> demo_items)); drop 8 (concat (printItem <$> demo_items))]).
  - repeat constructor; try (apply (bool_decide_unpack _); vm_compute; exact I); lia.
  - vm_compute. reflexivity.
Defined.
