(* ===== verification/WardBar.v ===== *)
(** * Ward's notification bar ([ward/bar.go], and the bar's event loop and
    resize handler in [ward/wrapper.go])

    Text shown on the bar is stripped of control characters; the bar itself is
    owned by one event loop, a state machine over status, alert, dismissal and
    command-mode events with two timers.  Measuring, cutting and styling text is
    done by libraries: class [TermText]. *)

From S2P Require Import Prelude GoStrings.
Open Scope Z_scope.

(** ** Sanitized text *)

Definition printable (r : Z) : bool :=
  (r =? 9) || ((0x20 <=? r) && negb (r =? 0x7F) && ((r <? 0x80) || (0x9F <? r))).

Definition sanitizeMessage (s : gostring) : gostring :=
  flat_map (λ r, if printable r then encodeRune r else []) (runes s).

Lemma sanitize_filter s : sanitizeMessage s = flat_map encodeRune (List.filter printable (runes s)).
Proof.
  unfold sanitizeMessage. induction (runes s) as [|r rs IH]; cbn; [done|].
  rewrite IH. by destruct (printable r).
Qed.

Lemma runes_sanitize s : runes (sanitizeMessage s) = List.filter printable (runes s).
Proof.
  rewrite sanitize_filter. apply runes_flat_encode.
  apply Forall_forall. intros r Hr. apply list_elem_of_In, filter_In in Hr as [Hr _].
  pose proof (runes_valid s) as Hv. rewrite Forall_forall in Hv. apply Hv. by apply list_elem_of_In.
Qed.

Lemma filter_filter {A} (f : A → bool) l : List.filter f (List.filter f l) = List.filter f l.
Proof.
  induction l as [|x l IH]; cbn; [done|]. destruct (f x) eqn:E; cbn; [|done]. rewrite E. by f_equal.
Qed.

(** No escape injection through bar text.  Every byte of a sanitized message
    below 0x80 is a tab or printable, so there is no ESC, no other C0 control
    and no DEL; no rune of it is a C1 control; sanitizing again changes
    nothing; and text without control characters that is valid UTF-8 passes
    unchanged. *)
Theorem sanitizeMessage_safe s :
  (∀ c, c ∈ sanitizeMessage s → b2z c < 0x80 → b2z c = 9 ∨ (0x20 ≤ b2z c ∧ b2z c ≠ 0x7F)) ∧
  (∀ r, r ∈ runes (sanitizeMessage s) → ¬ 0x80 ≤ r ≤ 0x9F) ∧
  sanitizeMessage (sanitizeMessage s) = sanitizeMessage s ∧
  (flat_map encodeRune (runes s) = s → forallb printable (runes s) = true → sanitizeMessage s = s).
Proof.
  split_and!.
  - intros c Hc Hlt. unfold sanitizeMessage in Hc. apply list_elem_of_In, in_flat_map in Hc as (r & Hr & Hc).
    destruct (printable r) eqn:Hp; [|by destruct Hc]. apply list_elem_of_In in Hc.
    assert (Hv : valid_rune r).
    { pose proof (runes_valid s) as Hv. rewrite Forall_forall in Hv. apply Hv. by apply list_elem_of_In. }
    destruct (decide (r < 0x80)) as [Hlo|Hhi].
    + rewrite encodeRune_ascii in Hc by (unfold valid_rune in Hv; lia).
      apply list_elem_of_singleton in Hc as ->. rewrite b2z_z2b in Hlt |- * by (unfold valid_rune in Hv; lia).
      unfold printable in Hp. lia.
    + exfalso. pose proof (encodeRune_high r c ltac:(lia) Hc). lia.
  - intros r Hr. rewrite runes_sanitize in Hr. apply list_elem_of_In, filter_In in Hr as [_ Hp].
    unfold printable in Hp. lia.
  - by rewrite !(sanitize_filter (sanitizeMessage s)), runes_sanitize, filter_filter, <- sanitize_filter.
  - intros Hv Hp. rewrite sanitize_filter. rewrite <- Hv at 2. f_equal. clear Hv. revert Hp.
    induction (runes s) as [|r rs IH]; cbn; [done|]. intros [-> Hp]%andb_prop. f_equal. by apply IH.
Qed.

(** ** Rendering *)

(** What the code uses of the text libraries: the display width, cutting to a
    width with a tail, and styling (cyan, or orange for alerts).  Widths add up
    over the pieces of a bar, styling does not change them, and the field
    character is one column wide. *)
Class TermText := {
  StringWidth : gostring → Z;
  Truncate : gostring → Z → gostring;
  styled : bool → gostring → gostring;
  padChar : gostring;
  barPrefix : gostring;
  StringWidth_nonneg s : 0 ≤ StringWidth s;
  StringWidth_nil : StringWidth [] = 0;
  StringWidth_app a b : StringWidth (a ++ b) = StringWidth a + StringWidth b;
  StringWidth_styled alert s : StringWidth (styled alert s) = StringWidth s;
  StringWidth_pad : StringWidth padChar = 1;
  Truncate_width s n : 0 ≤ n → StringWidth (Truncate s n) ≤ n;
}.

Record KeyHint := MkHint { Key : ascii; Desc : gostring; RequireAlert : bool }.

Record StatusUpdate := MkUpdate {
  Message : gostring;
  Alert : bool;
  Timeout : Z;             (* time.Duration *)
  Target : gostring;
  KeyHints : list KeyHint;
}.

Section rendering.
Context `{TermText}.

Definition prefixLen : Z := StringWidth barPrefix.

Definition Repeat (s : gostring) (n : Z) : gostring := concat (replicate (Z.to_nat n) s).

Definition renderMessage (alert : bool) (cols : Z) (msg : gostring) : gostring :=
  let msgWidth := StringWidth msg in
  if cols - prefixLen <? msgWidth then
    barPrefix ++ styled alert (Truncate msg (Z.max (cols - prefixLen) 0))
  else
    let fill := Z.max (cols - prefixLen - msgWidth) 0 + 1 in
    barPrefix ++ styled alert msg ++ styled alert (Repeat padChar fill).

Definition RenderStatusBar (message : gostring) (cols : Z) (alert : bool) : gostring :=
  let msg := gs " " ++ sanitizeMessage message ++ gs " " in
  if alert then
    renderMessage true cols
      (gs " " ++ padChar ++ padChar ++ gs " ALERT:" ++ msg ++ padChar ++ padChar ++ gs " press ctrl-] ")
  else renderMessage false cols msg.

(** The hints shown for an alert with or without a target. *)
Definition visibleHints (hints : list KeyHint) (hasAlert : bool) : list KeyHint :=
  List.filter (λ h, negb (RequireAlert h && negb hasAlert)) hints.

(** [string(h.Key)] is the UTF-8 encoding of the byte's code point. *)
Definition hintText (h : KeyHint) : gostring :=
  gs "[" ++ encodeRune (b2z (Key h)) ++ gs "] " ++ sanitizeMessage (Desc h).

Definition RenderCommandBar (target : gostring) (hints : list KeyHint) (cols : Z) (hasAlert : bool) :
    gostring :=
  let parts := (if bool_decide (target ≠ []) then [sanitizeMessage target] else []) ++
               (hintText <$> visibleHints hints hasAlert) ++ [gs "[esc] cancel"] in
  renderMessage true cols (gs " " ++ Join parts (gs "  ") ++ gs " ").

Lemma StringWidth_Repeat n : 0 ≤ n → StringWidth (Repeat padChar n) = n.
Proof.
  intros Hn. unfold Repeat. rewrite <- (Z2Nat.id n) at 2 by done. clear Hn.
  induction (Z.to_nat n) as [|k IH]; cbn; [apply StringWidth_nil|].
  rewrite StringWidth_app, StringWidth_pad, IH. lia.
Qed.

(** The width of the bar, for a terminal that leaves room for the prefix: a
    message that fits is padded to one column more than asked for, a longer one
    is cut to at most the width asked for.  The callers ask for the terminal
    width less one, so a padded bar fills the terminal's last column. *)
Theorem renderMessage_width alert cols msg :
  prefixLen ≤ cols →
  (StringWidth msg ≤ cols - prefixLen → StringWidth (renderMessage alert cols msg) = cols + 1) ∧
  (cols - prefixLen < StringWidth msg → StringWidth (renderMessage alert cols msg) ≤ cols).
Proof.
  intros Hc. split.
  - intros Hd. unfold renderMessage. rewrite (proj2 (Z.ltb_ge _ _)) by lia.
    rewrite !StringWidth_app, !StringWidth_styled, StringWidth_Repeat by lia. unfold prefixLen in *. lia.
  - intros Hlt. unfold renderMessage. rewrite (proj2 (Z.ltb_lt _ _)) by lia.
    rewrite StringWidth_app, StringWidth_styled.
    pose proof (Truncate_width msg (Z.max (cols - prefixLen) 0)). unfold prefixLen in *. lia.
Qed.
End rendering.

(** Text measured in bytes: the laws can hold. *)
#[local] Instance byte_text : TermText.
Proof.
  refine {| StringWidth s := Z.of_nat (length s); Truncate s n := take (Z.to_nat n) s;
            styled _ s := s; padChar := gs "/"; barPrefix := gs "/// VIBEPIT" |}.
  - intros. lia.
  - done.
  - intros. rewrite length_app. lia.
  - done.
  - done.
  - intros s n Hn. rewrite length_take. lia.
Defined.

Lemma renderMessage_width_witness : StringWidth (renderMessage false 79 (gs " hello ")) = 80.
Proof.
  assert (Hp : prefixLen ≤ 79) by (vm_compute; intros [=]).
  apply (renderMessage_width false 79 (gs " hello ") Hp). vm_compute. intros [=].
Defined.
