(* ===== verification/WardLoop.v ===== *)
(** * Ward's event loop ([ward/wrapper.go])

    The goroutine that owns the bar: which message is shown, the queue of
    alerts, the dismissal timer, and command mode.  A step is the receipt of one
    event, the firing of a timer, a send by another goroutine, or a terminal
    resize; [eventCh] holds the events sent and not yet received, those of
    blocked senders included. *)

From S2P Require Import Prelude GoStrings WardBar.
Open Scope Z_scope.

Inductive barMode := barHidden | barStatus | barAlert | barCleared | barCommand.
Inductive commandState := commandNone | commandActive | commandPending.

#[global] Instance barMode_eq_dec : EqDecision barMode.
Proof. solve_decision. Defined.
#[global] Instance commandState_eq_dec : EqDecision commandState.
Proof. solve_decision. Defined.

Inductive barEvent :=
  | barEventStatus (update : StatusUpdate)
  | barEventAlert (update : StatusUpdate)
  | barEventDismiss
  | barEventEnterCommand
  | barEventBeginAction (gen : Z)
  | barEventAction (gen : Z) (message : gostring) (err : option gostring)
  | barEventCancelCommand (gen : Z).

(** What the loop sends back on the channel carried by an event. *)
Inductive reply :=
  | NoReply
  | CommandResponse (target : gostring) (visibleKeys : list ascii) (gen : Z)
  | Ack (ok : bool).

Record barCache := MkCache {
  rendered : gostring;
  message : gostring;
  mode : barMode;
  target : gostring;
  keyHints : list KeyHint;
}.

(** A [*time.Timer]: nil, stopped or fired, or running for a duration. *)
Inductive timer := TNil | TStopped | TRunning (d : Z).

Definition running (t : timer) : bool := match t with TRunning _ => true | _ => false end.
Definition Stop (t : timer) : timer := match t with TNil => TNil | _ => TStopped end.

Definition DefaultTimeout : Z := 3 * 10 ^ 9.
Definition maxAlertQueue : nat := 64.

Record loop := MkLoop {
  lastStatus : gostring;
  alertQueue : list StatusUpdate;
  activeAlert : option StatusUpdate;
  dismissTimer : timer;
  alertStartedAt : Z;
  cmdState : commandState;
  commandGen : Z;                  (* uint64 *)
  cmdIdleTimer : option Z;         (* running, for this generation *)
  cmdCtx : option Z;               (* the live command context, by generation *)
  savedAlertRemain : Z;
  cache : barCache;
  termRows : Z;
  termCols : Z;
  stdout : list gostring;          (* history: what was written for the bar *)
  eventCh : list barEvent;
}.

(** The part of the loop's variables that [showAlert] and its siblings set. *)
Definition set_bar (l : loop) (q : list StatusUpdate) (a : option StatusUpdate) (t : timer)
    (at_ : Z) (c : barCache) : loop :=
  MkLoop (lastStatus l) q a t at_ (cmdState l) (commandGen l) (cmdIdleTimer l) (cmdCtx l)
    (savedAlertRemain l) c (termRows l) (termCols l) (stdout l ++ [rendered c]) (eventCh l).

Definition set_cmd (l : loop) (st : commandState) (g : Z) (idle ctx : option Z) : loop :=
  MkLoop (lastStatus l) (alertQueue l) (activeAlert l) (dismissTimer l) (alertStartedAt l) st g idle ctx
    (savedAlertRemain l) (cache l) (termRows l) (termCols l) (stdout l) (eventCh l).

Definition set_timer (l : loop) (t : timer) (remain : Z) : loop :=
  MkLoop (lastStatus l) (alertQueue l) (activeAlert l) t (alertStartedAt l) (cmdState l) (commandGen l)
    (cmdIdleTimer l) (cmdCtx l) remain (cache l) (termRows l) (termCols l) (stdout l) (eventCh l).

Definition set_alerts (l : loop) (q : list StatusUpdate) (a : option StatusUpdate) : loop :=
  MkLoop (lastStatus l) q a (dismissTimer l) (alertStartedAt l) (cmdState l) (commandGen l)
    (cmdIdleTimer l) (cmdCtx l) (savedAlertRemain l) (cache l) (termRows l) (termCols l) (stdout l)
    (eventCh l).

Definition set_status (l : loop) (s : gostring) : loop :=
  MkLoop s (alertQueue l) (activeAlert l) (dismissTimer l) (alertStartedAt l) (cmdState l) (commandGen l)
    (cmdIdleTimer l) (cmdCtx l) (savedAlertRemain l) (cache l) (termRows l) (termCols l) (stdout l)
    (eventCh l).

Definition set_chan (l : loop) (ch : list barEvent) : loop :=
  MkLoop (lastStatus l) (alertQueue l) (activeAlert l) (dismissTimer l) (alertStartedAt l) (cmdState l)
    (commandGen l) (cmdIdleTimer l) (cmdCtx l) (savedAlertRemain l) (cache l) (termRows l) (termCols l)
    (stdout l) ch.

Definition set_term (l : loop) (rows cols : Z) (c : barCache) (out : list gostring) : loop :=
  MkLoop (lastStatus l) (alertQueue l) (activeAlert l) (dismissTimer l) (alertStartedAt l) (cmdState l)
    (commandGen l) (cmdIdleTimer l) (cmdCtx l) (savedAlertRemain l) c rows cols (stdout l ++ out)
    (eventCh l).

Definition esc (s : gostring) : gostring := "027"%char :: s.

(** [scrollRegionSeq], [resizeScrollRegionSeq], [resizeRepairSeq]; a zero time
    is [None]. *)
Definition scrollRegionSeq (maxRow : Z) : gostring :=
  esc (gs "7") ++ esc (gs "[1;" ++ Itoa maxRow ++ gs "r") ++ esc (gs "8").
Definition resizeScrollRegionSeq (maxRow : Z) : gostring := scrollRegionSeq maxRow ++ esc (gs "[A").
Definition activeOutputResizeWindow : Z := 500 * 10 ^ 6.
Definition resizeRepairSeq (maxRow : Z) (lastOutputAt : option Z) (now : Z) : gostring :=
  match lastOutputAt with
  | Some t => if now - t <? activeOutputResizeWindow then resizeScrollRegionSeq maxRow
              else scrollRegionSeq maxRow
  | None => scrollRegionSeq maxRow
  end.

(** A bar, or nothing, written on row [row] with the cursor saved. *)
Definition atRow (row : Z) (bar : gostring) : gostring :=
  esc (gs "7") ++ esc (gs "[" ++ Itoa row ++ gs ";1H") ++ esc (gs "[K") ++ bar ++ esc (gs "8").

(** The row list of [clearResizeBarRows]. *)
Fixpoint rowsToClear (newRows : Z) (cleared : list Z) (rows : list Z) : list Z :=
  match rows with
  | [] => []
  | r :: rows' =>
      if (r <? 1) || (newRows <? r) || bool_decide (r ∈ cleared) then rowsToClear newRows cleared rows'
      else r :: rowsToClear newRows (r :: cleared) rows'
  end.

(** An alert that has to wait; the oldest makes room when the queue is full. *)
Definition enqueue (q : list StatusUpdate) (su : StatusUpdate) : list StatusUpdate :=
  (if (maxAlertQueue <=? length q)%nat then drop 1 q else q) ++ [su].
#[global] Arguments enqueue : simpl never.

Lemma enqueue_lastn q su : (length q ≤ maxAlertQueue)%nat → enqueue q su = lastn maxAlertQueue (q ++ [su]).
Proof.
  unfold enqueue, lastn. intros Hq. rewrite length_app. cbn [length].
  destruct (Nat.leb_spec maxAlertQueue (length q)) as [Hle|Hlt].
  - replace (length q + 1 - maxAlertQueue)%nat with 1%nat by lia.
    destruct q; [unfold maxAlertQueue in Hle; cbn in Hle; lia|]. done.
  - by replace (length q + 1 - maxAlertQueue)%nat with 0%nat by lia.
Qed.

Section event_loop.
Context `{TermText}.

Definition renderBarEsc (l : loop) (msg : gostring) (alert : bool) : gostring :=
  atRow (termRows l) (RenderStatusBar msg (Z.max (termCols l - 1) 1) alert).

Definition renderCommandBarEsc (l : loop) (tgt : gostring) (hints : list KeyHint) : gostring :=
  atRow (termRows l) (RenderCommandBar tgt hints (Z.max (termCols l - 1) 1) (bool_decide (tgt ≠ []))).

Definition clearBarEsc (l : loop) : gostring := atRow (termRows l) [].

Definition effTimeout (su : StatusUpdate) : Z := if Timeout su <=? 0 then DefaultTimeout else Timeout su.

Definition showAlert (now : Z) (l : loop) (su : StatusUpdate) : loop :=
  set_bar l (alertQueue l) (Some su) (TRunning (effTimeout su)) now
    (MkCache (renderBarEsc l (Message su) true) (Message su) barAlert [] []).

Definition showStatus (l : loop) (msg : gostring) : loop :=
  set_bar l (alertQueue l) (activeAlert l) (dismissTimer l) (alertStartedAt l)
    (MkCache (renderBarEsc l msg false) msg barStatus [] []).

Definition showCleared (l : loop) : loop :=
  set_bar l (alertQueue l) (activeAlert l) (dismissTimer l) (alertStartedAt l)
    (MkCache (clearBarEsc l) [] barCleared [] []).

(** The next queued alert, the last status, or an empty bar. *)
Definition showNext (now : Z) (l : loop) : loop :=
  match alertQueue l with
  | next :: q => showAlert now (set_alerts l q (activeAlert l)) next
  | [] => if bool_decide (lastStatus l ≠ []) then showStatus l (lastStatus l) else showCleared l
  end.

Definition visibleKeys (l : loop) : list ascii :=
  match activeAlert l with
  | None => []
  | Some a => Key <$> visibleHints (KeyHints a) (bool_decide (Target a ≠ []))
  end.

Definition exitCommandMode (l : loop) : loop := set_cmd l commandNone (commandGen l) None None.

Definition restoreAfterCommand (now : Z) (l : loop) : loop :=
  match activeAlert l with
  | Some a =>
      let l1 := showAlert now l a in
      if 0 <? savedAlertRemain l1 then set_timer l1 (TRunning (savedAlertRemain l1)) (savedAlertRemain l1)
      else l1
  | None => showNext now l
  end.

(** One event, received at time [now]. *)
Definition handle (now : Z) (l : loop) (ev : barEvent) : loop * reply :=
  match ev with
  | barEventStatus su =>
      let l1 := set_status l (Message su) in
      (if bool_decide (activeAlert l = None) && bool_decide (cmdState l = commandNone)
       then showStatus l1 (Message su) else l1, NoReply)
  | barEventAlert su =>
      if bool_decide (activeAlert l = None) && bool_decide (cmdState l = commandNone)
      then (showAlert now l su, NoReply)
      else
        (set_alerts l (enqueue (alertQueue l) su) (activeAlert l), NoReply)
  | barEventDismiss =>
      if bool_decide (cmdState l ≠ commandNone) then (l, NoReply)
      else (showNext now (set_alerts l (alertQueue l) None), NoReply)
  | barEventEnterCommand =>
      let g := wrap_uint 64 (commandGen l + 1) in
      let l1 := set_cmd l commandActive g (Some g) (Some g) in
      let l2 := match dismissTimer l with
                | TNil => l1
                | t =>
                    let timeout := match activeAlert l with
                                   | Some a => if 0 <? Timeout a then Timeout a else DefaultTimeout
                                   | None => DefaultTimeout
                                   end in
                    set_timer l1 (Stop t) (Z.max (timeout - (now - alertStartedAt l)) 0)
                end in
      let tgt := match activeAlert l with Some a => Target a | None => [] end in
      let hints := match activeAlert l with Some a => KeyHints a | None => [] end in
      (set_bar l2 (alertQueue l2) (activeAlert l2) (dismissTimer l2) (alertStartedAt l2)
         (MkCache (renderCommandBarEsc l2 tgt hints) tgt barCommand tgt hints),
       CommandResponse tgt (visibleKeys l) g)
  | barEventBeginAction g =>
      if bool_decide (cmdState l ≠ commandActive) || negb (g =? commandGen l) then (l, Ack false)
      else (set_cmd l commandPending (commandGen l) None (cmdCtx l), Ack true)
  | barEventAction g msg err =>
      if bool_decide (cmdState l ≠ commandPending) || negb (g =? commandGen l) then (l, NoReply)
      else
        let l1 := exitCommandMode l in
        match err with
        | Some e =>
            let l2 := showAlert now l1 (MkUpdate e true (2 * 10 ^ 9) [] []) in
            (set_alerts l2 (alertQueue l2) None, NoReply)
        | None =>
            if bool_decide (msg ≠ []) then
              (set_timer (showStatus (set_alerts l1 (alertQueue l1) None) msg) (TRunning (2 * 10 ^ 9))
                 (savedAlertRemain l1), NoReply)
            else (showNext now (set_alerts l1 (alertQueue l1) None), NoReply)
        end
  | barEventCancelCommand g =>
      if bool_decide (cmdState l ≠ commandActive) || negb (g =? commandGen l) then (l, NoReply)
      else (restoreAfterCommand now (exitCommandMode l), NoReply)
  end.

(** The resize handler: the repair, then the bar of the current mode. *)
Definition resize (l : loop) (w h now : Z) (lastOutputAt : option Z) : loop :=
  let cleared := if bool_decide (mode (cache l) = barHidden) then []
                 else (λ r, atRow r []) <$>
                        rowsToClear h [] [termRows l - 1; termRows l; h - 1; h] in
  let l1 := set_term l h w (cache l) (cleared ++ [resizeRepairSeq (h - 1) lastOutputAt now]) in
  let redraw r := set_term l1 h w (MkCache r (message (cache l)) (mode (cache l)) (target (cache l))
                                     (keyHints (cache l))) [r] in
  match mode (cache l) with
  | barStatus => redraw (renderBarEsc l1 (message (cache l)) false)
  | barAlert => redraw (renderBarEsc l1 (message (cache l)) true)
  | barCommand => redraw (renderCommandBarEsc l1 (target (cache l)) (keyHints (cache l)))
  | barCleared => redraw (clearBarEsc l1)
  | barHidden => l1
  end.

Definition init (rows cols : Z) : loop :=
  MkLoop [] [] None TNil 0 commandNone 0 None None 0 (MkCache [] [] barHidden [] []) rows cols [] [].

Inductive action :=
  | Recv (now : Z)                   (* the loop receives the oldest event *)
  | Send (ev : barEvent)             (* another goroutine sends *)
  | DismissFires
  | IdleFires
  | Winch (w h now : Z) (lastOutputAt : option Z).

Definition step (l : loop) (a : action) : option loop :=
  match a with
  | Recv now => match eventCh l with
                | ev :: ch => Some (handle now (set_chan l ch) ev).1
                | [] => None
                end
  | Send ev => Some (set_chan l (eventCh l ++ [ev]))
  | DismissFires =>
      if running (dismissTimer l) then
        Some (set_chan (set_timer l TStopped (savedAlertRemain l)) (eventCh l ++ [barEventDismiss]))
      else None
  | IdleFires =>
      match cmdIdleTimer l with
      | Some g => Some (set_chan (set_cmd l (cmdState l) (commandGen l) None (cmdCtx l))
                          (eventCh l ++ [barEventCancelCommand g]))
      | None => None
      end
  | Winch w h now lo => Some (resize l w h now lo)
  end.

Definition reachable (rows cols : Z) : loop → Prop := reach_from (λ a l, step l a) (init rows cols).

(** ** The invariant *)

Record inv (l : loop) : Prop := {
  inv_queue : (length (alertQueue l) ≤ maxAlertQueue)%nat;
  inv_mode : cmdState l ≠ commandNone ↔ mode (cache l) = barCommand;
  (* an alert on display or waiting will be dismissed or shown *)
  inv_alerts : cmdState l = commandNone → activeAlert l ≠ None ∨ alertQueue l ≠ [] →
    running (dismissTimer l) = true ∨ barEventDismiss ∈ eventCh l;
  (* command mode that waits for a key times out *)
  inv_idle : cmdState l = commandActive →
    cmdIdleTimer l = Some (commandGen l) ∨ barEventCancelCommand (commandGen l) ∈ eventCh l;
  (* the context of the stdin goroutine is live exactly in command mode *)
  inv_ctx : cmdCtx l = if decide (cmdState l = commandNone) then None else Some (commandGen l);
}.

(** What [showNext] leaves, outside of command mode. *)
Lemma showNext_inv now l :
  (length (alertQueue l) ≤ maxAlertQueue)%nat → cmdState l = commandNone → cmdCtx l = None →
  activeAlert l = None → inv (showNext now l).
Proof.
  intros Hq Hs Hc Ha. unfold showNext.
  destruct (alertQueue l) as [|next q] eqn:Eq; [case_bool_decide|].
  - split; cbn; rewrite ?Hs, ?Ha, ?Eq; try done. by intros _ [].
  - split; cbn; rewrite ?Hs, ?Ha, ?Eq; try done. by intros _ [].
  - split; cbn; rewrite ?Hs; try done; [|by left]. cbn in Hq. lia.
Qed.

(** An event that is taken and has no effect was not the one somebody waits for. *)
Lemma inv_pop l ev ch :
  inv l → eventCh l = ev :: ch → ev ≠ barEventDismiss →
  (cmdState l = commandActive → ev ≠ barEventCancelCommand (commandGen l)) → inv (set_chan l ch).
Proof.
  intros [Hq Hm Ha Hi Hc] Hch Hd Hx. rewrite Hch in *.
  split; cbn; try done; [intros H1 H2|intros H1].
  - destruct (Ha H1 H2) as [|[|]%elem_of_cons]; [by left|congruence|by right].
  - specialize (Hx H1). destruct (Hi H1) as [|[|]%elem_of_cons]; [by left|congruence|by right].
Qed.

Lemma handle_inv now l ev ch :
  inv l → eventCh l = ev :: ch → inv (handle now (set_chan l ch) ev).1.
Proof.
  intros Hl Hch. pose proof Hl as [Hq Hm Ha Hi Hc]. pose proof (inv_pop l ev ch Hl Hch) as Hpop.
  destruct ev as [su|su| | |g|g msg err|g]; cbn [handle].
  - destruct (Hpop ltac:(done) ltac:(done)) as [_ _ Ha' Hi' _].
    cbn. destruct (bool_decide (activeAlert l = None) && bool_decide (cmdState l = commandNone)) eqn:E;
      cbn; [|by split].
    apply andb_prop in E as [E1%bool_decide_eq_true E2%bool_decide_eq_true].
    split; cbn; try done; by rewrite E2.
  - destruct (Hpop ltac:(done) ltac:(done)) as [_ _ Ha' Hi' _].
    cbn. destruct (bool_decide (activeAlert l = None) && bool_decide (cmdState l = commandNone)) eqn:E; cbn.
    + apply andb_prop in E as [E1%bool_decide_eq_true E2%bool_decide_eq_true].
      split; cbn; try done; first [by left|by rewrite E2].
    + split; cbn; try done.
      * rewrite enqueue_lastn by done. rewrite length_lastn. lia.
      * intros H1 _. apply Ha'; [done|]. left. intros E1. cbn in E1. by rewrite E1, H1 in E.
  - cbn. case_bool_decide as Hn; cbn.
    + split; cbn; try done. intros H1. rewrite Hch in Hi. destruct (Hi H1) as [|[|]%elem_of_cons]; auto; done.
    + apply showNext_inv; cbn; try done. rewrite Hc. by rewrite decide_True.
  - cbn. destruct (dismissTimer l); cbn; (split; cbn; try done; by left).
  - cbn. destruct (bool_decide _ || _) eqn:E; cbn; [by apply Hpop|].
    apply orb_false_elim in E as [E%bool_decide_eq_false _]. apply dec_stable in E.
    split; cbn; try done; [rewrite <- Hm, E; done|]. by rewrite Hc, E.
  - cbn. destruct (bool_decide _ || _) eqn:E; cbn; [by apply Hpop|].
    destruct err as [e|]; cbn; [split; cbn; try done; by left|].
    destruct (bool_decide (msg ≠ [])); cbn; [split; cbn; try done; by left|].
    by apply showNext_inv.
  - cbn. destruct (bool_decide _ || _) eqn:E; cbn.
    + apply Hpop; [done|]. intros H1 [= Hg]. rewrite <- Hg, H1, Z.eqb_refl in E. done.
    + unfold restoreAfterCommand. cbn. destruct (activeAlert l) as [a|] eqn:Eal; cbn.
      * destruct (0 <? savedAlertRemain l); (split; cbn; try done; by left).
      * by apply showNext_inv.
Qed.

Lemma step_inv l a l' : inv l → step l a = Some l' → inv l'.
Proof.
  intros Hinv. destruct a as [now|ev| | |w h now lo]; cbn [step].
  - destruct (eventCh l) as [|ev ch] eqn:E; [done|]. intros [= <-]. by apply handle_inv.
  - intros [= <-]. destruct Hinv as [Hq Hm Ha Hi Hc]. split; cbn; try done.
    + intros H1 H2. rewrite elem_of_app. destruct (Ha H1 H2); auto.
    + intros H1. rewrite elem_of_app. destruct (Hi H1); auto.
  - destruct (running (dismissTimer l)) eqn:E; [|done]. intros [= <-].
    destruct Hinv as [Hq Hm Ha Hi Hc]. split; cbn; try done.
    + intros _ _. right. rewrite elem_of_app, list_elem_of_singleton. by right.
    + intros H1. rewrite elem_of_app. destruct (Hi H1); auto.
  - destruct (cmdIdleTimer l) as [g|] eqn:E; [|done]. intros [= <-].
    destruct Hinv as [Hq Hm Ha Hi Hc]. split; cbn; try done.
    + intros H1 H2. rewrite elem_of_app. destruct (Ha H1 H2); auto.
    + intros H1. right. rewrite elem_of_app. destruct (Hi H1) as [Hg|]; [|by left].
      right. rewrite list_elem_of_singleton. congruence.
  - intros [= <-]. destruct Hinv as [Hq Hm Ha Hi Hc]. unfold resize.
    destruct (mode (cache l)) eqn:Em; split; cbn; rewrite ?Em; done.
Qed.

Lemma reachable_inv rows cols l : reachable rows cols l → inv l.
Proof.
  induction 1 as [|l a l' _ IH Hs]; [|by eapply step_inv].
  split; cbn; try done; [lia|]. by intros _ [].
Qed.

(** ** Properties *)

(** The report of the action that is under way ends command mode. *)
Lemma action_ends now l msg err :
  cmdState l = commandPending → cmdState (handle now l (barEventAction (commandGen l) msg err)).1 = commandNone.
Proof.
  intros Hp. cbn [handle]. rewrite Hp, Z.eqb_refl. cbn. unfold showNext. by repeat case_match.
Qed.

(** C40: the bar cannot get stuck, in any order of events, timer firings, sends
    and resizes.  An alert on display or in the queue has its dismissal running
    or on its way; command mode shows the command bar and nothing else does;
    while it waits for a key its time-out is running or on its way, and while an
    action is under way, when the time-out is stopped, the report of that action
    ends it; at most 64 alerts wait; the context given to the stdin goroutine is live exactly
    while command mode of that generation is on. *)
Theorem bar_never_stuck rows cols l :
  reachable rows cols l →
  (length (alertQueue l) ≤ 64)%nat ∧
  (mode (cache l) = barCommand ↔ cmdState l ≠ commandNone) ∧
  (cmdState l = commandNone → activeAlert l ≠ None ∨ alertQueue l ≠ [] →
    running (dismissTimer l) = true ∨ barEventDismiss ∈ eventCh l) ∧
  (cmdState l = commandActive →
    cmdIdleTimer l = Some (commandGen l) ∨ barEventCancelCommand (commandGen l) ∈ eventCh l) ∧
  (cmdState l = commandPending → ∀ now msg err,
    cmdState (handle now l (barEventAction (commandGen l) msg err)).1 = commandNone) ∧
  (cmdCtx l = if decide (cmdState l = commandNone) then None else Some (commandGen l)).
Proof.
  intros [Hq Hm Ha Hi Hc]%reachable_inv. split_and!; try done; try (by rewrite Hm).
  intros Hp now msg err. by apply action_ends.
Qed.

(** A key only acts on the alert it was shown for.  The loop acknowledges an
    action only for the current command generation, while it waits for a key;
    the same acknowledgement is never given twice, and neither a stale action
    nor a stale cancellation of an older generation changes anything. *)
Theorem action_handshake now l g l' r :
  handle now l (barEventBeginAction g) = (l', r) →
  (r = Ack true ↔ cmdState l = commandActive ∧ g = commandGen l) ∧
  (r = Ack true → ∀ now' g', (handle now' l' (barEventBeginAction g')).2 = Ack false) ∧
  (r ≠ Ack true → l' = l) ∧
  (g ≠ commandGen l → (∀ msg err, handle now l (barEventAction g msg err) = (l, NoReply)) ∧
                      handle now l (barEventCancelCommand g) = (l, NoReply)).
Proof.
  cbn [handle]. intros Hh.
  assert (Hstale : g ≠ commandGen l → (g =? commandGen l) = false) by (apply Z.eqb_neq).
  destruct (bool_decide (cmdState l ≠ commandActive) || negb (g =? commandGen l)) eqn:E;
    injection Hh as <- <-.
  - split_and!; [|done|done|].
    + split; [done|]. intros [H1 ->]. rewrite H1, Z.eqb_refl in E. done.
    + intros Hg. cbn [handle]. rewrite Hstale, !orb_true_r by done. done.
  - apply orb_false_elim in E as [E1%bool_decide_eq_false E2%negb_false_iff%Z.eqb_eq].
    apply dec_stable in E1. split_and!; try done.
Qed.

(** Queued alerts are kept in order.  An alert that cannot be shown at once
    is appended, and when 64 are waiting the oldest is given up for it; a
    dismissal outside of command mode shows the oldest one. *)
Theorem alert_queue_order now l su :
  (length (alertQueue l) ≤ maxAlertQueue)%nat →
  (activeAlert l ≠ None ∨ cmdState l ≠ commandNone →
    alertQueue (handle now l (barEventAlert su)).1 = lastn 64 (alertQueue l ++ [su])) ∧
  (∀ next q, cmdState l = commandNone → alertQueue l = next :: q →
    let l' := (handle now l barEventDismiss).1 in
    activeAlert l' = Some next ∧ alertQueue l' = q ∧ mode (cache l') = barAlert).
Proof.
  unfold maxAlertQueue. intros Hq. split.
  - intros Hb. cbn [handle].
    assert (Hf : bool_decide (activeAlert l = None) && bool_decide (cmdState l = commandNone) = false).
    { apply andb_false_iff. destruct Hb; [left|right]; by apply bool_decide_eq_false. }
    rewrite Hf. cbn. by apply enqueue_lastn.
  - intros next q Hs Eq. cbn [handle]. rewrite Hs. cbn. unfold showNext. cbn. rewrite Eq. done.
Qed.
End event_loop.

(** ** A concrete run *)

#[local] Existing Instance byte_text.

Definition demo_alert : StatusUpdate :=
  MkUpdate (gs "blocked") true 0 (gs "a.com:443") [MkHint "a" (gs "allow") true].

Definition run : list action → loop → option loop := run_steps (λ a l, step l a).

Lemma loop_run_reachable rows cols acts l l' :
  reachable rows cols l → run acts l = Some l' → reachable rows cols l'.
Proof. apply run_steps_reach. Qed.

(** Two alerts, then command mode entered while the first is shown. *)
Definition demo_actions : list action :=
  [Send (barEventAlert demo_alert); Send (barEventAlert demo_alert); Send barEventEnterCommand;
   Recv 1; Recv 2; Recv 3].

Definition demo_loop : loop := default (init 24 80) (run demo_actions (init 24 80)).

Lemma demo_loop_reachable : reachable 24 80 demo_loop.
Proof.
  assert (Hr : run demo_actions (init 24 80) = Some demo_loop) by (vm_compute; reflexivity).
  exact (loop_run_reachable 24 80 _ _ _ (reach_start _ _) Hr).
Qed.

Lemma bar_never_stuck_witness :
  cmdState demo_loop = commandActive ∧ length (alertQueue demo_loop) = 1%nat ∧
  (cmdIdleTimer demo_loop = Some (commandGen demo_loop) ∨
   barEventCancelCommand (commandGen demo_loop) ∈ eventCh demo_loop).
Proof.
  split; [vm_compute; reflexivity|]. split; [vm_compute; reflexivity|].
  apply (bar_never_stuck 24 80 demo_loop demo_loop_reachable). vm_compute. reflexivity.
Defined.

Lemma action_handshake_witness :
  let '(l', r) := handle 4 demo_loop (barEventBeginAction 1) in
  r = Ack true ∧ ∀ now' g', (handle now' l' (barEventBeginAction g')).2 = Ack false.
Proof.
  destruct (handle 4 demo_loop (barEventBeginAction 1)) as [l' r] eqn:Hh.
  destruct (action_handshake 4 demo_loop 1 l' r Hh) as (H1 & H2 & _).
  assert (Hr : r = Ack true) by (apply H1; split; vm_compute; reflexivity).
  split; [exact Hr|exact (H2 Hr)].
Defined.

Lemma alert_queue_order_witness :
  alertQueue (handle 4 demo_loop (barEventAlert demo_alert)).1 = lastn 64 (alertQueue demo_loop ++ [demo_alert]).
Proof.
  assert (Hq : (length (alertQueue demo_loop) ≤ maxAlertQueue)%nat)
    by (apply Nat.leb_le; vm_compute; reflexivity).
  assert (Hc : cmdState demo_loop ≠ commandNone) by (vm_compute; discriminate).
  exact (proj1 (alert_queue_order 4 demo_loop demo_alert Hq) (or_intror Hc)).
Defined.
