(* ===== verification/WardInput.v ===== *)
(** * Ward's input path ([ward/command.go], and the stdin goroutine of
    [ward/wrapper.go])

    Keystrokes go to the child, except for the hotkey and what follows it in
    command mode.  The event loop is seen through the messages exchanged with
    it: an interface of operations on an abstract state. *)

From S2P Require Import Prelude GoStrings.

Record commandResponse := MkResponse {
  Target : gostring; VisibleKeys : list ascii; Gen : Z }.

(** The other side of [eventCh]: entering command mode waits for a response,
    beginning an action for an acknowledgement; [ctxDone] asks whether the
    context of a generation was cancelled; [onKey] is the action callback with
    the result reported. *)
Class CommandLoop (E : Type) := {
  enterCommand : E → E * commandResponse;
  cancelCommand : E → Z → E;
  beginAction : E → Z → E * bool;
  ctxDone : E → Z → E * bool;
  onKey : E → Z → ascii → gostring → E;
}.

Section input.
Context {E : Type} `{CommandLoop E}.
(** Whether an [OnKey] callback is configured, and the hotkey. *)
Context (enabled : bool) (hotkey : ascii).

Definition escKey : ascii := "027"%char.

(** [processInput]: the bytes written to the PTY, in order, and whether command
    mode is still on; [h] is the handler's state. *)
Fixpoint processInput (e : E) (data : gostring) (inCommand : bool) (h : commandResponse) :
    E * (gostring * (bool * commandResponse)) :=
  match data with
  | [] => (e, ([], (inCommand, h)))
  | b :: rest =>
      if negb inCommand then
        if negb enabled then (e, (data, (false, h)))
        else if bool_decide (b = hotkey) then
          let '(e1, resp) := enterCommand e in processInput e1 rest true resp
        else
          let '(e1, (out, st)) := processInput e rest false h in (e1, (b :: out, st))
      else
        let '(e1, cancelled) := ctxDone e (Gen h) in
        if cancelled then (e1, (data, (false, h)))
        else if bool_decide (b = escKey) then (cancelCommand e1 (Gen h), (rest, (false, h)))
        else if bool_decide (b = hotkey) then
          (cancelCommand e1 (Gen h), (hotkey :: rest, (false, h)))
        else if negb (bool_decide (b ∈ VisibleKeys h)) then processInput e1 rest true h
        else
          let '(e2, ack) := beginAction e1 (Gen h) in
          if negb ack then (e2, (rest, (false, h)))
          else (onKey e2 (Gen h) b (Target h), (rest, (false, h)))
  end.

(** One read of the stdin goroutine with a handler. *)
Definition stdinChunk (e : E) (data : gostring) (inCommand : bool) (h : commandResponse) :
    E * (gostring * (bool * commandResponse)) :=
  if inCommand then
    let '(e1, cancelled) := ctxDone e (Gen h) in
    processInput e1 data (negb cancelled) h
  else processInput e data false h.

Lemma processInput_sublist e data inCommand h :
  (processInput e data inCommand h).2.1 `sublist_of` data.
Proof.
  revert e inCommand h. induction data as [|b rest IH]; intros e inCommand h; cbn; [done|].
  destruct inCommand; cbn.
  - destruct (ctxDone e (Gen h)) as [e1 [|]]; cbn; [done|].
    destruct (bool_decide (b = escKey)); cbn; [by apply sublist_cons|].
    destruct (bool_decide_reflect (b = hotkey)) as [->|]; cbn; [done|].
    destruct (bool_decide _); cbn; [|by apply sublist_cons].
    destruct (beginAction _ _) as [e2 [|]]; cbn; by apply sublist_cons.
  - destruct enabled; cbn; [|done]. destruct (bool_decide (b = hotkey)).
    + destruct (enterCommand e) as [e1 resp]. apply sublist_cons. apply IH.
    + specialize (IH e false h). destruct (processInput e rest false h) as [e1 [out st]].
      by apply sublist_skip.
Qed.

Lemma processInput_plain e pre data h :
  enabled = true → hotkey ∉ pre →
  processInput e (pre ++ data) false h =
  let '(e1, (out, st)) := processInput e data false h in (e1, (pre ++ out, st)).
Proof.
  intros Hen. induction pre as [|b pre IH]; cbn.
  - intros _. by destruct (processInput e data false h) as [? [? ?]].
  - rewrite not_elem_of_cons. intros [Hb Hpre]. rewrite Hen. cbn.
    rewrite bool_decide_eq_false_2 by congruence. rewrite IH by done.
    by destruct (processInput e data false h) as [? [? ?]].
Qed.

(** The reads of the goroutine one after the other: what each wrote. *)
Fixpoint stdinRun (e : E) (chunks : list gostring) (inCommand : bool) (h : commandResponse) :
    E * (list gostring * (bool * commandResponse)) :=
  match chunks with
  | [] => (e, ([], (inCommand, h)))
  | data :: chunks' =>
      let '(e1, (out, (inCommand', h'))) := stdinChunk e data inCommand h in
      let '(e2, (outs, st)) := stdinRun e1 chunks' inCommand' h' in (e2, (out :: outs, st))
  end.

Lemma stdinChunk_sublist e data inCommand h : (stdinChunk e data inCommand h).2.1 `sublist_of` data.
Proof.
  unfold stdinChunk. destruct inCommand; [|apply processInput_sublist].
  destruct (ctxDone e (Gen h)). apply processInput_sublist.
Qed.

Lemma stdinRun_sublist e chunks inCommand h :
  concat (stdinRun e chunks inCommand h).2.1 `sublist_of` concat chunks.
Proof.
  revert e inCommand h. induction chunks as [|data chunks IH]; intros e inCommand h; cbn; [done|].
  pose proof (stdinChunk_sublist e data inCommand h) as Hd.
  destruct (stdinChunk e data inCommand h) as [e1 [out [c1 h1]]].
  specialize (IH e1 c1 h1). destruct (stdinRun e1 chunks c1 h1) as [e2 [outs st]]. cbn in *.
  by apply sublist_app.
Qed.

(** A key that command mode ignores, and what it takes of the input: while it
    stays on, keys to ignore only; when it ends, such keys and then nothing (the
    hotkey is passed on, or the mode had been cancelled), the escape key or the
    key of an action.  All that comes after is passed on. *)
Definition ignored (h : commandResponse) (k : ascii) : Prop :=
  k ∉ VisibleKeys h ∧ k ≠ escKey ∧ k ≠ hotkey.

Definition commandTakes (h : commandResponse) (data out : gostring) (on : bool) : Prop :=
  ∃ skip key, data = skip ++ key ++ out ∧ Forall (ignored h) skip ∧
    if on then key = [] ∧ out = []
    else key = [] ∨ key = [escKey] ∨ ∃ k, key = [k] ∧ k ∈ VisibleKeys h.

Lemma processInput_command e data h :
  ∃ out on, (processInput e data true h).2 = (out, (on, h)) ∧ commandTakes h data out on.
Proof.
  revert e. induction data as [|b rest IH]; intros e; cbn.
  { exists [], true. split; [done|]. by exists [], []. }
  destruct (ctxDone e (Gen h)) as [e1 [|]]; cbn.
  { exists (b :: rest), false. split; [done|]. exists [], []. auto. }
  destruct (bool_decide_reflect (b = escKey)) as [->|Hesc]; cbn.
  { exists rest, false. split; [done|]. exists [], [escKey]. auto. }
  destruct (bool_decide_reflect (b = hotkey)) as [->|Hhot]; cbn.
  { exists (hotkey :: rest), false. split; [done|]. exists [], []. auto. }
  case_bool_decide as Hvis; cbn.
  - destruct (beginAction e1 (Gen h)) as [e2 [|]]; cbn; exists rest, false; (split; [done|]);
      exists [], [b]; split_and!; eauto.
  - destruct (IH e1) as (out & on & -> & skip & key & -> & Hs & Hk). exists out, on. split; [done|].
    exists (b :: skip), key. split_and!; [done| |done]. by constructor.
Qed.

(** The hotkey as the first key of command mode, while its context is alive. *)
Lemma processInput_doubled e rest h :
  hotkey ≠ escKey → (ctxDone e (Gen h)).2 = false →
  (processInput e (hotkey :: rest) true h).2 = (hotkey :: rest, (false, h)).
Proof.
  intros Hne Hd. cbn [processInput negb]. destruct (ctxDone e (Gen h)) as [e1 c]. cbn in Hd. subst c.
  rewrite bool_decide_eq_false_2 by done. by rewrite bool_decide_eq_true_2.
Qed.

(** Reading up to the hotkey. *)
Lemma stdinChunk_hotkey e pre data h :
  enabled = true → hotkey ∉ pre →
  stdinChunk e (pre ++ hotkey :: data) false h =
  let '(e1, resp) := enterCommand e in
  let '(e2, (out, st)) := processInput e1 data true resp in (e2, (pre ++ out, st)).
Proof.
  intros Hen Hpre. unfold stdinChunk. rewrite processInput_plain by done. cbn [processInput negb].
  rewrite Hen. cbn [negb]. rewrite bool_decide_eq_true_2 by done. by destruct (enterCommand e).
Qed.

(** C17: input reaches the child faithfully.  In normal mode a read without the
    hotkey is passed on whole and the event loop is not involved; one with the
    hotkey is passed on up to it, command mode then takes only keys it ignores
    and the one key that ends it, and all that follows in the read is passed on;
    the same holds for a read that begins in command mode.  Typing the hotkey
    twice, in one read or in two, sends it once with all that follows, as long as
    command mode has not been cancelled in between.  Over any sequence of reads
    no byte is invented, duplicated or reordered. *)
Theorem input_faithful e pre rest h :
  enabled = true → hotkey ∉ pre → hotkey ≠ escKey →
  stdinChunk e pre false h = (e, (pre, (false, h))) ∧
  (∀ data, ∃ out on, (stdinChunk e (pre ++ hotkey :: data) false h).2 = (pre ++ out, (on, (enterCommand e).2)) ∧
     commandTakes (enterCommand e).2 data out on) ∧
  (∀ data, (ctxDone e (Gen h)).2 = false →
     ∃ out on, (stdinChunk e data true h).2 = (out, (on, h)) ∧ commandTakes h data out on) ∧
  (let '(e1, resp) := enterCommand e in let '(e2, gone) := ctxDone e1 (Gen resp) in
   gone = false →
   (stdinChunk e (pre ++ hotkey :: hotkey :: rest) false h).2 = (pre ++ hotkey :: rest, (false, resp)) ∧
   ((ctxDone e2 (Gen resp)).2 = false →
    (stdinRun e [pre ++ [hotkey]; hotkey :: rest] false h).2 = ([pre; hotkey :: rest], (false, resp)))) ∧
  (∀ e' chunks inCommand h', concat (stdinRun e' chunks inCommand h').2.1 `sublist_of` concat chunks).
Proof.
  intros Hen Hpre Hne. split_and!.
  - pose proof (processInput_plain e pre [] h Hen Hpre) as Hp. rewrite app_nil_r in Hp.
    unfold stdinChunk. rewrite Hp. cbn. by rewrite app_nil_r.
  - intros data. rewrite stdinChunk_hotkey by done. destruct (enterCommand e) as [e1 resp].
    destruct (processInput_command e1 data resp) as (out & on & Hp & Hc). exists out, on. split; [|done].
    destruct (processInput e1 data true resp) as [e2 [out' st]]. cbn in *. by simplify_eq.
  - intros data Hd. unfold stdinChunk. destruct (ctxDone e (Gen h)) as [e1 c]. cbn in Hd. subst c.
    apply processInput_command.
  - pose proof (λ data, stdinChunk_hotkey e pre data h Hen Hpre) as Hchunk.
    destruct (enterCommand e) as [e1 resp]. destruct (ctxDone e1 (Gen resp)) as [e2 gone] eqn:Hd.
    intros ->. split.
    + rewrite Hchunk. pose proof (processInput_doubled e1 rest resp Hne) as Hp. rewrite Hd in Hp.
      specialize (Hp eq_refl). destruct (processInput e1 _ true resp) as [? [? ?]]. cbn in *. by simplify_eq.
    + intros Hd2. cbn [stdinRun]. rewrite Hchunk. cbn [processInput]. unfold stdinChunk. rewrite Hd. cbn [negb].
      pose proof (processInput_doubled e2 rest resp Hne Hd2) as Hp.
      destruct (processInput e2 _ true resp) as [? [? [? ?]]]. cbn in *. simplify_eq. by rewrite app_nil_r.
  - intros. apply stdinRun_sublist.
Qed.
End input.

(** A loop that always grants; its state is the log of messages. *)
#[local] Instance granting_loop : CommandLoop (list string) := {|
  enterCommand e := (e ++ ["enter"%string], MkResponse (gs "a.com:443") ["a"%char] 1);
  cancelCommand e _ := e ++ ["cancel"%string];
  beginAction e _ := (e ++ ["begin"%string], true);
  ctxDone e _ := (e, false);
  onKey e _ _ _ := e ++ ["key"%string] |}.

Definition ctrl_bracket : ascii := "029"%char.

(** Typed one key at a time. *)
Lemma input_faithful_witness :
  (stdinRun true ctrl_bracket [] [gs "ls" ++ [ctrl_bracket]; ctrl_bracket :: gs "x"] false (MkResponse [] [] 0)).2.1 =
    [gs "ls"; ctrl_bracket :: gs "x"] ∧
  (stdinChunk true ctrl_bracket [] (gs "ls" ++ ctrl_bracket :: gs "zax") false (MkResponse [] [] 0)).2.1 = gs "lsx".
Proof.
  split; [|vm_compute; reflexivity].
  destruct (input_faithful true ctrl_bracket [] (gs "ls") (gs "x") (MkResponse [] [] 0) eq_refl)
    as (_ & _ & _ & Hd & _).
  - apply (bool_decide_unpack _). vm_compute. exact I.
  - discriminate.
  - destruct (Hd eq_refl) as [_ Hr]. rewrite (Hr eq_refl). reflexivity.
Defined.
