(* ===== verification/WardRun.v ===== *)
(** * Ward from start to exit ([ward/wrapper.go: NewWrapper, Run])

    [Run] starts the child on a PTY, reserves the last row of the terminal, and
    leaves the work to goroutines: one copies the child's output ([WardScan.v]),
    one owns the bar ([WardLoop.v]), one merges status updates into its events,
    one handles SIGWINCH.  When the child has exited it waits for the output,
    stops the event loop and waits for it, and gives the terminal back.  This
    file composes them over one standard output, in every interleaving. *)

From S2P Require Import Prelude GoStrings WardScan WardBar WardLoop.
Open Scope Z_scope.

(** ** Options and sizes *)

Record Options := MkOptions {
  Command : list gostring; Hotkey : ascii; Env : list gostring; hasStatus : bool; hasOnKey : bool }.

Definition NewWrapper (o : Options) : Options :=
  if bool_decide (Hotkey o = "000"%char)
  then MkOptions (Command o) "029"%char (Env o) (hasStatus o) (hasOnKey o) else o.

(** The environment of the child: later assignments win, so the options' do. *)
Definition childEnv (environ : list gostring) (o : Options) : list gostring := environ ++ Env o.

(** What the terminal is: which ends are terminals, and the sizes they report. *)
Record terminal := MkTerminal {
  stdinIsTTY : bool; stdoutIsTTY : bool; stdinSize : option (Z * Z); stdoutSize : option (Z * Z);
  makeRawOk : bool }.

Definition isTTY (t : terminal) : bool := stdinIsTTY t && stdoutIsTTY t.

(** Columns and rows. *)
Definition startSize (t : terminal) : Z * Z :=
  if stdoutIsTTY t then default (80, 24) (stdoutSize t)
  else if stdinIsTTY t then default (80, 24) (stdinSize t)
  else (80, 24).

Definition startSeq (rows : Z) : gostring :=
  esc (gs "7") ++ esc (gs "[1S") ++ esc (gs "[1;" ++ Itoa (rows - 1) ++ gs "r") ++ esc (gs "8") ++ esc (gs "[A").

(** [pty.Winsize]: rows without the bar's, at 16 bits. *)
Definition winsize (cols rows : Z) : Z * Z := (wrap_uint 16 (rows - 1), wrap_uint 16 cols).

(** ** The state *)

(** Who wrote to standard output. *)
Inductive source := SStart | SChild | SRepair | SBar | SResize | SRestore.

#[global] Instance source_eq_dec : EqDecision source.
Proof. solve_decision. Defined.

(** How the child ended, and what [Run] returns for it. *)
Inductive waitResult := WaitOK | WaitExit (code : Z) | WaitFailed.
Definition exitOf (w : waitResult) : Z * bool :=
  match w with WaitOK => (0, true) | WaitExit code => (code, true) | WaitFailed => (0, false) end.

(** Where [Run] is; the deferred calls run in reverse order. *)
Inductive mainPC := MWaiting | MDraining | MClosing | MJoining | MRestoring | MStopping | MUnraw | MReturned (r : Z * bool).

Record ward := MkWard {
  main : mainPC;
  child : option waitResult;
  holders : nat;              (* processes that have the PTY open *)
  fed : gostring;             (* everything written to the PTY *)
  unread : gostring;          (* the part that was not read yet *)
  copier : bool;              (* the output goroutine runs *)
  out : outState;
  bar : loop;                 (* the event loop's variables and the shared bar *)
  loopRuns : bool;
  doneClosed : bool;
  notified : bool;            (* SIGWINCH goes to sigCh *)
  sigPending : bool;          (* sigCh has one slot *)
  lastOutputAt : option Z;
  ptySize : Z * Z;
  rawMode : bool;
  screen : list (source * gostring);
}.

Section ward.
Context `{TermText} (t : terminal).

Definition start : ward :=
  let '(cols, rows) := startSize t in
  MkWard MWaiting None 1 [] [] true initOut (init rows cols) true false true false None (winsize cols rows)
    (isTTY t && makeRawOk t) (if stdoutIsTTY t then [(SStart, startSeq rows)] else []).

(** [pty.Start] may fail, and then nothing else has happened. *)
Definition Run (ptyStarts : bool) : result () ward := if ptyStarts then Ok start else Err ().

Definition setMain (s : ward) (m : mainPC) : ward :=
  MkWard m (child s) (holders s) (fed s) (unread s) (copier s) (out s) (bar s) (loopRuns s) (doneClosed s)
    (notified s) (sigPending s) (lastOutputAt s) (ptySize s) (rawMode s) (screen s).
Definition setProcs (s : ward) (c : option waitResult) (n : nat) : ward :=
  MkWard (main s) c n (fed s) (unread s) (copier s) (out s) (bar s) (loopRuns s) (doneClosed s)
    (notified s) (sigPending s) (lastOutputAt s) (ptySize s) (rawMode s) (screen s).
Definition setBar (s : ward) (l : loop) (src : source) (visible : bool) : ward :=
  MkWard (main s) (child s) (holders s) (fed s) (unread s) (copier s) (out s) l (loopRuns s) (doneClosed s)
    (notified s) (sigPending s) (lastOutputAt s) (ptySize s) (rawMode s)
    (screen s ++ (if visible then pair src <$> drop (length (stdout (bar s))) (stdout l) else [])).

(** The last row is given back and cleared. *)
Definition restoreWrites (rows : Z) : list (source * gostring) :=
  [(SRestore, scrollRegionSeq rows); (SRestore, atRow rows [])].

(** The next step of [Run] itself. *)
Definition mainStep (s : ward) : option ward :=
  match main s with
  | MWaiting => match child s with Some _ => Some (setMain s MDraining) | None => None end
  | MDraining => if copier s then None else Some (setMain s MClosing)
  | MClosing =>
      Some (MkWard MJoining (child s) (holders s) (fed s) (unread s) (copier s) (out s) (bar s) (loopRuns s) true
              (notified s) (sigPending s) (lastOutputAt s) (ptySize s) (rawMode s) (screen s))
  | MJoining => if loopRuns s then None else Some (setMain s MRestoring)
  | MRestoring =>
      Some (MkWard MStopping (child s) (holders s) (fed s) (unread s) (copier s) (out s) (bar s) (loopRuns s)
              (doneClosed s) (notified s) (sigPending s) (lastOutputAt s) (ptySize s) (rawMode s)
              (screen s ++ if stdoutIsTTY t then restoreWrites (termRows (bar s)) else []))
  | MStopping =>
      Some (MkWard MUnraw (child s) (holders s) (fed s) (unread s) (copier s) (out s) (bar s) (loopRuns s)
              (doneClosed s) false (sigPending s) (lastOutputAt s) (ptySize s) (rawMode s) (screen s))
  | MUnraw =>
      r ← child s;
      Some (MkWard (MReturned (exitOf r)) (child s) (holders s) (fed s) (unread s) (copier s) (out s) (bar s)
              (loopRuns s) (doneClosed s) (notified s) (sigPending s) (lastOutputAt s) (ptySize s) false (screen s))
  | MReturned _ => None
  end.

(** What the output goroutine reads of the shared bar. *)
Definition shownBar (l : loop) : option gostring :=
  if bool_decide (mode (cache l) = barHidden) then None else Some (rendered (cache l)).

Definition readChunk (s : ward) (n : nat) (now : Z) : ward :=
  let data := take n (unread s) in
  let '(o, (written, injected)) :=
    outputChunk (stdoutIsTTY t) (scrollRegionSeq (termRows (bar s) - 1)) (shownBar (bar s)) (out s) data in
  MkWard (main s) (child s) (holders s) (fed s) (drop n (unread s)) (copier s) o (bar s) (loopRuns s)
    (doneClosed s) (notified s) (sigPending s) (Some now) (ptySize s) (rawMode s)
    (screen s ++ (SChild, written) :: (if bool_decide (injected = []) then [] else [(SRepair, injected)])).

(** The SIGWINCH goroutine takes the pending signal; [size] is what the terminal
    reports. *)
Definition winch (s : ward) (size : option (Z * Z)) (now : Z) : ward :=
  let s1 := MkWard (main s) (child s) (holders s) (fed s) (unread s) (copier s) (out s) (bar s) (loopRuns s)
              (doneClosed s) (notified s) false (lastOutputAt s) (ptySize s) (rawMode s) (screen s) in
  match (if isTTY t then size else None) with
  | None => s1
  | Some (w, h) =>
      let s2 := setBar s1 (resize (bar s) w h now (lastOutputAt s)) SResize true in
      MkWard (main s2) (child s2) (holders s2) (fed s2) (unread s2) (copier s2) (out s2) (bar s2) (loopRuns s2)
        (doneClosed s2) (notified s2) (sigPending s2) (lastOutputAt s2) (winsize w h) (rawMode s2) (screen s2)
  end.

Inductive wlabel :=
  | WWrites (data : gostring)      (* a process writes to its terminal *)
  | WFork                          (* a process hands the terminal on *)
  | WLeaves                        (* a process other than the child closes it *)
  | WExit (r : waitResult)         (* the child exits *)
  | WRead (n : nat) (now : Z)
  | WReadErr                       (* no one has the terminal open: EIO *)
  | WStatus (su : StatusUpdate)    (* the merging goroutine forwards an update *)
  | WLoop (a : action)             (* the event loop, its timers and its senders *)
  | WLoopDone
  | WSignal
  | WResize (size : option (Z * Z)) (now : Z)
  | WMain.

Definition isWinch (a : action) : bool := match a with Winch _ _ _ _ => true | _ => false end.

Definition wardStep (l : wlabel) (s : ward) : option ward :=
  match l with
  | WWrites data =>
      if (0 <? holders s)%nat then
        Some (MkWard (main s) (child s) (holders s) (fed s ++ data) (unread s ++ data) (copier s) (out s) (bar s)
                (loopRuns s) (doneClosed s) (notified s) (sigPending s) (lastOutputAt s) (ptySize s) (rawMode s)
                (screen s))
      else None
  | WFork => if (0 <? holders s)%nat then Some (setProcs s (child s) (S (holders s))) else None
  | WLeaves =>
      let others := match child s with Some _ => holders s | None => Nat.pred (holders s) end in
      if (0 <? others)%nat then Some (setProcs s (child s) (Nat.pred (holders s))) else None
  | WExit r =>
      match child s with
      | None => Some (setProcs s (Some r) (Nat.pred (holders s)))
      | Some _ => None
      end
  | WRead n now =>
      if copier s && (0 <? n)%nat && (n <=? length (unread s))%nat && (Z.of_nat n <=? 32768)
      then Some (readChunk s n now) else None
  | WReadErr =>
      if copier s && (holders s =? 0)%nat && bool_decide (unread s = []) then
        Some (MkWard (main s) (child s) (holders s) (fed s) (unread s) false (out s) (bar s) (loopRuns s)
                (doneClosed s) (notified s) (sigPending s) (lastOutputAt s) (ptySize s) (rawMode s) (screen s))
      else None
  | WStatus su =>
      l' ← step (bar s) (Send (if Alert su then barEventAlert su else barEventStatus su));
      Some (setBar s l' SBar (stdoutIsTTY t))
  | WLoop a =>
      if loopRuns s && negb (isWinch a) then l' ← step (bar s) a; Some (setBar s l' SBar (stdoutIsTTY t))
      else None
  | WLoopDone =>
      if doneClosed s then
        Some (MkWard (main s) (child s) (holders s) (fed s) (unread s) (copier s) (out s) (bar s) false
                (doneClosed s) (notified s) (sigPending s) (lastOutputAt s) (ptySize s) (rawMode s) (screen s))
      else None
  | WSignal =>
      if notified s then
        Some (MkWard (main s) (child s) (holders s) (fed s) (unread s) (copier s) (out s) (bar s) (loopRuns s)
                (doneClosed s) (notified s) true (lastOutputAt s) (ptySize s) (rawMode s) (screen s))
      else None
  | WResize size now => if sigPending s then Some (winch s size now) else None
  | WMain => mainStep s
  end.

Notation wardReach := (reach_from wardStep start).
Notation wardRun := (run_steps wardStep).

(** ** The invariant *)

Definition childBytes (l : list (source * gostring)) : gostring :=
  concat (omap (λ w, if bool_decide (w.1 = SChild) then Some w.2 else None) l).

#[local] Arguments childBytes : simpl never.

Lemma childBytes_cons src b l : childBytes ((src, b) :: l) = (if bool_decide (src = SChild) then b else []) ++ childBytes l.
Proof. unfold childBytes. cbn. by destruct (bool_decide (src = SChild)). Qed.

Lemma childBytes_app l k : childBytes (l ++ k) = childBytes l ++ childBytes k.
Proof. unfold childBytes. by rewrite omap_app, concat_app. Qed.

Lemma childBytes_tag src l : src ≠ SChild → childBytes (pair src <$> l) = [].
Proof. intros Hs. induction l as [|b l IH]; [done|].
  cbn [fmap list_fmap]. by rewrite childBytes_cons, bool_decide_eq_false_2. Qed.

(** How far [Run] is. *)
Definition rank (m : mainPC) : nat :=
  match m with
  | MWaiting => 0 | MDraining => 1 | MClosing => 2 | MJoining => 3 | MRestoring => 4 | MStopping => 5
  | MUnraw => 6 | MReturned _ => 7
  end.

(** The screen after the restoration: nothing but what a resize writes. *)
Definition restored (l : list (source * gostring)) : Prop :=
  ∃ pre rows post, l = pre ++ restoreWrites rows ++ post ∧ Forall (λ w, w.1 = SResize) post.

Record winv (s : ward) : Prop := {
  wi_bytes : childBytes (screen s) ++ unread s = fed s;
  wi_child : child s = None → (0 < holders s)%nat;
  wi_copier : copier s = false → unread s = [] ∧ holders s = 0%nat;
  wi_exited : (1 ≤ rank (main s))%nat → child s ≠ None;
  wi_drained : (2 ≤ rank (main s))%nat → copier s = false;
  wi_closed : (3 ≤ rank (main s))%nat → doneClosed s = true;
  wi_joined : (4 ≤ rank (main s))%nat → loopRuns s = false;
  wi_restored : (5 ≤ rank (main s))%nat → stdoutIsTTY t = true → restored (screen s);
  wi_returned : ∀ r, main s = MReturned r → rawMode s = false ∧ exitOf <$> child s = Some r;
}.

Lemma winv_start : winv start.
Proof. unfold start. destruct (startSize t). split; cbn; try done; try lia. by destruct (stdoutIsTTY t). Qed.

Lemma restored_resize l k : restored l → restored (l ++ (pair SResize <$> k)).
Proof.
  intros (pre & rows & post & -> & Hp). exists pre, rows, (post ++ (pair SResize <$> k)).
  rewrite <- !app_assoc. split; [done|]. apply Forall_app. split; [done|]. by apply Forall_fmap, Forall_true.
Qed.

(** A step that leaves [main] alone and writes nothing of the child's. *)
Lemma winv_quiet s s' :
  winv s → main s' = main s → child s' = child s → holders s' = holders s → fed s' = fed s →
  unread s' = unread s → copier s' = copier s → doneClosed s' = doneClosed s → rawMode s' = rawMode s →
  (loopRuns s = false → loopRuns s' = false) →
  childBytes (screen s') = childBytes (screen s) →
  ((5 ≤ rank (main s))%nat → restored (screen s) → restored (screen s')) → winv s'.
Proof.
  intros [] Hm Hc Hh Hf Hu Hcp Hd Hr Hl Hb Hs.
  split; rewrite ?Hm, ?Hc, ?Hh, ?Hf, ?Hu, ?Hcp, ?Hd, ?Hr, ?Hb; auto.
Qed.

Lemma stdout_send l ev : step l (Send ev) = Some (set_chan l (eventCh l ++ [ev])).
Proof. done. Qed.

Lemma winv_bar s l src visible :
  winv s → src ≠ SChild →
  src = SResize ∨ loopRuns s = true ∨ visible = false ∨ drop (length (stdout (bar s))) (stdout l) = [] →
  winv (setBar s l src visible).
Proof.
  intros Hw Hs Hor. apply (winv_quiet s); try done; cbn [setBar screen].
  - rewrite childBytes_app. destruct visible; [rewrite childBytes_tag by done|]; by rewrite app_nil_r.
  - intros Hr Hres. destruct Hor as [->|[Hl|[->|Hd]]].
    + destruct visible; [by apply restored_resize|by rewrite app_nil_r].
    + rewrite (wi_joined s Hw) in Hl by lia. done.
    + by rewrite app_nil_r.
    + rewrite Hd. destruct visible; by rewrite app_nil_r.
Qed.

Lemma winv_read s n now : winv s → copier s = true → winv (readChunk s n now).
Proof.
  intros Hw Hc. destruct Hw as [Hb Hch Hcp Hex Hdr Hcl Hj Hres Hret].
  assert (Hrank : (rank (main s) < 2)%nat) by (destruct (le_lt_dec 2 (rank (main s))) as [Hle|]; [|done];
    rewrite Hdr in Hc by done; done).
  unfold readChunk. set (data := take n (unread s)).
  destruct (outputChunk _ _ _ _ data) as [o [written injected]] eqn:Ho.
  assert (written = data) as ->.
  { unfold outputChunk in Ho. destruct (Scan _ _), (_ && _); by injection Ho. }
  split; cbn; try done; try lia; try congruence.
  rewrite childBytes_app, childBytes_cons. rewrite bool_decide_eq_true_2 by done.
  assert (childBytes (if bool_decide (injected = []) then [] else [(SRepair, injected)]) = []) as ->
    by (by destruct (bool_decide _)).
  rewrite app_nil_r, <- app_assoc. unfold data. by rewrite take_drop.
Qed.

Lemma winv_main s s' : winv s → mainStep s = Some s' → winv s'.
Proof.
  intros Hw Hs. pose proof Hw as [Hb Hch Hcp Hex Hdr Hcl Hj Hres Hret].
  unfold mainStep in Hs. destruct (main s) eqn:Hm; cbn in *.
  - destruct (child s) eqn:Hc; [|done]. injection Hs as <-. split; cbn; rewrite ?Hc; try done; auto; lia.
  - destruct (copier s) eqn:Hc; [done|]. injection Hs as <-. split; cbn; rewrite ?Hc; try done; auto; lia.
  - injection Hs as <-. split; cbn; try done; auto; lia.
  - destruct (loopRuns s) eqn:Hl; [done|]. injection Hs as <-. split; cbn; try done; auto; lia.
  - injection Hs as <-. split; cbn; try done; auto.
    + destruct (stdoutIsTTY t); [|by rewrite app_nil_r]. rewrite childBytes_app. unfold restoreWrites. rewrite !childBytes_cons. by rewrite !app_nil_r.
    + intros _ Htty. rewrite Htty. exists (screen s), (termRows (bar s)), []. by rewrite app_nil_r.
  - injection Hs as <-. split; cbn; try done; auto. intros _. apply Hex. lia.
  - destruct (child s) as [r|] eqn:Hc; [|done]. injection Hs as <-. 
    split; cbn; rewrite ?Hc; try done; auto; try (intros _; first [apply Hdr|apply Hcl|apply Hj|apply Hres]; lia).
    by intros r' [= <-].
  - done.
Qed.

Lemma ward_inv_step l s s' : winv s → wardStep l s = Some s' → winv s'.
Proof.
  intros Hw Hs. pose proof Hw as [Hb Hch Hcp Hex Hdr Hcl Hj Hres Hret].
  destruct l as [data| | |r|n now| |su|a| | |size now|]; cbn [wardStep] in Hs.
  - destruct (Nat.ltb_spec 0 (holders s)); [|done]. injection Hs as <-. split; cbn; auto.
    + by rewrite app_assoc, Hb.
    + intros Hc. destruct (Hcp Hc). lia.
  - destruct (Nat.ltb_spec 0 (holders s)); [|done]. injection Hs as <-. split; cbn; auto; try lia.
    intros Hc. destruct (Hcp Hc). lia.
  - destruct (Nat.ltb_spec 0 (match child s with Some _ => holders s | None => Nat.pred (holders s) end)); [|done].
    injection Hs as <-. split; cbn; auto.
    + intros Hc. rewrite Hc in *. lia.
    + intros Hc. destruct (Hcp Hc). split; [done|lia].
  - destruct (child s) eqn:Hc; [done|]. injection Hs as <-. split; cbn; auto.
    + done.
    + intros Hcp'. destruct (Hcp Hcp'). split; [done|lia].
    + intros r' Hm. by destruct (Hret r' Hm).
  - destruct (copier s) eqn:Hc; [|done]. repeat case_match; try done. injection Hs as <-. by apply winv_read.
  - destruct (copier s && _ && _) eqn:Hg; [|done]. breflect. injection Hs as <-. split; cbn; auto.
  - injection Hs as <-. apply winv_bar; [done|done|]. do 3 right. cbn. by rewrite drop_all.
  - destruct (loopRuns s) eqn:Hl; [|done]. destruct (negb (isWinch a)); [|done].
    destruct (step (bar s) a); [|done]. injection Hs as <-. apply winv_bar; auto.
  - destruct (doneClosed s) eqn:Hd; [|done]. injection Hs as <-. split; cbn; auto.
  - destruct (notified s); [|done]. injection Hs as <-. split; cbn; auto.
  - destruct (sigPending s); [|done]. injection Hs as <-. unfold winch.
    destruct (if isTTY t then size else None) as [[w h]|]; [|split; cbn; auto].
    set (s1 := MkWard _ _ _ _ _ _ _ _ _ _ _ false _ _ _ _).
    assert (H1 : winv s1) by (split; cbn; auto).
    eapply winv_quiet; [apply (winv_bar s1 (resize (bar s) w h now (lastOutputAt s)) SResize true H1);
      [done|by left]|done..].
  - by apply (winv_main s).
Qed.

Lemma winv_reach s : wardReach s → winv s.
Proof. apply (reach_inv wardStep winv); [apply winv_start|by intros; eapply ward_inv_step]. Qed.

(** ** The end *)

(** What is left to do before [Run] returns. *)
Definition todo (s : ward) : nat :=
  (7 - rank (main s)) + length (unread s) + (if copier s then 1 else 0) + (if loopRuns s then 1 else 0).

Definition isReturned (m : mainPC) : bool := match m with MReturned _ => true | _ => false end.

(** Once the child has exited and no one has its terminal open, [Run] returns. *)
Lemma ward_progress s :
  winv s ∧ child s ≠ None ∧ holders s = 0%nat → negb (isReturned (main s)) = true →
  ∃ l s', wardStep l s = Some s' ∧ (winv s' ∧ child s' ≠ None ∧ holders s' = 0%nat) ∧ (todo s' < todo s)%nat.
Proof.
  intros (Hw & Hc & Hh) Hr.
  assert (Hstep : ∀ l s', wardStep l s = Some s' → child s' = child s → holders s' = holders s →
            (todo s' < todo s)%nat → ∃ l s', wardStep l s = Some s' ∧
            (winv s' ∧ child s' ≠ None ∧ holders s' = 0%nat) ∧ (todo s' < todo s)%nat).
  { intros l s' Hs Hc' Hh' Hm. exists l, s'. rewrite Hc', Hh'. split_and!; try done. by eapply ward_inv_step. }
  destruct (copier s) eqn:Hcp.
  - destruct (unread s) as [|c u] eqn:Hu.
    + eapply (Hstep WReadErr); [cbn; by rewrite Hcp, Hh, Hu|done..|]. unfold todo. cbn -[Nat.sub]. rewrite Hcp, Hu. lia.
    + eapply (Hstep (WRead 1 0)).
      * cbn -[readChunk Z.leb]. by rewrite Hcp, Hu.
      * unfold readChunk. by destruct (outputChunk _ _ _ _ _) as [? [? ?]].
      * unfold readChunk. by destruct (outputChunk _ _ _ _ _) as [? [? ?]].
      * unfold readChunk, todo. destruct (outputChunk _ _ _ _ _) as [? [? ?]]. cbn -[Nat.sub]. rewrite Hcp, Hu. cbn -[Nat.sub]. rewrite drop_0. lia.
  - destruct (main s) eqn:Hm; try done.
    + eapply (Hstep WMain); [cbn; unfold mainStep; rewrite Hm; by destruct (child s)|done..|].
      unfold todo. cbn -[Nat.sub]. rewrite Hm. cbn. lia.
    + eapply (Hstep WMain); [cbn; unfold mainStep; by rewrite Hm, Hcp|done..|]. unfold todo. cbn -[Nat.sub]. rewrite Hm. cbn. lia.
    + eapply (Hstep WMain); [cbn; unfold mainStep; by rewrite Hm|done..|]. unfold todo. cbn -[Nat.sub]. rewrite Hm. cbn. lia.
    + destruct (loopRuns s) eqn:Hl.
      * eapply (Hstep WLoopDone); [cbn; by rewrite (wi_closed s Hw) by (rewrite Hm; cbn; lia)|done..|].
        unfold todo. cbn -[Nat.sub]. rewrite Hl. lia.
      * eapply (Hstep WMain); [cbn; unfold mainStep; by rewrite Hm, Hl|done..|]. unfold todo. cbn -[Nat.sub]. rewrite Hm. cbn. lia.
    + eapply (Hstep WMain); [cbn; unfold mainStep; by rewrite Hm|done..|]. unfold todo. cbn -[Nat.sub]. rewrite Hm. cbn. lia.
    + eapply (Hstep WMain); [cbn; unfold mainStep; by rewrite Hm|done..|]. unfold todo. cbn -[Nat.sub]. rewrite Hm. cbn. lia.
    + destruct (child s) as [r|] eqn:Hcr; [|done].
      eapply (Hstep WMain); [cbn; unfold mainStep; by rewrite Hm, Hcr|cbn; by rewrite ?Hcr|done|].
      unfold todo. cbn -[Nat.sub]. rewrite Hm. cbn. lia.
Qed.

(** C15: ward gives the terminal back in order.  Whatever the interleaving of the
    child, the copier, the event loop, the timers and the signals, when [Run] has
    returned it returns the child's exit code, the terminal is out of raw mode,
    and every byte the child and its descendants wrote was printed, in order;
    until then what was printed is a prefix of it.  From the moment the scroll
    region is restored only the handler of a resize still writes: no output of
    the child, no repair and no bar can follow.  And once the child has exited
    and no process has its terminal open, [Run] can always return. *)
Theorem ward_shutdown s :
  wardReach s →
  childBytes (screen s) `prefix_of` fed s ∧
  (∀ r, main s = MReturned r →
     exitOf <$> child s = Some r ∧ rawMode s = false ∧ childBytes (screen s) = fed s) ∧
  ((5 ≤ rank (main s))%nat → stdoutIsTTY t = true →
     ∃ pre rows post, screen s = pre ++ restoreWrites rows ++ post ∧ Forall (λ w, w.1 = SResize) post) ∧
  (child s ≠ None → holders s = 0%nat → ∃ ls s' r, wardRun ls s = Some s' ∧ main s' = MReturned r).
Proof.
  intros Hr%winv_reach. pose proof Hr as [Hb Hch Hcp Hex Hdr Hcl Hj Hres Hret]. split_and!.
  - by exists (unread s).
  - intros r Hm. destruct (Hret r Hm). split_and!; try done.
    rewrite <- Hb, (proj1 (Hcp (Hdr ltac:(rewrite Hm; cbn; lia)))). by rewrite app_nil_r.
  - apply Hres.
  - intros Hc Hh.
    destruct (run_measure wardStep (λ s, negb (isReturned (main s))) todo
                (λ s, winv s ∧ child s ≠ None ∧ holders s = 0%nat) ward_progress s) as (ls & s' & Hls & _ & Hm);
      [done|].
    exists ls, s'. destruct (main s'); try done. by eexists.
Qed.
End ward.

(** ** A run: two chunks, an alert in between, a resize at the end *)

#[local] Existing Instance byte_text.

Definition demo_term : terminal := MkTerminal true true (Some (80, 24)) (Some (80, 24)) true.

Definition demo_ward : list wlabel :=
  [WWrites (gs "hello"); WStatus demo_alert; WRead 3 1; WLoop (Recv 2); WExit (WaitExit 3); WMain; WRead 2 4; WReadErr;
   WMain; WMain; WLoopDone; WMain; WMain].

Lemma ward_shutdown_witness :
  ∃ s, run_steps (wardStep demo_term) (demo_ward ++ [WMain; WMain]) (start demo_term) = Some s ∧
    main s = MReturned (3, true) ∧ rawMode s = false ∧ childBytes (screen s) = gs "hello".
Proof.
  destruct (run_steps (wardStep demo_term) (demo_ward ++ [WMain; WMain]) (start demo_term)) as [s|] eqn:E;
    [|vm_compute in E; discriminate E].
  pose proof (ward_shutdown demo_term s (run_steps_reach _ _ _ _ _ (reach_start _ _) E)) as (_ & Hret & _).
  vm_compute in E. injection E as <-. eexists. split; [reflexivity|]. split; [reflexivity|].
  destruct (Hret (3, true) eq_refl) as (_ & Hraw & Hb). split; [exact Hraw|]. rewrite Hb. reflexivity.
Defined.

(** The handler of a resize is not joined: a signal that is pending when the
    terminal is given back reserves the last row again, and nothing undoes it. *)
Lemma resize_after_restore :
  ∃ s, run_steps (wardStep demo_term)
         (demo_ward ++ [WSignal; WMain; WMain; WResize (Some (100, 30)) (10 ^ 12)]) (start demo_term) = Some s ∧
    main s = MReturned (3, true) ∧ (screen s).*1 !! 5%nat = Some SRestore ∧
    (drop 6 (screen s)).*1 = replicate 6 SResize ∧ screen s !! 10%nat = Some (SResize, scrollRegionSeq 29).
Proof. eexists. by split_and!; vm_compute. Qed.
