(* ===== verification/Presets.v ===== *)
(** * Network presets ([proxy/presets.go])

    A preset lists domains and includes other presets by name.  [Expand] is a
    depth-first search with a visited set; it is shown to terminate on every
    registry, cyclic ones included, and to collect exactly the domains of the
    presets reachable from the names asked for.  The registry's contents (the
    embedded YAML) are a parameter. *)

From S2P Require Import Prelude GoStrings.

Record Preset := MkPreset {
  Name : gostring;
  Group : gostring;
  Description : gostring;
  Domains : list gostring;
  Matchers : list gostring;
  Includes : list gostring;
}.

Record PresetRegistry := MkRegistry { presets : list Preset; index : gmap gostring nat }.

(** The index loop: a later preset of the same name wins. *)
Fixpoint buildIndex (i : nat) (ps : list Preset) (idx : gmap gostring nat) : gmap gostring nat :=
  match ps with
  | [] => idx
  | p :: ps' => buildIndex (S i) ps' (<[Name p := i]> idx)
  end.

Definition NewPresetRegistry (ps : list Preset) : PresetRegistry := MkRegistry ps (buildIndex 0 ps ∅).

(** [None]: not found, or an index out of range, which cannot happen
    ([index_in_range]). *)
Definition Get (r : PresetRegistry) (name : gostring) : option Preset :=
  i ← index r !! name; presets r !! i.

Definition All (r : PresetRegistry) : list Preset := presets r.

(** The variables of the closure. *)
Record expState := MkExp {
  visited : gset gostring;
  seen : gset gostring;
  domains : list gostring;
}.

Definition addDomain (st : expState) (d : gostring) : expState :=
  if bool_decide (d ∈ seen st) then st
  else MkExp (visited st) ({[ d ]} ∪ seen st) (domains st ++ [d]).

Definition visit (st : expState) (name : gostring) : expState :=
  MkExp ({[ name ]} ∪ visited st) (seen st) (domains st).

(** The recursive closure; [None] when the fuel runs out. *)
Fixpoint expand (r : PresetRegistry) (fuel : nat) (st : expState) (name : gostring) : option expState :=
  match fuel with
  | 0 => None
  | S f =>
      if bool_decide (name ∈ visited st) then Some st
      else
        let st1 := visit st name in
        match Get r name with
        | None => Some st1
        | Some p =>
            st2 ← fold_left (λ acc inc, st ← acc; expand r f st inc) (Includes p) (Some st1);
            Some (fold_left addDomain (Domains p) st2)
        end
  end.

Definition expandAll (r : PresetRegistry) (fuel : nat) (st : expState) (names : list gostring) :
    option expState :=
  fold_left (λ acc name, st ← acc; expand r fuel st name) names (Some st).

Definition emptyExp : expState := MkExp ∅ ∅ [].

(** [Expand]; the recursion is at most one deeper than there are presets. *)
Definition Expand (r : PresetRegistry) (names : list gostring) : list gostring :=
  default [] (domains <$> expandAll r (S (S (size (index r)))) emptyExp names).

(** ** Termination *)

(** The presets still to be visited. *)
Definition todo (r : PresetRegistry) (st : expState) : nat := size (dom (index r) ∖ visited st).

Lemma visited_addDomains ds st : visited (fold_left addDomain ds st) = visited st.
Proof.
  revert st. induction ds as [|d ds IH]; intros st; cbn; [done|].
  rewrite IH. unfold addDomain. by case_bool_decide.
Qed.

Lemma expandAll_app r fuel st l1 l2 :
  expandAll r fuel st (l1 ++ l2) = (st' ← expandAll r fuel st l1; expandAll r fuel st' l2).
Proof.
  unfold expandAll. rewrite fold_left_app.
  destruct (fold_left _ l1 (Some st)) as [st'|]; [done|]. cbn.
  induction l2; [done|]. exact IHl2.
Qed.

Lemma expandAll_cons r fuel st n l :
  expandAll r fuel st (n :: l) = (st' ← expand r fuel st n; expandAll r fuel st' l).
Proof. apply (expandAll_app r fuel st [n] l). Qed.

Lemma expand_S r f st name :
  expand r (S f) st name =
  if bool_decide (name ∈ visited st) then Some st
  else match Get r name with
       | None => Some (visit st name)
       | Some p => st2 ← expandAll r f (visit st name) (Includes p);
                   Some (fold_left addDomain (Domains p) st2)
       end.
Proof. done. Qed.

(** Lifts a property of single calls to a list of calls. *)
Lemma expandAll_ind r fuel (R : expState → expState → Prop) :
  (∀ st, R st st) → (∀ a b c, R a b → R b c → R a c) →
  (∀ st n st', expand r fuel st n = Some st' → R st st') →
  ∀ l st st', expandAll r fuel st l = Some st' → R st st'.
Proof.
  intros Hr Ht H1 l. induction l as [|n l IH]; intros st st'; [intros [= <-]; done|].
  rewrite expandAll_cons. destruct (expand r fuel st n) as [st1|] eqn:E; [|done]. cbn.
  intros Hl. eapply Ht; eauto.
Qed.

Lemma expand_visited r fuel st name st' :
  expand r fuel st name = Some st' → visited st ⊆ visited st' ∧ name ∈ visited st'.
Proof.
  revert st name st'. induction fuel as [|f IH]; intros st name st'; [done|].
  rewrite expand_S. case_bool_decide as Hv; [by intros [= <-]|].
  destruct (Get r name) as [p|]; [|intros [= <-]; cbn; set_solver].
  destruct (expandAll r f (visit st name) (Includes p)) as [st2|] eqn:E; [|done]. cbn.
  intros [= <-]. rewrite visited_addDomains.
  assert (Hs : visited (visit st name) ⊆ visited st2).
  { apply (expandAll_ind r f (λ a b, visited a ⊆ visited b)) in E; [done|done|set_solver|].
    intros a n b Ha. by apply IH in Ha as [? _]. }
  cbn in Hs. set_solver.
Qed.

Lemma Get_dom r name p : Get r name = Some p → name ∈ dom (index r).
Proof. unfold Get. destruct (index r !! name) eqn:E; [|done]. intros _. by apply elem_of_dom_2 in E. Qed.

Lemma expand_total r fuel st name : todo r st < fuel → is_Some (expand r fuel st name).
Proof.
  revert st name. induction fuel as [|f IH]; intros st name Hlt; [lia|].
  rewrite expand_S. case_bool_decide as Hv; [by eauto|].
  destruct (Get r name) as [p|] eqn:Hg; [|by eauto].
  assert (Htodo : todo r (visit st name) < f).
  { unfold todo in *. apply Get_dom in Hg.
    assert (dom (index r) ∖ visited (visit st name) ⊂ dom (index r) ∖ visited st) as Hs.
    { cbn. split; [set_solver|]. intros Hc. specialize (Hc name). set_solver. }
    apply subset_size in Hs. lia. }
  assert (Hall : ∀ l st1, todo r st1 < f → is_Some (expandAll r f st1 l)).
  { induction l as [|n l IHl]; intros st1 H1; [by eexists|]. rewrite expandAll_cons.
    destruct (IH st1 n H1) as [st2 Hst2]. rewrite Hst2. cbn. apply IHl.
    apply expand_visited in Hst2 as [Hsub _]. unfold todo in *.
    assert (size (dom (index r) ∖ visited st2) ≤ size (dom (index r) ∖ visited st1)); [|lia].
    apply subseteq_size. set_solver. }
  destruct (Hall (Includes p) _ Htodo) as [st2 ->]. by eexists.
Qed.

Lemma expandAll_total r fuel names st : todo r st < fuel → is_Some (expandAll r fuel st names).
Proof.
  revert st. induction names as [|n l IHl]; intros st Hlt; [by eexists|]. rewrite expandAll_cons.
  destruct (expand_total r fuel st n Hlt) as [st1 Hst1]. rewrite Hst1. cbn. apply IHl.
  apply expand_visited in Hst1 as [Hsub _]. unfold todo in *.
  assert (size (dom (index r) ∖ visited st1) ≤ size (dom (index r) ∖ visited st)); [|lia].
  apply subseteq_size. set_solver.
Qed.

(** ** What is collected *)

Inductive reach (r : PresetRegistry) : gostring → gostring → Prop :=
  | reach_refl n : reach r n n
  | reach_include n p i m : Get r n = Some p → i ∈ Includes p → reach r i m → reach r n m.

Definition seen_ok (st : expState) : Prop := seen st = list_to_set (domains st) ∧ NoDup (domains st).

(** What a call adds: closed under includes, with the domains of what is new. *)
Record grows (r : PresetRegistry) (st st' : expState) : Prop := {
  grows_visited : visited st ⊆ visited st';
  grows_closed x p : x ∈ visited st' → x ∉ visited st → Get r x = Some p →
    ∀ i, i ∈ Includes p → i ∈ visited st';
  grows_domains d : d ∈ domains st' ↔
    d ∈ domains st ∨ ∃ x p, x ∈ visited st' ∧ x ∉ visited st ∧ Get r x = Some p ∧ d ∈ Domains p;
  grows_seen : seen_ok st → seen_ok st';
}.

Lemma grows_refl r st : grows r st st.
Proof. split; try done. intros d. split; [by left|]. intros [|(x & p & ? & ? & _)]; done. Qed.

Lemma grows_trans r a b c : grows r a b → grows r b c → grows r a c.
Proof.
  intros [V1 C1 D1 S1] [V2 C2 D2 S2]. split.
  - set_solver.
  - intros x p Hx Hn Hg i Hi. destruct (decide (x ∈ visited b)) as [Hb|Hb].
    + apply V2. by eapply C1.
    + by eapply C2.
  - intros d. rewrite D2, D1. split.
    + intros [[|(x & p & ? & ? & ? & ?)]|(x & p & ? & ? & ? & ?)].
      * by left.
      * right. exists x, p. split_and!; [by apply V2|done..].
      * right. exists x, p. split_and!; [done|set_solver|done..].
    + intros [|(x & p & Hx & Hn & Hg & Hd)]; [by left; left|].
      destruct (decide (x ∈ visited b)) as [Hb|Hb]; [left; right|right]; by exists x, p.
  - auto.
Qed.

Lemma addDomain_ok st d :
  seen_ok st → seen_ok (addDomain st d) ∧ ∀ x, x ∈ domains (addDomain st d) ↔ x ∈ domains st ∨ x = d.
Proof.
  intros [Hs Hn]. unfold addDomain. case_bool_decide as Hd.
  - split; [done|]. intros x. split; [by left|]. intros [| ->]; [done|]. rewrite Hs in Hd. set_solver.
  - split.
    + split; cbn; [rewrite Hs; set_solver|]. apply NoDup_app. split_and!; [done| |apply NoDup_singleton].
      intros x Hx ->%list_elem_of_singleton. rewrite Hs in Hd. set_solver.
    + intros x. cbn. rewrite elem_of_app, list_elem_of_singleton. done.
Qed.

Lemma addDomains_ok ds st :
  seen_ok st → seen_ok (fold_left addDomain ds st) ∧
  ∀ x, x ∈ domains (fold_left addDomain ds st) ↔ x ∈ domains st ∨ x ∈ ds.
Proof.
  revert st. induction ds as [|d ds IH]; intros st Hs; cbn.
  - split; [done|]. intros x. rewrite elem_of_nil. tauto.
  - destruct (addDomain_ok st d Hs) as [Hs1 H1]. destruct (IH _ Hs1) as [Hs2 H2]. split; [done|].
    intros x. rewrite H2, H1, elem_of_cons. tauto.
Qed.

(** One call, on a state whose [seen] is in order. *)
Lemma expand_grows r fuel st name st' :
  seen_ok st → expand r fuel st name = Some st' → grows r st st' ∧ seen_ok st'.
Proof.
  revert st name st'. induction fuel as [|f IH]; intros st name st' Hs; [done|].
  rewrite expand_S. case_bool_decide as Hv; [intros [= <-]; split; [apply grows_refl|done]|].
  destruct (Get r name) as [p|] eqn:Hg.
  - destruct (expandAll r f (visit st name) (Includes p)) as [st2|] eqn:E; [|done]. cbn.
    intros [= <-].
    assert (Hall : ∀ l a b, seen_ok a → expandAll r f a l = Some b →
              (grows r a b ∧ seen_ok b) ∧ ∀ i, i ∈ l → i ∈ visited b).
    { clear -IH. induction l as [|n l IHl]; intros a b Ha.
      - intros [= <-]. split; [split; [apply grows_refl|done]|]. by intros i []%elem_of_nil.
      - rewrite expandAll_cons. destruct (expand r f a n) as [a1|] eqn:E1; [|done]. cbn. intros E2.
        destruct (IH a n a1 Ha E1) as [G1 S1]. destruct (IHl a1 b S1 E2) as [[G2 S2] H2].
        split; [split; [by eapply grows_trans|done]|].
        intros i [->|Hi]%elem_of_cons; [|auto]. apply (grows_visited _ _ _ G2).
        by apply expand_visited in E1 as [_ ?]. }
    destruct (Hall _ (visit st name) _ Hs E) as [[[V C D S] Hs2] Hinc]. cbn in V, C, D.
    destruct (addDomains_ok (Domains p) st2 Hs2) as [Hs3 H3]. split; [|done].
    split; rewrite ?visited_addDomains; [set_solver| | |done].
    + intros x q Hx Hn Hq i Hi. destruct (decide (x = name)) as [->|Hne].
      * apply Hinc. congruence.
      * eapply C; eauto. set_solver.
    + intros d. rewrite H3, D. split.
      * intros [[|(x & q & ? & ? & ? & ?)]|Hd]; [by left| |]; right.
        -- exists x, q. split_and!; [done|set_solver|done..].
        -- exists name, p. split_and!; [set_solver|done..].
      * intros [|(x & q & Hx & Hn & Hq & Hd)]; [by left; left|].
        destruct (decide (x = name)) as [->|Hne]; [right; congruence|left; right].
        exists x, q. split_and!; [done|set_solver|done..].
  - intros [= <-]. split; [|done]. split; cbn; [set_solver| | |done].
    + intros x q Hx Hn Hq. assert (x = name) as -> by set_solver. congruence.
    + intros d. split; [by left|]. intros [|(x & q & Hx & Hn & Hq & _)]; [done|].
      assert (x = name) as -> by set_solver. congruence.
Qed.

Lemma expand_reach r fuel st name st' x :
  expand r fuel st name = Some st' → x ∈ visited st' → x ∉ visited st → reach r name x.
Proof.
  revert st name st'. induction fuel as [|f IH]; intros st name st'; [done|].
  rewrite expand_S. case_bool_decide as Hv; [by intros [= <-]|].
  destruct (Get r name) as [p|] eqn:Hg.
  - destruct (expandAll r f (visit st name) (Includes p)) as [st2|] eqn:E; [|done]. cbn.
    intros [= <-]. rewrite visited_addDomains. intros Hx Hn.
    destruct (decide (x = name)) as [->|Hne]; [constructor|].
    assert (Hall : ∀ l a b, expandAll r f a l = Some b → x ∈ visited b → x ∉ visited a →
              ∃ n, n ∈ l ∧ reach r n x).
    { clear -IH. induction l as [|n l IHl]; intros a b; [by intros [= <-]|].
      rewrite expandAll_cons. destruct (expand r f a n) as [a1|] eqn:E1; [|done]. cbn.
      intros E2 Hb Ha. destruct (decide (x ∈ visited a1)) as [H1|H1].
      - exists n. split; [left|]. by eapply IH.
      - destruct (IHl a1 b E2 Hb H1) as (m & ? & ?). exists m. split; [by right|done]. }
    destruct (Hall _ _ _ E Hx) as (n & Hi & Hr); [cbn; set_solver|]. by eapply reach_include.
  - intros [= <-]. cbn. intros Hx Hn. assert (x = name) as -> by set_solver. constructor.
Qed.

Lemma expandAll_spec r fuel st names st' :
  seen_ok st → expandAll r fuel st names = Some st' →
  grows r st st' ∧ seen_ok st' ∧ (∀ n, n ∈ names → n ∈ visited st') ∧
  ∀ x, x ∈ visited st' → x ∉ visited st → ∃ n, n ∈ names ∧ reach r n x.
Proof.
  revert st. induction names as [|n l IHl]; intros st Hs.
  - intros [= <-]. split_and!; [apply grows_refl|done|by intros ? []%elem_of_nil|done].
  - rewrite expandAll_cons. destruct (expand r fuel st n) as [st1|] eqn:E1; [|done]. cbn. intros E2.
    destruct (expand_grows _ _ _ _ _ Hs E1) as [G1 S1].
    destruct (IHl _ S1 E2) as (G2 & S2 & H2 & R2). split_and!; [by eapply grows_trans|done| |].
    + intros i [->|Hi]%elem_of_cons; [|auto]. apply (grows_visited _ _ _ G2).
      by apply expand_visited in E1 as [_ ?].
    + intros x Hx Hn. destruct (decide (x ∈ visited st1)) as [H1|H1].
      * exists n. split; [left|]. by eapply expand_reach.
      * destruct (R2 x Hx H1) as (m & ? & ?). exists m. split; [by right|done].
Qed.

Lemma Expand_correct r names :
  is_Some (expandAll r (S (S (size (index r)))) emptyExp names) ∧
  NoDup (Expand r names) ∧
  ∀ d, d ∈ Expand r names ↔
    ∃ n x p, n ∈ names ∧ reach r n x ∧ Get r x = Some p ∧ d ∈ Domains p.
Proof.
  assert (Hfuel : todo r emptyExp < S (S (size (index r)))).
  { unfold todo. cbn. rewrite difference_empty_L, size_dom. lia. }
  destruct (expandAll_total r _ names emptyExp Hfuel) as [st Hst].
  assert (H0 : seen_ok emptyExp) by (split; [done|constructor]).
  destruct (expandAll_spec _ _ _ _ _ H0 Hst) as ([V C D _] & [_ Hnd] & Hn & Hr).
  unfold Expand. rewrite Hst. cbn. split_and!; [by eexists|done|].
  assert (Hcl : ∀ n x, reach r n x → n ∈ visited st → x ∈ visited st).
  { induction 1 as [|n p i m Hg Hi _ IH]; [done|]. intros Hv. apply IH. eapply C; [exact Hv|cbn; set_solver|done..]. }
  intros d. rewrite D. cbn. split.
  - intros [[]%elem_of_nil|(x & p & Hx & Hnx & Hg & Hd)].
    destruct (Hr x Hx Hnx) as (n & ? & ?). by exists n, x, p.
  - intros (n & x & p & Hin & Hre & Hg & Hd). right. exists x, p.
    split_and!; [|cbn; set_solver|done..]. eapply Hcl; eauto.
Qed.

(** [Expand] terminates on every registry, however the includes loop, and
    returns, without repetition, exactly the domains of the presets reachable
    from the given names through includes; unknown names count for nothing. *)
Theorem Expand_spec r names :
  is_Some (expandAll r (S (S (size (index r)))) emptyExp names) ∧
  NoDup (Expand r names) ∧
  ∀ d, d ∈ Expand r names ↔
    ∃ n x p, n ∈ names ∧ reach r n x ∧ Get r x = Some p ∧ d ∈ Domains p.
Proof. apply Expand_correct. Qed.

(** Every name of the index points into the list. *)
Lemma buildIndex_range i ps idx n name :
  (∀ m k, idx !! m = Some k → k < i) → buildIndex i ps idx !! name = Some n → n < i + length ps.
Proof.
  revert i idx. induction ps as [|p ps IH]; intros i idx Hidx; cbn.
  - intros Hn. apply Hidx in Hn. lia.
  - intros Hn. apply IH in Hn; [lia|]. intros m k. destruct (decide (m = Name p)) as [->|].
    + rewrite lookup_insert_eq. intros [= <-]. lia.
    + rewrite lookup_insert_ne by done. intros Hk. apply Hidx in Hk. lia.
Qed.

Lemma index_in_range ps name n :
  index (NewPresetRegistry ps) !! name = Some n → n < length ps.
Proof. intros Hn. by apply (buildIndex_range 0 ps ∅) in Hn. Qed.

(** With names that are all different, looking a preset up finds it. *)
Lemma buildIndex_other i ps idx n :
  n ∉ Name <$> ps → buildIndex i ps idx !! n = idx !! n.
Proof.
  revert i idx. induction ps as [|p ps IH]; intros i idx Hn; [done|].
  rewrite fmap_cons in Hn. apply not_elem_of_cons in Hn as [Hp Hn]. cbn [buildIndex].
  by rewrite IH, lookup_insert_ne.
Qed.

Lemma buildIndex_at i ps idx k p :
  NoDup (Name <$> ps) → ps !! k = Some p → buildIndex i ps idx !! Name p = Some (i + k).
Proof.
  revert i idx k. induction ps as [|q ps IH]; intros i idx k; [done|]. rewrite fmap_cons.
  intros [Hq Hd]%NoDup_cons. cbn [buildIndex]. destruct k as [|k]; cbn [lookup list_lookup].
  - intros [= ->]. rewrite buildIndex_other, lookup_insert_eq by done. f_equal. lia.
  - intros Hk. rewrite (IH _ _ k) by done. f_equal. lia.
Qed.

Lemma Get_unique ps p :
  NoDup (Name <$> ps) → p ∈ ps → Get (NewPresetRegistry ps) (Name p) = Some p.
Proof.
  intros Hd [k Hk]%list_elem_of_lookup. unfold Get, NewPresetRegistry. cbn.
  by rewrite (buildIndex_at 0 ps ∅ k p).
Qed.
