(* ===== verification/Config.v ===== *)
(** * Configuration ([config/config.go], [config/detect.go])

    Merging the global and project configuration with command-line flags and
    presets, choosing a proxy port, and detecting presets from marker files.
    Reading YAML is a library's work; the file system and the random source are
    parameters. *)

From S2P Require Import Prelude GoStrings Allowlist Presets.
Open Scope Z_scope.

Record GlobalConfig := MkGlobal {
  gAllowHTTP : list gostring;
  gAllowDNS : list gostring;
  gBlockCIDR : list gostring;
  gAllowCIDR : list gostring;
  gExtraHosts : list gostring;
  gUpstreamDNS : gostring;
}.

Record ProjectConfig := MkProject {
  pPresets : list gostring;
  pAllowHTTP : list gostring;
  pAllowDNS : list gostring;
  pAllowHostPorts : list Z;
}.

Record Config := MkConfig { Global : GlobalConfig; Project : ProjectConfig }.

(** The fields [Merge] fills; the others are set later by the callers. *)
Record MergedConfig := MkMerged {
  mAllowHTTP : list gostring;
  mAllowDNS : list gostring;
  mBlockCIDR : list gostring;
  mAllowCIDR : list gostring;
  mExtraHosts : list gostring;
  mUpstreamDNS : gostring;
  mAllowHostPorts : list Z;
}.

(** ** Loading *)

(** What is at a path when it is opened. *)
Inductive fileState := Missing | Contents (data : gostring) | Unreadable.

(** [loadFile] into a target that holds [zero]; a missing file leaves it so.
    Reading YAML into the target is [parse]. *)
Definition loadFile {A} (parse : gostring → option A) (zero : A) (f : fileState) : option A :=
  match f with Missing => Some zero | Contents data => parse data | Unreadable => None end.

Definition zeroGlobal : GlobalConfig := MkGlobal [] [] [] [] [] [].
Definition zeroProject : ProjectConfig := MkProject [] [] [] [].

Definition Load (parseGlobal : gostring → option GlobalConfig) (parseProject : gostring → option ProjectConfig)
    (global project : fileState) : option Config :=
  g ← loadFile parseGlobal zeroGlobal global;
  p ← loadFile parseProject zeroProject project;
  Some (MkConfig g p).

(** [FindProjectRoot] of a path that is [abs] when made absolute; [git] is the
    output of the git command, [None] when it fails. *)
Definition FindProjectRoot (abs : gostring) (git : option gostring) : gostring :=
  match git with
  | Some out => let root := TrimSpace out in if bool_decide (root = []) then abs else root
  | None => abs
  end.

Definition DefaultGlobalPath (configHome home : gostring) : gostring :=
  let base := if bool_decide (configHome = []) then pathJoin home (gs ".cache") else configHome in
  pathJoin (pathJoin base (gs "vibepit")) (gs "config.yaml").

Definition DefaultProjectPath (projectRoot : gostring) : gostring :=
  pathJoin (pathJoin projectRoot (gs ".vibepit")) (gs "network.yaml").

(** ** [dedup] *)

Fixpoint dedupFrom (seen : gset gostring) (es : list gostring) : list gostring :=
  match es with
  | [] => []
  | e :: es' => if bool_decide (e ∈ seen) then dedupFrom seen es'
                else e :: dedupFrom ({[ e ]} ∪ seen) es'
  end.

Definition dedup (slices : list (list gostring)) : list gostring := dedupFrom ∅ (concat slices).

Lemma dedupFrom_spec seen es :
  NoDup (dedupFrom seen es) ∧ (∀ e, e ∈ dedupFrom seen es ↔ e ∈ es ∧ e ∉ seen) ∧
  dedupFrom seen es `sublist_of` es.
Proof.
  revert seen. induction es as [|e es IH]; intros seen; cbn.
  { split_and!; [constructor|set_solver|done]. }
  case_bool_decide as He.
  - destruct (IH seen) as (H1 & H2 & H3). split_and!; [done| |by apply sublist_cons].
    intros x. rewrite H2, elem_of_cons. set_solver.
  - destruct (IH ({[ e ]} ∪ seen)) as (H1 & H2 & H3). split_and!.
    + apply NoDup_cons. split; [|done]. rewrite H2. set_solver.
    + intros x. rewrite !elem_of_cons, H2. destruct (decide (x = e)); set_solver.
    + by apply sublist_skip.
Qed.

Lemma elem_of_dedup slices e : e ∈ dedup slices ↔ ∃ s, s ∈ slices ∧ e ∈ s.
Proof.
  unfold dedup. destruct (dedupFrom_spec ∅ (concat slices)) as (_ & H2 & _). rewrite H2.
  assert (Hc : e ∈ concat slices ↔ ∃ s, s ∈ slices ∧ e ∈ s); [|set_solver].
  rewrite list_elem_of_In, in_concat. setoid_rewrite <- list_elem_of_In. done.
Qed.

Lemma NoDup_dedup slices : NoDup (dedup slices).
Proof. apply dedupFrom_spec. Qed.

(** ** [Merge] *)

Inductive mergeErr := MergeAllowHTTP (e : entryErr) | MergeAllowDNS (e : entryErr).

(** [reg] is the built-in registry. *)
Definition Merge (reg : PresetRegistry) (c : Config) (cliAllow cliPresets : list gostring) :
    result mergeErr MergedConfig :=
  let allowHTTP := dedup [gAllowHTTP (Global c); pAllowHTTP (Project c); cliAllow] in
  let allowHTTP := dedup [allowHTTP; Expand reg (pPresets (Project c) ++ cliPresets)] in
  match ValidateHTTPEntries allowHTTP with
  | Some e => Err (MergeAllowHTTP e)
  | None =>
      let allowDNS := dedup [gAllowDNS (Global c); pAllowDNS (Project c)] in
      match ValidateDNSEntries allowDNS with
      | Some e => Err (MergeAllowDNS e)
      | None =>
          Ok (MkMerged allowHTTP allowDNS (gBlockCIDR (Global c)) (gAllowCIDR (Global c))
                (gExtraHosts (Global c)) (gUpstreamDNS (Global c)) (pAllowHostPorts (Project c)))
      end
  end.

(** The proxy accepts the lists of a merged configuration. *)
Lemma Merge_valid `{UnicodeTables} reg c cliAllow cliPresets m :
  Merge reg c cliAllow cliPresets = Ok m →
  is_ok (NewHTTPAllowlist (mAllowHTTP m)) = true ∧ is_ok (NewDNSAllowlist (mAllowDNS m)) = true.
Proof.
  unfold Merge. destruct (ValidateHTTPEntries _) eqn:E1; [done|].
  destruct (ValidateDNSEntries _) eqn:E2; [done|]. intros [= <-]. cbn [mAllowHTTP mAllowDNS].
  unfold NewHTTPAllowlist, NewDNSAllowlist. by rewrite E1, E2.
Qed.

(** The HTTP entries a configuration asks for. *)
Definition requested (reg : PresetRegistry) (c : Config) (cliAllow cliPresets : list gostring)
    (e : gostring) : Prop :=
  e ∈ gAllowHTTP (Global c) ∨ e ∈ pAllowHTTP (Project c) ∨ e ∈ cliAllow ∨
  e ∈ Expand reg (pPresets (Project c) ++ cliPresets).

(** A merged configuration holds each entry asked for by the global file,
    the project file, the flags or a preset exactly once and no others, and the
    merge fails exactly when one of them is invalid; so the proxy accepts every
    configuration the merge produces. *)
Theorem Merge_spec `{UnicodeTables} reg c cliAllow cliPresets :
  match Merge reg c cliAllow cliPresets with
  | Ok m =>
      NoDup (mAllowHTTP m) ∧ NoDup (mAllowDNS m) ∧
      (∀ e, e ∈ mAllowHTTP m ↔ requested reg c cliAllow cliPresets e) ∧
      (∀ e, e ∈ mAllowDNS m ↔ e ∈ gAllowDNS (Global c) ∨ e ∈ pAllowDNS (Project c)) ∧
      is_ok (NewHTTPAllowlist (mAllowHTTP m)) = true ∧ is_ok (NewDNSAllowlist (mAllowDNS m)) = true
  | Err (MergeAllowHTTP err) =>
      ∃ e, requested reg c cliAllow cliPresets e ∧ ValidateHTTPEntry e = Some err
  | Err (MergeAllowDNS err) =>
      ∃ e, (e ∈ gAllowDNS (Global c) ∨ e ∈ pAllowDNS (Project c)) ∧ ValidateDNSEntry e = Some err
  end.
Proof.
  assert (Hreq : ∀ e, e ∈ dedup [dedup [gAllowHTTP (Global c); pAllowHTTP (Project c); cliAllow];
                     Expand reg (pPresets (Project c) ++ cliPresets)] ↔
                   requested reg c cliAllow cliPresets e).
  { intros e. unfold requested. rewrite elem_of_dedup. setoid_rewrite elem_of_cons.
    setoid_rewrite list_elem_of_singleton. split.
    - intros (s & [->| ->] & He); [|by auto]. apply elem_of_dedup in He as (s & Hs & He). set_solver.
    - intros Hr. destruct Hr as [Hr|[Hr|[Hr|Hr]]]; [..|by eauto];
        (eexists; split; [by left|]; apply elem_of_dedup; eexists; split; [|exact Hr]; set_solver). }
  assert (Hdns : ∀ e, e ∈ dedup [gAllowDNS (Global c); pAllowDNS (Project c)] ↔
                   e ∈ gAllowDNS (Global c) ∨ e ∈ pAllowDNS (Project c)).
  { intros e. rewrite elem_of_dedup. set_solver. }
  unfold Merge. destruct (ValidateHTTPEntries _) as [err|] eqn:E1.
  { unfold ValidateHTTPEntries in E1. apply first_error_Some in E1 as (e & He & Hv).
    exists e. split; [by apply Hreq|done]. }
  destruct (ValidateDNSEntries _) as [err|] eqn:E2.
  { unfold ValidateDNSEntries in E2. apply first_error_Some in E2 as (e & He & Hv).
    exists e. split; [by apply Hdns|done]. }
  cbn [mAllowHTTP mAllowDNS]. unfold NewHTTPAllowlist, NewDNSAllowlist. rewrite E1, E2.
  split_and!; try done; apply NoDup_dedup.
Qed.

(** ** The proxy port *)

Inductive portErr := RandomFailed | NoFreePort.

(** [draw i] is what the random source returns the [i]th time, as a 16-bit
    number, or [None] on an error. *)
Fixpoint pickPort (draw : nat → option Z) (excluded : list Z) (i tries : nat) : result portErr Z :=
  match tries with
  | 0%nat => Err NoFreePort
  | S k =>
      match draw i with
      | None => Err RandomFailed
      | Some b =>
          let port := 49152 + b mod (65535 - 49152 + 1) in
          if bool_decide (port ∈ excluded) then pickPort draw excluded (S i) k else Ok port
      end
  end.

Definition RandomProxyPort (draw : nat → option Z) (excluded : list Z) : result portErr Z :=
  pickPort draw excluded 0 100.

Lemma pickPort_range draw excluded i tries port :
  pickPort draw excluded i tries = Ok port → 49152 ≤ port ≤ 65535 ∧ port ∉ excluded.
Proof.
  revert i. induction tries as [|k IH]; intros i; cbn [pickPort]; [done|].
  destruct (draw i) as [b|]; [|done]. case_bool_decide as He; [apply IH|].
  intros [= <-]. split; [|done]. pose proof (Z.mod_pos_bound b (65535 - 49152 + 1) ltac:(lia)). lia.
Qed.

(** ** Preset detection *)

Definition containsGlob (pattern : gostring) : bool :=
  existsb (λ c, (c =? 0x2A) || (c =? 0x3F) || (c =? 0x5B)) (runes pattern).

Section detect.
(** The project directory: the number of matches of a glob, and existence. *)
Context (glob : gostring → nat) (exists_ : gostring → bool).

Definition matchesAny (patterns : list gostring) : bool :=
  existsb (λ p, if containsGlob p then (0 <? glob p)%nat else exists_ p) patterns.

Definition DetectPresets (reg : PresetRegistry) : list gostring :=
  Name <$> List.filter (λ p, negb (bool_decide (Matchers p = [])) && matchesAny (Matchers p)) (All reg).
End detect.
