(* ===== verification/Setup.v ===== *)
(** * Editing the project configuration file ([config/setup.go])

    The file is written from a template at set-up; later additions edit it line
    by line, so that comments and layout survive, and only fall back to a YAML
    re-encode for shapes that cannot be edited in place.  The YAML library is a
    parameter: the node tree a document parses to, and the encoder. *)

From S2P Require Import Prelude GoStrings Config.

Definition LF : ascii := "010"%char.
Definition CR : ascii := "013"%char.

(** ** Text helpers of the Go library *)

(** [strings.SplitAfter(s, newline)]: lines with their line feed; the last one
    may be empty. *)
Fixpoint SplitAfter (s : gostring) : list gostring :=
  match s with
  | [] => [[]]
  | c :: s' =>
      if bool_decide (c = LF) then [LF] :: SplitAfter s'
      else match SplitAfter s' with
           | l :: ls => (c :: l) :: ls
           | [] => [[c]]
           end
  end.

(** [strings.TrimLeft(s, space and tab)]. *)
Fixpoint TrimLeftBlank (s : gostring) : gostring :=
  match s with
  | c :: s' => if bool_decide (c = " "%char) || bool_decide (c = "009"%char) then TrimLeftBlank s' else s
  | [] => []
  end.

Lemma concat_SplitAfter s : concat (SplitAfter s) = s.
Proof.
  induction s as [|c s IH]; cbn; [done|]. case_bool_decide; cbn; [by subst; rewrite IH|].
  destruct (SplitAfter s) as [|l ls]; cbn in *; by rewrite IH.
Qed.

(** ** YAML nodes, as far as the code looks at them *)

Inductive nodeKind := DocumentNode | MappingNode | SequenceNode | ScalarNode | AliasNode.

#[global] Instance nodeKind_eq_dec : EqDecision nodeKind.
Proof. solve_decision. Defined.

Inductive node := MkNode {
  Kind : nodeKind;
  Tag : gostring;
  Value : gostring;
  FlowStyle : bool;
  BlockScalar : bool;       (* literal or folded style *)
  Line : Z;
  Content : list node;
}.

(** ** Lines *)

Section edit.
(** [strconv.Quote], for values that would read as aliases. *)
Context (Quote : gostring → gostring).

Definition formatYAMLListValue (v : gostring) : gostring :=
  if HasPrefix v (gs "*") then Quote v else v.

Definition lineEnding (line : gostring) : gostring :=
  if HasSuffix line [CR; LF] then [CR; LF] else [LF].

(** The lines with entries inserted after line [idx], which gets a line feed
    when it has none; the body shared by the two in-place insertions. *)
Definition insertLines (lines : list gostring) (idx : nat) (line indent : gostring)
    (entries : list gostring) : gostring :=
  let nl := lineEnding line in
  let line' := if HasSuffix line [LF] then line else line ++ nl in
  let inserted := (λ d, indent ++ gs "- " ++ formatYAMLListValue d ++ nl) <$> entries in
  concat (take idx lines ++ [line'] ++ inserted ++ drop (S idx) lines).

Definition appendToExistingBlockYAMLList (data : gostring) (section : node) (entries : list gostring) :
    option gostring :=
  if FlowStyle section then None else
  last ← last (Content section);
  if negb (bool_decide (Kind last = ScalarNode)) || BlockScalar last || (Line last <=? 0)%Z then None else
  let lines := SplitAfter data in
  let lineIndex := Z.to_nat (Line last - 1) in
  itemLine ← lines !! lineIndex;
  let trimmedLeft := TrimLeftBlank itemLine in
  if negb (HasPrefix trimmedLeft (gs "-")) then None else
  let indent := take (length itemLine - length trimmedLeft) itemLine in
  Some (insertLines lines lineIndex itemLine indent entries).

Definition insertAfterKeyLine (data : gostring) (keyLine : Z) (added : list gostring) : option gostring :=
  if (keyLine <=? 0)%Z then None else
  let lines := SplitAfter data in
  let idx := Z.to_nat (keyLine - 1) in
  line ← lines !! idx;
  Some (insertLines lines idx line (gs "  ") added).

Definition isCommentedYAMLSectionHeader (line key : gostring) : bool :=
  match TrimSpace line with
  | c :: trimmed => bool_decide (c = "#"%char) && bool_decide (TrimLeftBlank trimmed = key ++ gs ":")
  | [] => false
  end.

Definition isCommentedYAMLListEntry (line : gostring) : bool :=
  match TrimSpace line with
  | c :: trimmed =>
      bool_decide (c = "#"%char) &&
      let rest := TrimLeftBlank trimmed in bool_decide (rest = gs "-") || HasPrefix rest (gs "- ")
  | [] => false
  end.

(** The lines before the first placeholder header, and those after it. *)
Fixpoint splitAtHeader (key : gostring) (lines : list gostring) : option (list gostring * list gostring) :=
  match lines with
  | [] => None
  | l :: ls =>
      if isCommentedYAMLSectionHeader l key then Some ([], ls)
      else match splitAtHeader key ls with
           | Some (pre, post) => Some (l :: pre, post)
           | None => None
           end
  end.

Fixpoint dropEntries (lines : list gostring) : list gostring :=
  match lines with
  | l :: ls => if isCommentedYAMLListEntry l then dropEntries ls else lines
  | [] => []
  end.

Definition replaceCommentedYAMLListSection (data key : gostring) (added : list gostring) : option gostring :=
  match splitAtHeader key (Split data LF) with
  | None => None
  | Some (pre, post) =>
      let replacement := (key ++ gs ":") :: ((λ d, gs "  - " ++ formatYAMLListValue d) <$> added) in
      Some (Join (pre ++ replacement ++ dropEntries post) [LF])
  end.

Definition newSection (key : gostring) (added : list gostring) : gostring :=
  key ++ gs ":" ++ [LF] ++ concat ((λ d, gs "  - " ++ formatYAMLListValue d ++ [LF]) <$> added).

Definition appendNewYAMLListSection (data key : gostring) (added : list gostring) : gostring :=
  data ++
  (if bool_decide (data = []) then []
   else (if HasSuffix data [LF] then [] else [LF]) ++ (if HasSuffix data [LF; LF] then [] else [LF])) ++
  newSection key added.

(** ** The dispatcher *)

Inductive editErr := ParseFailed | ExpectedMapping | ExpectedList (key : gostring) | EncodeFailed.

(** [yaml.Unmarshal] into a node (the contents of the document node), the
    library's [Node.SetString], and its encoding of the document a text was
    parsed to, with the children that the root mapping has by then. *)
Context (unmarshal : gostring → option (list node)).
Context (SetString : node → gostring → node).
Context (encode : gostring → list node → option gostring).

Fixpoint findYAMLMappingPair (content : list node) (key : gostring) : option (node * node) :=
  match content with
  | k :: v :: rest =>
      if bool_decide (Kind k = ScalarNode) && bool_decide (Value k = key) then Some (k, v)
      else findYAMLMappingPair rest key
  | _ => None
  end.

(** The children of the root mapping. *)
Definition parseProjectConfigYAML (data : gostring) : result editErr (list node) :=
  if bool_decide (TrimSpace data = []) then Ok []
  else match unmarshal data with
       | None => Err ParseFailed
       | Some [] => Ok []
       | Some (root :: _) =>
           if bool_decide (Kind root = MappingNode) then Ok (Content root) else Err ExpectedMapping
       end.

Definition newYAMLStringScalar (value : gostring) : node :=
  SetString (MkNode ScalarNode (gs "!!str") [] false false 0 []) value.

(** The assignments to the section's value: a null first becomes a list. *)
Definition extendValue (v : node) (added : list gostring) : node :=
  let null := negb (bool_decide (Kind v = SequenceNode)) in
  MkNode SequenceNode (if null then gs "!!seq" else Tag v) (if null then [] else Value v) false false (Line v)
    (Content v ++ (newYAMLStringScalar <$> added)).

(** The value is a pointer into the document: the first pair of that key changes. *)
Fixpoint setYAMLMappingValue (content : list node) (key : gostring) (v' : node) : list node :=
  match content with
  | k :: v :: rest =>
      if bool_decide (Kind k = ScalarNode) && bool_decide (Value k = key) then k :: v' :: rest
      else k :: v :: setYAMLMappingValue rest key v'
  | _ => content
  end.

Definition reencode (data key : gostring) (content : list node) (v : node) (added : list gostring) :
    result editErr gostring :=
  match encode data (setYAMLMappingValue content key (extendValue v added)) with
  | Some out => Ok out
  | None => Err EncodeFailed
  end.

Definition appendYAMLListEntries (data key : gostring) (added : list gostring) : result editErr gostring :=
  match parseProjectConfigYAML data with
  | Err e => Err e
  | Ok content =>
      match findYAMLMappingPair content key with
      | None =>
          match replaceCommentedYAMLListSection data key added with
          | Some out => Ok out
          | None => Ok (appendNewYAMLListSection data key added)
          end
      | Some (keyNode, valNode) =>
          if bool_decide (Kind valNode = SequenceNode) then
            match appendToExistingBlockYAMLList data valNode added with
            | Some out => Ok out
            | None => reencode data key content valNode added
            end
          else if bool_decide (Kind valNode = ScalarNode) && bool_decide (Tag valNode = gs "!!null") then
            match (if bool_decide (Value valNode = []) && (Line valNode =? Line keyNode)%Z &&
                      (0 <? Line keyNode)%Z
                   then insertAfterKeyLine data (Line keyNode) added else None) with
            | Some out => Ok out
            | None => reencode data key content valNode added
            end
          else Err (ExpectedList key)
      end
  end.

(** [appendAllowEntries]: [current] are the entries the file already has; the
    result is the new content of the file, [None] when nothing is to be done. *)
Definition appendAllowEntries (data key : gostring) (current entries : list gostring) :
    result editErr (option gostring) :=
  let added := dedupFrom (list_to_set current) entries in
  if bool_decide (added = []) then Ok None
  else match appendYAMLListEntries data key added with
       | Ok out => Ok (Some out)
       | Err e => Err e
       end.

(** ** Writing the file from the template *)

Definition line (s : string) : gostring := gs s ++ [LF].

Definition writeConfigHeader : gostring :=
  line "# Vibepit network config for this project." ++
  line "# All internet access from the sandbox container is filtered through" ++
  line "# a proxy that only allows domains listed here." ++
  line "#" ++ line "# Docs: https://github.com/bernd/vibepit" ++ [LF].

Definition writePresetsSection (presets : list gostring) : gostring :=
  line "# Presets bundle common domains for a language ecosystem." ++
  line "# Use 'vibepit --reconfigure' to change presets interactively." ++
  line "# Available: default, anthropic, vcs-github, vcs-other, containers," ++
  line "# cloud, pkg-node, pkg-python, pkg-ruby, pkg-rust, pkg-go, pkg-jvm," ++
  line "# pkg-others, linux-distros, devtools, monitoring, cdn, schema, mcp" ++
  (if (0 <? length presets)%nat then
     line "presets:" ++ concat ((λ p, gs "  - " ++ p ++ [LF]) <$> presets)
   else line "# presets:" ++ line "#   - default" ++ line "#   - pkg-go").

Definition writeYAMLListSection (comment key : gostring) (entries examples : list gostring) : gostring :=
  [LF] ++ comment ++ [LF] ++
  (if (0 <? length entries)%nat then
     key ++ gs ":" ++ [LF] ++ concat ((λ d, gs "  - " ++ formatYAMLListValue d ++ [LF]) <$> entries)
   else gs "# " ++ key ++ gs ":" ++ [LF] ++ concat ((λ d, gs "#   - " ++ d ++ [LF]) <$> examples)).

Definition writeReconfiguredProjectConfig (presets allowHTTP allowDNS : list gostring) : gostring :=
  writeConfigHeader ++ writePresetsSection presets ++
  writeYAMLListSection (gs "# Additional domains to allow HTTP access for this project.")
    (gs "allow-http") allowHTTP [gs "api.openai.com:443"; gs "api.anthropic.com:443"] ++
  writeYAMLListSection (gs "# Domains that only need DNS resolution (no HTTP proxy).")
    (gs "allow-dns") allowDNS [gs "internal.corp.example.com"].

Definition writeProjectConfig (presets : list gostring) : gostring :=
  writeReconfiguredProjectConfig presets [] [].

(** [RunFirstTimeSetup]: [dialog] is the preset selector, given the presets that
    are checked at first and those detected; the result is what was selected and
    the text written to the file. *)
Definition RunFirstTimeSetup (detected : list gostring)
    (dialog : gmap gostring bool → list gostring → option (list gostring)) :
    option (list gostring * gostring) :=
  let preChecked := fold_left (λ m d, <[d := true]> m) detected {[ gs "default" := true ]} in
  selected ← dialog preChecked detected;
  Some (selected, writeProjectConfig selected).

(** [RunReconfigure] after the selector returned [selected]: the configuration
    that was loaded, and the text written in its place. *)
Definition RunReconfigure (cfg : ProjectConfig) (selected : list gostring) : gostring :=
  writeReconfiguredProjectConfig selected (pAllowHTTP cfg) (pAllowDNS cfg).

(** ** Properties *)

(** The search for a placeholder stops at the first one, and takes its examples. *)
Lemma splitAtHeader_spec key lines :
  match splitAtHeader key lines with
  | Some (pre, post) =>
      ∃ h, lines = pre ++ h :: post ∧ isCommentedYAMLSectionHeader h key = true ∧
        Forall (λ l, isCommentedYAMLSectionHeader l key = false) pre
  | None => Forall (λ l, isCommentedYAMLSectionHeader l key = false) lines
  end.
Proof.
  induction lines as [|l ls IH]; cbn; [done|].
  destruct (isCommentedYAMLSectionHeader l key) eqn:E; [by exists l|].
  destruct (splitAtHeader key ls) as [[pre post]|]; [|by constructor].
  destruct IH as (h & -> & Hh & Hp). exists h. split_and!; [done..|by constructor].
Qed.

Lemma dropEntries_spec lines :
  ∃ es, lines = es ++ dropEntries lines ∧ Forall (λ l, isCommentedYAMLListEntry l = true) es ∧
    ∀ l, head (dropEntries lines) = Some l → isCommentedYAMLListEntry l = false.
Proof.
  induction lines as [|l ls (es & He & Hf & Hh)]; cbn; [by exists []|].
  destruct (isCommentedYAMLListEntry l) eqn:E.
  - exists (l :: es). split_and!; [cbn; by f_equal|by constructor|done].
  - exists []. split_and!; [done..|]. by intros l' [= <-].
Qed.

(** List items, one a line, with the indentation and line ending given. *)
Definition items (indent nl : gostring) (added : list gostring) : gostring :=
  concat ((λ d, indent ++ gs "- " ++ formatYAMLListValue d ++ nl) <$> added).

(** Line [n] of a text, counted from one, with what is before and after it. *)
Definition atLine (data : gostring) (n : Z) (before l after : gostring) : Prop :=
  ∃ ls ls', SplitAfter data = ls ++ l :: ls' ∧ Z.of_nat (length ls) = (n - 1)%Z ∧
    before = concat ls ∧ after = concat ls'.

Definition endLine (l : gostring) : gostring := if HasSuffix l [LF] then l else l ++ lineEnding l.

(** A line split into its blanks and the rest. *)
Definition indented (l indent rest : gostring) : Prop :=
  l = indent ++ rest ∧ Forall (λ c, c = " "%char ∨ c = "009"%char) indent.

(** What an addition does to a file, by the pair that the YAML library reads for
    the key: the items go after the line of the list's last item, with its
    indentation; under the line of a key without a value; where the key is only a
    placeholder, in its place; where it is not there, at the end.  What can be done
    in none of these ways is encoded from the tree, in which only that list grew. *)
Inductive edited (data key : gostring) (added : list gostring) : gostring → Prop :=
  | edit_item content k v n before l after indent rest :
      parseProjectConfigYAML data = Ok content → findYAMLMappingPair content key = Some (k, v) →
      Kind v = SequenceNode → FlowStyle v = false → last (Content v) = Some n →
      atLine data (Line n) before l after → indented l indent (gs "-" ++ rest) →
      edited data key added (before ++ endLine l ++ items indent (lineEnding l) added ++ after)
  | edit_key content k v before l after :
      parseProjectConfigYAML data = Ok content → findYAMLMappingPair content key = Some (k, v) →
      Kind v = ScalarNode → Tag v = gs "!!null" → Value v = [] → Line v = Line k →
      atLine data (Line k) before l after →
      edited data key added (before ++ endLine l ++ items (gs "  ") (lineEnding l) added ++ after)
  | edit_placeholder content pre header examples post :
      parseProjectConfigYAML data = Ok content → findYAMLMappingPair content key = None →
      Split data LF = pre ++ header :: examples ++ post →
      isCommentedYAMLSectionHeader header key = true →
      Forall (λ l, isCommentedYAMLSectionHeader l key = false) pre →
      Forall (λ l, isCommentedYAMLListEntry l = true) examples →
      (∀ l, head post = Some l → isCommentedYAMLListEntry l = false) →
      edited data key added
        (Join (pre ++ (key ++ gs ":") :: ((λ d, gs "  - " ++ formatYAMLListValue d) <$> added) ++ post) [LF])
  | edit_append content sep :
      parseProjectConfigYAML data = Ok content → findYAMLMappingPair content key = None →
      Forall (λ l, isCommentedYAMLSectionHeader l key = false) (Split data LF) →
      sep ∈ [[]; [LF]; [LF; LF]] → data = [] ∨ HasSuffix (data ++ sep) [LF; LF] = true →
      edited data key added (data ++ sep ++ key ++ gs ":" ++ [LF] ++ items (gs "  ") [LF] added)
  | edit_reencode content pre k v v' post out :
      parseProjectConfigYAML data = Ok content → findYAMLMappingPair content key = Some (k, v) →
      (Kind v = SequenceNode ∧ appendToExistingBlockYAMLList data v added = None ∨
       Kind v = ScalarNode ∧ Tag v = gs "!!null" ∧
       (Value v ≠ [] ∨ Line v ≠ Line k ∨ insertAfterKeyLine data (Line k) added = None)) →
      content = pre ++ k :: v :: post →
      Kind v' = SequenceNode → Content v' = Content v ++ (newYAMLStringScalar <$> added) →
      encode data (pre ++ k :: v' :: post) = Some out → edited data key added out.

Lemma insertLines_spec data idx l indent added :
  SplitAfter data !! idx = Some l →
  ∃ before after, atLine data (Z.of_nat idx + 1) before l after ∧
    insertLines (SplitAfter data) idx l indent added =
      before ++ endLine l ++ items indent (lineEnding l) added ++ after.
Proof.
  intros Hl. exists (concat (take idx (SplitAfter data))), (concat (drop (S idx) (SplitAfter data))). split.
  - eexists _, _. split; [symmetry; by apply take_drop_middle|]. split; [|done].
    rewrite length_take. apply lookup_lt_Some in Hl. lia.
  - unfold insertLines, endLine, items. rewrite !concat_app. cbn [concat].
    rewrite app_nil_r. by destruct (HasSuffix l [LF]).
Qed.

Lemma TrimLeftBlank_indented l :
  indented l (take (length l - length (TrimLeftBlank l)) l) (TrimLeftBlank l).
Proof.
  induction l as [|c l [IH1 IH2]]; [by split|]. cbn [TrimLeftBlank].
  destruct (bool_decide (c = " "%char) || bool_decide (c = "009"%char)) eqn:Hc.
  - assert (Hlen : (length (TrimLeftBlank l) ≤ length l)%nat).
    { rewrite IH1 at 2. rewrite length_app. lia. }
    replace (length (c :: l) - length (TrimLeftBlank l))%nat
      with (S (length l - length (TrimLeftBlank l))) by (cbn [length]; lia).
    cbn [take]. split; [cbn; by f_equal|]. constructor; [|done].
    by apply orb_true_iff in Hc as [?%bool_decide_eq_true|?%bool_decide_eq_true]; [left|right].
  - rewrite Nat.sub_diag. by split.
Qed.

(** An appended section follows an empty line. *)
Lemma separated data :
  HasSuffix (data ++ (if HasSuffix data [LF] then [] else [LF]) ++ (if HasSuffix data [LF; LF] then [] else [LF]))
    [LF; LF] = true.
Proof.
  assert (Hr : ∀ a b, HasSuffix (a ++ b) [LF; LF] = HasPrefix (reverse b ++ reverse a) [LF; LF])
    by (intros; unfold HasSuffix; by rewrite reverse_app).
  rewrite Hr. unfold HasSuffix. destruct (reverse data) as [|c [|d r]] eqn:E; [done|..]; cbn;
    repeat case_bool_decide; cbn; subst; done.
Qed.

Lemma setYAMLMappingValue_spec content key k v v' :
  findYAMLMappingPair content key = Some (k, v) →
  ∃ pre post, content = pre ++ k :: v :: post ∧ setYAMLMappingValue content key v' = pre ++ k :: v' :: post.
Proof.
  induction content as [content IH] using (induction_ltof1 _ length). unfold ltof in IH.
  destruct content as [|x [|y rest]]; cbn; [done..|]. destruct (_ && _).
  - intros [= <- <-]. by exists [], rest.
  - intros Hf. destruct (IH rest) as (pre & post & -> & ->); [cbn; lia|done|]. by exists (x :: y :: pre), post.
Qed.

(** The ways of an addition, one by one. *)
Lemma item_edited data key added content k v out :
  parseProjectConfigYAML data = Ok content → findYAMLMappingPair content key = Some (k, v) →
  Kind v = SequenceNode → appendToExistingBlockYAMLList data v added = Some out → edited data key added out.
Proof.
  intros Hp Hf Hk. unfold appendToExistingBlockYAMLList.
  destruct (FlowStyle v) eqn:Hfl; [done|]. destruct (last (Content v)) as [n|] eqn:Hn; [|done]. cbn.
  destruct (_ || _) eqn:Hc; [done|]. apply orb_false_iff in Hc as [_ Hpos%Z.leb_gt].
  destruct (SplitAfter data !! _) as [l|] eqn:Hl; [|done]. cbn.
  destruct (HasPrefix (TrimLeftBlank l) (gs "-")) eqn:Hd; [|done]. intros [= <-].
  apply HasPrefix_spec in Hd as [rest Hd].
  destruct (insertLines_spec _ _ l (take (length l - length (TrimLeftBlank l)) l) added Hl)
    as (before & after & Hat & ->).
  eapply edit_item; [done..| |rewrite <- Hd; apply TrimLeftBlank_indented].
  by replace (Z.of_nat (Z.to_nat (Line n - 1)) + 1)%Z with (Line n) in Hat by lia.
Qed.

Lemma key_edited data key added content k v out :
  parseProjectConfigYAML data = Ok content → findYAMLMappingPair content key = Some (k, v) →
  Kind v = ScalarNode → Tag v = gs "!!null" → Value v = [] → Line v = Line k →
  insertAfterKeyLine data (Line k) added = Some out → edited data key added out.
Proof.
  intros Hp Hf Hk Ht Hv Hln. unfold insertAfterKeyLine. destruct (Z.leb_spec (Line k) 0) as [|Hpos]; [done|].
  destruct (SplitAfter data !! _) as [l|] eqn:Hl; [|done]. cbn. intros [= <-].
  destruct (insertLines_spec _ _ l (gs "  ") added Hl) as (before & after & Hat & ->).
  eapply edit_key; [done..|]. by replace (Z.of_nat (Z.to_nat (Line k - 1)) + 1)%Z with (Line k) in Hat by lia.
Qed.

Lemma absent_edited data key added content :
  parseProjectConfigYAML data = Ok content → findYAMLMappingPair content key = None →
  edited data key added
    (default (appendNewYAMLListSection data key added) (replaceCommentedYAMLListSection data key added)).
Proof.
  intros Hp Hf. unfold replaceCommentedYAMLListSection.
  pose proof (splitAtHeader_spec key (Split data LF)) as Hs.
  destruct (splitAtHeader key (Split data LF)) as [[pre post]|]; cbn [default].
  - destruct Hs as (h & Hl & Hh & Hpre). destruct (dropEntries_spec post) as (es & He & Hes & Hpost).
    apply (edit_placeholder data key added content pre h es (dropEntries post)); try done. by rewrite <- He.
  - unfold appendNewYAMLListSection, newSection. eapply edit_append; [done..| |].
    + case_bool_decide; [left|]. destruct (HasSuffix data [LF]), (HasSuffix data [LF; LF]); cbn; set_solver.
    + case_bool_decide as Hd; [by left|right]. apply separated.
Qed.

Lemma reencode_edited data key added content k v out :
  parseProjectConfigYAML data = Ok content → findYAMLMappingPair content key = Some (k, v) →
  (Kind v = SequenceNode ∧ appendToExistingBlockYAMLList data v added = None ∨
   Kind v = ScalarNode ∧ Tag v = gs "!!null" ∧
   (Value v ≠ [] ∨ Line v ≠ Line k ∨ insertAfterKeyLine data (Line k) added = None)) →
  reencode data key content v added = Ok out → edited data key added out.
Proof.
  intros Hp Hf Hv. unfold reencode.
  destruct (setYAMLMappingValue_spec _ _ _ _ (extendValue v added) Hf) as (pre & post & Hc & ->).
  destruct (encode _ _) as [o|] eqn:E; [|done]. intros [= <-].
  by eapply (edit_reencode data key added content pre k v (extendValue v added) post).
Qed.

Lemma appendYAMLListEntries_edited data key added out :
  appendYAMLListEntries data key added = Ok out → edited data key added out.
Proof.
  unfold appendYAMLListEntries. destruct (parseProjectConfigYAML data) as [content|] eqn:Hp; [|done].
  destruct (findYAMLMappingPair content key) as [[k v]|] eqn:Hf.
  - case_bool_decide as Hs.
    + destruct (appendToExistingBlockYAMLList data v added) as [o|] eqn:E.
      * intros [= <-]. by eapply item_edited.
      * eapply reencode_edited; [done..|by left].
    + destruct (bool_decide (Kind v = ScalarNode) && _) eqn:Hn; [|done].
      apply andb_true_iff in Hn as [Hk%bool_decide_eq_true Ht%bool_decide_eq_true].
      destruct (bool_decide (Value v = []) && (Line v =? Line k)%Z && (0 <? Line k)%Z) eqn:Hi.
      * apply andb_true_iff in Hi as [[Hv%bool_decide_eq_true Hl%Z.eqb_eq]%andb_true_iff _].
        destruct (insertAfterKeyLine data (Line k) added) as [o|] eqn:E; [|eapply reencode_edited; naive_solver].
        intros [= <-]. by eapply key_edited.
      * eapply reencode_edited; [done..|right]. split_and!; [done..|].
        destruct (decide (Value v = [])); [right|by left]. destruct (decide (Line v = Line k)) as [He|]; [right|by left].
        rewrite bool_decide_eq_true_2, He, Z.eqb_refl in Hi by done. cbn in Hi.
        unfold insertAfterKeyLine. by rewrite (proj2 (Z.leb_le _ _)) by lia.
  - pose proof (absent_edited data key added content Hp Hf) as Ha.
    destruct (replaceCommentedYAMLListSection data key added); by intros [= <-].
Qed.

(** Adding entries never touches what is already in the file.  The items go where
    the section is, as [edited] says, and only new entries, each once, are added. *)
Theorem appendAllowEntries_edits data key current entries out :
  appendAllowEntries data key current entries = Ok (Some out) →
  ∃ added, edited data key added out ∧ added ≠ [] ∧ NoDup added ∧
    ∀ e, e ∈ added ↔ e ∈ entries ∧ e ∉ current.
Proof.
  unfold appendAllowEntries. case_bool_decide as Hne; [done|].
  destruct (appendYAMLListEntries _ _ _) as [o|] eqn:E; [|done]. intros [= <-].
  destruct (dedupFrom_spec (list_to_set current) entries) as (H1 & H2 & _).
  eexists. split_and!; [by eapply appendYAMLListEntries_edited|exact Hne|exact H1|].
  intros e. rewrite H2. set_solver.
Qed.
End edit.

(** The template's own placeholder is found and replaced. *)
Lemma appendAllowEntries_edits_witness :
  let data := writeProjectConfig (λ v, v) [gs "default"] in
  ∃ out, appendAllowEntries (λ v, v) (λ _, Some []) (λ n _, n) (λ _ _, None) data (gs "allow-http") []
           [gs "a.com:443"; gs "a.com:443"] = Ok (Some out) ∧
    ∃ added, edited (λ v, v) (λ _, Some []) (λ n _, n) (λ _ _, None) data (gs "allow-http") added out ∧ NoDup added.
Proof.
  intros data.
  destruct (appendAllowEntries (λ v, v) (λ _, Some []) (λ n _, n) (λ _ _, None) data (gs "allow-http") []
    [gs "a.com:443"; gs "a.com:443"]) as [[out|]|e] eqn:E; [|vm_compute in E; discriminate E..].
  exists out. split; [reflexivity|].
  destruct (appendAllowEntries_edits _ _ _ _ _ _ _ _ _ E) as (added & He & _ & Hn & _).
  exists added. split; [exact He|exact Hn].
Defined.

(** An item goes into its own section, at the end and with the indentation there. *)
Example item_in_section :
  let str n v := MkNode ScalarNode (gs "!!str") (gs v) false false n [] in
  let seq n vs := MkNode SequenceNode (gs "!!seq") [] false false n vs in
  let root := MkNode MappingNode (gs "!!map") [] false false 1
                [str 1%Z "allow-http"; seq 2%Z [str 2%Z "a.com:443"]; str 3%Z "allow-dns"; seq 4%Z [str 4%Z "b.com"]] in
  let data := line "allow-http:" ++ line "    - a.com:443 # kept" ++ line "allow-dns:" ++ line "  - b.com" in
  appendYAMLListEntries (λ v, v) (λ _, Some [root]) (λ n _, n) (λ _ _, None) data (gs "allow-http") [gs "c.com:443"] =
    Ok (line "allow-http:" ++ line "    - a.com:443 # kept" ++ line "    - c.com:443" ++
        line "allow-dns:" ++ line "  - b.com").
Proof. vm_compute. reflexivity. Qed.
