(* ===== verification/Tui.v ===== *)
(** * The terminal user interface: cursor and window ([tui/cursor.go],
    [tui/window.go], [tui/screen.go])

    A window owns the frame (size, ticks, flash message, error) and hands every
    message to the active screen; a screen is any instance of the class [Screen].
    Lists are navigated with a [Cursor], shown to stay inside the list and
    inside the viewport. *)

From S2P Require Import Prelude GoStrings.
Open Scope Z_scope.

(** ** The cursor *)

Record Cursor := MkCursor { Pos : Z; Offset : Z; VpHeight : Z; ItemCount : Z }.

Definition AtEnd (c : Cursor) : bool := (0 <? ItemCount c) && (Pos c =? ItemCount c - 1).

Definition set_pos (c : Cursor) (p : Z) : Cursor := MkCursor p (Offset c) (VpHeight c) (ItemCount c).
Definition set_offset (c : Cursor) (o : Z) : Cursor := MkCursor (Pos c) o (VpHeight c) (ItemCount c).
Definition set_vp (c : Cursor) (v : Z) : Cursor := MkCursor (Pos c) (Offset c) v (ItemCount c).
Definition set_count (c : Cursor) (n : Z) : Cursor := MkCursor (Pos c) (Offset c) (VpHeight c) n.

Definition EnsureVisible (c : Cursor) : Cursor :=
  let c1 := if Pos c <? Offset c then set_offset c (Pos c) else c in
  if Offset c1 + VpHeight c1 <=? Pos c1 then set_offset c1 (Pos c1 - VpHeight c1 + 1) else c1.

(** A key is the text of [msg.String()]. *)
Definition key_in (k : gostring) (ks : list string) : bool := existsb (λ x, bool_decide (k = gs x)) ks.

(** The cursor after a key, and whether the key was handled. *)
Definition HandleKey (c : Cursor) (k : gostring) : Cursor * bool :=
  if key_in k ["j"; "down"]%string then
    (if Pos c <? ItemCount c - 1 then EnsureVisible (set_pos c (Pos c + 1)) else c, true)
  else if key_in k ["k"; "up"]%string then
    (if 0 <? Pos c then EnsureVisible (set_pos c (Pos c - 1)) else c, true)
  else if key_in k ["G"; "end"]%string then
    (if 0 <? ItemCount c then EnsureVisible (set_pos c (ItemCount c - 1)) else c, true)
  else if key_in k ["g"; "home"]%string then (EnsureVisible (set_pos c 0), true)
  else if key_in k ["pgdown"]%string then
    let p := Pos c + VpHeight c in
    let p := if ItemCount c <=? p then ItemCount c - 1 else p in
    let p := if p <? 0 then 0 else p in
    (EnsureVisible (set_pos c p), true)
  else if key_in k ["pgup"]%string then
    let p := Pos c - VpHeight c in
    let p := if p <? 0 then 0 else p in
    (EnsureVisible (set_pos c p), true)
  else (c, false).

(** The highlighted item exists, unless the list is empty, and is one of the
    rows [Offset .. Offset + VpHeight - 1]. *)
Definition in_range (c : Cursor) : Prop := 0 ≤ Pos c ≤ Z.max (ItemCount c - 1) 0.
Definition visible (c : Cursor) : Prop := 0 ≤ Offset c ≤ Pos c ∧ Pos c < Offset c + VpHeight c.

Lemma EnsureVisible_visible c :
  1 ≤ VpHeight c → 0 ≤ Pos c → 0 ≤ Offset c → visible (EnsureVisible c).
Proof.
  intros Hv Hp Ho. unfold EnsureVisible. destruct (Z.ltb_spec (Pos c) (Offset c)); cbn;
    destruct (Z.leb_spec (Offset c + VpHeight c) (Pos c)); cbn;
    repeat match goal with |- context [if ?b then _ else _] => destruct b eqn:? end;
    unfold visible; cbn; lia.
Qed.

Lemma EnsureVisible_frame c :
  Pos (EnsureVisible c) = Pos c ∧ VpHeight (EnsureVisible c) = VpHeight c ∧
  ItemCount (EnsureVisible c) = ItemCount c.
Proof. unfold EnsureVisible. by destruct (_ <? _); cbn; destruct (_ <=? _). Qed.

Lemma in_range_EnsureVisible c : in_range (EnsureVisible c) ↔ in_range c.
Proof. unfold in_range. by destruct (EnsureVisible_frame c) as (-> & _ & ->). Qed.

Lemma HandleKey_frame c k :
  VpHeight (HandleKey c k).1 = VpHeight c ∧ ItemCount (HandleKey c k).1 = ItemCount c.
Proof.
  unfold HandleKey. repeat case_match; cbn [fst]; try done;
    match goal with |- context [EnsureVisible ?x] => destruct (EnsureVisible_frame x) as (_ & -> & ->) end;
    done.
Qed.

Lemma HandleKey_in_range c k : 0 ≤ VpHeight c → in_range c → in_range (HandleKey c k).1.
Proof.
  intros Hv Hr. unfold HandleKey.
  repeat (case_match; cbn [fst]; rewrite ?in_range_EnsureVisible); try done;
    rewrite ?in_range_EnsureVisible; unfold in_range in *; cbn in *; lia.
Qed.

Lemma HandleKey_visible c k :
  1 ≤ VpHeight c → in_range c → visible c → visible (HandleKey c k).1.
Proof.
  intros Hv Hr Hvis. assert (Ho : 0 ≤ Offset c) by apply Hvis. unfold in_range in Hr.
  unfold HandleKey. repeat (case_match; cbn [fst]); try done;
    apply EnsureVisible_visible; cbn; try done; lia.
Qed.

(** The highlighted item never leaves the list or the screen.  Whatever keys
    are pressed, the position stays an index of the list (0 for an empty one)
    and inside the viewport, and the viewport's top never goes negative. *)
Theorem cursor_stays_visible c ks :
  1 ≤ VpHeight c → in_range c → visible c →
  let c' := fold_left (λ c k, (HandleKey c k).1) ks c in
  in_range c' ∧ visible c' ∧ ItemCount c' = ItemCount c.
Proof.
  revert c. induction ks as [|k ks IH]; intros c Hv Hr Hvis; cbn; [done|].
  destruct (HandleKey_frame c k) as [Hf1 Hf2].
  destruct (IH (HandleKey c k).1) as (H1 & H2 & H3); [lia|apply HandleKey_in_range; (done || lia)
    |by apply HandleKey_visible|]. by rewrite H3, Hf2.
Qed.

Lemma cursor_stays_visible_witness :
  let c := MkCursor 0 0 3 10 in
  let c' := fold_left (λ c k, (HandleKey c k).1) [gs "pgdown"; gs "G"; gs "up"; gs "x"] c in
  c' = MkCursor 8 7 3 10 ∧ in_range c' ∧ visible c' ∧ ItemCount c' = 10.
Proof.
  intros c c'. split; [reflexivity|].
  apply (cursor_stays_visible c); unfold in_range, visible; cbn; lia.
Defined.

(** ** Windows and screens *)

Definition TickInterval : Z := 250 * 10 ^ 6.

(** [X]: the messages only some screens understand. *)
Inductive msg (X : Type) :=
  | WindowSize (w h : Z)
  | Tick
  | KeyPress (k : gostring)
  | Custom (x : X).
Arguments WindowSize {X}.
Arguments Tick {X}.
Arguments KeyPress {X}.
Arguments Custom {X}.

(** What the header shows; how many lines it takes is up to [headerHeight]. *)
Record HeaderInfo := MkHeader { ProjectDir : gostring; SessionID : gostring }.

Record Window := MkWindow {
  header : HeaderInfo;
  width : Z;
  height : Z;
  vpHeight : Z;
  tickFrame : Z;
  flash : gostring;
  flashExp : Z;
  err : option gostring;
}.

Definition NewWindow (h : HeaderInfo) : Window := MkWindow h 0 0 0 0 [] 0 None.

Definition SetFlash (w : Window) (m : gostring) (now : Z) : Window :=
  MkWindow (header w) (width w) (height w) (vpHeight w) (tickFrame w) m (now + 2 * 10 ^ 9) (err w).
Definition SetHeader (w : Window) (h : HeaderInfo) : Window :=
  MkWindow h (width w) (height w) (vpHeight w) (tickFrame w) (flash w) (flashExp w) (err w).
Definition SetError (w : Window) (e : option gostring) : Window :=
  MkWindow (header w) (width w) (height w) (vpHeight w) (tickFrame w) (flash w) (flashExp w) e.
Definition ClearError (w : Window) : Window := SetError w None.

Definition IntervalElapsed (w : Window) (interval : Z) : bool :=
  let n := Z.quot interval TickInterval in
  if n <=? 1 then true else Z.rem (tickFrame w) n =? 0.

(** A screen with commands [C]: [Update] returns the screen that is active
    afterwards, whether it is another object than before, and a command. *)
Record updated (S C : Type) := MkUpdated { screen : S; switched : bool; win : Window; cmd : option C }.
Arguments MkUpdated {S C}.
Arguments screen {S C}.
Arguments switched {S C}.
Arguments win {S C}.
Arguments cmd {S C}.

Class Screen (S X C : Type) := Update : S → msg X → Window → Z → updated S C.

Inductive windowCmd (C : Type) := DoTick | ScreenCmd (c : C).
Arguments DoTick {C}.
Arguments ScreenCmd {C}.

Section window.
Context (headerHeight : HeaderInfo → Z → Z → Z).
Context {S X C : Type} `{Screen S X C}.

(** The window's own share of a message. *)
Definition windowMsg (w : Window) (m : msg X) (now : Z) : Window :=
  match m with
  | WindowSize wd h =>
      MkWindow (header w) wd h (Z.max (h - headerHeight (header w) wd h - 1) 1) (tickFrame w)
        (flash w) (flashExp w) (err w)
  | Tick =>
      MkWindow (header w) (width w) (height w) (vpHeight w) (tickFrame w + 1)
        (if bool_decide (flash w ≠ []) && (flashExp w <? now) then [] else flash w) (flashExp w) (err w)
  | _ => w
  end.

Definition cmds_of (c : option C) : list (windowCmd C) := ScreenCmd <$> option_list c.

(** [Window.Update]: a new screen is told the size at once. *)
Definition windowUpdate (w : Window) (s : S) (m : msg X) (now : Z) : Window * S * list (windowCmd C) :=
  let w1 := windowMsg w m now in
  let tick := match m with Tick => [DoTick] | _ => [] end in
  let u := Update s m w1 now in
  if switched u then
    let u2 := Update (screen u) (WindowSize (width (win u)) (height (win u))) (win u) now in
    (win u2, screen u2, tick ++ cmds_of (cmd u) ++ cmds_of (cmd u2))
  else (win u, screen u, tick ++ cmds_of (cmd u)).
End window.
