(* ===== verification/MonitorUI.v ===== *)
(** * The monitor ([cmd/monitor_ui.go], [cmd/session_ui.go], [cmd/monitor.go])

    Two screens of one window: the list of running sandboxes, and the log of one
    of them, which polls the control API and can allow a blocked request.  Polls
    and their answers are messages that travel by themselves; the last section
    follows them and shows that the screen shows the proxy's log. *)

From stdpp Require Import sorting.
From S2P Require Import Prelude GoStrings LogBuffer Tui.
Open Scope Z_scope.

Inductive allowStatus := statusNone | statusTemp | statusSaved.
#[global] Instance allowStatus_eq_dec : EqDecision allowStatus.
Proof. solve_decision. Defined.

Record logItem := MkItem { entry : LogEntry; status : allowStatus }.

Definition pollInterval : Z := 10 ^ 9.
Definition disconnectGracePeriod : Z := 3 * 10 ^ 9.
Definition disconnectGraceTicks : Z := Z.quot disconnectGracePeriod TickInterval.

Record SessionInfo := MkSessionInfo { ControlPort : gostring; sSessionID : gostring; sProjectDir : gostring }.

(** [container.ProxySession]. *)
Record ProxySession := MkProxySession {
  ContainerID : gostring;
  psSessionID : gostring;
  psControlPort : gostring;
  psProjectDir : gostring;
  StartedAt : Z;
}.

Definition sessionInfoFromProxy (ps : ProxySession) : SessionInfo :=
  MkSessionInfo (psControlPort ps) (psSessionID ps) (psProjectDir ps).

(** [onBack] is whether there is a session list to go back to, [hasClient]
    whether the control client is there; [disconnectTick] is -1 when connected. *)
Record monitorScreen := MkMonitor {
  session : SessionInfo;
  hasClient : bool;
  onBack : bool;
  cursor : Cursor;
  pollCursor : Z;
  pollInFlight : bool;
  items : list logItem;
  newCount : Z;
  firstTickSeen : bool;
  disconnectTick : Z;
}.

Definition newMonitorScreen (s : SessionInfo) (client back : bool) : monitorScreen :=
  MkMonitor s client back (MkCursor 0 0 0 0) 0 false [] 0 false (-1).

Record sessionScreen := MkSessionScreen {
  cur : Cursor;
  sessions : list ProxySession;
  selected : option SessionInfo;
  onSelect : bool;
  pollSessions : bool;
  spollInFlight : bool;
  sfirstTickSeen : bool;
  firstPollDone : bool;
  lastPollErr : gostring;
}.

Inductive screenState := SessionList (s : sessionScreen) | Monitor (m : monitorScreen).

(** The messages of this program, and the commands its screens return. *)
Inductive custom :=
  | AllowResult (index : Z) (st : allowStatus) (e : option gostring)
  | LogsPollResult (r : result gostring (list LogEntry))
  | SessionPollResult (r : result gostring (list ProxySession))
  | SessionError (e : gostring)
  | SessionSelectResult (sel : option SessionInfo) (scr : option monitorScreen).

Inductive command :=
  | Quit
  | AllowCmd (index : Z) (e : LogEntry) (save : bool)
  | PollLogs (afterID : Z)
  | PollSessions
  | SelectSession (s : SessionInfo).

(** ** Sorting *)

Fixpoint str_leb (a b : gostring) : bool :=
  match a, b with
  | [], _ => true
  | _ :: _, [] => false
  | x :: a', y :: b' => if b2z x <? b2z y then true else if b2z y <? b2z x then false else str_leb a' b'
  end.

Definition session_le (a b : ProxySession) : Prop := str_leb (psSessionID a) (psSessionID b) = true.
#[global] Instance session_le_dec : RelDecision session_le := λ a b, decide (_ = true).

Definition sortSessions (ss : list ProxySession) : list ProxySession := merge_sort session_le ss.

Definition newSessionScreen (ss : list ProxySession) (sel poll : bool) : sessionScreen :=
  MkSessionScreen (MkCursor 0 0 0 (Z.of_nat (length ss))) (sortSessions ss) None sel poll false false
    (0 <? length ss)%nat [].

Definition selectorHeader : HeaderInfo := MkHeader (gs "vibepit") (gs "session selector").

(** ** The monitor screen *)

(** What the control API is asked to allow. *)
Definition allowValueForEntry (e : LogEntry) : gostring :=
  if bool_decide (ESource e = SourceProxy) && bool_decide (Port e ≠ [])
  then Domain e ++ gs ":" ++ Port e else Domain e.

(** The control API and the project file keep one list per kind of entry. *)
Inductive allowTarget := AllowHTTP | AllowDNS.

Definition targetOf (e : LogEntry) : allowTarget :=
  if bool_decide (ESource e = SourceDNS) then AllowDNS else AllowHTTP.

(** The command of [allowCmd]: the running proxy first, then, to save it, the
    project file.  [api] and [append] give the error of either call. *)
Definition allowCmd (api append : allowTarget → gostring → option gostring)
    (index : Z) (e : LogEntry) (save : bool) : custom :=
  let value := allowValueForEntry e in
  match api (targetOf e) value with
  | Some x => AllowResult index statusNone (Some x)
  | None =>
      if save then
        match append (targetOf e) value with
        | Some x => AllowResult index statusNone (Some x)
        | None => AllowResult index statusSaved None
        end
      else AllowResult index statusTemp None
  end.

Definition set_mcursor (m : monitorScreen) (c : Cursor) (n : Z) : monitorScreen :=
  MkMonitor (session m) (hasClient m) (onBack m) c (pollCursor m) (pollInFlight m) (items m) n
    (firstTickSeen m) (disconnectTick m).
Definition set_items (m : monitorScreen) (l : list logItem) : monitorScreen :=
  MkMonitor (session m) (hasClient m) (onBack m) (cursor m) (pollCursor m) (pollInFlight m) l
    (newCount m) (firstTickSeen m) (disconnectTick m).
Definition set_poll (m : monitorScreen) (inFlight tickSeen : bool) (d : Z) : monitorScreen :=
  MkMonitor (session m) (hasClient m) (onBack m) (cursor m) (pollCursor m) inFlight (items m)
    (newCount m) tickSeen d.

Definition itemCount (m : monitorScreen) : Z := Z.of_nat (length (items m)).

Definition itemAt (m : monitorScreen) (i : Z) : option logItem :=
  if (0 <=? i) && (i <? itemCount m) then items m !! Z.to_nat i else None.

Definition stay (m : monitorScreen) (w : Window) (c : option command) : updated screenState command :=
  MkUpdated (Monitor m) false w c.

Definition transitionBack (w : Window) : updated screenState command :=
  MkUpdated (SessionList (newSessionScreen [] true true)) true (SetHeader w selectorHeader) None.

Definition monitorKey (m : monitorScreen) (w : Window) (k : gostring) (now : Z) :
    updated screenState command :=
  if key_in k ["a"; "A"]%string then
    match itemAt m (Pos (cursor m)) with
    | Some it =>
        if bool_decide (EAction (entry it) = ActionBlock) && bool_decide (status it = statusNone)
        then stay m w (Some (AllowCmd (Pos (cursor m)) (entry it) (bool_decide (k = gs "A"))))
        else stay m (SetFlash w (gs "already allowed") now) None
    | None => stay m w None
    end
  else if key_in k ["esc"]%string then (if onBack m then transitionBack w else stay m w None)
  else if key_in k ["q"; "ctrl+c"]%string then stay m w (Some Quit)
  else
    let oldAtEnd := AtEnd (cursor m) in
    let '(c, handled) := HandleKey (cursor m) k in
    stay (set_mcursor m c (if handled && negb oldAtEnd && AtEnd c then 0 else newCount m)) w None.

(** The loop over the new entries: the item list and the poll cursor. *)
Definition appendEntries (m : monitorScreen) (es : list LogEntry) : list logItem * Z :=
  (items m ++ ((λ e, MkItem e statusNone) <$> es), default (pollCursor m) (ID <$> last es)).

Definition monitorPollOk (m : monitorScreen) (es : list LogEntry) : monitorScreen :=
  let wasAtEnd := bool_decide (items m = []) || AtEnd (cursor m) in
  let '(its, pc) := appendEntries m es in
  let n := Z.of_nat (length its) in
  let c := set_count (cursor m) n in
  let added := Z.of_nat (length es) in
  let nc := if negb wasAtEnd && (0 <? added) && (Offset c + VpHeight c <? n) then newCount m + added
            else newCount m in
  let follow := wasAtEnd && (0 <? n) in
  MkMonitor (session m) (hasClient m) (onBack m)
    (if follow then EnsureVisible (set_pos c (n - 1)) else c) pc false its
    (if follow then 0 else nc) (firstTickSeen m) (-1).

Definition monitorTick (m : monitorScreen) (w : Window) : updated screenState command :=
  if onBack m && (0 <=? disconnectTick m) then
    let d := disconnectTick m + 1 in
    if disconnectGraceTicks <=? d then transitionBack w
    else stay (set_poll m (pollInFlight m) true d) w None
  else if (IntervalElapsed w pollInterval || negb (firstTickSeen m)) && negb (pollInFlight m) then
    if hasClient m then stay (set_poll m true true (disconnectTick m)) w (Some (PollLogs (pollCursor m)))
    else stay (set_poll m (pollInFlight m) true (disconnectTick m)) w None
  else stay (set_poll m (pollInFlight m) true (disconnectTick m)) w None.

Definition allowFlash (st : allowStatus) (domain : gostring) : option gostring :=
  match st with
  | statusTemp => Some (gs "allowed " ++ domain)
  | statusSaved => Some (gs "allowed and saved " ++ domain)
  | statusNone => None
  end.

Definition monitorUpdate (m : monitorScreen) (x : msg custom) (w : Window) (now : Z) :
    updated screenState command :=
  match x with
  | KeyPress k => monitorKey m w k now
  | WindowSize _ _ =>
      let c := set_vp (cursor m) (vpHeight w) in
      stay (set_mcursor m (EnsureVisible c)
              (if itemCount m <=? Offset c + VpHeight c then 0 else newCount m)) w None
  | Custom (AllowResult i st (Some e)) => stay m (SetError w (Some e)) None
  | Custom (AllowResult i st None) =>
      match itemAt m i with
      | Some it =>
          stay (set_items m (<[Z.to_nat i := MkItem (entry it) st]> (items m)))
            (match allowFlash st (Domain (entry it)) with Some f => SetFlash w f now | None => w end) None
      | None => stay m w None
      end
  | Custom (LogsPollResult (Err e)) =>
      if onBack m then
        stay (set_poll m false (firstTickSeen m) (if disconnectTick m <? 0 then 0 else disconnectTick m))
          (SetError w (Some (gs "session " ++ sSessionID (session m) ++ gs " disconnected"))) None
      else stay (set_poll m false (firstTickSeen m) (disconnectTick m)) (SetError w (Some e)) None
  | Custom (LogsPollResult (Ok es)) => stay (monitorPollOk m es) (ClearError w) None
  | Tick => monitorTick m w
  | Custom _ => stay m w None
  end.

(** The keys the footer offers for the highlighted entry. *)
Definition allowHints (m : monitorScreen) : list gostring :=
  match itemAt m (Pos (cursor m)) with
  | Some it =>
      if bool_decide (EAction (entry it) = ActionBlock) && bool_decide (status it = statusNone)
      then [gs "a"; gs "A"]
      else if bool_decide (status it = statusTemp) then [gs "A"] else []
  | None => []
  end.

(** ** The session list *)

Definition set_scursor (s : sessionScreen) (c : Cursor) : sessionScreen :=
  MkSessionScreen c (sessions s) (selected s) (onSelect s) (pollSessions s) (spollInFlight s)
    (sfirstTickSeen s) (firstPollDone s) (lastPollErr s).
Definition set_spoll (s : sessionScreen) (inFlight tickSeen : bool) : sessionScreen :=
  MkSessionScreen (cur s) (sessions s) (selected s) (onSelect s) (pollSessions s) inFlight tickSeen
    (firstPollDone s) (lastPollErr s).
Definition set_selected (s : sessionScreen) (sel : option SessionInfo) : sessionScreen :=
  MkSessionScreen (cur s) (sessions s) sel (onSelect s) (pollSessions s) (spollInFlight s)
    (sfirstTickSeen s) (firstPollDone s) (lastPollErr s).

Definition stays (s : sessionScreen) (w : Window) (c : option command) : updated screenState command :=
  MkUpdated (SessionList s) false w c.

Definition sessionAt (s : sessionScreen) (i : Z) : option ProxySession :=
  if (0 <=? i) && (i <? Z.of_nat (length (sessions s))) then sessions s !! Z.to_nat i else None.

Definition sessionUpdate (s : sessionScreen) (x : msg custom) (w : Window) (now : Z) :
    updated screenState command :=
  match x with
  | Custom (SessionPollResult (Err e)) =>
      let s1 := set_spoll s false (sfirstTickSeen s) in
      if bool_decide (e = lastPollErr s) then stays s1 w None
      else stays (MkSessionScreen (cur s1) (sessions s1) (selected s1) (onSelect s1) (pollSessions s1)
                    false (sfirstTickSeen s1) (firstPollDone s1) e) (SetError w (Some e)) None
  | Custom (SessionPollResult (Ok ss)) =>
      let n := Z.of_nat (length ss) in
      let c := set_count (cur s) n in
      let c := if n <=? Pos c then set_pos c (Z.max (n - 1) 0) else c in
      stays (MkSessionScreen (EnsureVisible c) (sortSessions ss) (selected s) (onSelect s)
               (pollSessions s) false (sfirstTickSeen s) true []) (ClearError w) None
  | Tick =>
      if pollSessions s && (IntervalElapsed w (10 ^ 9) || negb (sfirstTickSeen s)) && negb (spollInFlight s)
      then stays (set_spoll s true true) w (Some PollSessions)
      else stays (set_spoll s (spollInFlight s) true) w None
  | KeyPress k =>
      if key_in k ["enter"]%string then
        match sessionAt s (Pos (cur s)) with
        | Some ps =>
            let info := sessionInfoFromProxy ps in
            stays (set_selected s (Some info)) w (Some (if onSelect s then SelectSession info else Quit))
        | None => stays s w None
        end
      else if key_in k ["q"; "ctrl+c"]%string then stays s w (Some Quit)
      else stays (set_scursor s (HandleKey (cur s) k).1) w None
  | Custom (SessionError e) => stays s (SetError w (Some e)) None
  | Custom (SessionSelectResult sel scr) =>
      let s1 := match sel with Some _ => set_selected s sel | None => s end in
      match scr with
      | Some m =>
          let h := match selected s1 with
                   | Some i => MkHeader (sProjectDir i) (sSessionID i)
                   | None => header w   (* Go would panic; a screen comes with a selection *)
                   end in
          MkUpdated (Monitor m) true (SetHeader w h) None
      | None => stays s1 w None
      end
  | WindowSize _ _ => stays (set_scursor s (EnsureVisible (set_vp (cur s) (vpHeight w)))) w None
  | Custom _ => stays s w None
  end.

(** ** The command ([cmd/monitor.go]) *)

Definition matchSession (ps : ProxySession) (filter : gostring) : bool :=
  bool_decide (psSessionID ps = filter) || bool_decide (psProjectDir ps = filter).

(** The first screen: the monitor of the session asked for or of the only one,
    otherwise the list.  [client] is whether a control client can be made;
    [None] is an error. *)
Definition monitorStart (sessions : list ProxySession) (filter : gostring)
    (client : SessionInfo → bool) : option screenState :=
  let open ps :=
    let info := sessionInfoFromProxy ps in
    if client info then Some (Monitor (newMonitorScreen info true true)) else None in
  if bool_decide (filter ≠ []) then
    match list_find (λ ps, matchSession ps filter = true) sessions with
    | Some (_, ps) => open ps
    | None => None
    end
  else match sessions with
       | [ps] => open ps
       | _ => Some (SessionList (newSessionScreen sessions true true))
       end.

(** [onSelect]: the message the selection leads to. *)
Definition onSelectCmd (client : SessionInfo → option gostring) (info : SessionInfo) : list custom :=
  match client info with
  | Some e => [SessionSelectResult (Some info) None; SessionError e]
  | None => [SessionSelectResult (Some info) (Some (newMonitorScreen info true true))]
  end.

#[global] Instance monitor_screens : Screen screenState custom command :=
  λ s x w now,
    match s with
    | SessionList l => sessionUpdate l x w now
    | Monitor m => monitorUpdate m x w now
    end.
