(* ===== verification/MonitorLog.v ===== *)
(** * The monitor and the proxy's log

    The monitor's polls, the control API that answers them from the ring buffer,
    and the requests that are logged meanwhile, in any interleaving.  Polls and
    answers take their time and may fail. *)

From S2P Require Import Prelude GoStrings LogBuffer Tui MonitorUI.
Open Scope Z_scope.

Inductive flight := Request (afterID : Z) | Answer (r : result gostring (list LogEntry)).

(** [history] is every entry logged; [overrun] whether a poll was served after
    the ring had dropped entries it had not seen. *)
Record sys := MkSys {
  window : Window;
  mon : monitorScreen;
  buf : LogBuffer;
  history : list LogEntry;
  net : list flight;
  overrun : bool;
}.

Inductive event :=
  | Logged (e : LogEntry)
  | Message (x : msg custom) (now : Z)      (* any message but the answer to a poll *)
  | Serve (i : nat)
  | Lose (i : nat) (e : gostring)
  | Deliver (i : nat) (now : Z).

Section system.
Context (headerHeight : HeaderInfo → Z → Z → Z).

Definition requests (cs : list (windowCmd command)) : list flight :=
  omap (λ c, match c with ScreenCmd (PollLogs a) => Some (Request a) | _ => None end) cs.

(** A message to the window while the monitor is shown. *)
Definition deliver (s : sys) (x : msg custom) (now : Z) (n : list flight) : option sys :=
  match windowUpdate headerHeight (window s) (Monitor (mon s)) x now with
  | (w, Monitor m, cs) => Some (MkSys w m (buf s) (history s) (n ++ requests cs) (overrun s))
  | _ => None
  end.

Definition is_answer (x : msg custom) : bool :=
  match x with Custom (LogsPollResult _) => true | _ => false end.

Definition sysStep (s : sys) (ev : event) : option sys :=
  match ev with
  | Logged e =>
      Some (MkSys (window s) (mon s) (Add (buf s) e) (history s ++ [e]) (net s) (overrun s))
  | Message x now => if is_answer x then None else deliver s x now (net s)
  | Serve i =>
      match net s !! i with
      | Some (Request a) =>
          let lost := negb (a =? 0) && (a <? Z.of_nat (length (history s)) - Z.of_nat (cap (buf s))) in
          Some (MkSys (window s) (mon s) (buf s) (history s)
                  (<[i := Answer (Ok (EntriesAfter (buf s) a))]> (net s)) (overrun s || lost))
      | _ => None
      end
  | Lose i e =>
      match net s !! i with
      | Some (Request a) =>
          Some (MkSys (window s) (mon s) (buf s) (history s) (<[i := Answer (Err e)]> (net s)) (overrun s))
      | _ => None
      end
  | Deliver i now =>
      match net s !! i with
      | Some (Answer r) => deliver s (Custom (LogsPollResult r)) now (delete i (net s))
      | _ => None
      end
  end.

Definition initSys (capacity : nat) (h : HeaderInfo) (si : SessionInfo) (back : bool) : sys :=
  MkSys (NewWindow h) (newMonitorScreen si true back) (NewLogBuffer capacity) [] [] false.

Definition sreach (capacity : nat) (h : HeaderInfo) (si : SessionInfo) (back : bool) : sys → Prop :=
  reach_from (λ ev s, sysStep s ev) (initSys capacity h si back).

(** ** What the screen does with its items *)

Definition shown (m : monitorScreen) : list LogEntry := entry <$> items m.

(** Messages other than an answer keep the entries and the poll cursor, and a
    poll is only started when none is under way. *)
Lemma monitorUpdate_keeps m x w now m' :
  is_answer x = false → screen (monitorUpdate m x w now) = Monitor m' →
  switched (monitorUpdate m x w now) = false ∧
  shown m' = shown m ∧ pollCursor m' = pollCursor m ∧
  match cmd (monitorUpdate m x w now) with
  | Some (PollLogs a) => a = pollCursor m ∧ pollInFlight m = false ∧ pollInFlight m' = true
  | _ => pollInFlight m' = pollInFlight m
  end.
Proof.
  destruct x as [wd h| |k|[i st [e|]|r|r|e|sel scr]]; cbn [monitorUpdate is_answer]; try done; intros _.
  - intros [= <-]. done.
  - unfold monitorTick. destruct (onBack m && _); [by destruct (_ <=? _); [|intros [= <-]]|].
    destruct (_ && negb (pollInFlight m)) eqn:E; [|by intros [= <-]].
    apply andb_true_iff in E as [_ E]. apply negb_true_iff in E.
    destruct (hasClient m); by intros [= <-].
  - unfold monitorKey. destruct (key_in k ["a"; "A"]%string).
    { destruct (itemAt _ _) as [it|]; [destruct (_ && _)|]; by intros [= <-]. }
    destruct (key_in k ["esc"]%string); [destruct (onBack m); [done|by intros [= <-]]|].
    destruct (key_in k ["q"; "ctrl+c"]%string); [by intros [= <-]|].
    destruct (HandleKey _ _) as [c handled]. by intros [= <-].
  - by intros [= <-].
  - unfold itemAt. destruct (_ && _); [|by intros [= <-]].
    destruct (items m !! _) as [it|] eqn:Hl; [|by intros [= <-]]. intros [= <-].
    split_and!; try done. unfold shown. cbn. rewrite list_fmap_insert. cbn.
    apply list_insert_id. rewrite list_lookup_fmap, Hl. done.
  - by intros [= <-].
  - by intros [= <-].
  - by intros [= <-].
Qed.

Lemma monitorUpdate_answer m r w now :
  let u := monitorUpdate m (Custom (LogsPollResult r)) w now in
  ∃ m', screen u = Monitor m' ∧ switched u = false ∧ cmd u = None ∧ pollInFlight m' = false ∧
    match r with
    | Ok es => shown m' = shown m ++ es ∧ pollCursor m' = default (pollCursor m) (ID <$> last es)
    | Err _ => shown m' = shown m ∧ pollCursor m' = pollCursor m
    end.
Proof.
  destruct r as [es|e]; cbn [monitorUpdate].
  - eexists. split_and!; try reflexivity. unfold shown. cbn. rewrite fmap_app. f_equal.
    rewrite <- list_fmap_compose. apply list_fmap_id.
  - destruct (onBack m); eexists; split_and!; reflexivity.
Qed.

(** Leaving the monitor never comes back by itself. *)
Lemma monitorUpdate_switched m x w now :
  switched (monitorUpdate m x w now) = true → ∃ l, screen (monitorUpdate m x w now) = SessionList l.
Proof.
  destruct x as [wd h| |k|[i st [e|]|[es|e]|r|e|sel scr]]; cbn [monitorUpdate]; try done.
  - unfold monitorTick. repeat case_match; try done; cbn; eauto.
  - unfold monitorKey. repeat case_match; try done; cbn; eauto.
  - destruct (itemAt _ _); done.
  - destruct (onBack m); done.
Qed.

Lemma deliver_update s x now n s' :
  deliver s x now n = Some s' →
  let u := monitorUpdate (mon s) x (windowMsg headerHeight (window s) x now) now in
  screen u = Monitor (mon s') ∧ switched u = false ∧
  buf s' = buf s ∧ history s' = history s ∧ overrun s' = overrun s ∧
  net s' = n ++ match cmd u with Some (PollLogs a) => [Request a] | _ => [] end.
Proof.
  intros Hd u. unfold deliver, windowUpdate in Hd.
  change (Update (Monitor (mon s)) x (windowMsg headerHeight (window s) x now) now) with u in Hd.
  pose proof (monitorUpdate_switched (mon s) x (windowMsg headerHeight (window s) x now) now) as Hsw.
  fold u in Hsw. destruct (switched u) eqn:E.
  { destruct (Hsw eq_refl) as [l Hl]. rewrite Hl in Hd. cbn in Hd. done. }
  destruct (screen u) as [l|m'] eqn:Es; [done|]. injection Hd as <-. cbn -[u]. split_and!; try done.
  clear Hsw. clearbody u. unfold requests. by destruct x, (cmd u) as [[]|].
Qed.

(** ** The invariant *)

Definition numberedHist (s : sys) : list LogEntry := numbered 1 (history s).
Definition seen (s : sys) : nat := Z.to_nat (pollCursor (mon s)).

(** The part [n, m) of a list. *)
Definition seg (l : list LogEntry) (n m : nat) : list LogEntry := drop n (take m l).

Definition flight_ok (s : sys) (f : flight) : Prop :=
  match f with
  | Request a => a = pollCursor (mon s)
  | Answer (Err _) => True
  | Answer (Ok es) =>
      ∃ n m, (seen s ≤ n ≤ m)%nat ∧ (m ≤ length (history s))%nat ∧ es = seg (numberedHist s) n m ∧
        (overrun s = false → seen s ≠ 0%nat → n = seen s)
  end.

Record sinv (capacity : nat) (s : sys) : Prop := {
  si_buf : buf s = adds (NewLogBuffer capacity) (history s);
  si_cursor : 0 ≤ pollCursor (mon s) ≤ Z.of_nat (length (history s));
  si_sublist : shown (mon s) `sublist_of` take (seen s) (numberedHist s);
  si_contig : overrun s = false → ∃ j, (j ≤ seen s)%nat ∧ shown (mon s) = seg (numberedHist s) j (seen s);
  si_net : if pollInFlight (mon s) then ∃ f, net s = [f] ∧ flight_ok s f else net s = [];
}.

Lemma seg_app_r l k n m : (m ≤ length l)%nat → seg (l ++ k) n m = seg l n m.
Proof. intros Hm. unfold seg. by rewrite take_app_le. Qed.

Lemma seg_join l j k m : (j ≤ k ≤ m)%nat → (k ≤ length l)%nat → seg l j k ++ seg l k m = seg l j m.
Proof.
  intros Hjk Hk. unfold seg.
  assert (E : take m l = take k l ++ drop k (take m l)).
  { rewrite <- (take_drop k (take m l)) at 1. by rewrite take_take, Nat.min_l by lia. }
  rewrite E at 2. rewrite drop_app_le; [done|]. rewrite length_take. lia.
Qed.

Lemma last_seg_ID h n m x :
  (m ≤ length h)%nat → last (seg (numbered 1 h) n m) = Some x → ID x = Z.of_nat m ∧ (n < m)%nat.
Proof.
  intros Hm. unfold seg. rewrite last_lookup, length_drop, length_take, length_numbered, lookup_drop.
  intros Hx. pose proof (lookup_lt_Some _ _ _ Hx) as Hlt. rewrite length_take, length_numbered in Hlt.
  destruct (decide (n < m)%nat) as [Hnm|Hnm].
  - rewrite lookup_take in Hx. case_decide; [|done]. apply numbered_lookup_ID in Hx. lia.
  - lia.
Qed.

(** What an answer to a poll is made of. *)
Lemma EntriesAfter_seg capacity h k :
  (0 < capacity)%nat → Z.of_nat (length h) < 2 ^ 64 - 1 → 0 ≤ k ≤ Z.of_nat (length h) →
  ∃ n, (Z.to_nat k ≤ n ≤ length h)%nat ∧
    EntriesAfter (adds (NewLogBuffer capacity) h) k = seg (numbered 1 h) n (length h) ∧
    (k ≠ 0 → Z.of_nat (length h) - Z.of_nat capacity ≤ k → n = Z.to_nat k).
Proof.
  intros Hc Hb Hk. rewrite EntriesAfter_spec by (done || lia). unfold seg.
  rewrite take_ge by (by rewrite length_numbered). case_decide as Hk0.
  - eexists. unfold lastn. rewrite length_numbered. split_and!; [| |reflexivity|done]; lia.
  - eexists. split_and!; [| |reflexivity|]; lia.
Qed.

Lemma sinv_keep capacity s s' :
  sinv capacity s → buf s' = buf s → history s' = history s → overrun s' = overrun s →
  shown (mon s') = shown (mon s) → pollCursor (mon s') = pollCursor (mon s) →
  (if pollInFlight (mon s') then ∃ f, net s' = [f] ∧ flight_ok s f else net s' = []) →
  sinv capacity s'.
Proof.
  intros [H1 H2 H3 H4 H5] Eb Eh Eo Es Ep Hn.
  assert (Hf : ∀ f, flight_ok s f → flight_ok s' f).
  { intros [a|[es|e]]; unfold flight_ok, seen, numberedHist; by rewrite ?Ep, ?Eh, ?Eo. }
  split; unfold seen, numberedHist in *; rewrite ?Eb, ?Eh, ?Eo, ?Es, ?Ep; try done.
  destruct (pollInFlight (mon s')); [|done]. destruct Hn as (f & Hn & Hok). eauto.
Qed.

Lemma sinv_message capacity s x now s' :
  sinv capacity s → is_answer x = false → deliver s x now (net s) = Some s' → sinv capacity s'.
Proof.
  intros Hi Hx Hd. apply deliver_update in Hd as (Hs & Hsw & Eb & Eh & Eo & En).
  destruct (monitorUpdate_keeps _ _ _ _ _ Hx Hs) as (_ & Es & Ep & Hc).
  apply (sinv_keep capacity s); try done. pose proof (si_net _ _ Hi) as Hn. rewrite En.
  destruct (cmd _) as [[| |a| |]|]; cbn [app]; rewrite ?app_nil_r;
    try (rewrite Hc; destruct (pollInFlight (mon s)); done).
  destruct Hc as (-> & Hp & ->). rewrite Hp in Hn. rewrite Hn. exists (Request (pollCursor (mon s))). done.
Qed.

Lemma sinv_logged capacity s e :
  sinv capacity s →
  sinv capacity (MkSys (window s) (mon s) (Add (buf s) e) (history s ++ [e]) (net s) (overrun s)).
Proof.
  intros [H1 H2 H3 H4 H5].
  assert (Hl : length (numberedHist s) = length (history s)) by apply length_numbered.
  assert (Hk : (seen s ≤ length (numberedHist s))%nat) by (unfold seen; lia).
  set (s' := MkSys _ _ _ _ _ _). change (seen s') with (seen s).
  assert (Hh : ∃ k, numberedHist s' = numberedHist s ++ k)
    by (eexists; unfold numberedHist; cbn; apply numbered_app).
  destruct Hh as [k Hh].
  split; cbn [buf history mon overrun net s']; change (seen (MkSys _ _ _ _ _ _)) with (seen s);
    change (numberedHist (MkSys _ _ _ _ _ _)) with (numberedHist s'); rewrite ?Hh.
  - by rewrite H1, adds_snoc.
  - rewrite length_app. lia.
  - by rewrite take_app_le.
  - intros Ho. destruct (H4 Ho) as (j & Hj & E). exists j. by rewrite seg_app_r.
  - destruct (pollInFlight (mon s)); [|done]. destruct H5 as (f & Hn & Hf). exists f. split; [done|].
    destruct f as [a|[es|er]]; [done| |done]. destruct Hf as (n & m & Hnm & Hm & -> & Ho).
    exists n, m. change (numberedHist (MkSys _ _ _ _ _ _)) with (numberedHist s'). rewrite Hh.
    rewrite seg_app_r by lia. split; [exact Hnm|]. split; [cbn; rewrite length_app; lia|].
    split; [done|exact Ho].
Qed.

Lemma sinv_answered capacity s i now r s' :
  sinv capacity s → net s !! i = Some (Answer r) →
  deliver s (Custom (LogsPollResult r)) now (delete i (net s)) = Some s' → sinv capacity s'.
Proof.
  intros Hi Hnet Hd. apply deliver_update in Hd as (Hs & Hsw & Eb & Eh & Eo & En).
  destruct (monitorUpdate_answer (mon s) r (windowMsg headerHeight (window s) (Custom (LogsPollResult r)) now) now)
    as (m' & Hs' & _ & Hc & Hp & Hr).
  rewrite Hs in Hs'. injection Hs' as <-. rewrite Hc in En. rewrite app_nil_r in En.
  pose proof (si_net _ _ Hi) as Hn. destruct (pollInFlight (mon s)); [|by rewrite Hn in Hnet].
  destruct Hn as (f & Hn & Hf). rewrite Hn in Hnet, En.
  destruct i as [|i]; [|done]. injection Hnet as ->. cbn in En.
  destruct r as [es|e]; [|destruct Hr; apply (sinv_keep capacity s); try done; by rewrite Hp].
  destruct Hr as [Hsh Hpc]. destruct Hf as (n & m & Hnm & Hm & -> & Hgap).
  destruct (last (seg (numberedHist s) n m)) as [x|] eqn:Hlast.
  - apply last_seg_ID in Hlast as HID; [|done]. destruct HID as [HID Hlt]. cbn in Hpc.
    destruct Hi as [H1 H2 H3 H4 H5]. assert (Hseen : seen s' = m) by (unfold seen; lia).
    assert (Hl : length (numberedHist s) = length (history s)) by apply length_numbered.
    assert (Hk : (seen s ≤ length (numberedHist s))%nat) by (unfold seen; lia).
    assert (Hh : numberedHist s' = numberedHist s) by (unfold numberedHist; by rewrite Eh).
    split; rewrite ?Eb, ?Eh, ?Hseen, ?Hh, ?Hsh, ?Eo; [done|lia| | |by rewrite Hp].
    + transitivity (take (seen s) (numberedHist s) ++ seg (numberedHist s) (seen s) m).
      * apply sublist_app; [done|]. unfold seg.
        replace n with (seen s + (n - seen s))%nat by lia. rewrite <- drop_drop. apply sublist_drop.
      * change (take (seen s) (numberedHist s)) with (seg (numberedHist s) 0 (seen s)).
        by rewrite seg_join by lia.
    + intros Ho. destruct (H4 Ho) as (j & Hj & E). rewrite E.
      destruct (decide (seen s = 0%nat)) as [Hz|Hz].
      * exists n. split; [lia|]. rewrite Hz.
        replace (seg (numberedHist s) j 0) with (@nil LogEntry); [done|].
        unfold seg. by rewrite take_0, drop_nil.
      * exists j. split; [lia|]. rewrite (Hgap Ho Hz). rewrite seg_join by lia. done.
  - apply last_None in Hlast. rewrite Hlast in *. cbn in Hpc. rewrite app_nil_r in Hsh.
    apply (sinv_keep capacity s); try done. by rewrite Hp.
Qed.

Lemma sinv_step capacity s ev s' :
  (0 < capacity)%nat → Z.of_nat (length (history s)) < 2 ^ 64 - 1 →
  sinv capacity s → sysStep s ev = Some s' → sinv capacity s'.
Proof.
  intros Hc Hb Hi. destruct ev as [e|x now|i|i e|i now]; cbn [sysStep].
  - intros [= <-]. by apply sinv_logged.
  - destruct (is_answer x) eqn:Hx; [done|]. by apply sinv_message.
  - destruct (net s !! i) as [[a|r]|] eqn:Hnet; try done. intros [= <-].
    destruct Hi as [H1 H2 H3 H4 H5].
    destruct (pollInFlight (mon s)) eqn:Hp; [|by rewrite H5 in Hnet].
    destruct H5 as (f & Hn & Hf). rewrite Hn in Hnet. destruct i as [|i]; [|done].
    injection Hnet as ->. cbn in Hf. subst a. split; cbn; try done.
    + intros [Ho _]%orb_false_iff. by apply H4.
    + rewrite Hp, Hn. cbn. eexists. split; [done|]. rewrite H1.
      destruct (EntriesAfter_seg capacity (history s) (pollCursor (mon s)) Hc Hb H2) as (n & Hn1 & -> & Hn2).
      exists n, (length (history s)). split_and!; [exact (proj1 Hn1)|exact (proj2 Hn1)|done|done|].
      cbn. intros [_ Hl]%orb_false_iff Hz. unfold seen in *. cbn in *.
      rewrite cap_adds in Hl. cbn in Hl. apply Hn2; [lia|].
      destruct (Z.eqb_spec (pollCursor (mon s)) 0); [lia|]. cbn in Hl. apply Z.ltb_ge in Hl. lia.
  - destruct (net s !! i) as [[a|r]|] eqn:Hnet; try done. intros [= <-].
    pose proof (si_net _ _ Hi) as H5. destruct (pollInFlight (mon s)) eqn:Hp; [|by rewrite H5 in Hnet].
    destruct H5 as (f & Hn & Hf). rewrite Hn in Hnet. destruct i as [|i]; [|done].
    apply (sinv_keep capacity s); try done. cbn. rewrite Hp, Hn. cbn. eexists. by split.
  - destruct (net s !! i) as [[a|r]|] eqn:Hnet; try done. by apply sinv_answered.
Qed.

Lemma history_step s ev s' : sysStep s ev = Some s' → (length (history s) ≤ length (history s'))%nat.
Proof.
  assert (Hd : ∀ x now n, deliver s x now n = Some s' → history s' = history s)
    by (intros x now n (_ & _ & _ & ? & _)%deliver_update; done).
  destruct ev as [e|x now|i|i e|i now]; cbn [sysStep].
  - intros [= <-]. cbn. rewrite length_app. lia.
  - destruct (is_answer x); [done|]. by intros ->%Hd.
  - destruct (net s !! i) as [[a|r]|]; try done. by intros [= <-].
  - destruct (net s !! i) as [[a|r]|]; try done. by intros [= <-].
  - destruct (net s !! i) as [[a|r]|]; try done. by intros ->%Hd.
Qed.

Lemma sinv_reach capacity h si back s :
  (0 < capacity)%nat → sreach capacity h si back s → Z.of_nat (length (history s)) < 2 ^ 64 - 1 →
  sinv capacity s.
Proof.
  intros Hc. induction 1 as [|ev s s' Hr IH Hs]; intros Hb.
  - split; cbn; try done. intros _. exists 0%nat. by split.
  - pose proof (history_step _ _ _ Hs). apply (sinv_step capacity s ev s'); [done|lia|apply IH; lia|done].
Qed.

(** C29: a monitor that stays on one session shows its proxy's log.  However logging, ticks, keys, polls,
    answers and failures interleave, the entries on the screen are entries of
    the log with their identifiers, in order and none twice, and at most one
    poll is under way; as long as no poll came after the ring had dropped
    entries it had not seen, they are an uninterrupted stretch of the log. *)
Theorem monitor_shows_log capacity h si back s :
  (0 < capacity)%nat → sreach capacity h si back s → Z.of_nat (length (history s)) < 2 ^ 64 - 1 →
  shown (mon s) `sublist_of` numbered 1 (history s) ∧
  NoDup (ID <$> shown (mon s)) ∧
  (length (net s) ≤ 1)%nat ∧
  (overrun s = false → ∃ n m, shown (mon s) = drop n (take m (numbered 1 (history s)))).
Proof.
  intros Hc Hr Hb. destruct (sinv_reach _ _ _ _ _ Hc Hr Hb) as [H1 H2 H3 H4 H5].
  assert (Hsub : shown (mon s) `sublist_of` numbered 1 (history s))
    by (etransitivity; [exact H3|apply sublist_take]).
  split_and!; [done| | |].
  - eapply sublist_NoDup; [|by apply (fmap_sublist ID)]. rewrite numbered_IDs. apply NoDup_seqZ.
  - destruct (pollInFlight (mon s)); [destruct H5 as (f & -> & _)|rewrite H5]; cbn; lia.
  - intros Ho. destruct (H4 Ho) as (j & _ & E). by exists j, (seen s).
Qed.
End system.

(** Three requests are logged around two polls; the ring holds two entries. *)
Definition demo_entry (d : string) : LogEntry :=
  MkLogEntry 0 0 (gs d) (gs "443") ActionBlock SourceProxy (gs "domain not in allowlist").

Definition sysRun : list event → sys → option sys := run_steps (λ ev s, sysStep (λ _ _ _, 3) s ev).

Lemma sysRun_reach capacity h si back evs s s' :
  sreach (λ _ _ _, 3) capacity h si back s → sysRun evs s = Some s' →
  sreach (λ _ _ _, 3) capacity h si back s'.
Proof. apply run_steps_reach. Qed.

Definition demo_events : list event :=
  [Message (WindowSize 80 24) 0; Logged (demo_entry "a.com"); Message Tick 0; Serve 0;
   Logged (demo_entry "b.com"); Deliver 0 0; Message (KeyPress (gs "a")) 0;
   Message Tick 0; Message Tick 0; Message Tick 0; Message Tick 0; Serve 0; Logged (demo_entry "c.com");
   Deliver 0 0].

Lemma monitor_shows_log_witness :
  let start := initSys 2 selectorHeader (MkSessionInfo [] [] []) true in
  ∃ s, sysRun demo_events start = Some s ∧ ID <$> shown (mon s) = [1; 2] ∧
    shown (mon s) `sublist_of` numbered 1 (history s) ∧
    ∃ n m, shown (mon s) = drop n (take m (numbered 1 (history s))).
Proof.
  intros start. destruct (sysRun demo_events start) as [s|] eqn:E; [|vm_compute in E; discriminate E].
  exists s. split; [reflexivity|].
  assert (Hr : sreach (λ _ _ _, 3) 2 selectorHeader (MkSessionInfo [] [] []) true s)
    by (eapply sysRun_reach; [apply reach_start|exact E]).
  pose proof (monitor_shows_log _ 2 _ _ _ s ltac:(lia) Hr) as Hm.
  vm_compute in E. injection E as <-.
  destruct (Hm ltac:(vm_compute; reflexivity)) as (H1 & _ & _ & H4).
  split_and!; [vm_compute; reflexivity|exact H1|apply H4; vm_compute; reflexivity].
Defined.
