(* ===== verification/PresetUI.v ===== *)
(** * The preset selector ([config/setup_ui.go])

    A list of presets in sections that can be folded, with a check mark on each.
    The rows on the screen are computed from the items and the folded sections
    every time; the cursor is an index into them. *)

From S2P Require Import Prelude GoStrings Presets Tui.
Open Scope Z_scope.

Record presetItem := MkPresetItem {
  isHeader : bool;
  section : gostring;
  presetName : gostring;
  description : gostring;
  includes : list gostring;
}.

Inductive lineKind := lineSection | linePreset | lineDomain | lineSubGroup.
#[global] Instance lineKind_eq_dec : EqDecision lineKind.
Proof. solve_decision. Defined.

(** [itemIdx] is -1 for a row that is not an item. *)
Record visibleLine := MkLine { kind : lineKind; itemIdx : Z; text : gostring; linePresetName : gostring }.

(** ** The items *)

Definition addSection (name : gostring) (ps : list Preset) : list presetItem :=
  if bool_decide (ps = []) then []
  else MkPresetItem true name [] [] [] ::
       ((λ p, MkPresetItem false [] (Name p) (Description p) (Includes p)) <$> ps).

(** Which section a preset is listed in. *)
Inductive placement := InDetected | InDefaults | InPackages | InInfra | Nowhere.
#[global] Instance placement_eq_dec : EqDecision placement.
Proof. solve_decision. Defined.

Definition placeOf (detected : list gostring) (p : Preset) : placement :=
  if bool_decide (Name p ∈ detected) then InDetected
  else if bool_decide (Name p = gs "default") then InDefaults
  else if bool_decide (Group p = gs "Package Managers") then InPackages
  else if bool_decide (Group p = gs "Infrastructure") then InInfra
  else Nowhere.

Definition buildPresetItems (reg : PresetRegistry) (detected : list gostring) : list presetItem :=
  let at_ pl := filter (λ p, placeOf detected p = pl) (All reg) in
  addSection (gs "Detected") (at_ InDetected) ++ addSection (gs "Defaults") (at_ InDefaults) ++
  addSection (gs "Package Managers") (at_ InPackages) ++ addSection (gs "Infrastructure") (at_ InInfra).

(** A Go map from names to booleans: absent is false. *)
Definition isSet (m : gmap gostring bool) (k : gostring) : bool := default false (m !! k).

Record presetScreen := MkPresetScreen {
  pcur : Cursor;
  items : list presetItem;
  checked : gmap gostring bool;
  expanded : gmap gostring bool;
  registry : PresetRegistry;
  selected : list gostring;
}.

(** ** The rows *)

Definition domainLines (name : gostring) (ds : list gostring) : list visibleLine :=
  (λ d, MkLine lineDomain (-1) d name) <$> ds.

(** The detail rows of an unfolded preset. *)
Definition detailLines (reg : PresetRegistry) (it : presetItem) : list visibleLine :=
  if (0 <? length (includes it))%nat then
    flat_map (λ inc, match Get reg inc with
                     | None => []
                     | Some p => MkLine lineSubGroup (-1) inc (presetName it) :: domainLines inc (Domains p)
                     end) (includes it)
  else match Get reg (presetName it) with
       | None => []
       | Some p => domainLines (presetName it) (Domains p)
       end.

Fixpoint linesFrom (reg : PresetRegistry) (exp : gmap gostring bool) (i : Z) (currentSection : gostring)
    (its : list presetItem) : list visibleLine :=
  match its with
  | [] => []
  | it :: its' =>
      if isHeader it then
        MkLine lineSection i [] [] :: linesFrom reg exp (i + 1) (section it) its'
      else
        (if negb (isSet exp currentSection) then []
         else MkLine linePreset i [] [] ::
              (if isSet exp (presetName it) then detailLines reg it else [])) ++
        linesFrom reg exp (i + 1) currentSection its'
  end.

Definition buildVisibleLines (s : presetScreen) : list visibleLine :=
  linesFrom (registry s) (expanded s) 0 [] (items s).

Definition headerSections (its : list presetItem) : gmap gostring bool :=
  fold_left (λ m it, if isHeader it then <[section it := true]> m else m) its ∅.

Definition newPresetScreen (reg : PresetRegistry) (preChecked : gmap gostring bool)
    (detected : list gostring) : presetScreen :=
  let its := buildPresetItems reg detected in
  let s := MkPresetScreen (MkCursor 0 0 0 0) its preChecked (headerSections its) reg [] in
  MkPresetScreen (MkCursor 0 0 0 (Z.of_nat (length (buildVisibleLines s)))) its preChecked
    (headerSections its) reg [].

(** ** Operations *)

(** The first checked preset that includes [name]; the empty name if none. *)
Definition includedBy (s : presetScreen) (name : gostring) : gostring :=
  match list_find (λ it, negb (isHeader it) && isSet (checked s) (presetName it) &&
                         bool_decide (name ∈ includes it) = true) (items s) with
  | Some (_, it) => presetName it
  | None => []
  end.

Definition set_pcur (s : presetScreen) (c : Cursor) : presetScreen :=
  MkPresetScreen c (items s) (checked s) (expanded s) (registry s) (selected s).
Definition set_checked (s : presetScreen) (m : gmap gostring bool) : presetScreen :=
  MkPresetScreen (pcur s) (items s) m (expanded s) (registry s) (selected s).
Definition set_expanded (s : presetScreen) (k : gostring) (b : bool) : presetScreen :=
  MkPresetScreen (pcur s) (items s) (checked s) (<[k := b]> (expanded s)) (registry s) (selected s).
Definition set_selected (s : presetScreen) (l : list gostring) : presetScreen :=
  MkPresetScreen (pcur s) (items s) (checked s) (expanded s) (registry s) l.

Definition syncCursor (s : presetScreen) : presetScreen :=
  let n := Z.of_nat (length (buildVisibleLines s)) in
  let c := set_count (pcur s) n in
  let c := if n <=? Pos c then set_pos c (n - 1) else c in
  let c := if Pos c <? 0 then set_pos c 0 else c in
  let maxOffset := n - VpHeight c in
  let c := if 0 <? maxOffset then (if maxOffset <? Offset c then set_offset c maxOffset else c)
           else set_offset c 0 in
  set_pcur s (EnsureVisible c).

Definition lineAt (s : presetScreen) : option visibleLine :=
  if 0 <=? Pos (pcur s) then buildVisibleLines s !! Z.to_nat (Pos (pcur s)) else None.

(** The item of a row; rows of sections and presets have one
    ([line_item_in_range]). *)
Definition itemOf (s : presetScreen) (l : visibleLine) : option presetItem :=
  if 0 <=? itemIdx l then items s !! Z.to_nat (itemIdx l) else None.

Definition unfoldKey (it : presetItem) (k : lineKind) : option gostring :=
  match k with
  | lineSection => Some (section it)
  | linePreset => Some (presetName it)
  | _ => None
  end.

(** The nearest preset row above row [j]. *)
Fixpoint parentRow (lines : list visibleLine) (j : nat) : option (nat * visibleLine) :=
  match j with
  | 0%nat => None
  | S j' => match lines !! j' with
            | Some l => if bool_decide (kind l = linePreset) then Some (j', l) else parentRow lines j'
            | None => parentRow lines j'
            end
  end.

Definition expandRow (s : presetScreen) : presetScreen :=
  match lineAt s with
  | None => s
  | Some l =>
      syncCursor (match it ← itemOf s l; unfoldKey it (kind l) with
                  | Some k => set_expanded s k true
                  | None => s
                  end)
  end.

Definition collapseRow (s : presetScreen) : presetScreen :=
  match lineAt s with
  | None => s
  | Some l =>
      let s1 :=
        match kind l with
        | lineSection | linePreset =>
            match it ← itemOf s l; unfoldKey it (kind l) with
            | Some k => set_expanded s k false
            | None => s
            end
        | lineDomain | lineSubGroup =>
            match parentRow (buildVisibleLines s) (Z.to_nat (Pos (pcur s))) with
            | Some (j, pl) =>
                match itemOf s pl with
                | Some it => set_pcur (set_expanded s (presetName it) false)
                               (set_pos (pcur s) (Z.of_nat j))
                | None => s
                end
            | None => s
            end
        end in
      syncCursor s1
  end.

(** [enter]: the checked presets and what they include, each once. *)
Definition addOnce (acc : list gostring) (n : gostring) : list gostring :=
  if bool_decide (n ∈ acc) then acc else acc ++ [n].

Definition addItem (ck : gmap gostring bool) (acc : list gostring) (it : presetItem) : list gostring :=
  if negb (isHeader it) && isSet ck (presetName it) && negb (bool_decide (presetName it ∈ acc))
  then fold_left addOnce (includes it) (acc ++ [presetName it])
  else acc.

Definition selection (s : presetScreen) : list gostring :=
  fold_left (addItem (checked s)) (items s) [].

Inductive presetCmd := QuitPresets.

Definition toggle (s : presetScreen) (w : Window) (now : Z) : presetScreen * Window :=
  match lineAt s with
  | Some l =>
      if bool_decide (kind l = linePreset) then
        match itemOf s l with
        | Some it =>
            let parent := includedBy s (presetName it) in
            if bool_decide (parent = [])
            then (set_checked s (<[presetName it := negb (isSet (checked s) (presetName it))]> (checked s)), w)
            else (s, SetFlash w (gs "included via " ++ parent) now)
        | None => (s, w)
        end
      else (s, w)
  | None => (s, w)
  end.

Definition presetUpdate {X} (s : presetScreen) (x : msg X) (w : Window) (now : Z) :
    updated presetScreen presetCmd :=
  match x with
  | KeyPress k =>
      if key_in k ["space"]%string then
        let '(s', w') := toggle s w now in MkUpdated s' false w' None
      else if key_in k ["right"; "l"]%string then MkUpdated (expandRow s) false w None
      else if key_in k ["left"; "h"]%string then MkUpdated (collapseRow s) false w None
      else if key_in k ["enter"]%string then
        MkUpdated (set_selected s (selection s)) false w (Some QuitPresets)
      else if key_in k ["q"; "ctrl+c"]%string then MkUpdated s false w (Some QuitPresets)
      else
        let '(c, handled) := HandleKey (pcur s) k in
        MkUpdated (set_pcur s (if handled then EnsureVisible c else c)) false w None
  | WindowSize _ _ =>
      MkUpdated (syncCursor (set_pcur s (set_vp (pcur s) (Z.max (vpHeight w - 2) 1)))) false w None
  | _ => MkUpdated s false w None
  end.

#[global] Instance preset_screen {X} : Screen presetScreen X presetCmd := presetUpdate.

(** A row of a section or a preset has its item, so no index is out of range. *)
Lemma detailLines_kind reg it l : l ∈ detailLines reg it → kind l = lineDomain ∨ kind l = lineSubGroup.
Proof.
  assert (Hd : ∀ n ds, l ∈ domainLines n ds → kind l = lineDomain)
    by (by intros n ds (d & -> & _)%list_elem_of_fmap).
  unfold detailLines. case_match.
  - rewrite list_elem_of_In, in_flat_map. intros (inc & _ & Hl). destruct (Get reg inc) as [p|]; [|done].
    destruct Hl as [<-|Hl]; [by right|]. left. by eapply Hd, list_elem_of_In.
  - destruct (Get _ _); [|by intros ?%elem_of_nil]. intros Hl. left. by eapply Hd.
Qed.

Lemma line_item_in_range reg exp i sec its l :
  l ∈ linesFrom reg exp i sec its → kind l = lineSection ∨ kind l = linePreset →
  i ≤ itemIdx l < i + Z.of_nat (length its).
Proof.
  revert i sec. induction its as [|it its IH]; intros i sec; cbn [linesFrom length].
  { by intros ?%elem_of_nil. }
  destruct (isHeader it).
  - intros [->|Hl]%elem_of_cons Hk; [cbn; lia|]. apply IH in Hl; [lia|done].
  - rewrite elem_of_app. intros [Hl|Hl] Hk; [|apply IH in Hl; [lia|done]].
    destruct (negb _); [by apply elem_of_nil in Hl|].
    apply elem_of_cons in Hl as [->|Hl]; [cbn; lia|].
    destruct (isSet exp (presetName it)); [|by apply elem_of_nil in Hl].
    apply detailLines_kind in Hl. destruct Hl as [Hl|Hl], Hk as [Hk|Hk]; congruence.
Qed.

(** ** What is selected *)

Definition picked (s : presetScreen) (it : presetItem) : Prop :=
  it ∈ items s ∧ isHeader it = false ∧ isSet (checked s) (presetName it) = true.

Lemma addOnce_spec acc l :
  NoDup acc → NoDup (fold_left addOnce l acc) ∧
  ∀ x, x ∈ fold_left addOnce l acc ↔ x ∈ acc ∨ x ∈ l.
Proof.
  revert acc. induction l as [|n l IH]; intros acc Hd; cbn.
  { split; [done|]. intros x. rewrite elem_of_nil. tauto. }
  destruct (IH (addOnce acc n)) as [H1 H2].
  { unfold addOnce. case_bool_decide; [done|]. apply NoDup_app. split_and!; [done| |apply NoDup_singleton].
    by intros x Hx ->%list_elem_of_singleton. }
  split; [done|]. intros x. rewrite H2, elem_of_cons. unfold addOnce. case_bool_decide.
  - split; [tauto|]. intros [|[->|]]; tauto.
  - rewrite elem_of_app, list_elem_of_singleton. tauto.
Qed.

Lemma addItem_spec ck acc it :
  NoDup acc →
  let acc' := addItem ck acc it in
  NoDup acc' ∧ (∀ x, x ∈ acc → x ∈ acc') ∧
  (isHeader it = false → isSet ck (presetName it) = true → presetName it ∈ acc') ∧
  (∀ x, x ∈ acc' → x ∈ acc ∨
     isHeader it = false ∧ isSet ck (presetName it) = true ∧ (x = presetName it ∨ x ∈ includes it)).
Proof.
  intros Hd acc'. subst acc'. unfold addItem.
  destruct (isHeader it), (isSet ck (presetName it)); cbn; [naive_solver..| |naive_solver].
  case_bool_decide as Hin; cbn; [naive_solver|].
  destruct (addOnce_spec (acc ++ [presetName it]) (includes it)) as [H1 H2].
  { apply NoDup_app. split_and!; [done| |apply NoDup_singleton].
    by intros x Hx ->%list_elem_of_singleton. }
  split_and!; [done|..]; intros *; rewrite ?H2, ?elem_of_app, ?list_elem_of_singleton; tauto.
Qed.

Lemma selection_spec s :
  NoDup (selection s) ∧
  (∀ it, picked s it → presetName it ∈ selection s) ∧
  (∀ x, x ∈ selection s → ∃ it, picked s it ∧ (x = presetName it ∨ x ∈ includes it)).
Proof.
  unfold selection, picked.
  assert (Hgen : ∀ its acc, NoDup acc →
    let r := fold_left (addItem (checked s)) its acc in
    NoDup r ∧ (∀ x, x ∈ acc → x ∈ r) ∧
    (∀ it, it ∈ its → isHeader it = false → isSet (checked s) (presetName it) = true → presetName it ∈ r) ∧
    (∀ x, x ∈ r → x ∈ acc ∨ ∃ it, (it ∈ its ∧ isHeader it = false ∧
       isSet (checked s) (presetName it) = true) ∧ (x = presetName it ∨ x ∈ includes it))).
  { induction its as [|it its IH]; intros acc Hd; cbn.
    - split_and!; [done|done|by intros ? ?%elem_of_nil|by left].
    - destruct (addItem_spec (checked s) acc it Hd) as (D & K & P & R).
      destruct (IH _ D) as (D' & K' & P' & R'). split_and!; [done|auto| |].
      + intros i [->|Hi]%elem_of_cons Hh Hc; auto.
      + intros x [[|(? & ? & ?)]%R|(i & (? & ? & ?) & ?)]%R'; [by left| |]; right.
        * exists it. split; [split; [left|done]|done].
        * exists i. split; [split; [by right|done]|done]. }
  destruct (Hgen (items s) []) as (D & _ & P & R); [constructor|]. split_and!; [done| |].
  - intros it (? & ? & ?). by apply P.
  - intros x [[]%elem_of_nil|?]%R. done.
Qed.

(** Every preset item carries its preset's includes. *)
Lemma item_preset ps detected it :
  NoDup (Name <$> ps) → it ∈ buildPresetItems (NewPresetRegistry ps) detected → isHeader it = false →
  ∃ p, Get (NewPresetRegistry ps) (presetName it) = Some p ∧ Includes p = includes it.
Proof.
  intros Hd Hin Hh.
  assert (Hsec : ∀ n qs, (∀ p, p ∈ qs → p ∈ ps) → it ∈ addSection n qs → ∃ p, p ∈ ps ∧
                   presetName it = Name p ∧ includes it = Includes p).
  { intros n qs Hq. unfold addSection. case_bool_decide; [by intros ?%elem_of_nil|].
    intros [->|(p & -> & Hp)%list_elem_of_fmap]%elem_of_cons; [done|]. exists p. auto. }
  assert (Hp : ∃ p, p ∈ ps ∧ presetName it = Name p ∧ includes it = Includes p).
  { unfold buildPresetItems in Hin. rewrite !elem_of_app in Hin.
    destruct Hin as [Hin|[Hin|[Hin|Hin]]]; eapply Hsec; try exact Hin;
      by intros p [_ ?]%list_elem_of_filter. }
  destruct Hp as (p & Hp & -> & ->). exists p. split; [by apply Get_unique|done].
Qed.

(** What the selector returns is what was checked.  The returned presets are
    all different, and they open exactly the domains that the checked presets
    open together: listing the included presets too adds nothing. *)
Theorem preset_selection ps detected s :
  NoDup (Name <$> ps) → registry s = NewPresetRegistry ps →
  items s = buildPresetItems (registry s) detected →
  NoDup (selection s) ∧
  ∀ d, d ∈ Expand (registry s) (selection s) ↔
    ∃ it, picked s it ∧ d ∈ Expand (registry s) [presetName it].
Proof.
  intros Hd Hr Hi. destruct (selection_spec s) as (D & P & R). split; [done|]. intros d.
  rewrite (proj2 (proj2 (Expand_correct _ _))). split.
  - intros (n & x & p & Hn & Hre & Hg & Hdom). destruct (R n Hn) as (it & Hit & Hor).
    exists it. split; [done|]. rewrite (proj2 (proj2 (Expand_correct _ _))).
    exists (presetName it), x, p. split_and!; [left| |done..].
    destruct Hor as [->|Hinc]; [done|]. destruct Hit as (Hin & Hh & _). rewrite Hi, Hr in Hin.
    destruct (item_preset _ _ _ Hd Hin Hh) as (q & Hq & Heq). rewrite Hr in *.
    eapply reach_include; [exact Hq|by rewrite Heq|exact Hre].
  - intros (it & Hit & He). rewrite (proj2 (proj2 (Expand_correct _ _))) in He.
    destruct He as (n & x & p & ->%list_elem_of_singleton & Hrest).
    exists (presetName it), x, p. split; [by apply P|done].
Qed.

(** ** The cursor *)

(** The count is the number of rows and the highlighted row is one of them. *)
Definition pcur_ok (s : presetScreen) : Prop :=
  ItemCount (pcur s) = Z.of_nat (length (buildVisibleLines s)) ∧ in_range (pcur s) ∧
  0 ≤ VpHeight (pcur s).

Lemma syncCursor_ok s :
  0 ≤ VpHeight (pcur s) → pcur_ok (syncCursor s).
Proof.
  intros Hv. unfold syncCursor, pcur_ok.
  set (n := Z.of_nat (length (buildVisibleLines s))). assert (Hn : 0 ≤ n) by lia.
  change (buildVisibleLines (set_pcur s _)) with (buildVisibleLines s). fold n.
  match goal with |- context [EnsureVisible ?x] => set (c := x) end. cbn [pcur set_pcur].
  destruct (EnsureVisible_frame c) as (_ & -> & ->). rewrite in_range_EnsureVisible.
  assert (Hc : VpHeight c = VpHeight (pcur s) ∧ ItemCount c = n ∧ in_range c).
  { unfold c, in_range. clear c. cbn.
    destruct (Z.leb_spec n (Pos (pcur s))); cbn;
      repeat match goal with
             | |- context [?a <? 0] => destruct (Z.ltb_spec a 0); cbn
             | |- context [?a <? ?b] => destruct (a <? b); cbn
             end; lia. }
  destruct Hc as (-> & -> & ?). done.
Qed.

Lemma presetUpdate_cursor {X} s (x : msg X) w now :
  pcur_ok s → pcur_ok (screen (presetUpdate s x w now)).
Proof.
  intros Hok. pose proof Hok as (Hc & Hr & Hv). destruct x as [wd h| |k|y]; cbn [presetUpdate]; try done.
  - apply syncCursor_ok. cbn. lia.
  - destruct (key_in k ["space"]%string).
    { unfold toggle. repeat case_match; simplify_eq; try done; by destruct Hok as (? & ? & ?). }
    destruct (key_in k ["right"; "l"]%string).
    { unfold expandRow. cbn [screen]. destruct (lineAt s); [|done]. apply syncCursor_ok.
      by case_match. }
    destruct (key_in k ["left"; "h"]%string).
    { unfold collapseRow. cbn [screen]. destruct (lineAt s); [|done]. apply syncCursor_ok.
      repeat case_match; done. }
    destruct (key_in k ["enter"]%string); [done|]. destruct (key_in k ["q"; "ctrl+c"]%string); [done|].
    destruct (HandleKey (pcur s) k) as [c hd] eqn:E. cbn [screen].
    destruct (HandleKey_frame (pcur s) k) as [Hf1 Hf2]. rewrite E in Hf1, Hf2. cbn in Hf1, Hf2.
    pose proof (HandleKey_in_range (pcur s) k Hv Hr) as Hr'. rewrite E in Hr'. cbn in Hr'.
    destruct hd; unfold pcur_ok; cbn [pcur set_pcur];
      [destruct (EnsureVisible_frame c) as (_ & -> & ->); rewrite in_range_EnsureVisible|];
      rewrite Hf1, Hf2; by split_and!.
Qed.

(** ** An example *)

Definition demo_presets : list Preset :=
  [MkPreset (gs "default") [] [] [] [] [gs "pkg-go"];
   MkPreset (gs "pkg-go") (gs "Package Managers") [] [gs "proxy.golang.org:443"] [] [];
   MkPreset (gs "aws") (gs "Infrastructure") [] [gs "*.amazonaws.com:443"] [] []].

Lemma preset_selection_witness :
  let reg := NewPresetRegistry demo_presets in
  let s := newPresetScreen reg {[ gs "default" := true ]} [gs "aws"] in
  selection s = [gs "default"; gs "pkg-go"] ∧ NoDup (selection s) ∧
  (gs "proxy.golang.org:443" ∈ Expand reg (selection s) ↔
    ∃ it, picked s it ∧ gs "proxy.golang.org:443" ∈ Expand reg [presetName it]).
Proof.
  intros reg s. split; [vm_compute; reflexivity|].
  destruct (preset_selection demo_presets [gs "aws"] s) as [H1 H2];
    [apply (bool_decide_unpack _); vm_compute; reflexivity|reflexivity|reflexivity|].
  split; [exact H1|apply H2].
Defined.
