(* ===== verification/Selector.v ===== *)
(** * The session selector of the SSH server ([sshd/selector.go])

    Shown to a terminal that connects while detached sessions exist.  The server
    takes its result only after the program has ended; messages that arrive
    between the deciding key and the end are still processed. *)

From S2P Require Import Prelude GoStrings Tui Session Manager SshServer.
Open Scope Z_scope.

(** [result]: the chosen session, empty for a new one; [None] while undecided. *)
Record selectorScreen := MkSelector {
  cur : Cursor;
  offered : list SessionInfo;
  result : option bytes;
}.

Definition newSelectorScreen (infos : list SessionInfo) : selectorScreen :=
  MkSelector (MkCursor 0 0 0 (Z.of_nat (length infos) + 1)) infos None.

Definition set_cur (s : selectorScreen) (c : Cursor) : selectorScreen := MkSelector c (offered s) (result s).
Definition set_result (s : selectorScreen) (id : bytes) : selectorScreen :=
  MkSelector (cur s) (offered s) (Some id).

(** The session under the cursor; [None] is the last row, a new session. *)
Definition atCursor (s : selectorScreen) : option SessionInfo :=
  if Pos (cur s) <? 0 then None else offered s !! Z.to_nat (Pos (cur s)).

(** The only command is [tea.Quit]; there are no messages of its own. *)
Inductive quitCmd := Quit.

#[global] Instance selectorUpdate : Screen selectorScreen Empty_set quitCmd := λ s m w now,
  match m with
  | KeyPress k =>
      if key_in k ["q"; "ctrl+c"]%string then MkUpdated s false w (Some Quit)
      else if key_in k ["n"]%string then MkUpdated (set_result s []) false w (Some Quit)
      else if key_in k ["enter"]%string then
        MkUpdated (set_result s (match atCursor s with Some info => ID info | None => [] end)) false w (Some Quit)
      else MkUpdated (set_cur s (HandleKey (cur s) k).1) false w None
  | WindowSize _ _ => MkUpdated (set_cur s (EnsureVisible (set_vp (cur s) (vpHeight w)))) false w None
  | _ => MkUpdated s false w None
  end.

(** [handlePTYSession] after [p.Run] has returned without an error. *)
Definition selectionOf (s : selectorScreen) : selection :=
  match result s with
  | None => SelQuit
  | Some [] => SelNew
  | Some id => SelSession id
  end.

Section run.
Context (headerHeight : HeaderInfo → Z → Z → Z).

(** The program: every message goes through the window. *)
Definition selectorHeaderInfo : HeaderInfo := MkHeader (gs "vibepit") (gs "session selector").

Definition runMsg (ws : Window * selectorScreen) (m : msg Empty_set * Z) : Window * selectorScreen :=
  (windowUpdate (C := quitCmd) headerHeight ws.1 ws.2 m.1 m.2).1.

Definition runSelector (infos : list SessionInfo) (ms : list (msg Empty_set * Z)) : Window * selectorScreen :=
  fold_left runMsg ms (NewWindow selectorHeaderInfo, newSelectorScreen infos).

(** ** Properties *)

Record sel_ok (infos : list SessionInfo) (ws : Window * selectorScreen) : Prop := {
  so_offered : offered ws.2 = infos;
  so_count : ItemCount (cur ws.2) = Z.of_nat (length infos) + 1;
  so_range : in_range (cur ws.2);
  so_vp : 0 ≤ VpHeight (cur ws.2) ∧ 0 ≤ vpHeight ws.1;
  so_result : ∀ id, result ws.2 = Some id → id = [] ∨ id ∈ ID <$> infos;
}.

Lemma atCursor_offered s info : atCursor s = Some info → info ∈ offered s.
Proof. unfold atCursor. case_match; [done|]. apply list_elem_of_lookup_2. Qed.

Lemma windowMsg_vp (w : Window) (m : msg Empty_set) now :
  0 ≤ vpHeight w → 0 ≤ vpHeight (windowMsg headerHeight w m now).
Proof. destruct m; cbn; lia. Qed.

Lemma update_ok infos w s m now :
  sel_ok infos (w, s) → sel_ok infos (w, screen (selectorUpdate s m w now)).
Proof.
  intros [Ho Hc Hr [Hv Hw] Hres]; cbn in *. unfold selectorUpdate.
  destruct m as [wd h| |k|[]]; cbn [screen]; try by split.
  - destruct (EnsureVisible_frame (set_vp (cur s) (vpHeight w))) as (Hp & Hvp & Hn).
    split; cbn [fst snd set_cur cur offered result]; try done.
    + by rewrite Hn.
    + by apply in_range_EnsureVisible.
    + by rewrite Hvp.
  - destruct (HandleKey_frame (cur s) k) as [Hf1 Hf2].
    repeat case_match; split; cbn [fst snd screen set_result set_cur cur offered result]; try done; try congruence.
    1, 3: intros id [= <-]; by left.
    + intros id [= <-]. right. apply list_elem_of_fmap_2. rewrite <- Ho. by apply atCursor_offered.
    + by apply HandleKey_in_range.
    + by rewrite Hf1.
Qed.

Lemma runSelector_ok infos ms : sel_ok infos (runSelector infos ms).
Proof.
  unfold runSelector.
  assert (H0 : sel_ok infos (NewWindow selectorHeaderInfo, newSelectorScreen infos)).
  { split; cbn; try done; unfold in_range; cbn; lia. }
  revert H0. generalize (NewWindow selectorHeaderInfo, newSelectorScreen infos).
  induction ms as [|[m now] ms IH]; intros [w s] H0; cbn [fold_left]; [done|]. apply IH.
  assert (H1 : sel_ok infos (windowMsg headerHeight w m now, s)).
  { destruct H0 as [? ? ? [? ?] ?]. split; cbn in *; auto using windowMsg_vp. }
  pose proof (update_ok infos _ s m now H1) as H2.
  unfold runMsg, windowUpdate. cbn [fst snd].
  assert (Hsw : ∀ s m w now, switched (selectorUpdate s m w now) = false ∧ win (selectorUpdate s m w now) = w).
  { intros s' [| |k|[]] w' now'; unfold selectorUpdate; repeat case_match; done. }
  unfold Update in *. destruct (Hsw s m (windowMsg headerHeight w m now) now) as [-> ->]. exact H2.
Qed.
End run.

(** The selector only returns what it was given.  Whatever keys, resizes
    and ticks reach it, in any order and also after the choice, the server gets
    a quit, a new session or one of the sessions it offered; so the step of the
    handler that waits for the choice is always enabled: it ends the connection,
    creates a session or goes on with the chosen one. *)
Theorem selector_returns_offered `{Emulator} headerHeight w i h infos ms started :
  handlers w !! i = Some h → pc h = PtyChoosing (ID <$> infos) →
  let sel := selectionOf (runSelector headerHeight infos ms).2 in
  (∀ id, sel = SelSession id → id ∈ ID <$> infos) ∧
  ∃ w', wstep w (Selected i sel started) = Some w'.
Proof.
  intros Hh Hpc sel.
  assert (Hsel : ∀ id, sel = SelSession id → id ∈ ID <$> infos).
  { intros id. unfold sel, selectionOf.
    pose proof (so_result _ _ (runSelector_ok headerHeight infos ms)) as Hres.
    destruct (result _) as [[|c id']|]; try done. intros [= <-]. by destruct (Hres _ eq_refl). }
  split; [done|]. cbn. rewrite Hh. cbn. rewrite Hpc.
  destruct sel as [| | |id] eqn:E; try (by eexists). rewrite bool_decide_true by by apply Hsel. by eexists.
Qed.

(** A terminal connects while a session is detached, moves down and up again,
    and presses enter. *)
Definition demo_choosing : list action :=
  [AcceptPTY 80 24; ListSessions 0 true; AttachTarget 0;
   Mgr (MSession (sessionID 1) (LCloseBegin 0 DetachKeepalive)); Mgr (MSession (sessionID 1) (LDetach 0 9));
   CopyEnds 0 true true; OutputEnds 0 DetachKeepalive; AcceptPTY 80 24; ListSessions 1 true].

Definition demo_keys : list (msg Empty_set * Z) :=
  [(WindowSize 80 24, 0); (KeyPress (gs "j"), 1); (Tick, 2); (KeyPress (gs "k"), 3); (KeyPress (gs "enter"), 4)].

Lemma selector_returns_offered_witness :
  ∃ w, wrun (H := plain_emulator) demo_choosing (NewServer 5) = Some w ∧
    let infos := withStatus Detached (List (mgr w)) in
    let sel := selectionOf (runSelector (λ _ _ _, 3) infos demo_keys).2 in
    sel = SelSession (sessionID 1) ∧ sessionID 1 ∈ ID <$> infos ∧
    ∃ w', wstep (H := plain_emulator) w (Selected 1 sel true) = Some w'.
Proof.
  destruct (wrun (H := plain_emulator) demo_choosing (NewServer 5)) as [w|] eqn:E;
    [|vm_compute in E; discriminate E].
  exists w. split; [reflexivity|]. cbv zeta.
  destruct (handlers w !! 1%nat) as [h|] eqn:Eh;
    [|vm_compute in E; injection E as <-; vm_compute in Eh; discriminate Eh].
  pose proof (selector_returns_offered (H := plain_emulator) (λ _ _ _, 3) w 1 h
                (withStatus Detached (List (mgr w))) demo_keys true Eh) as Ht.
  assert (Hsel : selectionOf (runSelector (λ _ _ _, 3) (withStatus Detached (List (mgr w))) demo_keys).2 =
                 SelSession (sessionID 1)) by (vm_compute in E; injection E as <-; vm_compute; reflexivity).
  destruct Ht as [Hin Hw'].
  { vm_compute in E. injection E as <-. vm_compute in Eh. injection Eh as <-. vm_compute. reflexivity. }
  split; [exact Hsel|]. split; [exact (Hin _ Hsel)|exact Hw'].
Defined.
