(* ===== verification/View.v ===== *)
(** * What the screens show ([View] and the footers of [cmd/monitor_ui.go],
    [cmd/session_ui.go], [sshd/selector.go], [config/setup_ui.go]; the window's
    view and footer of [tui/window.go])

    Styling is the library's: class [Lipgloss] renders a text in a style, and
    [TermText] measures and cuts styled text.  A screen's view is a list of rows;
    the theorems are about which item is on which row and which row is marked. *)

From stdpp Require Import sorting.
From S2P Require Import Prelude GoStrings LogBuffer Tui MonitorUI PresetUI WardBar GoTime Manager SshServer Selector.
Open Scope Z_scope.

Definition LF : ascii := "010"%char.

(** ** Styles *)

Inductive color := ColorCyan | ColorPurple | ColorOrange | ColorField | ColorError | RGB (r g b : Z).

Record style := MkStyle { fg : option color; onHighlight : bool; bold : bool; faint : bool; italic : bool }.

Definition plainStyle : style := MkStyle None false false false false.
Definition Foreground (c : color) (s : style) : style := MkStyle (Some c) (onHighlight s) (bold s) (faint s) (italic s).
Definition Bold (s : style) : style := MkStyle (fg s) (onHighlight s) true (faint s) (italic s).
Definition Faint (s : style) : style := MkStyle (fg s) (onHighlight s) (bold s) true (italic s).
Definition Italic (s : style) : style := MkStyle (fg s) (onHighlight s) (bold s) (faint s) true.

Class Lipgloss := Render : style → gostring → gostring.

Section view.
Context `{Lipgloss} `{TermText}.

(** The base style of a row, and its marker. *)
Definition LineStyle (highlighted : bool) : style * gostring :=
  if highlighted then
    let base := MkStyle None true false false false in
    (base, Render (Foreground ColorCyan base) (gs "➔") ++ Render base (gs " "))
  else (plainStyle, gs "  ").

(** [for i := offset; i < end; i++]: the drawn items, with their indices, and the
    blank rows that fill the viewport. *)
Definition drawn {A} (offset last : Z) (xs : list A) : list (Z * A) :=
  imap (λ k x, (offset + Z.of_nat k, x))
    (take (Z.to_nat (last - offset)) (drop (Z.to_nat offset) xs)).

Definition fillRows (height : Z) (rows : list gostring) : list gostring :=
  rows ++ replicate (Z.to_nat height - length rows) [].

(** ** The monitor *)

(** [e.Time.Format("15:04:05")], in the local time zone. *)
Context (clock : Z → gostring).

Definition sourceName (s : Source) : gostring :=
  match s with SourceProxy => gs "proxy" | SourceDNS => gs "dns" end.

Definition renderLogLine (it : logItem) (highlighted : bool) : gostring :=
  let e := entry it in
  let '(base, marker) := LineStyle highlighted in
  let '(symbol, sourceColor) :=
    match status it with
    | statusTemp => (Render (Foreground ColorOrange base) (gs "a"), ColorOrange)
    | statusSaved => (Render (Bold (Foreground ColorOrange base)) (gs "A"), ColorOrange)
    | statusNone =>
        if bool_decide (EAction e = ActionBlock) then (Render (Foreground ColorError base) (gs "x"), ColorError)
        else (Render (Foreground ColorCyan base) (gs "+"), ColorCyan)
    end in
  let host := if bool_decide (Port e ≠ []) then Domain e ++ gs ":" ++ Port e else Domain e in
  let ts := Render (Foreground ColorField base) (clock (Time e)) in
  let src := Render (Foreground sourceColor base) (padRight 5 (sourceName (ESource e))) in
  let sp := Render base (gs " ") in
  marker ++ Render base (gs "[") ++ ts ++ Render base (gs "]") ++ sp ++ symbol ++ sp ++ src ++ sp ++
  Render base host ++ sp ++ Render base (Reason e).

Definition monitorRows (m : monitorScreen) : list gostring :=
  let c := cursor m in
  let last := Z.min (Offset c + VpHeight c) (itemCount m) in
  fillRows (VpHeight c)
    ((λ '(i, it), renderLogLine it (i =? Pos c)) <$> drawn (Offset c) last (MonitorUI.items m)).

Definition monitorView (m : monitorScreen) : gostring := Join (monitorRows m) [LF].

Definition spinnerFrames : list gostring :=
  gs <$> ["⠋"; "⠙"; "⠹"; "⠸"; "⠼"; "⠴"; "⠦"; "⠧"; "⠇"; "⠏"]%string.

Definition monitorStatus (m : monitorScreen) (w : Window) : gostring :=
  let isTailing := bool_decide (MonitorUI.items m = []) || AtEnd (cursor m) in
  let indicator :=
    if isTailing then
      Render (Foreground ColorCyan plainStyle)
        (default [] (spinnerFrames !! Z.to_nat (Z.rem (tickFrame w) 10)))
    else Render (Foreground ColorField plainStyle) (gs "⠿") in
  if 0 <? newCount m then
    indicator ++ gs " " ++
    Render (Foreground ColorOrange plainStyle) (gs "↓ " ++ Itoa (newCount m) ++ gs " new")
  else indicator.

(** ** The session list and the SSH selector *)

Definition renderSessionLine (ps : ProxySession) (highlighted : bool) (now : Z) : gostring :=
  let '(base, marker) := LineStyle highlighted in
  let sp := Render base (gs " ") in
  marker ++ Render (Foreground ColorField base) (padRight 16 (psSessionID ps)) ++ sp ++
  Render (Foreground ColorOrange base) (padRight 8 (formatUptime (StartedAt ps) now)) ++ sp ++
  Render (Foreground ColorCyan base) (psProjectDir ps).

Definition note (s : gostring) : gostring := Render (Foreground ColorField plainStyle) s.

Definition sessionRows (s : sessionScreen) (now : Z) : list gostring :=
  let c := MonitorUI.cur s in
  let n := Z.of_nat (length (MonitorUI.sessions s)) in
  fillRows (VpHeight c)
    (if n =? 0 then (if firstPollDone s then [note (gs "No sessions running. Waiting...")] else [])
     else [note (gs "Select a session:"); []] ++
          ((λ '(i, ps), renderSessionLine ps (i =? Pos c) now) <$>
             drawn (Offset c) (Z.min (Offset c + VpHeight c - 2) n) (MonitorUI.sessions s))).

Definition sessionView (s : sessionScreen) (now : Z) : gostring := Join (sessionRows s now) [LF].

Definition sessionStatus (s : sessionScreen) : gostring :=
  if bool_decide (MonitorUI.sessions s = []) then gs "waiting"
  else Itoa (Z.of_nat (length (MonitorUI.sessions s))) ++ gs " sessions".

(** A row of the SSH selector: a session, or the row for a new one. *)
Context (createdAt : gostring → Z).

Definition renderSelectorLine (info : Manager.SessionInfo) (highlighted : bool) (now : Z) : gostring :=
  let '(base, marker) := LineStyle highlighted in
  let sp := Render base (gs " ") in
  let line :=
    marker ++ Render (Foreground ColorField base) (padRight 16 (Manager.ID info)) ++ sp ++
    Render (Foreground ColorOrange base) (padRight 8 (formatDuration (now - createdAt (Manager.ID info)))) ++ sp ++
    Render (Foreground ColorCyan base)
      (gs "detached " ++ formatDuration (now - default 0 (DetachedAt info)) ++ gs " ago") in
  let label := Session.Label (LastDetachReason info) in
  if bool_decide (label = []) then line
  else line ++ sp ++ Render (Foreground ColorOrange base) (gs "(" ++ label ++ gs ")").

Definition renderNewSessionLine (highlighted : bool) : gostring :=
  let '(base, marker) := LineStyle highlighted in
  marker ++ Render (Foreground ColorField base) (gs "[new session]").

Definition selectorRows (s : selectorScreen) (now : Z) : list gostring :=
  let c := Selector.cur s in
  let rows := (Some <$> offered s) ++ [None] in
  fillRows (VpHeight c)
    ([note (gs "Select a session:"); []] ++
     ((λ '(i, r), match r with
                  | Some info => renderSelectorLine info (i =? Pos c) now
                  | None => renderNewSessionLine (i =? Pos c)
                  end) <$> drawn (Offset c) (Z.min (Offset c + VpHeight c - 2) (ItemCount c)) rows)).

Definition selectorView (s : selectorScreen) (now : Z) : gostring := Join (selectorRows s now) [LF].
(** ** The preset selector *)

Definition renderSectionLine (s : presetScreen) (it : presetItem) (highlighted : bool) : gostring :=
  let arrow := if isSet (expanded s) (section it) then gs "▾" else gs "▸" in
  let '(base, marker) := LineStyle highlighted in
  marker ++ Render (Foreground ColorField base) (arrow ++ gs " ── " ++ section it ++ gs " ──").

Definition renderPresetLine (s : presetScreen) (it : presetItem) (highlighted : bool) : gostring :=
  let via := includedBy s (presetName it) in
  let arrow := if isSet (expanded s) (presetName it) then gs "▾" else gs "▸" in
  let '(base, marker) := LineStyle highlighted in
  let sp := Render base (gs " ") in
  let name := padRight 16 (presetName it) in
  marker ++ Render (Foreground ColorField base) arrow ++ sp ++
  (if bool_decide (via ≠ []) then
     Render (Faint base) (gs "[·]") ++ sp ++ Render (Faint base) name ++ sp ++
     Render (Faint base) (description it ++ gs " (via " ++ via ++ gs ")")
   else
     (if isSet (checked s) (presetName it) then Render (Foreground ColorCyan base) (gs "[x]")
      else Render (Foreground ColorField base) (gs "[ ]")) ++ sp ++
     Render (Foreground ColorCyan base) name ++ sp ++ Render (Foreground ColorField base) (description it)).

Definition renderSubGroupLine (l : visibleLine) (highlighted : bool) : gostring :=
  let '(base, marker) := LineStyle highlighted in
  marker ++ Render base (gs "        ") ++ Render (Foreground ColorField base) (text l ++ gs ":").

Definition renderDomainLine (l : visibleLine) (highlighted : bool) : gostring :=
  let '(base, marker) := LineStyle highlighted in
  marker ++ Render base (gs "          ") ++ Render (Faint base) (text l).

(** Rows of sections and presets have an item ([PresetUI.line_item_in_range]). *)
Definition renderLine (s : presetScreen) (l : visibleLine) (highlighted : bool) : gostring :=
  match kind l with
  | lineSection => match itemOf s l with Some it => renderSectionLine s it highlighted | None => [] end
  | linePreset => match itemOf s l with Some it => renderPresetLine s it highlighted | None => [] end
  | lineSubGroup => renderSubGroupLine l highlighted
  | lineDomain => renderDomainLine l highlighted
  end.

Definition presetRows (s : presetScreen) : list gostring :=
  let c := pcur s in
  let lines := buildVisibleLines s in
  fillRows (VpHeight c)
    ((λ '(i, l), renderLine s l (i =? Pos c)) <$>
       drawn (Offset c) (Z.min (Offset c + VpHeight c) (Z.of_nat (length lines))) lines).

Definition presetView (s : presetScreen) : gostring :=
  note (gs "Select network presets. Space to toggle, Enter to confirm.") ++ [LF; LF] ++
  Join (presetRows s) [LF].

(** The checked presets and what they include, counted once each. *)
Definition selectedNames (s : presetScreen) : gset gostring :=
  list_to_set (flat_map (λ it, if negb (isHeader it) && isSet (checked s) (presetName it)
                               then presetName it :: includes it else []) (PresetUI.items s)).

Definition presetStatus (s : presetScreen) : gostring :=
  note (Itoa (Z.of_nat (size (selectedNames s))) ++ gs " selected").

(** ** Footers and the window *)

Record FooterKey := MkFooterKey { fkey : gostring; fdesc : gostring }.

Definition cursorKeys : list FooterKey :=
  [MkFooterKey (gs "↑/↓ k/j") (gs "navigate"); MkFooterKey (gs "Home/End g/G") (gs "jump")].

Definition monitorKeys (m : monitorScreen) : list FooterKey :=
  match itemAt m (Pos (cursor m)) with
  | Some it =>
      if bool_decide (EAction (entry it) = ActionBlock) && bool_decide (status it = statusNone)
      then [MkFooterKey (gs "a") (gs "allow"); MkFooterKey (gs "A") (gs "allow+save")]
      else if bool_decide (status it = statusTemp) then [MkFooterKey (gs "A") (gs "save")] else []
  | None => []
  end ++
  (if onBack m then [MkFooterKey (gs "esc") (gs "sessions")] else []) ++ cursorKeys.

Definition sessionKeys (s : sessionScreen) : list FooterKey :=
  (if bool_decide (MonitorUI.sessions s = []) then [] else [MkFooterKey (gs "enter") (gs "select")]) ++ cursorKeys.

Definition selectorKeys : list FooterKey :=
  [MkFooterKey (gs "enter") (gs "select"); MkFooterKey (gs "n") (gs "new session")] ++ cursorKeys.

Definition selectorStatus (s : selectorScreen) : gostring :=
  Itoa (Z.of_nat (length (offered s))) ++ gs " sessions".

Definition presetKeys (s : presetScreen) : list FooterKey :=
  match lineAt s with
  | Some l => if bool_decide (kind l = linePreset) then [MkFooterKey (gs "space") (gs "toggle")] else []
  | None => []
  end ++
  [MkFooterKey (gs "←/→") (gs "details"); MkFooterKey (gs "enter") (gs "confirm")] ++ cursorKeys.

(** [renderFooter] of a screen's status and keys. *)
Definition windowStatus (w : Window) (now : Z) : gostring :=
  match err w with
  | Some e => Render (Foreground ColorError plainStyle) (gs "connection error: " ++ e)
  | None => if bool_decide (flash w ≠ []) && (now <? flashExp w)
            then Render (Foreground ColorOrange plainStyle) (flash w) else []
  end.

Definition renderFooter (w : Window) (screenStatus : gostring) (keys : list FooterKey) (now : Z) : gostring :=
  let status := windowStatus w now in
  let left := if bool_decide (screenStatus ≠ []) && bool_decide (status ≠ [])
              then screenStatus ++ gs " " ++ status else screenStatus ++ status in
  let show k := Render (Foreground ColorCyan plainStyle) (fkey k) ++ gs " " ++
                Render (Foreground ColorField plainStyle) (fdesc k) in
  let right := Join (show <$> keys ++ [MkFooterKey (gs "q") (gs "quit")]) (gs "  ") in
  let gap := Z.max (width w - StringWidth left - StringWidth right) 2 in
  Truncate (left ++ replicate (Z.to_nat gap) " "%char ++ right) (width w).

(** [Window.View]; [header] is what [RenderHeader] returns. *)
Definition windowView (w : Window) (header content footer : gostring) : gostring :=
  if width w =? 0 then gs "Starting..." else header ++ [LF] ++ content ++ [LF] ++ footer.

(** ** Which row shows what *)

Lemma drawn_lookup {A} offset last (xs : list A) (k : nat) :
  0 ≤ offset →
  drawn offset last xs !! k =
    if offset + Z.of_nat k <? last then (pair (offset + Z.of_nat k)) <$> xs !! Z.to_nat (offset + Z.of_nat k)
    else None.
Proof.
  intros Ho. unfold drawn. rewrite list_lookup_imap.
  destruct (Z.ltb_spec (offset + Z.of_nat k) last) as [Hl|Hl].
  - rewrite lookup_take_lt, lookup_drop by lia. do 2 f_equal. lia.
  - by rewrite lookup_take_ge by lia.
Qed.

Lemma length_drawn {A} offset last (xs : list A) :
  length (drawn offset last xs) = (Z.to_nat (last - offset) `min` (length xs - Z.to_nat offset))%nat.
Proof. unfold drawn. by rewrite length_imap, length_take, length_drop. Qed.

(** A viewport of [height] rows over a list: exactly [height] rows, row [k] with
    item [offset + k], or blank after the last item. *)
Lemma viewport_rows {A} (render : Z * A → gostring) offset height (xs : list A) :
  0 ≤ offset → 0 ≤ height →
  let last := Z.min (offset + height) (Z.of_nat (length xs)) in
  let rows := fillRows height (render <$> drawn offset last xs) in
  length rows = Z.to_nat height ∧
  ∀ k : nat, (k < Z.to_nat height)%nat →
    rows !! k = Some (match xs !! Z.to_nat (offset + Z.of_nat k) with
                      | Some x => render (offset + Z.of_nat k, x)
                      | None => []
                      end).
Proof.
  intros Ho Hh last rows. assert (Hlen : (length (drawn offset last xs) ≤ Z.to_nat height)%nat).
  { rewrite length_drawn. unfold last. lia. }
  unfold rows, fillRows. split; [rewrite length_app, length_replicate, length_fmap; lia|]. intros k Hk.
  destruct (decide (k < length (drawn offset last xs))%nat) as [Hd|Hd].
  - rewrite lookup_app_l by (by rewrite length_fmap). rewrite list_lookup_fmap, drawn_lookup by done.
    rewrite length_drawn in Hd. unfold last in *. rewrite (proj2 (Z.ltb_lt _ _)) by lia.
    destruct (xs !! Z.to_nat (offset + Z.of_nat k)) as [x|] eqn:E; [done|].
    apply lookup_ge_None in E. lia.
  - rewrite lookup_app_r by (rewrite length_fmap; lia).
    rewrite lookup_replicate_2 by (rewrite length_fmap; lia).
    rewrite length_drawn in Hd. unfold last in Hd.
    by rewrite (lookup_ge_None_2 xs) by lia.
Qed.

(** ** The cursor through a program *)

(** A cursor over [n] items, placed by [EnsureVisible] whenever it was moved. *)
Record cursor_ok (n : Z) (c : Cursor) : Prop := {
  ck_count : ItemCount c = n;
  ck_range : in_range c;
  ck_offset : 0 ≤ Offset c;
  ck_height : 0 ≤ VpHeight c;
  ck_visible : 1 ≤ VpHeight c → visible c;
}.

Lemma cursor_ok_ensure n c :
  ItemCount c = n → in_range c → 0 ≤ Offset c → 0 ≤ VpHeight c → cursor_ok n (EnsureVisible c).
Proof.
  intros Hn Hr Ho Hv. destruct (EnsureVisible_frame c) as (Hp & Hvp & Hc).
  assert (Hp0 : 0 ≤ Pos c) by apply Hr.
  split; [congruence|by apply in_range_EnsureVisible| |by rewrite Hvp|].
  - unfold EnsureVisible. repeat case_match; cbn in *; breflect; lia.
  - rewrite Hvp. intros. by apply EnsureVisible_visible.
Qed.

Lemma cursor_ok_key n c k : cursor_ok n c → cursor_ok n (HandleKey c k).1.
Proof.
  intros Hc. assert (Hc0 := Hc). destruct Hc as [Hn Hr Ho Hv _]. unfold in_range in Hr.
  unfold HandleKey. repeat (case_match; cbn [fst]); try exact Hc0;
    apply cursor_ok_ensure; cbn; try done; unfold in_range; cbn; lia.
Qed.

(** ** The monitor program: any messages, from either first screen *)

Context (headerHeight : HeaderInfo → Z → Z → Z).

Definition screen_ok (h : Z) (st : screenState) : Prop :=
  match st with
  | Monitor m => cursor_ok (itemCount m) (cursor m) ∧ VpHeight (cursor m) = h
  | SessionList l => cursor_ok (Z.of_nat (length (MonitorUI.sessions l))) (MonitorUI.cur l) ∧
                     VpHeight (MonitorUI.cur l) = h
  end.

(** A monitor screen only arrives as the list's selection makes it. *)
Definition msg_ok (x : msg custom) : Prop :=
  match x with
  | Custom (SessionSelectResult _ (Some m)) => ∃ si c b, m = newMonitorScreen si c b
  | _ => True
  end.

Lemma cursor_ok_vp n c h : cursor_ok n c → 0 ≤ h → cursor_ok n (EnsureVisible (set_vp c h)).
Proof. intros [? ? ? ? ?] ?. by apply cursor_ok_ensure. Qed.

Lemma vp_frame c h : VpHeight (EnsureVisible (set_vp c h)) = h.
Proof. by destruct (EnsureVisible_frame (set_vp c h)) as (_ & -> & _). Qed.

Lemma monitorPollOk_ok m es :
  cursor_ok (itemCount m) (cursor m) →
  cursor_ok (itemCount (monitorPollOk m es)) (cursor (monitorPollOk m es)) ∧
  VpHeight (cursor (monitorPollOk m es)) = VpHeight (cursor m).
Proof.
  intros [Hn Hr Ho Hv Hvis]. unfold monitorPollOk, appendEntries, itemCount in *. cbn.
  set (its := MonitorUI.items m ++ _).
  assert (Hle : Z.of_nat (length (MonitorUI.items m)) ≤ Z.of_nat (length its))
    by (unfold its; rewrite length_app; lia).
  destruct (_ && _) eqn:Ef.
  - match goal with |- context [EnsureVisible ?x] => destruct (EnsureVisible_frame x) as (_ & Hvp & _) end.
    rewrite Hvp. split; [|done]. apply cursor_ok_ensure; cbn; try done. unfold in_range. cbn. breflect. lia.
  - split; [|done]. split; cbn; try done. unfold in_range in *. cbn. lia.
Qed.

Lemma newSession_ok : cursor_ok 0 (MkCursor 0 0 0 0).
Proof. split; cbn; unfold in_range; cbn; lia. Qed.

Definition isSize (x : msg custom) : bool := match x with WindowSize _ _ => true | _ => false end.

(** One update: a screen that stays has the window's height, one that is new
    gets it next. *)
Definition updated_ok (w : Window) (u : updated screenState command) : Prop :=
  vpHeight (win u) = vpHeight w ∧ screen_ok (if switched u then 0 else vpHeight w) (screen u).

Lemma transitionBack_ok w w' : vpHeight w' = vpHeight w → updated_ok w (transitionBack w').
Proof. intros Hv. by split; [|split; [apply newSession_ok|]]. Qed.

Lemma monitor_step_ok h m x w now :
  screen_ok h (Monitor m) → isSize x = true ∨ h = vpHeight w → 0 ≤ vpHeight w →
  updated_ok w (monitorUpdate m x w now).
Proof.
  intros [Hc Hh] Hx Hw. destruct x as [wd ht| |k|y]; cbn [monitorUpdate].
  - split; [done|]. split; [by apply cursor_ok_vp|apply vp_frame].
  - destruct Hx as [|Hx]; [done|]. subst h.
    unfold monitorTick. repeat case_match; try (by apply transitionBack_ok); by split.
  - destruct Hx as [|Hx]; [done|]. subst h. unfold monitorKey.
    repeat case_match; try (by apply transitionBack_ok); try by split.
    all: match goal with H : HandleKey _ _ = (?c, _) |- _ =>
      pose proof (cursor_ok_key _ _ k Hc) as Hk; pose proof (HandleKey_frame (cursor m) k) as [Hf _];
      rewrite H in Hk, Hf; by split; [|split; [|rewrite <- Hx; exact Hf]] end.
  - destruct Hx as [|Hx]; [done|]. subst h.
    destruct y as [i st [e|]|[es|e]|r|e|sel scr]; cbn -[monitorPollOk]; try by split.
    + destruct (itemAt m i); [|by split]. split; [by case_match|]. split; [|done].
      unfold itemCount in *. cbn. by rewrite length_insert.
    + split; [done|]. destruct (monitorPollOk_ok m es Hc) as [? Hv]. by split; [|cbn -[monitorPollOk]; rewrite Hv].
    + by destruct (onBack m); split.
Qed.

Lemma session_step_ok h l x w now :
  screen_ok h (SessionList l) → isSize x = true ∨ h = vpHeight w → 0 ≤ vpHeight w → msg_ok x →
  updated_ok w (sessionUpdate l x w now).
Proof.
  intros [Hc Hh] Hx Hw Hm. destruct x as [wd ht| |k|y]; cbn [sessionUpdate].
  - split; [done|]. split; [by apply cursor_ok_vp|apply vp_frame].
  - destruct Hx as [|Hx]; [done|]. subst h. repeat case_match; by split.
  - destruct Hx as [|Hx]; [done|]. subst h. repeat case_match; try by split.
    split; [done|]. split; [by apply cursor_ok_key|]. cbn. by rewrite (proj1 (HandleKey_frame _ _)).
  - destruct Hx as [|Hx]; [done|]. subst h. destruct y as [i st e|r|[ss|e]|e|sel [m|]]; cbn; try by split.
    + split; [done|]. destruct Hc as [Hn Hr Ho Hv _]. unfold sortSessions.
      cbn [screen stays switched screen_ok MonitorUI.cur MonitorUI.sessions].
      set (c := if _ <=? _ then _ else _). rewrite (Permutation_length (merge_sort_Permutation _ _)).
      assert (Hcc : ItemCount c = Z.of_nat (length ss) ∧ in_range c ∧ Offset c = Offset (MonitorUI.cur l) ∧
                    VpHeight c = VpHeight (MonitorUI.cur l)).
      { unfold c, in_range in *. cbn. destruct (Z.leb_spec (Z.of_nat (length ss)) (Pos (MonitorUI.cur l)));
          cbn; split_and!; lia. }
      destruct Hcc as (? & ? & ? & Hvc). destruct (EnsureVisible_frame c) as (_ & Hve & _).
      split; [apply cursor_ok_ensure; try done; congruence|]. congruence.
    + by case_match; split.
    + destruct Hm as (si & c0 & b & ->). split; [done|]. split; [apply newSession_ok|done].
    + by destruct sel; split.
Qed.

Lemma screen_step_ok h st x w now :
  screen_ok h st → isSize x = true ∨ h = vpHeight w → 0 ≤ vpHeight w → msg_ok x →
  updated_ok w (monitor_screens st x w now).
Proof. intros. destruct st; [by eapply session_step_ok|by eapply monitor_step_ok]. Qed.

Definition runWindow (ws : Window * screenState) (x : msg custom * Z) : Window * screenState :=
  (windowUpdate (C := command) headerHeight ws.1 ws.2 x.1 x.2).1.

Definition state_ok (ws : Window * screenState) : Prop := 0 ≤ vpHeight ws.1 ∧ screen_ok (vpHeight ws.1) ws.2.

Lemma runWindow_ok ws x : state_ok ws → msg_ok x.1 → state_ok (runWindow ws x).
Proof.
  destruct ws as [w st], x as [x now]. intros [Hw Hst] Hm. cbn [fst snd] in *.
  unfold runWindow, windowUpdate. cbn [fst snd]. set (w1 := windowMsg headerHeight w x now).
  assert (Hw1 : 0 ≤ vpHeight w1) by (unfold w1; destruct x; cbn; lia).
  assert (Hx : isSize x = true ∨ vpHeight w = vpHeight w1) by (unfold w1; destruct x; cbn; auto).
  destruct (screen_step_ok _ st x w1 now Hst Hx Hw1 Hm) as [Hwin Hscr]. unfold Update.
  destruct (switched _) eqn:Esw; cbn [fst].
  - assert (Hw2 : 0 ≤ vpHeight (win (monitor_screens st x w1 now))) by lia.
    set (u := monitor_screens st x w1 now) in *.
    destruct (screen_step_ok 0 (screen u) (WindowSize (width (win u)) (height (win u))) (win u) now
      Hscr (or_introl eq_refl) Hw2 I) as [Hwin2 Hscr2].
    assert (Hs2 : switched (monitor_screens (screen u) (WindowSize (width (win u)) (height (win u))) (win u) now) = false)
      by (by destruct (screen u)).
    rewrite Hs2 in Hscr2. split; cbn [fst snd]; [lia|]. by rewrite Hwin2.
  - split; cbn [fst snd]; [lia|]. by rewrite Hwin.
Qed.

Lemma fold_runWindow_ok ws xs :
  state_ok ws → Forall (λ x, msg_ok x.1) xs → state_ok (fold_left runWindow xs ws).
Proof.
  intros Hs Hx. revert ws Hs. induction Hx as [|x xs Hx _ IH]; intros ws Hs; cbn; [done|].
  by apply IH, runWindow_ok.
Qed.

(** The first screen of the program, a monitor or the list. *)
Definition firstScreen (st : screenState) : Prop :=
  (∃ si c b, st = Monitor (newMonitorScreen si c b)) ∨
  (∃ ss sel poll, st = SessionList (newSessionScreen ss sel poll)).

Lemma first_ok h st : firstScreen st → state_ok (NewWindow h, st).
Proof.
  intros [(si & c & b & ->)|(ss & sel & poll & ->)]; (split; [cbn; lia|]); (split; [|done]); cbn.
  - apply newSession_ok.
  - unfold sortSessions. rewrite (Permutation_length (merge_sort_Permutation _ _)).
    split; cbn; try lia. unfold in_range. cbn. lia.
Qed.

Lemma itemAt_lookup m i : 0 ≤ i → itemAt m i = MonitorUI.items m !! Z.to_nat i.
Proof.
  intros Hi. unfold itemAt, itemCount. destruct (Z.leb_spec 0 i); [|lia].
  destruct (Z.ltb_spec i (Z.of_nat (length (MonitorUI.items m)))); [done|]. cbn.
  symmetry. apply lookup_ge_None_2. lia.
Qed.

(** What is marked on the monitor is what a key acts on.  After any
    messages, once the window has a size, the view has exactly as many rows as
    the viewport; row [k] shows the log entry [Offset + k] and is blank after
    the last one; when there are entries, exactly the row of the cursor's entry
    is marked, it is on the screen, and pressing [a] or [A] asks to allow that
    entry, if it is blocked and not yet allowed, and never another one. *)
Theorem marked_row_is_acted_on h st xs w m k now :
  firstScreen st → Forall (λ x, msg_ok x.1) xs →
  fold_left runWindow xs (NewWindow h, st) = (w, Monitor m) → 1 ≤ vpHeight w →
  let c := cursor m in
  length (monitorRows m) = Z.to_nat (vpHeight w) ∧
  (∀ j, 0 ≤ j < vpHeight w →
     monitorRows m !! Z.to_nat j =
       Some (match itemAt m (Offset c + j) with
             | Some it => renderLogLine it (bool_decide (Offset c + j = Pos c))
             | None => []
             end)) ∧
  (MonitorUI.items m ≠ [] →
     0 ≤ Pos c - Offset c < vpHeight w ∧
     ∃ it, itemAt m (Pos c) = Some it ∧
       (k = gs "a" ∨ k = gs "A" →
        cmd (monitorUpdate m (KeyPress k) w now) =
          if bool_decide (EAction (entry it) = ActionBlock) && bool_decide (status it = statusNone)
          then Some (AllowCmd (Pos c) (entry it) (bool_decide (k = gs "A"))) else None)).
Proof.
  intros Hf Hx Hrun Hv c.
  destruct (fold_runWindow_ok _ xs (first_ok h st Hf) Hx) as [_ Hs]. rewrite Hrun in Hs.
  destruct Hs as [[Hn Hr Ho Hh Hvis] Hvp]. fold c in Hn, Hr, Ho, Hh, Hvis, Hvp. cbn [fst] in Hvp.
  specialize (Hvis ltac:(lia)).
  pose proof (viewport_rows (λ '(i, it), renderLogLine it (i =? Pos c)) (Offset c) (VpHeight c)
                (MonitorUI.items m) Ho Hh) as [Hlen Hrows].
  change (fillRows _ _) with (monitorRows m) in Hlen, Hrows. rewrite Hvp in Hlen, Hrows.
  split_and!; [done| |].
  - intros j Hj. rewrite Hrows by lia. rewrite Z2Nat.id, itemAt_lookup by lia.
    by destruct (Z.eqb_spec (Offset c + j) (Pos c)); [rewrite bool_decide_true|rewrite bool_decide_false].
  - intros Hne. unfold visible in Hvis. split; [lia|].
    unfold in_range in Hr. unfold itemCount in Hn.
    assert (Hlt : (Z.to_nat (Pos c) < length (MonitorUI.items m))%nat)
      by (destruct (MonitorUI.items m); [done|cbn in *; lia]).
    destruct (lookup_lt_is_Some_2 _ _ Hlt) as [it Hit]. exists it.
    rewrite itemAt_lookup by lia. split; [done|]. intros Hk. cbn [monitorUpdate]. unfold monitorKey.
    assert (Hkey : key_in k ["a"; "A"]%string = true) by (destruct Hk; subst k; by vm_compute).
    rewrite Hkey. fold c. rewrite itemAt_lookup, Hit by lia. by case_match.
Qed.

Lemma fillRows_header h a b rows :
  2 ≤ h → fillRows h ([a; b] ++ rows) = a :: b :: fillRows (h - 2) rows.
Proof.
  intros Hh. unfold fillRows. cbn [app length]. do 4 f_equal. lia.
Qed.

(** The session list draws its rows below two lines of text but scrolls as if
    it had the whole viewport: the marked row is on the screen only when it is
    not among the last two of the viewport. *)
Lemma sessionRows_lookup (l : sessionScreen) now (j : nat) :
  let c := MonitorUI.cur l in
  0 ≤ Offset c → MonitorUI.sessions l ≠ [] → Z.of_nat j < VpHeight c - 2 →
  sessionRows l now !! (2 + j)%nat =
    Some (match MonitorUI.sessions l !! Z.to_nat (Offset c + Z.of_nat j) with
          | Some ps => renderSessionLine ps (Offset c + Z.of_nat j =? Pos c) now
          | None => []
          end).
Proof.
  intros c Ho Hne Hj. unfold sessionRows. fold c.
  destruct (Z.eqb_spec (Z.of_nat (length (MonitorUI.sessions l))) 0) as [E|_];
    [by destruct (MonitorUI.sessions l)|].
  destruct (viewport_rows (λ '(i, ps), renderSessionLine ps (i =? Pos c) now) (Offset c) (VpHeight c - 2)
              (MonitorUI.sessions l) Ho ltac:(lia)) as [_ Hrows].
  specialize (Hrows j ltac:(lia)). replace (Offset c + (VpHeight c - 2)) with (Offset c + VpHeight c - 2) in Hrows by lia.
  rewrite fillRows_header by lia. rewrite <- Hrows. reflexivity.
Qed.
End view.

(** ** Examples *)

#[local] Instance no_style : Lipgloss := λ st s, s.

Lemma marked_row_is_acted_on_witness :
  ∃ w m, fold_left (runWindow (λ _ _ _, 3)) 
    [(WindowSize 80 10, 0); (Custom (LogsPollResult (Ok [MkLogEntry 1 0 (gs "a.com") (gs "443") ActionBlock SourceProxy []])), 1)]
    (NewWindow selectorHeader, Monitor (newMonitorScreen (MkSessionInfo [] [] []) true true)) = (w, Monitor m) ∧
  length (monitorRows (λ _, gs "00:00:00") m) = 6%nat ∧
  monitorRows (λ _, gs "00:00:00") m !! 0%nat = Some (gs "➔ [00:00:00] x proxy a.com:443 ").
Proof.
  destruct (fold_left (runWindow (λ _ _ _, 3)) _ _) as [w [l|m]] eqn:E;
    [vm_compute in E; discriminate E|].
  exists w, m. split; [reflexivity|].
  pose proof (λ H1 H2, marked_row_is_acted_on (λ _, gs "00:00:00") (λ _ _ _, 3) selectorHeader _ _ w m
                (gs "a") 2 H1 H2 E) as Ht.
  vm_compute in E. injection E as <- <-.
  destruct Ht as (Hlen & Hrow & _).
  - left. by eexists _, _, _.
  - repeat constructor.
  - vm_compute. discriminate.
  - split; [exact Hlen|]. refine (eq_trans (Hrow 0 _) _); [|vm_compute; reflexivity].
    vm_compute. split; [discriminate|reflexivity].
Defined.

(** Three sessions in a viewport of four rows: the last one is selected with two
    key presses and is not drawn. *)
Lemma marked_session_not_drawn :
  let ps i := MkProxySession [] (gs i) [] (gs "/p") 0 in
  let st := SessionList (newSessionScreen [ps "s1"%string; ps "s2"%string; ps "s3"%string] true true) in
  match (fold_left (runWindow (λ _ _ _, 3))
           [(WindowSize 80 8, 0); (KeyPress (gs "j"), 1); (KeyPress (gs "j"), 2)] (NewWindow selectorHeader, st)).2 with
  | SessionList l =>
      sessionAt l (Pos (MonitorUI.cur l)) = Some (ps "s3"%string) ∧
      forallb (λ row, negb (Contains row (gs "s3"))) (sessionRows l 0) = true
  | Monitor _ => False
  end.
Proof. vm_compute. split; reflexivity. Qed.
