(* ===== verification/Header.v ===== *)
(** * The header and the status lines ([tui/header.go], [tui/status.go])

    The block letters of the program's name in a colour gradient, the tagline and
    the session.  The header's height decides how many rows are left for a
    screen; the last section shows that header, screen and footer fill exactly
    the terminal. *)

From Stdlib Require Import SpecFloat.
From S2P Require Import Prelude GoStrings LogBuffer Tui MonitorUI WardBar GoTime View.
Open Scope Z_scope.

(** ** The wordmark *)

Record letterGlyph := MkGlyph { Top : gostring; Mid : gostring; Bot : gostring }.

Definition glyphs : list (ascii * letterGlyph) :=
  [("V"%char, MkGlyph (gs "█   █") (gs "▀▄ ▄▀") (gs " ▀█▀ "));
   ("I"%char, MkGlyph (gs "▀█▀") (gs " █ ") (gs "▄█▄"));
   ("B"%char, MkGlyph (gs "█▀▀▄") (gs "█▄▄▀") (gs "█▄▄▀"));
   ("E"%char, MkGlyph (gs "█▀▀▀") (gs "█▄▄ ") (gs "█▄▄▄"));
   ("P"%char, MkGlyph (gs "█▀▀▄") (gs "█▄▄▀") (gs "█   "));
   ("T"%char, MkGlyph (gs "▀▀█▀▀") (gs "  █  ") (gs "  █  "))].

Definition glyphOf (c : ascii) : option letterGlyph :=
  snd ∘ snd <$> list_find (λ p, p.1 = c) glyphs.

(** The three rows; [i] is the index of the letter, and unknown ones are skipped. *)
Fixpoint wordmarkRow (row : letterGlyph → gostring) (i : nat) (word : gostring) : gostring :=
  match word with
  | [] => []
  | c :: word =>
      match glyphOf c with
      | None => wordmarkRow row (S i) word
      | Some g => (if (0 <? i)%nat then gs " " else []) ++ gs "  " ++ row g ++ wordmarkRow row (S i) word
      end
  end.

Definition buildWordmark (word : gostring) : list gostring :=
  [wordmarkRow Top 0 word; wordmarkRow Mid 0 word; wordmarkRow Bot 0 word].

(** ** The gradient *)

Definition rgb (c : color) : Z * Z * Z :=
  match c with
  | ColorCyan => (0x00, 0xd4, 0xff)
  | ColorPurple | ColorError => (0x8b, 0x5c, 0xf6)
  | ColorOrange => (0xf9, 0x73, 0x16)
  | ColorField => (0x00, 0x99, 0xcc)
  | RGB r g b => (r, g, b)
  end.

(** [uint8(float64(a)*(1-t) + float64(b)*t)] in double precision. *)
Definition mix (t : spec_float) (a b : Z) : Z :=
  wrap_uint 8 (toInt (SFadd 53 1024 (SFmul 53 1024 (float64 a) (SFsub 53 1024 (float64 1) t))
                        (SFmul 53 1024 (float64 b) t))).

Section header.
Context `{Lipgloss} `{TermText}.

Definition gradientRune (n : Z) (ca cb : color) (i : nat) (r : Z) : gostring :=
  if r =? 0x20 then gs " "
  else
    let t := SFdiv 53 1024 (float64 (Z.of_nat i)) (float64 (Z.max (n - 1) 1)) in
    let '(aR, aG, aB) := rgb ca in
    let '(bR, bG, bB) := rgb cb in
    Render (Foreground (RGB (mix t aR bR) (mix t aG bG) (mix t aB bB)) plainStyle) (encodeRune r).

Definition applyGradient (s : gostring) (ca cb : color) : gostring :=
  let rs := runes s in
  concat (imap (gradientRune (Z.of_nat (length rs)) ca cb) rs).

(** ** The header *)

Definition CompactHeaderThreshold : Z := 15.
Definition defaultBannerWidth : Z := 80.

Definition ProjectDirWithHome (home : gostring) (info : HeaderInfo) : gostring :=
  if bool_decide (home ≠ []) && HasPrefix (ProjectDir info) home
  then gs "$HOME" ++ drop (length home) (ProjectDir info) else ProjectDir info.

Definition Repeat (s : gostring) (n : Z) : gostring := concat (replicate (Z.to_nat n) s).

Context (home : gostring).

Definition fieldChar : gostring := Render (Foreground ColorField plainStyle) (gs "╱").
Definition taglineOf (s : string) : gostring := Render (Italic (Foreground ColorOrange plainStyle)) (gs s).
Definition sessionInfoOf (info : HeaderInfo) : gostring :=
  Render (Foreground ColorField plainStyle) (ProjectDirWithHome home info ++ gs " ╱╱ " ++ SessionID info).

Definition RenderNameWithGradient : gostring := applyGradient (gs "VIBEPIT") ColorCyan ColorPurple.

Definition renderCompactHeader (info : HeaderInfo) (width : Z) : gostring :=
  let sessionInfo := sessionInfoOf info in
  let fixedWidth := 3 + 1 + StringWidth (gs "VIBEPIT") + 2 + StringWidth (gs "I PITY THE VIBES") + 1 + 1 +
                    StringWidth sessionInfo + 1 + 3 in
  let fill := Z.max (width - fixedWidth) 1 in
  Repeat fieldChar 3 ++ gs " " ++ RenderNameWithGradient ++ gs "  " ++ taglineOf "I pity the vibes" ++ gs " " ++
  Repeat fieldChar fill ++ gs " " ++ sessionInfo ++ gs " " ++ Repeat fieldChar 3.

Definition normalizeBannerSize (width height : Z) (ok : bool) : Z * Z :=
  (if negb ok || (width <=? 0) then defaultBannerWidth else width,
   if negb ok || (height <=? 0) then 0 else height).

Definition renderCompactBanner (width : Z) : gostring :=
  let fixedWidth := 3 + 1 + StringWidth (gs "VIBEPIT") + 2 + StringWidth (gs "I pity the vibes") + 1 + 3 in
  let fill := Z.max (width - fixedWidth) 1 in
  Repeat fieldChar 3 ++ gs " " ++ RenderNameWithGradient ++ gs "  " ++ taglineOf "I pity the vibes" ++ gs " " ++
  Repeat fieldChar fill ++ Repeat fieldChar 3.

Definition wordmarkLines (width : Z) : list gostring :=
  let rows := buildWordmark (gs "VIBEPIT") in
  let wordmarkWidth := StringWidth (wordmarkRow Top 0 (gs "VIBEPIT")) in
  (λ row, Repeat fieldChar 3 ++ applyGradient row ColorCyan ColorPurple ++ gs "  " ++
          Repeat fieldChar (Z.max (width - wordmarkWidth - 5) 0)) <$> rows.

Definition renderFullBanner (width : Z) : gostring :=
  Join (wordmarkLines width ++ [Repeat (gs " ") 5 ++ taglineOf "I PITY THE VIBES"]) [LF].

Definition isCompact (height : Z) : bool := (0 <? height) && (height <? CompactHeaderThreshold).

Definition RenderBanner (width height : Z) : gostring :=
  let width := Z.max width 40 in
  if isCompact height then renderCompactBanner width else renderFullBanner width.

Definition RenderHeader (info : HeaderInfo) (width height : Z) : gostring :=
  let width := Z.max width 40 in
  if isCompact height then renderCompactHeader info width
  else
    let tagline := taglineOf "I PITY THE VIBES" in
    let sessionInfo := sessionInfoOf info in
    let gap := Z.max (width - 5 - StringWidth tagline - StringWidth sessionInfo) 2 in
    Join (wordmarkLines width ++ [Repeat (gs " ") 5 ++ tagline ++ Repeat (gs " ") gap ++ sessionInfo]) [LF].

(** [strings.Count(h, "\n") + 1]. *)
Definition lineCount (s : gostring) : Z := Z.of_nat (length (Split s LF)).
Definition headerHeight (info : HeaderInfo) (width height : Z) : Z := lineCount (RenderHeader info width height).

(** [writeStatus]: the verb right-aligned in twelve columns. *)
Definition padLeft (n : nat) (s : gostring) : gostring := replicate (n - length (runes s)) " "%char ++ s.
Definition writeStatus (st : style) (verb msg : gostring) : gostring :=
  Render st (padLeft 12 verb) ++ gs " " ++ msg ++ [LF].
Definition Status (verb msg : gostring) : gostring := writeStatus (Bold (Foreground ColorCyan plainStyle)) verb msg.
Definition Error (msg : gostring) : gostring := writeStatus (Bold (Foreground ColorOrange plainStyle)) (gs "error") msg.
Definition Debug (msg : gostring) : gostring := writeStatus (Bold (Foreground ColorPurple plainStyle)) (gs "debug") msg.

(** ** How high it is *)

Lemma Split_app_any a b sep : Split (a ++ sep :: b) sep = Split a sep ++ Split b sep.
Proof.
  induction a as [|c a IH]; cbn.
  - by rewrite bool_decide_true.
  - case_bool_decide; [by rewrite IH|]. rewrite IH. pose proof (Split_not_nil a sep).
    by destruct (Split a sep).
Qed.

Lemma lineCount_app a b : lineCount (a ++ LF :: b) = lineCount a + lineCount b.
Proof. unfold lineCount. rewrite Split_app_any, length_app. lia. Qed.

Lemma lineCount_line s : LF ∉ s → lineCount s = 1.
Proof. intros Hs. unfold lineCount. by rewrite Split_word. Qed.

Lemma lineCount_Join rows :
  rows ≠ [] → Forall (λ r, LF ∉ r) rows → lineCount (Join rows [LF]) = Z.of_nat (length rows).
Proof. intros Hne Hf. unfold lineCount. by rewrite Split_Join. Qed.

(** Styling and cutting a line gives a line. *)
Context (Render_line : ∀ st s, LF ∉ s → LF ∉ Render st s).
Context (Truncate_line : ∀ s n, LF ∉ s → LF ∉ Truncate s n).

Definition plainLine (s : gostring) : bool := forallb (λ c, negb (bool_decide (c = LF))) s.

Lemma plainLine_spec s : plainLine s = true → LF ∉ s.
Proof.
  unfold plainLine. rewrite forallb_forall. intros Hs Hin%list_elem_of_In. apply Hs in Hin.
  by rewrite bool_decide_true in Hin.
Qed.

Lemma concat_line xs : Forall (λ x, LF ∉ x) xs → LF ∉ concat xs.
Proof.
  induction 1 as [|x xs Hx _ IH]; cbn; [apply not_elem_of_nil|]. by rewrite not_elem_of_app.
Qed.

Lemma Repeat_line s n : LF ∉ s → LF ∉ Repeat s n.
Proof. intros Hs. apply concat_line, Forall_replicate, Hs. Qed.

Lemma gradient_line s ca cb :
  forallb (λ r, plainLine (encodeRune r)) (runes s) = true → LF ∉ applyGradient s ca cb.
Proof.
  rewrite forallb_forall. intros Hs. apply concat_line, Forall_lookup_2. intros i x.
  rewrite list_lookup_imap. intros (r & Hr & ->)%fmap_Some.
  assert (Hp : LF ∉ encodeRune r).
  { apply plainLine_spec, Hs, list_elem_of_In. by eapply list_elem_of_lookup_2. }
  unfold gradientRune. destruct (r =? 0x20); [apply plainLine_spec; reflexivity|].
  destruct (rgb ca) as [[? ?] ?], (rgb cb) as [[? ?] ?]. by apply Render_line.
Qed.

Lemma const_line st s : plainLine (gs s) = true → LF ∉ Render st (gs s).
Proof. intros. by apply Render_line, plainLine_spec. Qed.

Ltac lines :=
  repeat match goal with
  | |- LF ∉ _ ++ _ => apply not_elem_of_app; split
  | |- LF ∉ Repeat _ _ => apply Repeat_line
  | |- LF ∉ applyGradient _ _ _ => apply gradient_line; vm_compute; reflexivity
  | |- LF ∉ RenderNameWithGradient => apply gradient_line; vm_compute; reflexivity
  | |- LF ∉ fieldChar => apply const_line; vm_compute; reflexivity
  | |- LF ∉ taglineOf _ => apply const_line; vm_compute; reflexivity
  | |- LF ∉ Render _ _ => apply Render_line
  | |- LF ∉ gs _ => apply plainLine_spec; vm_compute; reflexivity
  end.

Lemma sessionInfo_line info :
  LF ∉ ProjectDir info → LF ∉ SessionID info → LF ∉ sessionInfoOf info.
Proof.
  intros Hp Hs. unfold sessionInfoOf, ProjectDirWithHome. lines; [|exact Hs].
  destruct (_ && _); [|exact Hp]. lines. intros Hin. apply Hp.
  rewrite <- (take_drop (length home) (ProjectDir info)). apply elem_of_app. by right.
Qed.

Lemma wordmark_lines width : Forall (λ r, LF ∉ r) (wordmarkLines width).
Proof. unfold wordmarkLines. apply Forall_fmap. repeat constructor; cbn beta iota; unfold compose; lines. Qed.

(** One line on a terminal of less than fifteen rows, four otherwise. *)
Lemma headerHeight_spec info width height :
  LF ∉ ProjectDir info → LF ∉ SessionID info →
  headerHeight info width height = if isCompact height then 1 else 4.
Proof.
  intros Hp Hs. pose proof (sessionInfo_line info Hp Hs) as Hi. unfold headerHeight, RenderHeader.
  destruct (isCompact height).
  - apply lineCount_line. unfold renderCompactHeader. lines; exact Hi.
  - rewrite lineCount_Join; [done..|].
    apply Forall_app. split; [apply wordmark_lines|]. constructor; [|constructor]. lines; exact Hi.
Qed.

(** ** The whole terminal *)

(** After a resize the window has this viewport. *)
Definition sized (w : Window) : Prop :=
  vpHeight w = Z.max (height w - headerHeight (Tui.header w) (width w) (height w) - 1) 1.

Lemma windowMsg_sized w wd h now :
  sized (windowMsg (X := custom) headerHeight w (WindowSize wd h) now).
Proof. reflexivity. Qed.

(** The header, the screen and the footer fill the terminal: a view of as many
    lines as the viewport has rows makes a window of exactly the terminal's
    height, unless that leaves no row for the screen. *)
Lemma windowView_fills w rows footer :
  sized w → width w ≠ 0 → length rows = Z.to_nat (vpHeight w) → Forall (λ r, LF ∉ r) rows → LF ∉ footer →
  let hh := headerHeight (Tui.header w) (width w) (height w) in
  lineCount (windowView w (RenderHeader (Tui.header w) (width w) (height w)) (Join rows [LF]) footer) =
    Z.max (height w) (hh + 2).
Proof.
  intros Hsz Hw Hlen Hrows Hf hh. unfold windowView. rewrite (proj2 (Z.eqb_neq _ _) Hw).
  assert (Hne : rows ≠ []) by (destruct rows; [unfold sized in Hsz; cbn in Hlen; lia|done]).
  cbn [app]. rewrite !lineCount_app, (lineCount_Join rows), (lineCount_line footer) by done.
  change (lineCount (RenderHeader _ _ _)) with hh. unfold sized in Hsz. fold hh in Hsz. lia.
Qed.
End header.
