(* ===== verification/Allow.v ===== *)
(** * Allowing a destination from the host ([cmd/allow.go], [cmd/control.go])

    [vibepit allow-http] and [vibepit allow-dns] validate their arguments, find
    the proxy, send the entries to its control API and then add them to the
    project's configuration file.  The world is the proxy's state and the file;
    the request may not arrive, and its answer may get lost after the proxy has
    acted. *)

From S2P Require Import Prelude GoStrings Allowlist LogBuffer ControlApi Config Setup MonitorUI.

(** What becomes of a request on its way. *)
Inductive transport := Unreachable | AnswerLost | Answered.

Inductive saveErr := LoadConfig | ReadConfig | EditConfig (e : editErr) | WriteConfig.

Inductive cmdErr :=
  | Invalid (e : entryErr) | NoProxy | NoControlPort | NoCredentials
  | PostFailed | GetFailed | BadStatus | SaveFailed (e : saveErr).

(** A line printed by [tui.Status]. *)
Inductive status := Allowed (entry : gostring) | Saved (path : gostring).

Section allow.
Context `{UnicodeTables}.
(** The JSON and YAML libraries: request bodies, the project configuration, and
    the node tree and encoder behind the in-place edit. *)
Context {Body Cfg : Type} (marshal : list gostring → Body) (decode : Body → option (list gostring)).
Context (parseProject : gostring → option ProjectConfig).
Context (Quote : gostring → gostring) (unmarshal : gostring → option (list node))
        (SetString : node → gostring → node) (encode : gostring → list node → option gostring).

Record world := MkWorld { api : ControlAPI Cfg; file : fileState }.

Definition set_api (w : world) (a : ControlAPI Cfg) : world := MkWorld a (file w).
Definition set_file (w : world) (f : fileState) : world := MkWorld (api w) f.

(** ** The control client *)

(** [tls]: whether the session's credentials load. *)
Definition NewControlClient (session : SessionInfo) (tls : bool) : option cmdErr :=
  if bool_decide (ControlPort session = []) then Some NoControlPort
  else if tls then None else Some NoCredentials.

Definition postAllow (net : transport) (w : world) (path : gostring) (entries : list gostring) :
    world * result cmdErr (list gostring) :=
  match net with
  | Unreachable => (w, Err PostFailed)
  | _ =>
      let '(a, r) := serve decode (api w) (MkApiRequest (gs "POST") path [] (marshal entries)) in
      let w' := set_api w a in
      match net with
      | Answered =>
          (w', match r with RAdded added => Ok added | _ => Err BadStatus end)
      | _ => (w', Err PostFailed)
      end
  end.

(** [get] of a path and its query; the state of the proxy does not change. *)
Definition get (net : transport) (w : world) (path query : gostring) : result cmdErr (response Cfg) :=
  match net with
  | Answered => Ok (serve decode (api w) (MkApiRequest (gs "GET") path query (marshal []))).2
  | _ => Err GetFailed
  end.

(** A value of another kind is an error status or does not decode. *)
Definition decodeAs {A} (f : response Cfg → option A) (r : result cmdErr (response Cfg)) : result cmdErr A :=
  match r with
  | Ok r => match f r with Some a => Ok a | None => Err BadStatus end
  | Err e => Err e
  end.

Definition asLogs (r : response Cfg) := match r with RLogs es => Some es | _ => None end.
Definition asStats (r : response Cfg) := match r with RStats st => Some st | _ => None end.
Definition asConfig (r : response Cfg) := match r with RConfig c => Some c | _ => None end.

Definition getLogs (net : transport) (w : world) := decodeAs asLogs (get net w (gs "/logs") []).
Definition getLogsAfter (net : transport) (w : world) (afterID : Z) :=
  decodeAs asLogs (get net w (gs "/logs") (Itoa afterID)).
Definition getStats (net : transport) (w : world) := decodeAs asStats (get net w (gs "/stats") []).
Definition getConfig (net : transport) (w : world) := decodeAs asConfig (get net w (gs "/config") []).

(** ** Saving ([config/setup.go]: [AppendAllowHTTP], [AppendAllowDNS]) *)

(** [write]: [None] when the file is written, otherwise what a failed write
    leaves of it.  The file can change between the load and the read only by
    another program, which is not modelled. *)
Definition appendAllow (key : gostring) (current : ProjectConfig → list gostring) (f : fileState)
    (entries : list gostring) (write : option fileState) : fileState * option saveErr :=
  match loadFile parseProject zeroProject f with
  | None => (f, Some LoadConfig)
  | Some cfg =>
      let added := dedupFrom (list_to_set (current cfg)) entries in
      if bool_decide (added = []) then (f, None)
      else match f with
           | Contents data =>
               match appendYAMLListEntries Quote unmarshal SetString encode data key added with
               | Err e => (f, Some (EditConfig e))
               | Ok out => match write with
                           | None => (Contents out, None)
                           | Some torn => (torn, Some WriteConfig)
                           end
               end
           | _ => (f, Some ReadConfig)
           end
  end.

Definition AppendAllowHTTP := appendAllow (gs "allow-http") pAllowHTTP.
Definition AppendAllowDNS := appendAllow (gs "allow-dns") pAllowDNS.

(** ** The commands *)

(** What the host decides while a command runs. *)
Record hostRun := MkRun {
  session : option SessionInfo;  (* [discoverSession] *)
  tls : bool;
  net : transport;
  noSave : bool;
  write : option fileState;
}.

(** The body both commands share; [None] as entries to show is the help text. *)
Definition allowAction (validate : list gostring → option entryErr) (path : gostring)
    (append : fileState → list gostring → option fileState → fileState * option saveErr)
    (h : hostRun) (entries : list gostring) (w : world) : world * list status * option cmdErr :=
  if bool_decide (entries = []) then (w, [], None) else
  match validate entries with
  | Some e => (w, [], Some (Invalid e))
  | None =>
      match session h with
      | None => (w, [], Some NoProxy)
      | Some si =>
          match NewControlClient si (tls h) with
          | Some e => (w, [], Some e)
          | None =>
              match postAllow (net h) w path entries with
              | (w1, Err e) => (w1, [], Some e)
              | (w1, Ok added) =>
                  let out := Allowed <$> added in
                  if noSave h then (w1, out, None)
                  else match append (file w1) entries (write h) with
                       | (f, Some e) => (set_file w1 f, out, Some (SaveFailed e))
                       | (f, None) => (set_file w1 f, out ++ [Saved (DefaultProjectPath (sProjectDir si))], None)
                       end
              end
          end
      end
  end.

Definition AllowHTTPCommand := allowAction ValidateHTTPEntries (gs "/allow-http") AppendAllowHTTP.
Definition AllowDNSCommand := allowAction ValidateDNSEntries (gs "/allow-dns") AppendAllowDNS.

(** ** Properties *)

(** Reading through the client gives what the proxy has: every entry after the
    given identifier, the counters and the configuration. *)
Lemma client_reads w afterID :
  (0 ≤ afterID < 2 ^ 64)%Z →
  getLogsAfter Answered w afterID = Ok (EntriesAfter (log (api w)) afterID) ∧
  getLogs Answered w = Ok (EntriesAfter (log (api w)) 0) ∧
  getStats Answered w = Ok (Stats (log (api w))) ∧ getConfig Answered w = Ok (config (api w)).
Proof.
  intros Ha. split_and!; [|reflexivity..].
  change (getLogsAfter Answered w afterID) with
    (@Ok cmdErr _ (EntriesAfter (log (api w))
       (if bool_decide (Itoa afterID = []) then 0%Z else (ParseUint (Itoa afterID) 64).1))).
  pose proof (ParseUint_Itoa afterID 64 Ha) as Hp. case_bool_decide as He.
  - rewrite He in Hp. discriminate Hp.
  - by rewrite Hp.
Qed.

(** The two commands side by side. *)
Inductive kind := HTTP | DNS.

Definition validate (k : kind) := match k with HTTP => ValidateHTTPEntries | DNS => ValidateDNSEntries end.
Definition key (k : kind) := match k with HTTP => gs "allow-http" | DNS => gs "allow-dns" end.
Definition current (k : kind) := match k with HTTP => pAllowHTTP | DNS => pAllowDNS end.
Definition command (k : kind) := match k with HTTP => AllowHTTPCommand | DNS => AllowDNSCommand end.

(** The proxy with the rules of the entries added after those it has. *)
Definition extended (k : kind) (a : ControlAPI Cfg) (entries : list gostring) : ControlAPI Cfg :=
  match k with
  | HTTP => MkControlAPI (log a) (config a) (httpAllowlist a ++ (parseHTTPRule <$> entries)) (dnsAllowlist a)
  | DNS => MkControlAPI (log a) (config a) (httpAllowlist a) (dnsAllowlist a ++ (parseDNSRule <$> entries))
  end.

(** What saving entries makes of the file. *)
Definition saved (k : kind) (old : fileState) (entries : list gostring) (new : fileState) : Prop :=
  ∃ cfg, loadFile parseProject zeroProject old = Some cfg ∧
    ((∀ e, e ∈ entries → e ∈ current k cfg) ∧ new = old ∨
     ∃ data added out, old = Contents data ∧ new = Contents out ∧
       edited Quote unmarshal SetString encode data (key k) added out ∧ added ≠ [] ∧ NoDup added ∧
       ∀ e, e ∈ added ↔ e ∈ entries ∧ e ∉ current k cfg).

(** The proxy accepts whatever the command validated. *)
Lemma serve_accepts k a entries :
  decode (marshal entries) = Some entries → entries ≠ [] → validate k entries = None →
  serve decode a (MkApiRequest (gs "POST") (gs "/" ++ key k) [] (marshal entries)) =
    (extended k a entries, RAdded entries).
Proof.
  intros Hd Hne Hv. destruct k; cbn [validate key] in *.
  - change (serve decode a _) with (handleAllowHTTP decode a (marshal entries)).
    unfold handleAllowHTTP, decodeAllowRequest, HTTPAdd. by rewrite Hd, bool_decide_false, Hv.
  - change (serve decode a _) with (handleAllowDNS decode a (marshal entries)).
    unfold handleAllowDNS, decodeAllowRequest, DNSAdd. by rewrite Hd, bool_decide_false, Hv.
Qed.

Lemma appendAllow_spec k f entries wr f' err :
  appendAllow (key k) (current k) f entries wr = (f', err) →
  match err with
  | None => saved k f entries f'
  | Some WriteConfig => wr = Some f'
  | Some _ => f' = f
  end.
Proof.
  unfold appendAllow, saved. destruct (loadFile _ _ f) as [cfg|]; [|by intros [= <- <-]].
  destruct (dedupFrom_spec (list_to_set (current k cfg)) entries) as (H1 & H2 & _).
  set (added := dedupFrom _ entries) in *. clearbody added. case_bool_decide as Hne.
  - intros [= <- <-]. exists cfg. split; [done|]. left. split; [|done]. subst added.
    intros e He. destruct (decide (e ∈ current k cfg)) as [|Hn]; [done|].
    destruct (not_elem_of_nil e). apply H2. split; [done|]. by rewrite elem_of_list_to_set.
  - destruct f as [|data|]; [by intros [= <- <-]| |by intros [= <- <-]].
    destruct (appendYAMLListEntries _ _ _ _ data (key k) added) as [out|e] eqn:E; [|by intros [= <- <-]].
    destruct wr as [torn|]; intros [= <- <-]; [done|]. exists cfg. split; [done|]. right.
    exists data, added, out. split_and!; [done..|by eapply appendYAMLListEntries_edited|done|done|].
    intros e. rewrite H2. by rewrite elem_of_list_to_set.
Qed.

(** C27: a destination is allowed live before it is saved, and never only half.
    For arguments that survive JSON, the command either succeeds, and then the
    arguments are valid, the running proxy has exactly their rules added and,
    unless saving was declined, the file has one text item for each entry it did
    not have yet: after the line of the last item of the command's list and
    indented like it, or under its key, in place of its placeholder or in a new
    section, with every other byte as it was, or, for a list that cannot be edited
    in place, the encoding of the document in which only that list grew.  Or it
    fails, and then the file is as it was, except where writing it failed, and
    the proxy is as it was, except where only its answer or the saving was lost.
    The proxy never refuses what the command validated, and the entries reported
    as allowed are those asked for.  The items are texts, quoted only where they
    start with a star: that they read back as the entries is not claimed, and for
    an entry that starts with a hash sign they do not ([indicator_not_quoted] in
    [ProjectFile.v]). *)
Theorem allow_command_spec k h entries w w' out err :
  command k h entries w = (w', out, err) → decode (marshal entries) = Some entries →
  match err with
  | None =>
      entries = [] ∧ w' = w ∨
      validate k entries = None ∧ api w' = extended k (api w) entries ∧
      (∀ e, Allowed e ∈ out ↔ e ∈ entries) ∧
      (if noSave h then file w' = file w else saved k (file w) entries (file w'))
  | Some (SaveFailed e) =>
      validate k entries = None ∧ noSave h = false ∧ api w' = extended k (api w) entries ∧
      (file w' = file w ∨ e = WriteConfig ∧ write h = Some (file w'))
  | Some PostFailed =>
      validate k entries = None ∧ file w' = file w ∧
      (api w' = api w ∨ net h = AnswerLost ∧ api w' = extended k (api w) entries)
  | Some BadStatus | Some GetFailed => False
  | Some _ => w' = w
  end.
Proof.
  intros Hc Hd. set (append := match k with HTTP => AppendAllowHTTP | DNS => AppendAllowDNS end).
  assert (Hcmd : allowAction (validate k) (gs "/" ++ key k) append h entries w = (w', out, err)) by by destruct k.
  assert (Happ : append = appendAllow (key k) (current k)) by by destruct k.
  clearbody append. subst append. clear Hc. unfold allowAction in Hcmd.
  case_bool_decide as Hne; [simplify_eq; by left|].
  destruct (validate k entries) as [e|] eqn:Hv; [by simplify_eq|].
  destruct (session h) as [si|]; [|by simplify_eq].
  destruct (NewControlClient si (tls h)) as [e|] eqn:Hcl.
  { unfold NewControlClient in Hcl. repeat case_match; by simplify_eq. }
  unfold postAllow in Hcmd. rewrite (serve_accepts k) in Hcmd by done.
  destruct (net h); [simplify_eq; cbn; by auto..|]. cbn [set_api file] in Hcmd.
  assert (Hout : ∀ l e, (∀ x, Allowed x ∉ l) → Allowed e ∈ (Allowed <$> entries) ++ l ↔ e ∈ entries).
  { intros l e Hl. rewrite elem_of_app, list_elem_of_fmap. naive_solver. }
  destruct (noSave h); [simplify_eq; right; cbn; split_and!; [done..| |done]|].
  { intros e. rewrite <- (app_nil_r (Allowed <$> entries)). apply Hout. intros x. apply not_elem_of_nil. }
  destruct (appendAllow _ _ _ _ _) as [f [e|]] eqn:Ha; apply appendAllow_spec in Ha; simplify_eq; cbn.
  - split_and!; [done..|]. destruct e; by auto.
  - right. split_and!; [done..| |done]. intros e. apply Hout. intros x. by rewrite list_elem_of_singleton.
Qed.
End allow.

(** A run on the template of a new project. *)
Definition demo_world : world (Cfg := unit) :=
  MkWorld (MkControlAPI (NewLogBuffer 4) tt [] []) (Contents (writeProjectConfig (λ v, v) [gs "default"])).

Definition demo_run : hostRun :=
  MkRun (Some (MkSessionInfo (gs "7001") (gs "s1") (gs "/p"))) true Answered false None.

Lemma surjective_pairing3 {A B C} (x : A * B * C) : x = (x.1.1, x.1.2, x.2).
Proof. by destruct x as [[? ?] ?]. Qed.

Lemma allow_command_spec_witness :
  let run := command (H := ascii_only) Some (λ b, b) (λ _, Some (MkProject [gs "default"] [] [] []))
               (λ v, v) (λ _, Some []) (λ n _, n) (λ _ _, None) HTTP demo_run [gs "a.com:443"] demo_world in
  run.2 = None ∧
  api run.1.1 = extended (H := ascii_only) HTTP (api demo_world) [gs "a.com:443"] ∧
  saved (λ _, Some (MkProject [gs "default"] [] [] [])) (λ v, v) (λ _, Some []) (λ n _, n) (λ _ _, None) HTTP
    (file demo_world) [gs "a.com:443"] (file run.1.1).
Proof.
  intros run.
  pose proof (allow_command_spec (H := ascii_only) Some (λ b, b) (λ _, Some (MkProject [gs "default"] [] [] []))
    (λ v, v) (λ _, Some []) (λ n _, n) (λ _ _, None) HTTP demo_run [gs "a.com:443"] demo_world run.1.1 run.1.2 run.2 (surjective_pairing3 run) eq_refl) as Ht.
  assert (Hn : run.2 = None) by (vm_compute; reflexivity). rewrite Hn in Ht.
  destruct Ht as [[He _]|(_ & Ha & _ & Hs)].
  - discriminate He.
  - split; [exact Hn|]. split; [exact Ha|exact Hs].
Defined.
