(* ===== verification/Caches.v ===== *)
(** * Caches of verified images and of the proxy binary ([cosign/image.go],
    [embed/proxy/proxy.go])

    The digest of an image whose signature was verified is appended to a file,
    one per line, and a digest that is found there is not verified again.  The
    Sigstore libraries are parameters: whether a reference parses, and whether
    the trusted root can be fetched and the signature verified at the time of a
    call. *)

From S2P Require Import Prelude GoStrings.
Open Scope nat_scope.

Definition LF : ascii := "010"%char.
Definition CR : ascii := "013"%char.

(** ** Reading the file by lines *)

(** [bufio.MaxScanTokenSize]: a scanner gives up on a line that does not fit. *)
Definition maxScanToken : nat := Z.to_nat 65536.

Definition dropCR (line : gostring) : gostring :=
  match last line with
  | Some c => if bool_decide (c = CR) then take (length line - 1) line else line
  | None => line
  end.

(** The pieces between newlines; what follows the last newline is a line only
    when it is not empty. *)
Fixpoint dropLastEmpty (ls : list gostring) : list gostring :=
  match ls with
  | [] | [[]] => []
  | l :: ls => l :: dropLastEmpty ls
  end.

Fixpoint scanShort (ls : list gostring) : list gostring :=
  match ls with
  | [] => []
  | l :: ls => if length l <? maxScanToken then dropCR l :: scanShort ls else []
  end%nat.

(** The lines [bufio.Scanner] returns. *)
Definition scanLines (data : gostring) : list gostring := scanShort (dropLastEmpty (Split data LF)).

(** ** The digest cache *)

(** The content of the cache file, [None] when there is none. *)
Abbreviation cache := (option gostring).

Definition isDigestVerified (c : cache) (digestRef : gostring) : bool :=
  match c with
  | None => false
  | Some data => existsb (λ line, bool_decide (TrimSpace line = digestRef)) (scanLines data)
  end.

(** [ok]: whether the directory and the file can be opened for appending. *)
Definition cacheVerifiedDigest (ok : bool) (c : cache) (digestRef : gostring) : cache :=
  if ok then Some (default [] c ++ digestRef ++ [LF]) else c.

(** Who is to have signed: the repository's workflow, or Google's keyless
    identity for the distroless image. *)
Inductive identity := VibepitWorkflow | DistrolessKeyless.

(** What the world answers during one call. *)
Record answers := MkAnswers { trustedRoot : bool; signature : identity → gostring → bool; writable : bool }.

Inductive verifyErr := ParseRef | FetchRoot | VerificationFailed.

Section verify.
Context (ParseReference : gostring → bool).

Definition verifyAs (id : identity) (env : answers) (c : cache) (imageRef : gostring) :
    cache * option verifyErr :=
  if isDigestVerified c imageRef then (c, None)
  else if negb (ParseReference imageRef) then (c, Some ParseRef)
  else if negb (trustedRoot env) then (c, Some FetchRoot)
  else if negb (signature env id imageRef) then (c, Some VerificationFailed)
  else (cacheVerifiedDigest (writable env) c imageRef, None).

Definition VerifyImage := verifyAs VibepitWorkflow.
Definition VerifyProxyImage := verifyAs DistrolessKeyless.

(** Calls in order, by any number of commands that share the file. *)
Record call := MkCall { who : identity; ref : gostring; env : answers }.

Fixpoint runCalls (c : cache) (calls : list call) : cache * list (call * option verifyErr) :=
  match calls with
  | [] => (c, [])
  | k :: calls =>
      let '(c1, e) := verifyAs (who k) (env k) c (ref k) in
      let '(c2, out) := runCalls c1 calls in
      (c2, (k, e) :: out)
  end.

(** ** Properties *)

(** References have no white space and fit on a scanner's line. *)
Definition plain (r : gostring) : Prop :=
  TrimSpace r = r ∧ LF ∉ r ∧ CR ∉ r ∧ r ≠ [] ∧ length r < maxScanToken.

Lemma dropCR_plain r : CR ∉ r → dropCR r = r.
Proof.
  unfold dropCR. intros Hn. destruct (last r) as [x|] eqn:E; [|done].
  case_bool_decide as Hx; [|done]. subst x. destruct Hn.
  apply last_Some in E as [l ->]. set_solver.
Qed.

Lemma Split_lines rs s :
  Forall plain rs → Split (concat ((λ r, r ++ [LF]) <$> rs) ++ s) LF = rs ++ Split s LF.
Proof.
  induction 1 as [|r rs (_ & Hl & _) _ IH]; [done|]. cbn. rewrite <- !app_assoc. cbn.
  by rewrite Split_app_sep, IH.
Qed.

(** A file that holds plain references reads back as them. *)
Lemma scanLines_plain rs :
  Forall plain rs → scanLines (concat ((λ r, r ++ [LF]) <$> rs)) = rs.
Proof.
  intros Hrs. unfold scanLines. rewrite <- (app_nil_r (concat _)), Split_lines by done. cbn.
  assert (Hd : dropLastEmpty (rs ++ [[]]) = rs).
  { clear Hrs. induction rs as [|[|x r] rs IH]; cbn; [done| |by rewrite IH].
    destruct rs as [|r' rs]; [done|]. by rewrite IH. }
  rewrite Hd. clear Hd. induction Hrs as [|r rs (_ & _ & Hc & _ & Hlen) _ IH]; [done|]. cbn [scanShort].
  rewrite (proj2 (Nat.ltb_lt _ _) Hlen). f_equal; [by apply dropCR_plain|done].
Qed.

(** The cache file after the references [rs] were appended in order. *)
Definition holds (c : cache) (rs : list gostring) : Prop :=
  Forall plain rs ∧ default [] c = concat ((λ r, r ++ [LF]) <$> rs).

Lemma isDigestVerified_holds c rs r : holds c rs → isDigestVerified c r = true ↔ r ∈ rs.
Proof.
  intros [Hp Hc]. unfold isDigestVerified. destruct c as [data|]; cbn in Hc.
  - subst data. rewrite scanLines_plain, existsb_elem by done. setoid_rewrite bool_decide_eq_true.
    rewrite Forall_forall in Hp. split.
    + intros (l & Hl & <-). by rewrite (proj1 (Hp l Hl)).
    + intros Hr. exists r. split; [done|]. apply (Hp r Hr).
  - destruct rs as [|r' rs]; [set_solver|]. cbn in Hc. apply Forall_cons in Hp as [(_ & _ & _ & Hne & _) _].
    by destruct r'.
Qed.

Lemma holds_append c rs r : plain r → holds c rs → holds (cacheVerifiedDigest true c r) (rs ++ [r]).
Proof.
  intros Hr [Hp Hc]. split; [by apply Forall_app; auto|]. cbn.
  rewrite fmap_app, concat_app, Hc. cbn. by rewrite app_nil_r.
Qed.

Context (parse_plain : ∀ r, ParseReference r = true → plain r).

(** The signature of the reference was checked in this very call. *)
Definition checked (k : call) : Prop :=
  ParseReference (ref k) = true ∧ trustedRoot (env k) = true ∧ signature (env k) (who k) (ref k) = true.

Lemma verifyAs_spec c rs k :
  holds c rs →
  let '(c', e) := verifyAs (who k) (env k) c (ref k) in
  ∃ new, holds c' (rs ++ new) ∧ (new = [] ∨ new = [ref k] ∧ e = None ∧ checked k) ∧
    match e with
    | None => (ref k ∈ rs ∨ checked k) ∧ (writable (env k) = true → ref k ∈ rs ++ new)
    | Some _ => ref k ∉ rs ∧ ¬ checked k
    end.
Proof.
  intros Hh. pose proof (isDigestVerified_holds c rs (ref k) Hh) as Hv. unfold verifyAs, checked.
  destruct (isDigestVerified c (ref k)).
  { exists []. rewrite app_nil_r. split_and!; [done|by left|left; by apply Hv|]. intros. by apply Hv. }
  assert (Hn : ref k ∉ rs) by (rewrite <- Hv; discriminate).
  destruct (ParseReference (ref k)) eqn:Hp, (trustedRoot (env k)), (signature (env k) (who k) (ref k));
    cbn; try (exists []; rewrite app_nil_r; split_and!; [done|by left|done|naive_solver]).
  destruct (writable (env k)).
  - exists [ref k]. split_and!; [apply holds_append; auto|by right|by right|].
    intros _. apply elem_of_app. right. apply list_elem_of_here.
  - exists []. rewrite app_nil_r. split_and!; [done|by left|by right|done].
Qed.

Lemma runCalls_known c rs calls j k e :
  holds c rs → (runCalls c calls).2 !! j = Some (k, e) → ref k ∈ rs → e = None.
Proof.
  revert c rs j. induction calls as [|k0 calls IH]; intros c rs j Hh; [done|]. cbn.
  pose proof (verifyAs_spec c rs k0 Hh) as Hs. destruct (verifyAs _ _ _ _) as [c1 e0].
  destruct Hs as (new & Hh' & _ & Hres). specialize (IH c1 (rs ++ new)).
  destruct (runCalls c1 calls) as [c2 out]. cbn in *. destruct j as [|j]; cbn.
  - intros [= <- <-] Hin. destruct e0; [|done]. by destruct Hres.
  - intros Hj Hin. apply (IH j); [done..|]. apply elem_of_app. by left.
Qed.

Lemma runCalls_sound c rs calls n k :
  holds c rs → let out := (runCalls c calls).2 in out !! n = Some (k, None) →
  (ref k ∈ rs ∨ ∃ m k', m ≤ n ∧ out !! m = Some (k', None) ∧ ref k' = ref k ∧ checked k') ∧
  (writable (env k) = true → ∀ j k2 e, n < j → out !! j = Some (k2, e) → ref k2 = ref k → e = None).
Proof.
  revert c rs n. induction calls as [|k0 calls IH]; intros c rs n Hh; [done|]. cbn.
  pose proof (verifyAs_spec c rs k0 Hh) as Hs. destruct (verifyAs _ _ _ _) as [c1 e0].
  destruct Hs as (new & Hh' & Hnew & Hres).
  pose proof (λ n, IH c1 (rs ++ new) n Hh') as IH'. pose proof (λ j, runCalls_known c1 (rs ++ new) calls j) as Hk.
  destruct (runCalls c1 calls) as [c2 out]. cbn in *. destruct n as [|n]; cbn.
  - intros [= <- ->]. destruct Hres as [Hr Hw]. split.
    + destruct Hr as [Hr|Hr]; [by left|]. right. by exists 0, k0.
    + intros Hwr j k2 e Hj Hl He. destruct j as [|j]; [lia|]. apply (Hk j k2 e Hh' Hl). rewrite He. auto.
  - intros Hn. destruct (IH' n Hn) as [Hs Hw]. split.
    + destruct Hs as [[Hs|Hs]%elem_of_app|(m & k' & Hm & Hl & Hr & Hc)]; [by left|right..].
      * destruct Hnew as [->|(-> & -> & Hc)]; [by apply not_elem_of_nil in Hs|].
        apply list_elem_of_singleton in Hs. exists 0, k0. split_and!; [lia|done|done|done].
      * exists (S m), k'. split_and!; [lia|done..].
    + intros Hwr j k2 e Hj Hl. destruct j as [|j]; [lia|]. apply (Hw Hwr j). lia. done.
Qed.

(** A cached digest was verified.  Whatever commands verify images, one
    after the other and starting without a cache, a reference is accepted only
    when it parses and its signature was verified in that call or in an earlier
    one; and once a call has accepted it with a writable cache, every later one
    accepts it without asking the network again.  (The earlier call may have
    asked for the other signer.) *)
Theorem verified_once calls n k :
  let out := (runCalls None calls).2 in
  out !! n = Some (k, None) →
  (∃ m k', m ≤ n ∧ out !! m = Some (k', None) ∧ ref k' = ref k ∧ checked k') ∧
  (writable (env k) = true → ∀ j k2 e, n < j → out !! j = Some (k2, e) → ref k2 = ref k → e = None).
Proof.
  intros out Hn. assert (Hh : holds None []) by by split.
  destruct (runCalls_sound None [] calls n k Hh Hn) as [[H|H] Hw]; [by apply not_elem_of_nil in H|done].
Qed.
End verify.

(** A parser for the example: plain references without a separator. *)
Definition demo_parse (r : gostring) : bool :=
  bool_decide (TrimSpace r = r) && bool_decide (LF ∉ r) && bool_decide (CR ∉ r) && bool_decide (r ≠ []) &&
  (length r <? 100)%nat.

Lemma demo_parse_plain r : demo_parse r = true → plain r.
Proof.
  unfold demo_parse. intros H. breflect. split_and!; try done.
  unfold maxScanToken. lia.
Qed.

(** The first call verifies the digest; the second has no network. *)
Definition demo_calls : list call :=
  [MkCall VibepitWorkflow (gs "img@sha256:ab") (MkAnswers true (λ _ _, true) true);
   MkCall VibepitWorkflow (gs "img@sha256:ab") (MkAnswers false (λ _ _, false) false)].

Lemma verified_once_witness :
  ∃ k e, (runCalls demo_parse None demo_calls).2 !! 1 = Some (k, e) ∧ ref k = gs "img@sha256:ab" ∧ e = None.
Proof.
  destruct ((runCalls demo_parse None demo_calls).2 !! 1) as [[k e]|] eqn:E;
    [|vm_compute in E; discriminate E].
  exists k, e. split; [reflexivity|].
  assert (Hr : ref k = gs "img@sha256:ab") by (vm_compute in E; injection E as <- _; reflexivity).
  split; [exact Hr|].
  destruct (verified_once demo_parse demo_parse_plain demo_calls 0
              (MkCall VibepitWorkflow (gs "img@sha256:ab") (MkAnswers true (λ _ _, true) true)))
    as [_ Hlater]; [vm_compute; reflexivity|].
  exact (Hlater eq_refl 1 k e ltac:(lia) E Hr).
Defined.

(** ** The embedded proxy binary ([cachedBinary])

    [hash] is the hexadecimal form of the first six bytes of the SHA-256 of the
    data; the file system maps paths to contents. *)
Section binary.
Context (hash : gostring → gostring).

Inductive binaryErr := NoEmbeddedBinary | CreateDir | WriteBinary.

(** [write]: [None] when the file is written, otherwise what the failed write
    leaves ([None] when it did not even create the file). *)
Definition cachedBinary (data dir : gostring) (mkdirOk : bool) (write : option (option gostring))
    (fs : gmap gostring gostring) : gmap gostring gostring * result binaryErr gostring :=
  let path := pathJoin dir (gs "vibepit-" ++ hash data) in
  match fs !! path with
  | Some _ => (fs, Ok path)
  | None =>
      if negb mkdirOk then (fs, Err CreateDir)
      else match write with
           | None => (<[path := data]> fs, Ok path)
           | Some (Some torn) => (<[path := torn]> fs, Err WriteBinary)
           | Some None => (fs, Err WriteBinary)
           end
  end.

Definition CachedProxyBinary (embedded : option gostring) (cacheHome : gostring) (mkdirOk : bool)
    (write : option (option gostring)) (fs : gmap gostring gostring) :
    gmap gostring gostring * result binaryErr gostring :=
  match embedded with
  | None => (fs, Err NoEmbeddedBinary)
  | Some data => cachedBinary data (pathJoin (pathJoin cacheHome (gs "vibepit")) (gs "bin")) mkdirOk write fs
  end.

(** A returned path holds the embedded binary when it was just written, or when
    the file that was there did. *)
Lemma cachedBinary_spec data dir mkdirOk write fs fs' path :
  cachedBinary data dir mkdirOk write fs = (fs', Ok path) →
  match fs !! path with
  | Some old => fs' = fs ∧ fs' !! path = Some old
  | None => fs' !! path = Some data
  end.
Proof.
  unfold cachedBinary. generalize (pathJoin dir (gs "vibepit-" ++ hash data)). intros p.
  destruct (fs !! p) as [old|] eqn:E.
  - intros [= <- <-]. by rewrite E.
  - destruct mkdirOk; [|done]. destruct write as [[torn|]|]; [done..|].
    intros [= <- <-]. by rewrite E, lookup_insert_eq.
Qed.

(** Only the name is checked: after a write that failed half-way, every later
    call returns the torn file. *)
Lemma torn_binary_is_reused data dir torn fs :
  let path := pathJoin dir (gs "vibepit-" ++ hash data) in
  fs !! path = None →
  let fs1 := (cachedBinary data dir true (Some (Some torn)) fs).1 in
  cachedBinary data dir true None fs1 = (fs1, Ok path) ∧ fs1 !! path = Some torn.
Proof.
  intros path Hp fs1.
  assert (Hfs : fs1 = <[path := torn]> fs) by (unfold fs1, cachedBinary; fold path; by rewrite Hp).
  rewrite Hfs. unfold cachedBinary. fold path. by rewrite lookup_insert_eq.
Qed.
End binary.
