(* ===== verification/Releases.v ===== *)
(** * Release metadata ([selfupdate/version.go], [selfupdate/releases.go],
    [selfupdate/changelog.go])

    Versions are compared by the semver library, which is the class [Semver];
    bodies are decoded by the JSON library.  The network is a function from URLs
    to responses. *)

From stdpp Require Import sorting.
From S2P Require Import Prelude GoStrings.
Open Scope go_scope.
Open Scope Z_scope.

(** [golang.org/x/mod/semver] on strings with the [v] prefix: an ordering of all
    strings by precedence. *)
Class Semver := {
  IsValid : gostring → bool;
  Canonical : gostring → gostring;
  Prerelease : gostring → gostring;
  Compare : gostring → gostring → Z;
  Compare_sym a b : Compare a b = - Compare b a;
  Compare_trans a b c : Compare a b ≤ 0 → Compare b c ≤ 0 → Compare a c ≤ 0;
}.

(** ** Versions *)

Definition addV (version : gostring) : gostring := gs "v" ++ version.

Definition is_hex (c : ascii) : bool := is_digit c || (0x61 <=? b2z c) && (b2z c <=? 0x66).

(** The longest prefix of bytes satisfying [f], and the rest. *)
Fixpoint span (f : ascii → bool) (s : gostring) : gostring * gostring :=
  match s with
  | c :: s' => if f c then let '(a, b) := span f s' in (c :: a, b) else ([], s)
  | [] => ([], [])
  end.

(** The regular expression [-\d+-g[0-9a-f]+$], read from the end: neither [g]
    nor the dashes belong to the runs next to them, so the runs are maximal. *)
Definition gitDescribeSuffix (version : gostring) : bool :=
  let '(hex, r) := span is_hex (reverse version) in
  match hex, r with
  | _ :: _, g :: d :: r' =>
      bool_decide (g = "g"%char) && bool_decide (d = "-"%char) &&
      match span is_digit r' with
      | (_ :: _, d' :: _) => bool_decide (d' = "-"%char)
      | _ => false
      end
  | _, _ => false
  end.

Section releases.
Context `{Semver}.

Definition IsDevBuild (version : gostring) : bool :=
  let v := addV version in
  negb (IsValid v) || negb (bool_decide (v = Canonical v)) || gitDescribeSuffix version.

Definition IsPrerelease (version : gostring) : bool :=
  let v := addV version in IsValid v && negb (bool_decide (Prerelease v = [])).

Definition ShouldUpdate (current latest : gostring) (crossChannel : bool) : bool :=
  if IsDevBuild current || crossChannel then true else Compare (addV current) (addV latest) <? 0.

(** ** The channel index *)

Record ReleaseEntry := MkRelease { Version : gostring; Timestamp : gostring }.
Record ChannelIndex := MkIndex { Latest : gostring; Releases : list ReleaseEntry }.
Record ChangelogEntry := MkChange { Msg : gostring; PR : gostring; Issue : gostring }.
Record Asset := MkAsset {
  OS : gostring; Arch : gostring; URL : gostring; SHA256 : gostring; CosignBundleURL : gostring }.

(** [mChanges] is [None] for a nil map. *)
Record VersionMetadata := MkMeta {
  mVersion : gostring;
  mTimestamp : gostring;
  mChangelog : gostring;
  mChanges : option (gmap gostring (list ChangelogEntry));
  mAssets : list Asset;
}.

Inductive updErr :=
  | NoAsset | FetchFailed | HTTPStatus (code : Z) | VersionNotFound | ParseFailed
  | NoPrerelease | NoReleases
  | Managed (manager : gostring) | NoPermission | TooLarge | WriteFailed | ReadFailed
  | OpenFailed | ChecksumMismatch | NoBundle | CosignFailed | BadArchive | PathTraversal | BinaryMissing
  | ReplaceFailed | ResolveFailed | FlagsConflict | BothFailed (bin images : updErr) | ImagesFailed.

Definition FindAsset (m : VersionMetadata) (os arch : gostring) : result updErr Asset :=
  match list_find (λ a, OS a = os ∧ Arch a = arch) (mAssets m) with
  | Some (_, a) => Ok a
  | None => Err NoAsset
  end.

Definition newer_first (a b : ReleaseEntry) : Prop :=
  Compare (addV (Version b)) (addV (Version a)) ≤ 0.
#[global] Instance newer_first_dec : RelDecision newer_first := λ a b, decide (_ ≤ _).

Definition inRange (current target : gostring) (r : ReleaseEntry) : Prop :=
  Compare (addV current) (addV (Version r)) < 0 ∧ Compare (addV (Version r)) (addV target) ≤ 0.
#[global] Instance inRange_dec current target r : Decision (inRange current target r).
Proof. unfold inRange. apply _. Defined.

(** [sort.Slice] leaves the order of equal versions open. *)
Definition ReleasesBetween (idx : ChannelIndex) (current target : gostring) : list ReleaseEntry :=
  merge_sort newer_first (filter (inRange current target) (Releases idx)).

Definition ChannelStable : gostring := gs "stable".
Definition ChannelPrerelease : gostring := gs "prerelease".

Definition OtherChannel (channel : gostring) : gostring :=
  if bool_decide (channel = ChannelPrerelease) then ChannelStable else ChannelPrerelease.

(** Entries in order, without those whose version was seen. *)
Fixpoint dedupReleases (seen : gset gostring) (rs : list ReleaseEntry) : list ReleaseEntry :=
  match rs with
  | [] => []
  | r :: rs' => if bool_decide (Version r ∈ seen) then dedupReleases seen rs'
                else r :: dedupReleases ({[ Version r ]} ∪ seen) rs'
  end.

Definition CombineReleases (a b : option ChannelIndex) : list ReleaseEntry :=
  dedupReleases ∅ (from_option Releases [] a ++ from_option Releases [] b).

(** ** Fetching *)

Record httpResponse := MkResponse {
  StatusCode : Z;
  ContentLength : gostring;
  chunks : list gostring;       (* what successive reads of the body return *)
  bodyFails : bool;             (* whether the body ends in an error *)
}.

Context (Get : gostring → option httpResponse).
Context (decodeIndex : gostring → option ChannelIndex).
Context (decodeMeta : gostring → option VersionMetadata).

Definition baseURL : gostring := gs "https://vibepit.dev/releases".
Definition docURL (name : gostring) : gostring := baseURL ++ gs "/" ++ name ++ gs ".json".

(** [io.ReadAll] of at most one megabyte. *)
Definition readDoc (r : httpResponse) : result updErr gostring :=
  let body := concat (chunks r) in
  if bodyFails r && (Z.of_nat (length body) <? 2 ^ 20) then Err ReadFailed
  else Ok (take (Z.to_nat (2 ^ 20)) body).

(** [Ok None]: not found. *)
Definition FetchChannelIndex (channel : gostring) : result updErr (option ChannelIndex) :=
  match Get (docURL channel) with
  | None => Err FetchFailed
  | Some r =>
      if StatusCode r =? 404 then Ok None
      else if negb (StatusCode r =? 200) then Err (HTTPStatus (StatusCode r))
      else let? body := readDoc r in
           match decodeIndex body with Some idx => Ok (Some idx) | None => Err ParseFailed end
  end.

Definition FetchVersionMetadata (version : gostring) : result updErr VersionMetadata :=
  match Get (docURL version) with
  | None => Err FetchFailed
  | Some r =>
      if StatusCode r =? 404 then Err VersionNotFound
      else if negb (StatusCode r =? 200) then Err (HTTPStatus (StatusCode r))
      else let? body := readDoc r in
           match decodeMeta body with Some m => Ok m | None => Err ParseFailed end
  end.

Definition ResolveChannel (preferPre : bool) : result updErr (ChannelIndex * gostring) :=
  if preferPre then
    let? o := FetchChannelIndex ChannelPrerelease in
    match o with Some idx => Ok (idx, ChannelPrerelease) | None => Err NoPrerelease end
  else
    let? o := FetchChannelIndex ChannelStable in
    match o with
    | Some idx => Ok (idx, ChannelStable)
    | None =>
        let? o := FetchChannelIndex ChannelPrerelease in
        match o with Some idx => Ok (idx, ChannelPrerelease) | None => Err NoReleases end
    end.

(** ** Changelogs *)

Definition repoURL : gostring := gs "https://github.com/bernd/vibepit".
Definition changelogCategories : list gostring :=
  gs <$> ["added"; "changed"; "fixed"; "deprecated"; "removed"; "security"]%string.

Definition refSuffix (e : ChangelogEntry) : gostring :=
  let link kind n := gs "[#" ++ n ++ gs "](" ++ repoURL ++ gs kind ++ n ++ gs ")" in
  let refs := (if bool_decide (PR e = []) then [] else [link "/pull/"%string (PR e)]) ++
              (if bool_decide (Issue e = []) then [] else [link "/issues/"%string (Issue e)]) in
  if bool_decide (refs = []) then [] else gs " (" ++ Join refs (gs ", ") ++ gs ")".

Definition formatEntry (e : ChangelogEntry) : gostring := gs "- " ++ Msg e ++ refSuffix e.

(** [strings.ToUpper] of the first byte, a lower-case ASCII letter here. *)
Definition capitalizeCategory (s : gostring) : gostring :=
  match s with
  | [] => []
  | c :: s' => (if (0x61 <=? b2z c) && (b2z c <=? 0x7A) then z2b (b2z c - 32) else c) :: s'
  end.

Definition renderSections {E} (sections : gmap gostring (list E)) (line : E → gostring) : gostring :=
  Join (flat_map (λ cat,
          match default [] (sections !! cat) with
          | [] => []
          | es => ("010"%char :: capitalizeCategory cat ++ gs ":") :: (line <$> es)
          end) changelogCategories) ["010"%char].

Definition RenderChanges (changes : gmap gostring (list ChangelogEntry)) : gostring :=
  renderSections changes formatEntry.

Record MergedEntry := MkMerged { Entry : ChangelogEntry; EVersion : gostring }.

(** One release's changes appended to each category; Go's order over the map
    does not matter, the categories being separate. *)
Definition mergeOne (acc : gmap gostring (list MergedEntry)) (m : VersionMetadata) :
    gmap gostring (list MergedEntry) :=
  map_fold (λ cat es acc,
    if bool_decide (es = []) then acc
    else <[cat := default [] (acc !! cat) ++ ((λ e, MkMerged e (mVersion m)) <$> es)]> acc)
    acc (default ∅ (mChanges m)).

Definition MergeChanges (metas : list VersionMetadata) : gmap gostring (list MergedEntry) :=
  fold_left mergeOne metas ∅.

Definition RenderMerged (merged : gmap gostring (list MergedEntry)) : gostring :=
  renderSections merged (λ m, gs "- v" ++ EVersion m ++ gs ": " ++ Msg (Entry m) ++ refSuffix (Entry m)).

(** ** The changelog of an update ([cmd/update.go]) *)

(** The metadata of every release in range; [None] when one cannot be had or
    has no structured changes. *)
Fixpoint collectMetas (target : VersionMetadata) (rs : list ReleaseEntry) : option (list VersionMetadata) :=
  match rs with
  | [] => Some []
  | r :: rs' =>
      let vm := if bool_decide (Version r = mVersion target) then Ok target
                else FetchVersionMetadata (Version r) in
      match vm with
      | Err _ => None
      | Ok m => if bool_decide (mChanges m = None) then None
                else ms ← collectMetas target rs'; Some (m :: ms)
      end
  end.

Definition updateChangelog (idx : option ChannelIndex) (current : gostring) (meta : VersionMetadata) :
    gostring * bool :=
  match idx with
  | None => (mChangelog meta, false)
  | Some idx =>
      if IsDevBuild current then (mChangelog meta, false)
      else
        let rng := ReleasesBetween idx current (mVersion meta) in
        if (length rng <=? 1)%nat then (mChangelog meta, false)
        else match collectMetas meta rng with
             | None => (mChangelog meta, false)
             | Some metas => (RenderMerged (MergeChanges metas), true)
             end
  end.

Definition isCrossChannel (currentVersion targetChannel : gostring) : bool :=
  if IsDevBuild currentVersion then false
  else xorb (IsPrerelease currentVersion) (bool_decide (targetChannel = ChannelPrerelease)).

Definition enumerationIndex (idx : ChannelIndex) (channel : gostring) (crossChannel : bool) :
    option ChannelIndex :=
  if negb crossChannel then Some idx
  else match FetchChannelIndex (OtherChannel channel) with
       | Ok (Some other) => Some (MkIndex (Latest idx) (CombineReleases (Some idx) (Some other)))
       | _ => None
       end.

(** ** Properties *)

#[global] Instance newer_first_total : Total newer_first.
Proof. intros a b. unfold newer_first. rewrite (Compare_sym (addV (Version b))). lia. Qed.
#[global] Instance newer_first_trans : Transitive newer_first.
Proof. intros a b c Hab Hbc. unfold newer_first in *. by eapply Compare_trans. Qed.

Lemma ReleasesBetween_spec idx current target :
  StronglySorted newer_first (ReleasesBetween idx current target) ∧
  ∀ r, r ∈ ReleasesBetween idx current target ↔ r ∈ Releases idx ∧ inRange current target r.
Proof.
  unfold ReleasesBetween. split; [apply (StronglySorted_merge_sort _)|].
  intros r. rewrite (merge_sort_Permutation _), list_elem_of_filter. tauto.
Qed.

(** The entries of one category that a release contributes. *)
Definition tagged (cat : gostring) (m : VersionMetadata) : list MergedEntry :=
  (λ e, MkMerged e (mVersion m)) <$> default [] (default ∅ (mChanges m) !! cat).

Lemma mergeOne_lookup acc m cat :
  default [] (mergeOne acc m !! cat) = default [] (acc !! cat) ++ tagged cat m.
Proof.
  unfold mergeOne, tagged. generalize (default ∅ (mChanges m)). intros changes.
  refine (map_fold_weak_ind (λ r (cs : gmap gostring (list ChangelogEntry)),
            default [] (r !! cat) = default [] (acc !! cat) ++
              ((λ e, MkMerged e (mVersion m)) <$> default [] (cs !! cat))) _ _ _ _ changes).
  - by rewrite lookup_empty, app_nil_r.
  - intros c es cs r Hc IH. destruct (decide (c = cat)) as [->|Hne].
    + rewrite Hc in IH. cbn in IH. rewrite app_nil_r in IH. rewrite lookup_insert_eq. cbn [default from_option].
      case_bool_decide as He; [by subst; rewrite IH, app_nil_r|].
      rewrite lookup_insert_eq. cbn. by rewrite IH.
    + rewrite lookup_insert_ne by done. case_bool_decide; [done|]. by rewrite lookup_insert_ne.
Qed.

Lemma MergeChanges_lookup metas cat :
  default [] (MergeChanges metas !! cat) = metas ≫= tagged cat.
Proof.
  unfold MergeChanges. assert (Hgen : ∀ acc, default [] (fold_left mergeOne metas acc !! cat) =
                                 default [] (acc !! cat) ++ (metas ≫= tagged cat)).
  { induction metas as [|m ms IH]; intros acc; cbn; [by rewrite app_nil_r|].
    rewrite IH, mergeOne_lookup. by rewrite <- app_assoc. }
  by rewrite Hgen, lookup_empty.
Qed.

(** The metadata of a release: the target's own, or fetched. *)
Definition metaOf (target : VersionMetadata) (r : ReleaseEntry) (m : VersionMetadata) : Prop :=
  mChanges m ≠ None ∧
  (if decide (Version r = mVersion target) then m = target else FetchVersionMetadata (Version r) = Ok m).

Lemma collectMetas_spec target rs ms : collectMetas target rs = Some ms → Forall2 (metaOf target) rs ms.
Proof.
  revert ms. induction rs as [|r rs IH]; intros ms; cbn; [intros [= <-]; constructor|].
  assert (Hm : ∀ m, (if bool_decide (Version r = mVersion target) then Ok target
                     else FetchVersionMetadata (Version r)) = Ok m → mChanges m ≠ None → metaOf target r m).
  { intros m Hr Hc. split; [done|]. case_decide; case_bool_decide; congruence. }
  destruct (if bool_decide _ then _ else _) as [m|e]; [|done]. case_bool_decide; [done|].
  destruct (collectMetas target rs) as [ms'|]; [|done]. cbn. intros [= <-].
  constructor; [by apply Hm|by apply IH].
Qed.

(** A merged changelog is complete.  When the update shows one, every
    release of the index that is newer than the current version and not newer
    than the target is in it, newest first, none is missing, and each category
    lists the entries of those releases in that order, each marked with its
    version; otherwise the target's own text is shown. *)
Theorem changelog_complete idx current meta :
  match updateChangelog (Some idx) current meta with
  | (text, true) =>
      IsDevBuild current = false ∧
      ∃ rng metas, StronglySorted newer_first rng ∧
        (∀ r, r ∈ rng ↔ r ∈ Releases idx ∧ inRange current (mVersion meta) r) ∧
        Forall2 (metaOf meta) rng metas ∧
        text = RenderMerged (MergeChanges metas) ∧
        ∀ cat, default [] (MergeChanges metas !! cat) = metas ≫= tagged cat
  | (text, false) => text = mChangelog meta
  end.
Proof.
  unfold updateChangelog. destruct (IsDevBuild current) eqn:Hdev; [done|].
  destruct (_ <=? 1)%nat; [done|].
  destruct (collectMetas meta _) as [metas|] eqn:Hm; [|done]. split; [done|].
  destruct (ReleasesBetween_spec idx current (mVersion meta)) as [Hs Hin].
  eexists _, metas. split_and!; [exact Hs|exact Hin|by apply collectMetas_spec|done|].
  apply MergeChanges_lookup.
Qed.
End releases.

(** ** An example *)

(** Versions of equal length, ordered byte by byte. *)
Definition rank (s : gostring) : Z := fold_left (λ acc c, acc * 256 + b2z c) s 0.

#[local] Instance byte_semver : Semver.
Proof.
  refine {| IsValid := λ v, bool_decide (length v = 6%nat); Canonical := λ v, v; Prerelease := λ _, [];
            Compare := λ a b, Z.sgn (rank a - rank b) |}; intros; lia.
Defined.

Definition demo_meta (v msg : string) : VersionMetadata :=
  MkMeta (gs v) [] (gs "old text")
    (Some {[ gs "added" := [MkChange (gs msg) (gs "7") []] ]}) [].

Definition demo_index : ChannelIndex :=
  MkIndex (gs "0.3.0") ((λ v, MkRelease (gs v) []) <$> ["0.1.0"; "0.3.0"; "0.2.0"]%string).

Definition demo_get (url : gostring) : option httpResponse :=
  if bool_decide (url = docURL (gs "0.2.0")) then Some (MkResponse 200 [] [gs "0.2.0"] false) else None.

Definition demo_decode (body : gostring) : option VersionMetadata :=
  if bool_decide (body = gs "0.2.0") then Some (demo_meta "0.2.0" "two") else None.

Lemma changelog_complete_witness :
  let u := updateChangelog demo_get demo_decode (Some demo_index) (gs "0.1.0") (demo_meta "0.3.0" "three") in
  u.2 = true ∧
  ∃ rng metas, Forall2 (metaOf demo_get demo_decode (demo_meta "0.3.0" "three")) rng metas ∧
    (∀ r, r ∈ rng ↔ r ∈ Releases demo_index ∧ inRange (gs "0.1.0") (gs "0.3.0") r) ∧
    u.1 = RenderMerged (MergeChanges metas).
Proof.
  intros u. pose proof (changelog_complete demo_get (λ _, None) demo_decode demo_index (gs "0.1.0")
                          (demo_meta "0.3.0" "three")) as Hc. fold u in Hc.
  assert (Hu : u.2 = true) by (vm_compute; reflexivity). split; [exact Hu|].
  clearbody u. destruct u as [text merged]. cbn in Hu. subst merged.
  destruct Hc as (_ & rng & metas & _ & Hin & Hf & Ht & _).
  exists rng, metas. split; [exact Hf|]. split; [exact Hin|exact Ht].
Defined.
