(* ===== verification/SelfUpdate.v ===== *)
(** * Updating the binary ([cmd/update.go], [selfupdate/download.go],
    [selfupdate/verify.go], [selfupdate/replace.go],
    [selfupdate/packagemanager.go])

    The whole update over a file system of named files: the version is chosen,
    the archive downloaded next to the binary, its checksum and signature are
    verified, the binary is extracted and renamed over the old one.  Every call
    that can fail may fail. *)

From S2P Require Import Prelude GoStrings Releases.
Open Scope go_scope.
Open Scope Z_scope.

(** A file's content and permissions. *)
Notation file := (gostring * Z)%type (only parsing).
Notation filesystem := (gmap gostring (gostring * Z)) (only parsing).

(** ** Package managers *)

Definition packageManagerPrefixes : list (gostring * gostring) :=
  [(gs "/opt/homebrew/", gs "Homebrew"); (gs "/usr/local/Cellar/", gs "Homebrew");
   (gs "/home/linuxbrew/.linuxbrew/", gs "Homebrew"); (gs "/usr/bin/", gs "system package manager");
   (gs "/usr/sbin/", gs "system package manager"); (gs "/nix/store/", gs "Nix"); (gs "/snap/", gs "Snap")].

Definition DetectPackageManager (binaryPath : gostring) : option gostring :=
  snd ∘ snd <$> list_find (λ pm, HasPrefix binaryPath pm.1 = true) packageManagerPrefixes.

(** [io.LimitReader]: at most [n] bytes. *)
Fixpoint limited (n : Z) (data : gostring) : gostring :=
  match data with
  | [] => []
  | c :: data' => if n <=? 0 then [] else c :: limited (n - 1) data'
  end.

Lemma limited_take n data : limited n data = take (Z.to_nat n) data.
Proof.
  revert n. induction data as [|c data IH]; intros n; cbn [limited]; [by rewrite take_nil|].
  destruct (n <=? 0) eqn:Hn.
  - by replace (Z.to_nat n) with 0%nat by lia.
  - replace (Z.to_nat n) with (S (Z.to_nat (n - 1))) by lia. cbn. by rewrite IH.
Qed.

Definition maxArchiveSizeLimit : Z := 256 * 1024 * 1024.

Section update.
Context `{Semver} `{UnicodeTables}.
Context (Get : gostring → option httpResponse).
Context (decodeIndex : gostring → option ChannelIndex).
Context (decodeMeta : gostring → option VersionMetadata).
(** The hash as lower-case hexadecimal digits, the signature check of an archive
    against a bundle, and the members of a gzipped tar archive: [None] ends the
    list where the archive is damaged. *)
Context (sha256 : gostring → gostring) (cosign : gostring → gostring → bool).
Context (untar : gostring → option (list (option (gostring * gostring)))).
(** [os.CreateTemp]: a name that is not in use. *)
Context (tempName : filesystem → gostring → gostring).

(** The temporary files, by what they are for. *)
Inductive temp := TPermission | TDownload | TBundle | TExtract.

Definition prefixOf (t : temp) : gostring :=
  match t with
  | TPermission => gs ".vibepit-permission-check-"
  | TDownload => gs ".vibepit-download-"
  | TBundle => gs ".vibepit-bundle-"
  | TExtract => gs ".vibepit-extract-"
  end.

(** Which system calls fail.  The errors of [Close] and of [os.Remove] are
    ignored: after a failed [Close] only the first bytes of a file may be on the
    disk, and a file whose removal fails stays. *)
Record faults := MkFaults {
  permFails : bool;             (* the permission check *)
  tempFails : bool;
  writeFails : nat → bool;      (* by chunk *)
  bundleTempFails : bool;
  bundleCopyFails : bool;
  extractTempFails : bool;
  copyFails : bool;
  chmodFails : bool;
  renameFails : bool;
  removeFails : temp → bool;
  closeKeeps : temp → option nat;   (* [None]: [Close] succeeds *)
  scraps : temp → gostring;         (* what a file holds whose writing failed *)
}.
Context (fault : faults).

Definition stored (t : temp) (data : gostring) : gostring :=
  match closeKeeps fault t with None => data | Some n => take n data end.
Definition put (fs : filesystem) (path data : gostring) : filesystem := <[path := (data, 384)]> fs.
Definition discard (t : temp) (path : gostring) (fs : filesystem) : filesystem :=
  if removeFails fault t then fs else delete path fs.

(** ** Download *)

(** The read loop, after [written] bytes in [data]: the whole content. *)
Fixpoint downloadLoop (i : nat) (data : gostring) (cs : list gostring) (fails : bool) :
    result updErr gostring :=
  match cs with
  | [] => if fails then Err ReadFailed else Ok data
  | c :: cs' =>
      let c := limited (maxArchiveSizeLimit + 1 - Z.of_nat (length data)) c in
      if bool_decide (c = []) then downloadLoop (S i) data cs' fails
      else if writeFails fault i then Err WriteFailed
      else if maxArchiveSizeLimit <? Z.of_nat (length (data ++ c)) then Err TooLarge
      else downloadLoop (S i) (data ++ c) cs' fails
  end.

(** The error is dropped; a range error comes with the nearest value. *)
Definition parsedLength (cl : gostring) : Z :=
  match ParseInt cl 64 with
  | Ok n => n
  | Err ErrSyntax => 0
  | Err ErrRange => if HasPrefix cl (gs "-") then - 2 ^ 63 else 2 ^ 63 - 1
  end.

(** The new file system and the path of the archive; a failed download removes
    its file. *)
Definition DownloadArchive (fs : filesystem) (url : gostring) : filesystem * result updErr gostring :=
  match Get url with
  | None => (fs, Err FetchFailed)
  | Some r =>
      if negb (StatusCode r =? 200) then (fs, Err (HTTPStatus (StatusCode r)))
      else if bool_decide (ContentLength r ≠ []) && (maxArchiveSizeLimit <? parsedLength (ContentLength r))
      then (fs, Err TooLarge)
      else if tempFails fault then (fs, Err WriteFailed)
      else
        let path := tempName fs (prefixOf TDownload) in
        match downloadLoop 0 [] (chunks r) (bodyFails r) with
        | Ok data => (put fs path (stored TDownload data), Ok path)
        | Err e => (discard TDownload path (put fs path (scraps fault TDownload)), Err e)
        end
  end.

(** ** Verification *)

Definition VerifySHA256 (fs : filesystem) (path expected : gostring) : option updErr :=
  match fs !! path with
  | None => Some OpenFailed
  | Some (data, _) => if bool_decide (sha256 data = expected) then None else Some ChecksumMismatch
  end.

Definition maxBundleSize : Z := 10 * 1024 * 1024.

(** The bundle, cut at its limit, in a temporary file. *)
Definition downloadBundle (fs : filesystem) (url : gostring) : filesystem * result updErr gostring :=
  match Get url with
  | None => (fs, Err FetchFailed)
  | Some r =>
      if negb (StatusCode r =? 200) then (fs, Err (HTTPStatus (StatusCode r)))
      else if bundleTempFails fault then (fs, Err WriteFailed)
      else
        let path := tempName fs (prefixOf TBundle) in
        let body := concat (chunks r) in
        if bundleCopyFails fault || (bodyFails r && (Z.of_nat (length body) <? maxBundleSize))
        then (discard TBundle path (put fs path (scraps fault TBundle)), Err WriteFailed)
        else (put fs path (stored TBundle (limited maxBundleSize body)), Ok path)
  end.

Definition VerifyCosignBundle (fs : filesystem) (path bundleURL : gostring) : filesystem * option updErr :=
  match downloadBundle fs bundleURL with
  | (fs1, Err e) => (fs1, Some e)
  | (fs1, Ok bundlePath) =>
      (discard TBundle bundlePath fs1,
       match fs1 !! path, fs1 !! bundlePath with
       | Some (data, _), Some (bundle, _) => if cosign data bundle then None else Some CosignFailed
       | _, _ => Some CosignFailed
       end)
  end.

(** ** Extraction *)

(** The content of the first member with the name, unless something before it
    is refused. *)
Fixpoint findMember (members : list (option (gostring * gostring))) (binaryName : gostring) :
    result updErr gostring :=
  match members with
  | [] => Err BinaryMissing
  | None :: _ => Err BadArchive
  | Some (name, content) :: ms =>
      if Contains name (gs "..") then Err PathTraversal
      else if bool_decide (Base name = binaryName)
      then Ok (limited maxArchiveSizeLimit content)
      else findMember ms binaryName
  end.

Definition ExtractBinary (fs : filesystem) (archivePath binaryName : gostring) :
    filesystem * result updErr gostring :=
  match fs !! archivePath with
  | None => (fs, Err OpenFailed)
  | Some (data, _) =>
      match untar data with
      | None => (fs, Err BadArchive)
      | Some members =>
          match findMember members binaryName with
          | Err e => (fs, Err e)
          | Ok content =>
              if extractTempFails fault then (fs, Err WriteFailed)
              else
                let path := tempName fs (prefixOf TExtract) in
                if copyFails fault
                then (discard TExtract path (put fs path (scraps fault TExtract)), Err WriteFailed)
                else (put fs path (stored TExtract content), Ok path)
          end
      end
  end.

(** ** Replacement *)

(** The mode is carried over, then the rename takes the old file's place. *)
Definition ReplaceBinary (fs : filesystem) (targetPath newPath : gostring) : filesystem * option updErr :=
  match fs !! targetPath, fs !! newPath with
  | Some (_, mode), Some (data, _) =>
      if chmodFails fault then (fs, Some ReplaceFailed)
      else
        let fs1 := <[newPath := (data, mode)]> fs in
        if renameFails fault then (fs1, Some ReplaceFailed)
        else (<[targetPath := (data, mode)]> (delete newPath fs1), None)
  | _, _ => (fs, Some ReplaceFailed)
  end.

(** ** The command *)

Inductive outcome := UpToDate | Cancelled | Updated (version : gostring).

(** What to install: [None] is nothing.  [config.Version] is [current]; the
    platform is [os] and [arch]. *)
Definition chooseUpdate (current os arch useVersion : gostring) (pre : bool) :
    result updErr (option (VersionMetadata * Asset)) :=
  let? om :=
    (if bool_decide (useVersion ≠ []) then
       let? m := FetchVersionMetadata Get decodeMeta useVersion in Ok (Some m)
     else
       let? ic := ResolveChannel Get decodeIndex pre in
       if ShouldUpdate current (Latest ic.1) (isCrossChannel current ic.2) then
         let? m := FetchVersionMetadata Get decodeMeta (Latest ic.1) in Ok (Some m)
       else Ok None) in
  match om with
  | None => Ok None
  | Some m => let? a := FindAsset m os arch in Ok (Some (m, a))
  end.

(** From the downloaded archive to the new binary. *)
Definition verifyAndReplace (fs : filesystem) (binPath archivePath : gostring) (a : Asset) :
    filesystem * option updErr :=
  match VerifySHA256 fs archivePath (SHA256 a) with
  | Some e => (fs, Some e)
  | None =>
      if bool_decide (CosignBundleURL a = []) then (fs, Some NoBundle)
      else match VerifyCosignBundle fs archivePath (CosignBundleURL a) with
           | (fs, Some e) => (fs, Some e)
           | (fs, None) =>
               match ExtractBinary fs archivePath (gs "vibepit") with
               | (fs1, Err e) => (fs1, Some e)
               | (fs1, Ok extracted) =>
                   match ReplaceBinary fs1 binPath extracted with
                   | (fs2, Some e) => (discard TExtract extracted fs2, Some e)
                   | (fs2, None) => (fs2, None)
                   end
               end
           end
  end.

(** Creates a file in the directory and removes it, if it can. *)
Definition CheckWritePermission (fs : filesystem) : filesystem * option updErr :=
  if permFails fault then (fs, Some NoPermission)
  else let name := tempName fs (prefixOf TPermission) in
       (discard TPermission name (put fs name []), None).

(** The deferred removal of the archive runs on every path. *)
Definition install (fs : filesystem) (originalPath binPath : gostring) (a : Asset) :
    filesystem * option updErr :=
  match fs !! binPath, DetectPackageManager originalPath, DetectPackageManager binPath with
  | None, _, _ => (fs, Some ResolveFailed)     (* [EvalSymlinks] *)
  | _, Some m, _ | _, None, Some m => (fs, Some (Managed m))
  | _, None, None =>
      match CheckWritePermission fs with
      | (fs0, Some e) => (fs0, Some e)
      | (fs0, None) =>
          match DownloadArchive fs0 (URL a) with
          | (fs1, Err e) => (fs1, Some e)
          | (fs1, Ok archivePath) =>
              let '(fs2, e) := verifyAndReplace fs1 binPath archivePath a in
              (discard TDownload archivePath fs2, e)
          end
      end
  end.

Definition confirms (yes : bool) (answer : gostring) : bool :=
  yes || (let a := TrimSpace (ToLower answer) in bool_decide (a = gs "y") || bool_decide (a = gs "yes")).

Definition runBinaryUpdate (fs : filesystem) (current os arch useVersion originalPath binPath : gostring)
    (pre yes : bool) (answer : gostring) : filesystem * result updErr outcome :=
  match chooseUpdate current os arch useVersion pre with
  | Err e => (fs, Err e)
  | Ok None => (fs, Ok UpToDate)
  | Ok (Some (m, a)) =>
      if negb (confirms yes answer) then (fs, Ok Cancelled)
      else match install fs originalPath binPath a with
           | (fs', Some e) => (fs', Err e)
           | (fs', None) => (fs', Ok (Updated (mVersion m)))
           end
  end.

(** ** Flags *)

Record updateFlags := MkFlags {
  fBin : bool; fImages : bool; fList : bool; fCheck : bool; fPre : bool; fYes : bool;
  fUse : gostring;
}.

Definition validateUpdateFlags (f : updateFlags) : bool :=
  let use := bool_decide (fUse f ≠ []) in
  negb (fBin f && fImages f) && negb (use && fImages f) && negb (fList f && fCheck f) &&
  negb (fList f && use) && negb (fCheck f && use).

Definition joinErrors (binErr imgErr : option updErr) : option updErr :=
  match binErr, imgErr with
  | Some b, Some i => Some (BothFailed b i)
  | Some b, None => Some b
  | None, _ => imgErr
  end.

(** [runUpdate]: the listings only read; [images] is the image update. *)
Definition runUpdate (images : option updErr) (f : updateFlags) (fs : filesystem)
    (current os arch originalPath binPath answer : gostring) : filesystem * option updErr :=
  if negb (validateUpdateFlags f) then (fs, Some FlagsConflict)
  else if fList f || fCheck f then
    (fs, match ResolveChannel Get decodeIndex (fPre f) with Ok _ => None | Err e => Some e end)
  else
    let binOnly := fBin f || bool_decide (fUse f ≠ []) in
    let '(fs1, binErr) :=
      if fImages f then (fs, None)
      else match runBinaryUpdate fs current os arch (fUse f) originalPath binPath (fPre f) (fYes f) answer with
           | (fs1, Ok _) => (fs1, None)
           | (fs1, Err e) => (fs1, Some e)
           end in
    (fs1, joinErrors binErr (if binOnly then None else images)).

(** ** What an update installs *)

(** [content] is the first member called [name], and no member up to it has a
    traversing path. *)
Definition firstMember (members : list (option (gostring * gostring))) (name content : gostring) : Prop :=
  ∃ before path after,
    members = (Some <$> before) ++ Some (path, content) :: after ∧ Base path = name ∧
    Contains path (gs "..") = false ∧
    Forall (λ m : gostring * gostring, Contains m.1 (gs "..") = false ∧ Base m.1 ≠ name) before.

#[local] Opaque maxArchiveSizeLimit.

Lemma Ok_inj {E A} (a b : A) : @Ok E A a = Ok b → b = a.
Proof. congruence. Qed.

Lemma findMember_ok members name data :
  findMember members name = Ok data →
  ∃ content, firstMember members name content ∧ data = limited maxArchiveSizeLimit content.
Proof.
  induction members as [|[[path c]|] ms IH]; cbn [findMember]; [done| |done].
  destruct (Contains path _) eqn:Hc; [done|]. case_bool_decide as Hb.
  - intros ->%Ok_inj. exists c. split; [|done]. by exists [], path, ms.
  - intros (content & (before & p & after & -> & ? & ? & ?) & ->)%IH.
    exists content. split; [|done]. exists ((path, c) :: before), p, after. split_and!; auto.
Qed.

Lemma downloadLoop_ok i data cs fails out :
  Z.of_nat (length data) ≤ maxArchiveSizeLimit →
  downloadLoop i data cs fails = Ok out →
  out = data ++ concat cs ∧ Z.of_nat (length out) ≤ maxArchiveSizeLimit ∧ fails = false.
Proof.
  revert i data. induction cs as [|c cs IH]; intros i data Hd; cbn [downloadLoop concat].
  { destruct fails; [done|]. intros [= <-]. by rewrite app_nil_r. }
  set (c' := limited _ c). case_bool_decide as Hc.
  { assert (c = []) as ->; [|apply IH; lia].
    apply (f_equal length) in Hc. subst c'. rewrite limited_take, length_take in Hc. simpl in Hc.
    destruct c; [done|simpl in Hc; lia]. }
  destruct (writeFails fault i); [done|].
  destruct (_ <? _) eqn:Hl; [done|]. apply Z.ltb_ge in Hl.
  assert (c' = c) as ->. { subst c'. rewrite limited_take, length_app, length_take in Hl. rewrite limited_take. apply take_ge. lia. }
  intros Hr. apply IH in Hr; [|done]. by rewrite <-app_assoc in Hr.
Qed.

Context (temp_fresh : ∀ fs prefix, fs !! tempName fs prefix = None).

(** *** Temporary files that could not be removed *)

(** [fs'] is [fs] and temporary files whose removal failed. *)
Definition litter (fs fs' : filesystem) : Prop :=
  ∃ junk : filesystem, junk ##ₘ fs ∧ fs' = junk ∪ fs ∧
    ∀ path, path ∈ dom junk → ∃ t fs0, removeFails fault t = true ∧ path = tempName fs0 (prefixOf t).

Lemma litter_refl fs : litter fs fs.
Proof. exists ∅. split_and!; [apply map_disjoint_empty_l|by rewrite (left_id_L ∅ (∪))|]. rewrite dom_empty_L. set_solver. Qed.

Lemma litter_trans fs1 fs2 fs3 : litter fs1 fs2 → litter fs2 fs3 → litter fs1 fs3.
Proof.
  intros (j1 & D1 & -> & H1) (j2 & [D2 D2']%map_disjoint_union_r & -> & H2). exists (j2 ∪ j1).
  rewrite dom_union_L. split_and!; [by apply map_disjoint_union_l|by rewrite (assoc_L (∪))|set_solver].
Qed.

Lemma litter_lookup fs fs' path x : litter fs fs' → fs !! path = Some x → fs' !! path = Some x.
Proof. intros (junk & D & -> & _) Hp. by apply lookup_union_Some_r. Qed.

(** A temporary file that was created and discarded, with other litter made
    meanwhile. *)
Lemma litter_discard t fs0 fs fs1 fs2 path x :
  path = tempName fs0 (prefixOf t) → fs !! path = None → fs1 = <[path := x]> fs → litter fs1 fs2 →
  litter fs (discard t path fs2).
Proof.
  intros Hpath Hfresh -> (junk & [Hn D]%map_disjoint_insert_r & -> & Hj). unfold discard.
  destruct (removeFails fault t) eqn:Hr.
  - exists (junk ∪ {[ path := x ]}). split_and!.
    + apply map_disjoint_union_l. split; [done|]. by apply map_disjoint_singleton_l.
    + by rewrite <- (assoc_L (∪)), <- insert_union_singleton_l.
    + rewrite dom_union_L, dom_singleton_L. intros p [Hp| ->%elem_of_singleton]%elem_of_union; eauto.
  - exists junk. split_and!; [done| |done]. rewrite delete_union, delete_insert_id by done.
    by rewrite delete_id.
Qed.

Lemma litter_temp t fs path x :
  path = tempName fs (prefixOf t) → litter fs (discard t path (<[path := x]> fs)).
Proof. intros Hp. eapply litter_discard; [done| |done|apply litter_refl]. subst. apply temp_fresh. Qed.

Lemma litter_none fs : (∀ t, removeFails fault t = false) → ∀ fs', litter fs fs' → fs' = fs.
Proof.
  intros Hr fs' (junk & _ & -> & Hj). assert (junk = ∅) as ->; [|by rewrite (left_id_L ∅ (∪))].
  apply dom_empty_inv_L, elem_of_equiv_empty_L. intros p (t & _ & Ht & _)%Hj. by rewrite Hr in Ht.
Qed.

(** The archive is what [Close] left of the whole body of a 200 response within
    the limit; a failed download leaves nothing but litter. *)
Lemma DownloadArchive_spec fs url fs1 r :
  DownloadArchive fs url = (fs1, r) →
  match r with
  | Ok path => path = tempName fs (prefixOf TDownload) ∧ ∃ resp, Get url = Some resp ∧ StatusCode resp = 200 ∧
      Z.of_nat (length (concat (chunks resp))) ≤ maxArchiveSizeLimit ∧
      fs1 = put fs path (stored TDownload (concat (chunks resp)))
  | Err _ => litter fs fs1
  end.
Proof.
  pose proof (litter_refl fs). unfold DownloadArchive. destruct (Get url) as [resp|]; [|by intros [= <- <-]].
  destruct (negb _) eqn:Hs; [by intros [= <- <-]|].
  destruct (_ && _); [by intros [= <- <-]|].
  destruct (tempFails fault); [by intros [= <- <-]|].
  destruct (downloadLoop _ _ _ _) as [data|e] eqn:Hl; intros [= <- <-].
  - apply downloadLoop_ok in Hl as (-> & Hlen & _); [|by vm_compute].
    split; [done|]. exists resp. split_and!; [done| |done|done].
    apply negb_false_iff, Z.eqb_eq in Hs. exact Hs.
  - by apply litter_temp.
Qed.

(** The signature is checked against what [Close] left of the bundle. *)
Definition bundleAt (url bundle : gostring) : Prop :=
  ∃ resp, Get url = Some resp ∧ StatusCode resp = 200 ∧
    bundle = stored TBundle (limited maxBundleSize (concat (chunks resp))).

Lemma VerifyCosignBundle_spec fs path url archive m fs1 e :
  fs !! path = Some (archive, m) → VerifyCosignBundle fs path url = (fs1, e) →
  litter fs fs1 ∧ (e = None → ∃ bundle, bundleAt url bundle ∧ cosign archive bundle = true).
Proof.
  intros Hp. pose proof (litter_refl fs). unfold VerifyCosignBundle, downloadBundle.
  destruct (Get url) as [resp|] eqn:Hg; [|by intros [= <- <-]].
  destruct (negb _) eqn:Hs; [by intros [= <- <-]|]. apply negb_false_iff, Z.eqb_eq in Hs.
  destruct (bundleTempFails fault); [by intros [= <- <-]|].
  destruct (_ || _); [intros [= <- <-]; split; [by apply litter_temp|done]|].
  pose proof (temp_fresh fs (prefixOf TBundle)) as Hf. unfold put.
  intros [= <- He]. split; [by apply litter_temp|]. rewrite lookup_insert_eq, lookup_insert_ne, Hp in He by congruence.
  destruct (cosign archive _) eqn:Hc; [|by subst e]. intros _. eexists. split; [|exact Hc]. by exists resp.
Qed.

Lemma ExtractBinary_spec fs archivePath name fs1 r :
  ExtractBinary fs archivePath name = (fs1, r) →
  match r with
  | Ok path => path = tempName fs (prefixOf TExtract) ∧ ∃ data mode members content,
      fs !! archivePath = Some (data, mode) ∧ untar data = Some members ∧
      firstMember members name content ∧
      fs1 = put fs path (stored TExtract (limited maxArchiveSizeLimit content))
  | Err _ => litter fs fs1
  end.
Proof.
  pose proof (litter_refl fs). unfold ExtractBinary.
  destruct (fs !! archivePath) as [[data mode]|] eqn:Ha; [|by intros [= <- <-]].
  destruct (untar data) as [members|] eqn:Hu; [|by intros [= <- <-]].
  destruct (findMember members name) as [c|e] eqn:Hf; [|by intros [= <- <-]].
  destruct (extractTempFails fault); [by intros [= <- <-]|].
  destruct (copyFails fault); intros [= <- <-]; [by apply litter_temp|].
  split; [done|]. apply findMember_ok in Hf as (content & Hf & ->). eauto 10.
Qed.

(** Renaming moves the content and keeps the old permissions; a failure changes
    at most the new file. *)
Lemma ReplaceBinary_spec fs target new old mode x fs1 e :
  target ≠ new → fs !! target = Some (old, mode) → fs !! new = None →
  ReplaceBinary (<[new := x]> fs) target new = (fs1, e) →
  match e with
  | None => fs1 = <[target := (x.1, mode)]> fs
  | Some _ => ∃ y, fs1 = <[new := y]> fs
  end.
Proof.
  intros Hne Ht Hn. unfold ReplaceBinary. rewrite lookup_insert_ne, Ht, lookup_insert_eq by done. destruct x as [data m].
  destruct (chmodFails fault); [intros [= <- <-]; by eexists|].
  destruct (renameFails fault); intros [= <- <-]; rewrite ?insert_insert_eq; [by eexists|].
  by rewrite delete_insert_id.
Qed.

(** An archive that may be installed: what was stored of the body of a response
    within the size limit, matching the checksum and the signature the release
    metadata gives, with [content] as its binary. *)
Definition verified (a : Asset) (archive content : gostring) : Prop :=
  (∃ resp, Get (URL a) = Some resp ∧ StatusCode resp = 200 ∧ archive = stored TDownload (concat (chunks resp)) ∧
     Z.of_nat (length (concat (chunks resp))) ≤ maxArchiveSizeLimit) ∧
  sha256 archive = SHA256 a ∧
  (∃ bundle, bundleAt (CosignBundleURL a) bundle ∧ cosign archive bundle = true) ∧
  ∃ members, untar archive = Some members ∧ firstMember members (gs "vibepit") content.

(** What is installed of a member: at most the limit, and after a failed [Close]
    possibly less. *)
Definition installed (content : gostring) : gostring := stored TExtract (limited maxArchiveSizeLimit content).

Lemma installed_prefix content : installed content `prefix_of` content.
Proof.
  unfold installed, stored. rewrite limited_take. case_match; [rewrite take_take|]; apply prefix_take.
Qed.

Lemma verifyAndReplace_spec fs binPath archivePath archive am old mode a fs' e :
  fs !! binPath = Some (old, mode) → fs !! archivePath = Some (archive, am) →
  verifyAndReplace fs binPath archivePath a = (fs', e) →
  match e with
  | None => sha256 archive = SHA256 a ∧
      (∃ bundle, bundleAt (CosignBundleURL a) bundle ∧ cosign archive bundle = true) ∧
      ∃ members content fs1, untar archive = Some members ∧ firstMember members (gs "vibepit") content ∧
        litter fs fs1 ∧ fs' = <[binPath := (installed content, mode)]> fs1
  | Some _ => litter fs fs'
  end.
Proof.
  intros Hb Ha. pose proof (litter_refl fs). unfold verifyAndReplace, VerifySHA256. rewrite Ha.
  case_bool_decide as Hsha; [|by intros [= <- <-]].
  case_bool_decide as Hurl; [by intros [= <- <-]|].
  destruct (VerifyCosignBundle _ _ _) as [fsb [x|]] eqn:Hcos;
    apply (VerifyCosignBundle_spec _ _ _ _ _ _ _ Ha) in Hcos as [Hlit Hcos]; [by intros [= <- <-]|].
  specialize (Hcos eq_refl).
  pose proof (litter_lookup _ _ _ _ Hlit Hb) as Hb1. pose proof (litter_lookup _ _ _ _ Hlit Ha) as Ha1.
  destruct (ExtractBinary _ _ _) as [fs1 [ex|x]] eqn:Hex; apply ExtractBinary_spec in Hex as Hx;
    [|intros [= <- <-]; by eapply litter_trans].
  destruct Hx as (Hex' & data & dm & members & content & Ha' & Hu & Hfirst & ->). simplify_eq.
  pose proof (temp_fresh fsb (prefixOf TExtract)) as Hfresh. set (ex := tempName fsb _) in *.
  assert (binPath ≠ ex) by congruence.
  destruct (ReplaceBinary _ _ _) as [fs2 e2] eqn:Hrep.
  apply (ReplaceBinary_spec _ _ _ old mode) in Hrep; [|done..].
  destruct e2; intros [= <- <-]; [|eauto 15].
  destruct Hrep as [y ->]. eapply litter_trans; [exact Hlit|]. by apply litter_temp.
Qed.

Lemma CheckWritePermission_litter fs : litter fs (CheckWritePermission fs).1.
Proof. unfold CheckWritePermission. destruct (permFails fault); [apply litter_refl|]. by apply litter_temp. Qed.

Lemma install_spec fs originalPath binPath a fs' e :
  install fs originalPath binPath a = (fs', e) →
  match e with
  | None => DetectPackageManager originalPath = None ∧ DetectPackageManager binPath = None ∧
      ∃ archive content old mode fs1, fs !! binPath = Some (old, mode) ∧ verified a archive content ∧
        litter fs fs1 ∧ fs' = <[binPath := (installed content, mode)]> fs1
  | Some _ => litter fs fs'
  end.
Proof.
  pose proof (litter_refl fs). unfold install. destruct (fs !! binPath) as [[old mode]|] eqn:Hb; [|by intros [= <- <-]].
  destruct (DetectPackageManager originalPath); [by intros [= <- <-]|].
  destruct (DetectPackageManager binPath); [by intros [= <- <-]|].
  pose proof (CheckWritePermission_litter fs) as Hperm.
  destruct (CheckWritePermission fs) as [fs0 [x|]]; cbn in Hperm; [by intros [= <- <-]|].
  pose proof (litter_lookup _ _ _ _ Hperm Hb) as Hb0.
  destruct (DownloadArchive fs0 (URL a)) as [fs1 [path|x]] eqn:Hd; apply DownloadArchive_spec in Hd as Hx;
    [|intros [= <- <-]; by eapply litter_trans].
  destruct Hx as (Hpath & resp & Hget & Hst & Hlen & ->).
  assert (Hfresh : fs0 !! path = None) by (subst; apply temp_fresh). assert (binPath ≠ path) by congruence.
  destruct (verifyAndReplace _ _ _ _) as [fs2 e2] eqn:Hv.
  apply (verifyAndReplace_spec _ _ _ (stored TDownload (concat (chunks resp))) 384 old mode) in Hv;
    [|by unfold put; rewrite lookup_insert_ne|by unfold put; rewrite lookup_insert_eq].
  destruct e2; intros [= <- <-].
  { eapply litter_trans; [exact Hperm|]. by eapply litter_discard. }
  destruct Hv as (? & ? & members & content & fs3 & ? & ? & Hlit & ->). split_and!; [done..|].
  exists (stored TDownload (concat (chunks resp))), content, old, mode, (discard TDownload path fs3).
  split_and!; [done| | |].
  - split_and!; eauto 10.
  - eapply litter_trans; [exact Hperm|]. by eapply litter_discard.
  - unfold discard. destruct (removeFails fault TDownload); [done|]. by rewrite delete_insert_ne.
Qed.

(** C18: an update installs only what was verified, and otherwise touches
    nothing.  Whatever the servers answer and whichever file operation fails,
    after the command the file system is the one before it, with nothing added but
    temporary files whose own removal failed, except when it reports success:
    then only the binary has changed, its permissions are kept, and its content is
    that of the first member called [vibepit] of an archive that the asset's URL
    served, that is within the size limit and matches the asset's checksum and
    signature: cut at the size limit, and possibly shorter when closing the
    extracted file failed, an error that is ignored.  Neither path of the binary
    belongs to a package manager, and the user agreed. *)
Theorem update_installs_verified fs current os arch useVersion originalPath binPath pre yes answer fs' r :
  runBinaryUpdate fs current os arch useVersion originalPath binPath pre yes answer = (fs', r) →
  match r with
  | Ok (Updated v) =>
      ∃ m a archive content old mode fs1,
        chooseUpdate current os arch useVersion pre = Ok (Some (m, a)) ∧ mVersion m = v ∧
        confirms yes answer = true ∧
        DetectPackageManager originalPath = None ∧ DetectPackageManager binPath = None ∧
        fs !! binPath = Some (old, mode) ∧ verified a archive content ∧
        litter fs fs1 ∧ fs' = <[binPath := (installed content, mode)]> fs1 ∧
        installed content `prefix_of` content ∧
        (closeKeeps fault TExtract = None → installed content = limited maxArchiveSizeLimit content)
  | _ => litter fs fs'
  end ∧ ((∀ t, removeFails fault t = false) → ∀ fs1, litter fs fs1 → fs1 = fs).
Proof.
  intros Hr. split; [|apply litter_none]. revert Hr. pose proof (litter_refl fs).
  unfold runBinaryUpdate. destruct (chooseUpdate _ _ _ _ _) as [[[m a]|]|e]; [|by intros [= <- <-]..].
  destruct (confirms yes answer) eqn:Hc; [|by intros [= <- <-]].
  destruct (install fs originalPath binPath a) as [fs2 e] eqn:Hi. apply install_spec in Hi.
  cbn [negb]. destruct e; intros [= <- <-]; [done|].
  destruct Hi as (? & ? & archive & content & old & mode & fs1 & ? & ? & ? & ->).
  exists m, a, archive, content, old, mode, fs1. split_and!; try done; [apply installed_prefix|].
  unfold installed, stored. by intros ->.
Qed.
End update.

(** ** An example *)

Definition longName (fs : filesystem) (prefix : gostring) : gostring := prefix ++ longerThan (map_to_list fs).*1.

Lemma longName_fresh fs prefix : fs !! longName fs prefix = None.
Proof.
  apply eq_None_not_Some. intros [f Hf]. apply (longerThan_fresh (map_to_list fs).*1 prefix).
  apply list_elem_of_fmap. exists (longName fs prefix, f). split; [done|]. by apply elem_of_map_to_list.
Qed.

#[local] Instance ascii_tables : UnicodeTables.
Proof. refine {| lower_hi := λ r, r |}. lia. Defined.

Definition demo_asset : Asset :=
  MkAsset (gs "linux") (gs "amd64") (gs "https://d/v.tgz") (gs "new") (gs "https://d/v.bundle").

Definition demo_release : VersionMetadata := MkMeta (gs "0.3.0") [] [] None [demo_asset].

Definition demo_server (url : gostring) : option httpResponse :=
  Some (MkResponse 200 [] (if bool_decide (url = gs "https://d/v.tgz") then [gs "ne"; gs "w"] else []) false).

Definition demo_untar (archive : gostring) : option (list (option (gostring * gostring))) :=
  Some [Some (gs "v/LICENSE", gs "text"); Some (gs "v/vibepit", archive ++ gs " binary")].

Definition demo_bin : gostring := gs "/home/u/bin/vibepit".
Definition demo_fs : filesystem := {[ demo_bin := (gs "old binary", 493) ]}.

Definition demo_faults (renameFails litters : bool) : faults :=
  MkFaults false false (λ _, false) false false false false false renameFails (λ _, litters) (λ _, None) (λ _, []).

Definition demo_update (renameFails litters : bool) : filesystem * result updErr outcome :=
  @runBinaryUpdate byte_semver _ demo_server (λ _, None) (λ _, Some demo_release) (λ d, d) (λ _ _, true) demo_untar
    longName (demo_faults renameFails litters)
    demo_fs (gs "0.1.0") (gs "linux") (gs "amd64") (gs "0.3.0") demo_bin demo_bin false false (gs "Y").

(** Three files stay when nothing can be removed. *)
Lemma update_installs_verified_witness :
  demo_update true false = (demo_fs, Err ReplaceFailed) ∧
  demo_update false false = ({[ demo_bin := (gs "new binary", 493) ]}, Ok (Updated (gs "0.3.0"))) ∧
  size (demo_update false true).1 = 4%nat ∧
  ∃ archive content, @verified demo_server (λ d, d) (λ _ _, true) demo_untar
    (demo_faults false false) demo_asset archive content.
Proof.
  split; [vm_compute; reflexivity|]. split; [vm_compute; reflexivity|]. split; [vm_compute; reflexivity|].
  destruct (demo_update false false) as [fs' r] eqn:Hu.
  pose proof (update_installs_verified _ _ _ _ _ _ _ _ longName_fresh _ _ _ _ _ _ _ _ _ _ _ _ Hu) as [Hv _].
  assert (Hr : r = Ok (Updated (gs "0.3.0"))).
  { apply (f_equal snd) in Hu. vm_compute in Hu. rewrite <-Hu. vm_compute. reflexivity. }
  rewrite Hr in Hv. destruct Hv as (m & a & archive & content & old & mode & fs1 & Hc & _ & _ & _ & _ & _ & Hver & _).
  assert (a = demo_asset) as ->. { vm_compute in Hc. injection Hc as _ <-. vm_compute. reflexivity. }
  exists archive, content. exact Hver.
Defined.
