(* ===== verification/Container.v ===== *)
(** * The container runtime client ([container/client.go])

    What the program asks Docker or Podman to do, and how it reads the answers.
    The runtime is not part of the program: [Docker] is its API, as far as the
    program uses it, over an abstract state, and [DockerSpec] states the
    documented behaviour the theorems rely on. *)

From S2P Require Import Prelude GoStrings GoNet MonitorUI.
Open Scope Z_scope.

(** ** Names *)

Definition LabelVibepit : gostring := gs "vibepit".
Definition LabelRole : gostring := gs "vibepit.role".
Definition LabelUID : gostring := gs "vibepit.uid".
Definition LabelUser : gostring := gs "vibepit.user".
Definition LabelVolumeHome : gostring := gs "vibepit.volume.home".
Definition LabelVolumeLinuxbrew : gostring := gs "vibepit.volume.linuxbrew".
Definition LabelProjectDir : gostring := gs "vibepit.project.dir".
Definition LabelSessionID : gostring := gs "vibepit.session-id".
Definition LabelControlPort : gostring := gs "vibepit.control-port".
Definition RoleProxy : gostring := gs "proxy".
Definition RoleSandbox : gostring := gs "sandbox".
Definition ProxyBinaryPath : gostring := gs "/vibepit".
Definition SandboxBinaryPath : gostring := gs "/vibed".
Definition ProxyConfigPath : gostring := gs "/config.json".
Definition HomeMountPath : gostring := gs "/home/code".
Definition LinuxbrewMountPath : gostring := gs "/home/linuxbrew".
Definition ContainerHostname : gostring := gs "vibes".
Definition ProxyImage : gostring := gs "gcr.io/distroless/base-debian13:latest".
Definition SSHContainerPort : gostring := gs "2222/tcp".
Definition SSHHostKeyPath : gostring := gs "/etc/vibepit/sshd/host-key".
Definition SSHHostPubPath : gostring := gs "/etc/vibepit/sshd/host-key.pub".
Definition SSHPubKeyEnv : gostring := gs "VIBEPIT_SSH_PUBKEY".

(** ** The runtime's API *)

Abbreviation labels := (gmap gostring gostring).

Record PortBinding := MkBinding { HostIP : gostring; HostPort : gostring }.

(** The arguments of [ContainerCreate]: the fields of its configurations that
    the program sets; [Endpoints] are the networks of the networking
    configuration with the address asked for. *)
Record createSpec := MkSpec {
  cName : gostring;
  cImage : gostring;
  cCmd : list gostring;
  cEntrypoint : list gostring;
  cEnv : list gostring;
  cHostname : gostring;
  cLabels : labels;
  cTty : bool;
  cOpenStdin : bool;
  cWorkingDir : gostring;
  cExposedPorts : gset gostring;
  cNetworkMode : gostring;
  cBinds : list gostring;
  cDNS : list gostring;
  cExtraHosts : list gostring;
  cPortBindings : gmap gostring (list PortBinding);
  cInit : bool;
  cReadonlyRootfs : bool;
  cCapDrop : list gostring;
  cSecurityOpt : list gostring;
  cTmpfs : gmap gostring gostring;
  cRestart : gostring;
  cEndpoints : gmap gostring (option gostring);
}.

Record netSpec := MkNetSpec {
  nName : gostring;
  nInternal : bool;
  nLabels : labels;
  nSubnet : gostring;
  nGateway : gostring;
}.

(** One row of a container list; one inspected container. *)
Record summary := MkSummary { sumID : gostring; sumNames : list gostring; sumLabels : labels; sumCreated : Z }.

Record inspection := MkInspection {
  inLabels : labels;
  inPorts : gmap gostring (list PortBinding);
  inStatus : gostring;
  inExitCode : Z;
}.

(** A label filter: the key, and the value when it matters. *)
Definition labelFilter : Type := gostring * option gostring.

Definition hasLabel (ls : labels) (f : labelFilter) : Prop :=
  match f.2 with Some v => ls !! f.1 = Some v | None => is_Some (ls !! f.1) end.
#[global] Instance hasLabel_dec ls f : Decision (hasLabel ls f).
Proof. unfold hasLabel. destruct f.2; apply _. Defined.

(** The operations of the API; those that change something return the new
    state, and [sleep] lets time pass. *)
Class Docker (D : Type) := {
  ContainerList : D → bool → list labelFilter → option (list summary);
  ContainerInspect : D → gostring → option inspection;
  ContainerCreate : D → createSpec → D * option gostring;
  ContainerStart : D → gostring → D * bool;
  ContainerStop : D → gostring → D;
  ContainerRemove : D → gostring → D * bool;
  NetworkCreate : D → netSpec → D * option gostring;
  NetworkConnect : D → gostring → gostring → gostring → D * bool;
  NetworkRemove : D → gostring → D * bool;
  ImageList : D → gostring → option (list gostring);
  ImagePull : D → gostring → D * bool;
  ImageInspect : D → gostring → option (list gostring);
  VolumeList : D → gostring → option (list gostring);
  VolumeCreate : D → gostring → labels → D * bool;
  sleep : D → D;
}.

(** ** Addresses *)

(** [nextIP]; [None] is a nil address. *)
Definition nextIP (ip : IP) : option IP :=
  match To4 ip with
  | Some [a; b; c; d] =>
      let n := wrap_uint 32 (((a * 256 + b) * 256 + c) * 256 + d + 1) in
      Some [n / 2 ^ 24; n / 2 ^ 16 mod 256; n / 2 ^ 8 mod 256; n mod 256]
  | _ => None
  end.

(** [net.IPv4]: the 16-byte form. *)
Definition IPv4 (a b c d : Z) : IP := v4InV6Prefix ++ [a; b; c; d].

(** [b0] and [b1] are the random bytes. *)
Definition randomSubnet (b0 b1 : Z) : gostring * IP :=
  (gs "10." ++ Itoa b0 ++ gs "." ++ Itoa b1 ++ gs ".0/24", IPv4 10 b0 b1 1).

Definition ipString (ip : option IP) : gostring :=
  match ip with Some b => IPString b | None => gs "<nil>" end.

Record NetworkInfo := MkNetworkInfo { netID : gostring; ProxyIP : gostring; SandboxIP : gostring }.

(** ** Volumes and images *)

Section client.
Context {D : Type} `{Docker D}.

(** [Some] is an error-free answer. *)
Definition EnsureVolume (d : D) (name : gostring) (uid : Z) (user : gostring) : D * bool :=
  match VolumeList d name with
  | None => (d, false)
  | Some vs =>
      if existsb (λ v, bool_decide (v = name)) vs then (d, true)
      else VolumeCreate d name
             (<[LabelVibepit := gs "true"]> (<[LabelUID := Itoa uid]> {[ LabelUser := user ]}))
  end.

Definition EnsureImage (d : D) (ref : gostring) : D * bool :=
  match ImageList d ref with
  | None => (d, false)
  | Some (_ :: _) => (d, true)
  | Some [] => ImagePull d ref
  end.

(** The reference without its tag. *)
Definition refRepo (ref : gostring) : gostring :=
  match LastIndex ref ":"%char with
  | Some (S i) => if Contains (drop (S i) ref) (gs "/") then ref else take (S i) ref
  | _ => ref
  end.

Definition ImageRepoDigest (d : D) (ref : gostring) : option gostring :=
  match ImageInspect d ref with
  | None | Some [] => None
  | Some ((rd :: _) as digests) =>
      Some (default rd (snd <$> list_find (λ x, HasPrefix x (refRepo ref ++ gs "@") = true) digests))
  end.

(** ** Networks *)

(** [rand] is what the random source returns, [None] on an error. *)
Definition CreateNetwork (d : D) (name : gostring) (rand : option (Z * Z)) : D * option NetworkInfo :=
  match rand with
  | None => (d, None)
  | Some (b0, b1) =>
      let '(subnet, gateway) := randomSubnet b0 b1 in
      match NetworkCreate d (MkNetSpec name true {[ LabelVibepit := gs "true" ]} subnet (IPString gateway)) with
      | (d', None) => (d', None)
      | (d', Some id) =>
          let proxyIP := nextIP gateway in
          let sandboxIP := proxyIP ≫= nextIP in
          (d', Some (MkNetworkInfo id (ipString proxyIP) (ipString sandboxIP)))
      end
  end.

(** ** The proxy container *)

Record ProxyContainerConfig := MkProxyCfg {
  BinaryPath : gostring;
  ConfigPath : gostring;
  pNetworkID : gostring;
  pProxyIP : gostring;
  ControlAPIPort : Z;
  pName : gostring;
  pSessionID : gostring;
  TLSKeyPEM : gostring;
  TLSCertPEM : gostring;
  CACertPEM : gostring;
  pProjectDir : gostring;
  NoRestart : bool;
  SSHPort : Z;
  pExtraHosts : list gostring;
}.

Definition proxyLabels (cfg : ProxyContainerConfig) : labels :=
  let ls := <[LabelVibepit := gs "true"]> (<[LabelRole := RoleProxy]>
              (<[LabelProjectDir := pProjectDir cfg]> {[ LabelControlPort := Itoa (ControlAPIPort cfg) ]})) in
  if bool_decide (pSessionID cfg = []) then ls else <[LabelSessionID := pSessionID cfg]> ls.

Definition proxyBindings (cfg : ProxyContainerConfig) : gmap gostring (list PortBinding) :=
  let portStr := Itoa (ControlAPIPort cfg) in
  let bs := {[ portStr ++ gs "/tcp" := [MkBinding (gs "127.0.0.1") portStr] ]} in
  if 0 <? SSHPort cfg then <[SSHContainerPort := [MkBinding (gs "127.0.0.1") []]]> bs else bs.

Definition proxySpec (cfg : ProxyContainerConfig) : createSpec := {|
  cName := pName cfg;
  cImage := ProxyImage;
  cCmd := [ProxyBinaryPath; gs "proxy"; gs "--config"; ProxyConfigPath];
  cEntrypoint := [];
  cEnv := if bool_decide (TLSKeyPEM cfg = []) then []
          else [gs "VIBEPIT_PROXY_TLS_KEY=" ++ TLSKeyPEM cfg; gs "VIBEPIT_PROXY_TLS_CERT=" ++ TLSCertPEM cfg;
                gs "VIBEPIT_PROXY_CA_CERT=" ++ CACertPEM cfg];
  cHostname := [];
  cLabels := proxyLabels cfg;
  cTty := false;
  cOpenStdin := false;
  cWorkingDir := gs "/";
  cExposedPorts := dom (proxyBindings cfg);
  cNetworkMode := gs "bridge";
  cBinds := [BinaryPath cfg ++ gs ":" ++ ProxyBinaryPath ++ gs ":ro";
             ConfigPath cfg ++ gs ":" ++ ProxyConfigPath ++ gs ":ro"];
  cDNS := [];
  cExtraHosts := gs "host-gateway:host-gateway" :: pExtraHosts cfg;
  cPortBindings := proxyBindings cfg;
  cInit := false;
  cReadonlyRootfs := false;
  cCapDrop := [];
  cSecurityOpt := [];
  cTmpfs := ∅;
  cRestart := if NoRestart cfg then [] else gs "unless-stopped";
  cEndpoints := ∅;
|}.

(** The identifier of the started container.  A container that cannot be
    connected or started is left behind. *)
Definition StartProxyContainer (d : D) (cfg : ProxyContainerConfig) : D * option gostring :=
  match ContainerCreate d (proxySpec cfg) with
  | (d1, None) => (d1, None)
  | (d1, Some id) =>
      match NetworkConnect d1 (pNetworkID cfg) id (pProxyIP cfg) with
      | (d2, false) => (d2, None)
      | (d2, true) =>
          match ContainerStart d2 id with
          | (d3, false) => (d3, None)
          | (d3, true) => (d3, Some id)
          end
      end
  end.

(** ** The sandbox container *)

Record SandboxContainerConfig := MkSandboxCfg {
  Image : gostring;
  ProjectDir : gostring;
  WorkDir : gostring;
  RuntimeDir : gostring;
  HomeVolumeName : gostring;
  LinuxbrewVolumeName : gostring;
  NetworkID : gostring;
  sProxyIP : gostring;
  sSandboxIP : gostring;
  ProxyPort : Z;
  Name : gostring;
  Term : gostring;
  ColorTerm : gostring;
  UID : Z;
  User : gostring;
  SessionID : gostring;
  Daemon : bool;
  DaemonBinaryPath : gostring;
  DaemonHostKeyPath : gostring;
  DaemonHostPubPath : gostring;
  DaemonAuthorizedKey : gostring;
  DaemonEntrypoint : list gostring;
}.

Definition ProjectConfigDirName : gostring := gs ".vibepit".

Definition sandboxEnv (cfg : SandboxContainerConfig) : list gostring :=
  let proxyURL := gs "http://" ++ JoinHostPort (sProxyIP cfg) (Itoa (ProxyPort cfg)) in
  let port := Itoa (ProxyPort cfg) in
  [gs "TERM=" ++ Term cfg; gs "LANG=en_US.UTF-8"; gs "LC_ALL=en_US.UTF-8";
   gs "VIBEPIT_PROJECT_DIR=" ++ ProjectDir cfg;
   gs "HTTP_PROXY=" ++ proxyURL; gs "HTTPS_PROXY=" ++ proxyURL;
   gs "http_proxy=" ++ proxyURL; gs "https_proxy=" ++ proxyURL; gs "grpc_proxy=" ++ proxyURL;
   gs "NODE_USE_ENV_PROXY=1"; gs "NO_PROXY=localhost,127.0.0.1"; gs "no_proxy=localhost,127.0.0.1";
   gs "JAVA_TOOL_OPTIONS=-Dhttps.proxyHost=" ++ sProxyIP cfg ++ gs " -Dhttps.proxyPort=" ++ port ++
   gs " -Dhttp.proxyHost=" ++ sProxyIP cfg ++ gs " -Dhttp.proxyPort=" ++ port] ++
  (if bool_decide (ColorTerm cfg = []) then [] else [gs "COLORTERM=" ++ ColorTerm cfg]) ++
  [gs "MAVEN_ARGS=--global-settings=/etc/vibepit/maven-settings.xml"] ++
  (if Daemon cfg then [SSHPubKeyEnv ++ gs "=" ++ DaemonAuthorizedKey cfg] else []).

(** [localtime]: whether the host has [/etc/localtime]. *)
Definition sandboxBinds (cfg : SandboxContainerConfig) (localtime : bool) : list gostring :=
  let vibepitConfigDir := pathJoin (ProjectDir cfg) ProjectConfigDirName in
  let fakeConfigDir := pathJoin (RuntimeDir cfg) (Base vibepitConfigDir) in
  let mavenSettings := pathJoin (pathJoin (RuntimeDir cfg) (gs "maven")) (gs "settings.xml") in
  [HomeVolumeName cfg ++ gs ":" ++ HomeMountPath;
   LinuxbrewVolumeName cfg ++ gs ":" ++ LinuxbrewMountPath;
   ProjectDir cfg ++ gs ":" ++ ProjectDir cfg;
   fakeConfigDir ++ gs ":" ++ vibepitConfigDir ++ gs ":ro";
   mavenSettings ++ gs ":/etc/vibepit/maven-settings.xml:ro"] ++
  (if localtime then [gs "/etc/localtime:/etc/localtime:ro"] else []) ++
  (if Daemon cfg then
     [DaemonBinaryPath cfg ++ gs ":" ++ SandboxBinaryPath ++ gs ":ro";
      DaemonHostKeyPath cfg ++ gs ":" ++ SSHHostKeyPath ++ gs ":ro";
      DaemonHostPubPath cfg ++ gs ":" ++ SSHHostPubPath ++ gs ":ro"]
   else []).

Definition sandboxLabels (cfg : SandboxContainerConfig) : labels :=
  <[LabelVibepit := gs "true"]> (<[LabelRole := RoleSandbox]> (<[LabelUID := Itoa (UID cfg)]>
    (<[LabelUser := User cfg]> (<[LabelVolumeHome := HomeVolumeName cfg]>
      (<[LabelVolumeLinuxbrew := LinuxbrewVolumeName cfg]> (<[LabelProjectDir := ProjectDir cfg]>
        {[ LabelSessionID := SessionID cfg ]})))))).

Definition sandboxSpec (cfg : SandboxContainerConfig) (localtime : bool) : createSpec := {|
  cName := Name cfg;
  cImage := Image cfg;
  cCmd := [];
  cEntrypoint := if Daemon cfg then DaemonEntrypoint cfg else [];
  cEnv := sandboxEnv cfg;
  cHostname := ContainerHostname;
  cLabels := sandboxLabels cfg;
  cTty := negb (Daemon cfg);
  cOpenStdin := negb (Daemon cfg);
  cWorkingDir := WorkDir cfg;
  cExposedPorts := ∅;
  cNetworkMode := [];
  cBinds := sandboxBinds cfg localtime;
  cDNS := [sProxyIP cfg];
  cExtraHosts := [];
  cPortBindings := ∅;
  cInit := true;
  cReadonlyRootfs := true;
  cCapDrop := [gs "ALL"];
  cSecurityOpt := [gs "no-new-privileges"];
  cTmpfs := {[ gs "/tmp" := gs "exec" ]};
  cRestart := [];
  cEndpoints := {[ NetworkID cfg := if bool_decide (sSandboxIP cfg = []) then None else Some (sSandboxIP cfg) ]};
|}.

(** [dirsOk]: whether the directories and the Maven settings could be written. *)
Definition CreateSandboxContainer (d : D) (cfg : SandboxContainerConfig) (dirsOk localtime : bool) :
    D * option gostring :=
  if dirsOk then ContainerCreate d (sandboxSpec cfg localtime) else (d, None).

(** ** Looking containers up *)

Record RunningSession := MkRunning { rContainerID : gostring; rSessionID : gostring; rProjectDir : gostring }.

(** A missing key of a Go map is the empty string. *)
Definition label (ls : labels) (k : gostring) : gostring := default [] (ls !! k).

(** [None] is an error, [Some None] no session. *)
Definition FindRunningSession (d : D) (projectDir : gostring) : option (option RunningSession) :=
  match ContainerList d false [(LabelProjectDir, Some projectDir); (LabelRole, Some RoleSandbox)] with
  | None => None
  | Some [] => Some None
  | Some (c :: _) => Some (Some (MkRunning (sumID c) (label (sumLabels c) LabelSessionID) projectDir))
  end.

(** The empty string when there is none. *)
Definition FindAnySessionContainer (d : D) (projectDir : gostring) : option gostring :=
  match ContainerList d true [(LabelProjectDir, Some projectDir); (LabelSessionID, None)] with
  | None => None
  | Some [] => Some []
  | Some (c :: _) => Some (label (sumLabels c) LabelSessionID)
  end.

Record SessionContainer := MkSessionContainer { scID : gostring; scName : gostring; scRole : gostring }.

Definition TrimPrefix (s p : gostring) : gostring := if HasPrefix s p then drop (length p) s else s.

Definition SessionContainers (d : D) (sessionID : gostring) : option (list SessionContainer) :=
  (λ cs : list summary, (λ c, MkSessionContainer (sumID c)
                 (match sumNames c with n :: _ => TrimPrefix n (gs "/") | [] => [] end)
                 (label (sumLabels c) LabelRole)) <$> cs)
  <$> ContainerList d true [(LabelSessionID, Some sessionID)].

Definition FindProxyContainerID (d : D) (sessionID : gostring) : option gostring :=
  match ContainerList d true [(LabelSessionID, Some sessionID); (LabelRole, Some RoleProxy)] with
  | Some (c :: _) => Some (sumID c)
  | _ => None
  end.

Definition SessionIDFromContainer (d : D) (containerID : gostring) : option gostring :=
  ContainerInspect d containerID ≫= λ info, inLabels info !! LabelSessionID.

(** ** Ports *)

(** [fmt.Sscanf] with [%d]: blanks, a sign, and the digits that follow. *)
Fixpoint leadingDigits (s : gostring) : gostring :=
  match s with c :: s' => if is_digit c then c :: leadingDigits s' else [] | [] => [] end.

Definition sscanfInt (s : gostring) : option Z :=
  let s := trimLeftSpace s in
  let '(sign, rest) := match s with
                       | c :: s' => if bool_decide (c = "-"%char) || bool_decide (c = "+"%char)
                                    then ([c], s') else ([], s)
                       | [] => ([], [])
                       end in
  match ParseInt (sign ++ leadingDigits rest) 64 with Ok n => Some n | Err _ => None end.

Definition publishedPort (info : inspection) (containerPort : gostring) : option Z :=
  match inPorts info !! containerPort with
  | None | Some [] => None
  | Some (b :: _) => sscanfInt (HostPort b)
  end.

Definition FindPublishedPort (d : D) (containerID containerPort : gostring) : option Z :=
  ContainerInspect d containerID ≫= λ info, publishedPort info containerPort.

Definition FindControlPort (d : D) (containerID : gostring) : option Z :=
  ContainerInspect d containerID ≫= λ info,
    let portStr := label (inLabels info) LabelControlPort in
    if bool_decide (portStr = []) then None else publishedPort info (portStr ++ gs "/tcp").

Definition ListProxySessions (d : D) : option (list ProxySession) :=
  (λ cs : list summary, (λ c,
     let port := label (sumLabels c) LabelControlPort in
     MkProxySession (sumID c) (label (sumLabels c) LabelSessionID)
       (match FindPublishedPort d (sumID c) (port ++ gs "/tcp") with Some p => Itoa p | None => port end)
       (label (sumLabels c) LabelProjectDir) (sumCreated c)) <$> cs)
  <$> ContainerList d false [(LabelVibepit, Some (gs "true")); (LabelRole, Some RoleProxy)].

(** ** Stopping, status *)

Definition StopAndRemove (d : D) (containerID : gostring) : D * bool :=
  ContainerRemove (ContainerStop d containerID) containerID.

Definition ContainerStatus (d : D) (containerID : gostring) : gostring :=
  match ContainerInspect d containerID with
  | None => gs "unknown"
  | Some info =>
      if inExitCode info =? 0 then inStatus info
      else inStatus info ++ gs " (exit " ++ Itoa (inExitCode info) ++ gs ")"
  end.
End client.

(** ** What the program relies on *)

(** The networks without one, given by its identifier or else by its name. *)
Definition without (n : gostring) (ns : list (gostring * netSpec)) : list (gostring * netSpec) :=
  if decide (n ∈ ns.*1) then filter (λ x, x.1 ≠ n) ns else filter (λ x, nName x.2 ≠ n) ns.

(** [containers] and [networks] are all that exist, running or not.  Calls that
    fail change neither; an answer lists existing containers with all the labels
    asked for, and, when asked for all, every one of them. *)
Class DockerSpec (D : Type) `{Docker D} := {
  containers : D → list (gostring * createSpec);
  networks : D → list (gostring * netSpec);
  container_ids : ∀ d, NoDup (containers d).*1;
  network_ids : ∀ d, NoDup (networks d).*1;
  list_sound : ∀ d all fs cs, ContainerList d all fs = Some cs → ∀ c, c ∈ cs →
    ∃ s, (sumID c, s) ∈ containers d ∧ sumLabels c = cLabels s ∧ Forall (hasLabel (cLabels s)) fs;
  list_complete : ∀ d fs cs, ContainerList d true fs = Some cs → ∀ id s,
    (id, s) ∈ containers d → Forall (hasLabel (cLabels s)) fs → id ∈ sumID <$> cs;
  create_spec : ∀ d s d' r, ContainerCreate d s = (d', r) → networks d' = networks d ∧
    match r with
    | Some id => containers d' ≡ₚ (id, s) :: containers d
    | None => containers d' = containers d
    end;
  start_spec : ∀ d id d' r, ContainerStart d id = (d', r) →
    containers d' = containers d ∧ networks d' = networks d;
  stop_spec : ∀ d id, containers (ContainerStop d id) = containers d ∧ networks (ContainerStop d id) = networks d;
  remove_spec : ∀ d id d' r, ContainerRemove d id = (d', r) → networks d' = networks d ∧
    containers d' = if r then filter (λ c, c.1 ≠ id) (containers d) else containers d;
  net_create_spec : ∀ d s d' r, NetworkCreate d s = (d', r) → containers d' = containers d ∧
    match r with
    | Some id => networks d' ≡ₚ (id, s) :: networks d
    | None => networks d' = networks d
    end;
  connect_spec : ∀ d n id ip d' r, NetworkConnect d n id ip = (d', r) →
    containers d' = containers d ∧ networks d' = networks d;
  net_remove_spec : ∀ d n d' r, NetworkRemove d n = (d', r) → containers d' = containers d ∧
    networks d' = if r then without n (networks d) else networks d;
  pull_spec : ∀ d ref d' r, ImagePull d ref = (d', r) → containers d' = containers d ∧ networks d' = networks d;
  volume_spec : ∀ d n ls d' r, VolumeCreate d n ls = (d', r) →
    containers d' = containers d ∧ networks d' = networks d;
  sleep_spec : ∀ d, containers (sleep d) = containers d ∧ networks (sleep d) = networks d;
}.

Section spec.
Context {D : Type} `{DockerSpec D}.

(** Nothing was created or removed. *)
Definition same (d d' : D) : Prop := containers d' = containers d ∧ networks d' = networks d.

#[global] Instance same_refl : Reflexive same.
Proof. done. Qed.
#[global] Instance same_trans : Transitive same.
Proof. intros d1 d2 d3 [? ?] [? ?]. split; congruence. Qed.

Lemma EnsureVolume_same d name uid user : same d (EnsureVolume d name uid user).1.
Proof.
  unfold EnsureVolume. destruct (VolumeList d name) as [vs|]; [|done]. destruct (existsb _ vs); [done|].
  destruct (VolumeCreate _ _ _) eqn:E. by apply volume_spec in E.
Qed.

Lemma EnsureImage_same d ref : same d (EnsureImage d ref).1.
Proof.
  unfold EnsureImage. destruct (ImageList d ref) as [[|]|]; try done.
  destruct (ImagePull d ref) eqn:E. by apply pull_spec in E.
Qed.

Lemma CreateNetwork_spec d name rand d' r :
  CreateNetwork d name rand = (d', r) → containers d' = containers d ∧
  match r with
  | None => networks d' = networks d
  | Some info => ∃ s, networks d' ≡ₚ (netID info, s) :: networks d ∧ nInternal s = true ∧ nName s = name
  end.
Proof.
  unfold CreateNetwork. destruct rand as [[b0 b1]|]; [|by intros [= <- <-]]. cbn.
  destruct (NetworkCreate _ _) as [d1 [id|]] eqn:E; apply net_create_spec in E as [? ?]; intros [= <- <-];
    (split; [done|]); [by eexists|done].
Qed.

(** A failure leaves at most the container itself behind. *)
Lemma StartProxyContainer_spec d cfg d' r :
  StartProxyContainer d cfg = (d', r) → networks d' = networks d ∧
  match r with
  | Some id => containers d' ≡ₚ (id, proxySpec cfg) :: containers d
  | None => containers d' = containers d ∨ ∃ id, containers d' ≡ₚ (id, proxySpec cfg) :: containers d
  end.
Proof.
  unfold StartProxyContainer.
  destruct (ContainerCreate _ _) as [d1 [id|]] eqn:E1; apply create_spec in E1 as [Hn Hc];
    [|intros [= <- <-]; by auto].
  destruct (NetworkConnect _ _ _ _) as [d2 [|]] eqn:E2; apply connect_spec in E2 as [Hc2 Hn2];
    [|intros [= <- <-]; rewrite Hc2, Hn2; by eauto].
  destruct (ContainerStart _ _) as [d3 [|]] eqn:E3; apply start_spec in E3 as [Hc3 Hn3];
    intros [= <- <-]; rewrite Hc3, Hn3, Hc2, Hn2; by eauto.
Qed.

Lemma StopAndRemove_spec d id d' r :
  StopAndRemove d id = (d', r) → networks d' = networks d ∧
  containers d' = if r then filter (λ c, c.1 ≠ id) (containers d) else containers d.
Proof.
  unfold StopAndRemove. intros E. apply remove_spec in E as [? ?].
  destruct (stop_spec d id) as [Hc Hn]. by rewrite Hc, Hn in *.
Qed.
End spec.

(** ** Addresses of a session network *)

Lemma bytes_of_word a b c d :
  0 ≤ b < 256 → 0 ≤ c < 256 → 0 ≤ d < 256 →
  let n := ((a * 256 + b) * 256 + c) * 256 + d in
  [n / 2 ^ 24; n / 2 ^ 16 mod 256; n / 2 ^ 8 mod 256; n mod 256] = [a; b; c; d].
Proof.
  intros Hb Hc Hd n.
  assert (H8 : n / 2 ^ 8 = (a * 256 + b) * 256 + c) by (symmetry; apply (Z.div_unique _ _ _ d); unfold n; lia).
  assert (H16 : n / 2 ^ 16 = a * 256 + b)
    by (symmetry; apply (Z.div_unique _ _ _ (c * 256 + d)); unfold n; lia).
  assert (H24 : n / 2 ^ 24 = a)
    by (symmetry; apply (Z.div_unique _ _ _ ((b * 256 + c) * 256 + d)); unfold n; lia).
  assert (Hmod : ∀ q r, 0 ≤ r < 256 → (q * 256 + r) mod 256 = r).
  { intros q r Hr. symmetry. apply (Z.mod_unique _ _ q); lia. }
  rewrite H8, H16, H24, !Hmod by done. unfold n. by rewrite Hmod.
Qed.

(** The proxy and the sandbox get the addresses after the gateway's, in the same
    [/24]. *)
Lemma network_addresses b0 b1 :
  0 ≤ b0 < 256 → 0 ≤ b1 < 256 →
  nextIP (IPv4 10 b0 b1 1) = Some [10; b0; b1; 2] ∧ nextIP [10; b0; b1; 2] = Some [10; b0; b1; 3].
Proof.
  intros H0 H1. unfold nextIP, wrap_uint.
  change (To4 (IPv4 10 b0 b1 1)) with (Some [10; b0; b1; 1]).
  change (To4 [10; b0; b1; 2]) with (Some [10; b0; b1; 2]). cbv beta iota.
  rewrite !(Z.mod_small _ (2 ^ 32)) by lia. rewrite <-!(Z.add_assoc _ _ 1).
  split; f_equal; apply bytes_of_word; lia.
Qed.
