(* ===== verification/Sandbox.v ===== *)
(** * Starting and stopping a sandbox ([cmd/bootstrap.go], [cmd/up.go], [cmd/down.go],
      [cmd/run.go], [cmd/session.go])

    A session is a network, a proxy container, a sandbox container, a directory
    with credentials and a file with the proxy's configuration.  Starting one
    pushes a clean-up for everything it creates; when a later step fails the
    clean-ups run in reverse. *)

From S2P Require Import Prelude GoStrings Presets Config ProxyServer MonitorUI Container.
Open Scope Z_scope.

Definition imageRevision : gostring := gs "r2".
Definition defaultImagePrefix : gostring := gs "ghcr.io/bernd/vibepit:" ++ imageRevision.
Definition localImage : gostring := gs "vibepit:latest".
Definition homeVolumeName : gostring := gs "vibepit-home".
Definition linuxbrewVolumeName : gostring := gs "vibepit-linuxbrew".
Definition networkNamePrefix : gostring := gs "vibepit-net-".
Definition SSHHostPrivFile : gostring := gs "host-key".
Definition SSHHostPubFile : gostring := gs "host-key.pub".

Definition imageName (uid gid : gostring) : gostring :=
  defaultImagePrefix ++ gs "-uid-" ++ uid ++ gs "-gid-" ++ gid.

Definition containerTerm (t : gostring) : gostring :=
  if bool_decide (t = []) then gs "linux"
  else if bool_decide (t = gs "xterm-ghostty") then gs "xterm-256color"
  else t.

Record userInfo := MkUser { Username : gostring; HomeDir : gostring; uUID : Z; uImage : gostring }.

Inductive upErr :=
  | ENoProject | EUser | EHomeDir | EFind | EOrphaned (session : gostring)
  | EConfig | ESetup | EMerge (e : mergeErr) | EVolume | EBinary | EImage | EDigest | EVerify
  | ENetwork | EPort (e : portErr) | ETempFile | ECredentials | EProxy | EKeys | ESandbox | EStart
  | EExited | ESSHPort | ENotReady | ENoSession | EContainersLeft.

(** ** Session directories ([cmd/session.go]) *)

(** [base] and [legacy] are the two base directories, [exists_] says which
    directories are there. *)
Definition sessionDir (base legacy : gostring) (exists_ : gostring → bool) (sessionID : gostring) : gostring :=
  let dir := pathJoin base sessionID in
  let old := pathJoin legacy sessionID in
  if negb (exists_ dir) && exists_ old then old else dir.

(** [discoverSession] of the listed sessions; [pick] is the interactive choice. *)
Definition discoverSession (sessions : list ProxySession) (filter : gostring)
    (pick : list ProxySession → option SessionInfo) : option SessionInfo :=
  match sessions with
  | [] => None
  | s :: rest =>
      if bool_decide (filter = []) then
        match rest with [] => Some (sessionInfoFromProxy s) | _ => pick sessions end
      else sessionInfoFromProxy ∘ snd <$> list_find (λ ps, matchSession ps filter = true) sessions
  end.

Section sandbox.
Context {D : Type} `{Docker D}.

(** ** The state and the clean-ups *)

(** [sessionDirs] are the sessions with a credential directory; [configFiles]
    the proxy configurations in the temporary directory, as the proxy decodes
    them, [None] for one that was not written to its end. *)
Record world := MkWorld {
  dk : D;
  sessionDirs : gset gostring;
  configFiles : gmap gostring (option ProxyConfig);
}.

Inductive cleanup :=
  | RemoveNetwork (id : gostring)
  | RemoveFile (path : gostring)
  | RemoveCredentials (session : gostring)
  | RemoveContainer (id : gostring).

(** Everything the host decides during one command: the flags, what files hold
    and which operations fail. *)
Record hostEnv := MkHost {
  project : option gostring;           (* the resolved project root *)
  projectExists : bool;
  currentUser : option userInfo;
  local : bool;
  reconfigure : bool;
  cliAllow : list gostring;
  cliPresets : list gostring;
  load : nat → option Config;          (* [config.Load], by call *)
  projectConfigExists : bool;
  dialogOk : bool;                     (* the set-up or reconfigure dialogue *)
  registry : PresetRegistry;
  binary : option gostring;            (* the binary to mount *)
  verifyImage : gostring → bool;       (* the signature checks, by digest *)
  verifyProxyImage : gostring → bool;
  newID : gostring;
  rand : option (Z * Z);
  draw1 : nat → option Z;              (* the random source of either port *)
  draw2 : nat → option Z;
  tempName : gmap gostring (option ProxyConfig) → gostring;
  tempCreated : bool;                  (* [os.CreateTemp] *)
  tempWritten : bool;                  (* writing and closing it *)
  tlsCreds : option (gostring * gostring * gostring);
  mkdirOk : bool;
  credsWritten : bool;
  keys : option gostring;              (* the client's public key *)
  sshWritten : bool;
  stateDir : gostring;
  dirsOk : bool;
  localtime : bool;
  termVar : gostring;
  colorTerm : gostring;
  banner : nat → bool;                 (* whether the attempt reads the SSH banner *)
  attempts : nat;                      (* attempts within 30 seconds *)
  rmDirOk : bool;                      (* [os.RemoveAll] of the credentials *)
  rmFileOk : bool;                     (* [os.Remove] of the configuration *)
}.

Context (env : hostEnv).

Definition setDk (w : world) (d : D) : world := MkWorld d (sessionDirs w) (configFiles w).

(** Errors of a clean-up are only reported. *)
Definition runCleanup (w : world) (c : cleanup) : world :=
  match c with
  | RemoveNetwork id => setDk w (NetworkRemove (dk w) id).1
  | RemoveContainer id => setDk w (StopAndRemove (dk w) id).1
  | RemoveFile path =>
      if rmFileOk env then MkWorld (dk w) (sessionDirs w) (delete path (configFiles w)) else w
  | RemoveCredentials sid =>
      if rmDirOk env then MkWorld (dk w) (sessionDirs w ∖ {[ sid ]}) (configFiles w) else w
  end.

Definition runCleanups (w : world) (cleanups : list cleanup) : world :=
  fold_left runCleanup (reverse cleanups) w.

(** ** Steps that may fail *)

(** The world and the clean-ups pushed so far, threaded through. *)
Definition M (A : Type) : Type := world → list cleanup → world * list cleanup * result upErr A.

Definition bindM {A B} (m : M A) (k : A → M B) : M B := λ w cs,
  match m w cs with
  | (w', cs', Ok a) => k a w' cs'
  | (w', cs', Err e) => (w', cs', Err e)
  end.
Local Notation "'let!' x := m 'in' k" := (bindM m (λ x, k))
  (at level 10, x binder, m at level 100, k at level 200).

Definition retM {A} (a : A) : M A := λ w cs, (w, cs, Ok a).
Definition failM {A} (e : upErr) : M A := λ w cs, (w, cs, Err e).
Definition guardM (b : bool) (e : upErr) : M () := if b then retM () else failM e.
Definition getM {A} (o : option A) (e : upErr) : M A :=
  match o with Some a => retM a | None => failM e end.
Definition readM {A} (f : D → option A) (e : upErr) : M A := λ w cs, getM (f (dk w)) e w cs.

(** A call of the runtime. *)
Definition callM {A} (f : D → D * option A) (e : upErr) : M A := λ w cs,
  match f (dk w) with
  | (d, Some a) => (setDk w d, cs, Ok a)
  | (d, None) => (setDk w d, cs, Err e)
  end.
Definition doM (f : D → D * bool) (e : upErr) : M () :=
  callM (λ d, let '(d', ok) := f d in (d', if ok then Some () else None)) e.

Definition deferM (c : cleanup) : M () := λ w cs, (w, cs ++ [c], Ok ()).

(** ** Starting the infrastructure ([startSessionInfra]) *)

Record sessionInfra := MkInfra {
  iSessionID : gostring;
  SessionDir : gostring;
  SelfBinary : gostring;
  iNetworkInfo : NetworkInfo;
  iProxyPort : Z;
  ProxyContainerID : gostring;
}.

Definition loadConfig : M Config :=
  let! cfg := getM (load env 0) EConfig in
  if reconfigure env then
    let! _ := guardM (dialogOk env) ESetup in getM (load env 1) EConfig
  else if negb (projectConfigExists env) then
    let! _ := guardM (dialogOk env) ESetup in getM (load env 1) EConfig
  else retM cfg.

Definition ensureImages (u : userInfo) : M () :=
  let! _ := doM (λ d, EnsureImage d (uImage u)) EImage in
  let! _ := (if local env then retM ()
             else let! digest := readM (λ d, ImageRepoDigest d (uImage u)) EDigest in
                  guardM (verifyImage env digest) EVerify) in
  let! _ := doM (λ d, EnsureImage d ProxyImage) EImage in
  let! digest := readM (λ d, ImageRepoDigest d ProxyImage) EDigest in
  guardM (verifyProxyImage env digest) EVerify.

(** The configuration file as the proxy reads it. *)
Definition proxyConfig (merged : MergedConfig) (info : NetworkInfo) (proxyPort controlAPIPort : Z)
    (daemon : bool) : ProxyConfig :=
  MkProxyConfig (mAllowHTTP merged) (mAllowDNS merged) (mBlockCIDR merged) (mAllowCIDR merged)
    (mUpstreamDNS merged) (mAllowHostPorts merged) (ProxyIP info) (gs "host-gateway")
    proxyPort controlAPIPort 0 (if daemon then SandboxIP info ++ gs ":2222" else []).

(** A temporary file that cannot be completed is removed at once, if it can be. *)
Definition writeTemp (cfg : ProxyConfig) : M gostring := λ w cs,
  if tempCreated env then
    let path := tempName env (configFiles w) in
    let put f := MkWorld (dk w) (sessionDirs w) (<[path := f]> (configFiles w)) in
    if tempWritten env then (put (Some cfg), cs, Ok path)
    else (runCleanup (put None) (RemoveFile path), cs, Err ETempFile)
  else (w, cs, Err ETempFile).

(** [WriteSessionCredentials]: a directory that was created stays when a file
    in it cannot be written. *)
Definition writeCredentials (sid : gostring) : M gostring := λ w cs,
  if mkdirOk env then
    let w' := MkWorld (dk w) ({[ sid ]} ∪ sessionDirs w) (configFiles w) in
    (w', cs, if credsWritten env then Ok (pathJoin (stateDir env) sid) else Err ECredentials)
  else (w, cs, Err ECredentials).

Definition proxyContainerConfig (projectRoot self path sid : gostring) (info : NetworkInfo)
    (controlAPIPort : Z) (tls : gostring * gostring * gostring) (hosts : list gostring) (daemon : bool) :
    ProxyContainerConfig := {|
  BinaryPath := self; ConfigPath := path; pNetworkID := netID info; pProxyIP := ProxyIP info;
  Container.ControlAPIPort := controlAPIPort; pName := gs "vibepit-proxy-" ++ sid; pSessionID := sid;
  TLSKeyPEM := tls.1.1; TLSCertPEM := tls.1.2; CACertPEM := tls.2; pProjectDir := projectRoot;
  NoRestart := daemon; SSHPort := if daemon then 2222 else 0; pExtraHosts := hosts
|}.

Definition portM (r : result portErr Z) : M Z :=
  match r with Ok p => retM p | Err e => failM (EPort e) end.

Definition mergeM (cfg : Config) : M MergedConfig :=
  match Merge (registry env) cfg (cliAllow env) (cliPresets env) with
  | Ok m => retM m
  | Err e => failM (EMerge e)
  end.

Definition ensureVolumes (u : userInfo) : M () :=
  let! _ := doM (λ d, EnsureVolume d homeVolumeName (uUID u) (Username u)) EVolume in
  doM (λ d, EnsureVolume d linuxbrewVolumeName (uUID u) (Username u)) EVolume.

Definition startSessionInfra (projectRoot : gostring) (u : userInfo) (daemon : bool) : M sessionInfra :=
  let! cfg := loadConfig in
  let! merged := mergeM cfg in
  let! _ := ensureVolumes u in
  let! self := getM (binary env) EBinary in
  let! _ := ensureImages u in
  let sid := newID env in
  let! info := callM (λ d, CreateNetwork d (networkNamePrefix ++ sid) (rand env)) ENetwork in
  let! _ := deferM (RemoveNetwork (netID info)) in
  let! proxyPort := portM (RandomProxyPort (draw1 env) (mAllowHostPorts merged)) in
  let! controlAPIPort := portM (RandomProxyPort (draw2 env) (mAllowHostPorts merged ++ [proxyPort])) in
  let! path := writeTemp (proxyConfig merged info proxyPort controlAPIPort daemon) in
  let! _ := deferM (RemoveFile path) in
  let! tls := getM (tlsCreds env) ECredentials in
  let! dir := writeCredentials sid in
  let! _ := deferM (RemoveCredentials sid) in
  let! proxyID := callM (λ d, StartProxyContainer d
                    (proxyContainerConfig projectRoot self path sid info controlAPIPort tls
                       (mExtraHosts merged) daemon)) EProxy in
  let! _ := deferM (RemoveContainer proxyID) in
  retM (MkInfra sid dir self info proxyPort proxyID).

(** [baseSandboxConfig]; in daemon mode the fields [UpAction] sets. *)
Definition sandboxConfig (projectRoot : gostring) (u : userInfo) (infra : sessionInfra)
    (daemonKey : option gostring) : SandboxContainerConfig := {|
  Image := uImage u; ProjectDir := projectRoot; WorkDir := projectRoot; RuntimeDir := SessionDir infra;
  HomeVolumeName := homeVolumeName; LinuxbrewVolumeName := linuxbrewVolumeName;
  NetworkID := netID (iNetworkInfo infra); sProxyIP := ProxyIP (iNetworkInfo infra);
  sSandboxIP := match daemonKey with Some _ => SandboxIP (iNetworkInfo infra) | None => [] end;
  Container.ProxyPort := iProxyPort infra; Name := gs "vibepit-sandbox-" ++ iSessionID infra;
  Term := containerTerm (termVar env); ColorTerm := colorTerm env; UID := uUID u; User := Username u;
  SessionID := iSessionID infra;
  Daemon := match daemonKey with Some _ => true | None => false end;
  DaemonBinaryPath := match daemonKey with Some _ => SelfBinary infra | None => [] end;
  DaemonHostKeyPath := match daemonKey with Some _ => pathJoin (SessionDir infra) SSHHostPrivFile | None => [] end;
  DaemonHostPubPath := match daemonKey with Some _ => pathJoin (SessionDir infra) SSHHostPubFile | None => [] end;
  DaemonAuthorizedKey := default [] daemonKey;
  DaemonEntrypoint := match daemonKey with Some _ => [gs "/vibed"] | None => [] end
|}.

(** ** [up] *)

Definition resolveProjectAndUser : result upErr (gostring * userInfo) :=
  match project env with
  | None => Err ENoProject
  | Some root =>
      if negb (projectExists env) then Err ENoProject
      else match currentUser env with
           | None => Err EUser
           | Some u =>
               if bool_decide (root = HomeDir u) then Err EHomeDir
               else Ok (root, if local env then MkUser (Username u) (HomeDir u) (uUID u) localImage else u)
           end
  end.

(** Attempts to read the banner, with a look at the container after each
    failure. *)
Fixpoint awaitSSH (n i : nat) (sandboxID : gostring) : M () :=
  match n with
  | 0%nat => failM ENotReady
  | S n' =>
      if banner env i then retM ()
      else
        let! _ := (λ w cs, guardM (bool_decide (ContainerStatus (dk w) sandboxID = gs "running")) EExited w cs) in
        let! _ := callM (λ d, (sleep d, Some ())) EExited in
        awaitSSH n' (S i) sandboxID
  end.

(** From the infrastructure to the running daemon. *)
Definition startDaemon (projectRoot : gostring) (u : userInfo) (infra : sessionInfra) : M () :=
  let! pub := getM (keys env) EKeys in
  let! _ := guardM (sshWritten env) ECredentials in
  let! id := callM (λ d, CreateSandboxContainer d (sandboxConfig projectRoot u infra (Some pub))
                           (dirsOk env) (localtime env)) ESandbox in
  let! _ := deferM (RemoveContainer id) in
  let! _ := doM (λ d, ContainerStart d id) EStart in
  let! _ := callM (λ d, (sleep d, Some ())) EExited in
  let! _ := (λ w cs, guardM (bool_decide (ContainerStatus (dk w) id = gs "running")) EExited w cs) in
  let! _ := readM (λ d, FindPublishedPort d (ProxyContainerID infra) SSHContainerPort) ESSHPort in
  awaitSSH (attempts env) 0 id.

Inductive upResult := AlreadyRunning | Ready (session : gostring).

Definition upBody (projectRoot : gostring) (u : userInfo) : M upResult :=
  let! infra := startSessionInfra projectRoot u true in
  let! _ := startDaemon projectRoot u infra in
  retM (Ready (iSessionID infra)).

Definition UpAction (w : world) : world * result upErr upResult :=
  match resolveProjectAndUser with
  | Err e => (w, Err e)
  | Ok (root, u) =>
      match FindRunningSession (dk w) root with
      | None => (w, Err EFind)
      | Some (Some _) => (w, Ok AlreadyRunning)
      | Some None =>
          match FindAnySessionContainer (dk w) root with
          | None => (w, Err EFind)
          | Some ((_ :: _) as orphan) => (w, Err (EOrphaned orphan))
          | Some [] =>
              match upBody root u w [] with
              | (w', _, Ok r) => (w', Ok r)
              | (w', cleanups, Err e) => (runCleanups w' cleanups, Err e)
              end
          end
      end
  end.

(** ** [run] *)

(** The interactive mode: the clean-ups run whatever happens.  [attach] is the
    attached session, of which only the runtime's state matters here. *)
Definition RunAction (attach : D → gostring → D * bool) (w : world) : world * result upErr () :=
  match resolveProjectAndUser with
  | Err e => (w, Err e)
  | Ok (root, u) =>
      match FindRunningSession (dk w) root with
      | None => (w, Err EFind)
      | Some (Some s) => let '(d, ok) := attach (dk w) (rContainerID s) in
                         (setDk w d, if ok then Ok () else Err ESandbox)
      | Some None =>
          let body :=
            let! infra := startSessionInfra root u false in
            let! id := callM (λ d, CreateSandboxContainer d (sandboxConfig root u infra None)
                                     (dirsOk env) (localtime env)) ESandbox in
            let! _ := deferM (RemoveContainer id) in
            doM (λ d, attach d id) ESandbox in
          let '(w', cleanups, r) := body w [] in (runCleanups w' cleanups, r)
      end
  end.

(** ** [down] *)

(** Every container of the session; whether one could not be removed. *)
Fixpoint removeAll (d : D) (cs : list SessionContainer) : D * bool :=
  match cs with
  | [] => (d, false)
  | c :: cs' =>
      let '(d1, ok) := StopAndRemove d (scID c) in
      let '(d2, failed) := removeAll d1 cs' in
      (d2, negb ok || failed)
  end.

(** The running session of the project, or else any. *)
Definition findSession (d : D) (projectRoot : gostring) : result upErr gostring :=
  match FindRunningSession d projectRoot with
  | None => Err EFind
  | Some (Some s) => Ok (rSessionID s)
  | Some None =>
      match FindAnySessionContainer d projectRoot with
      | None => Err EFind
      | Some [] => Err ENoSession
      | Some sid => Ok sid
      end
  end.

Definition DownAction (w : world) : world * result upErr gostring :=
  match project env with
  | None => (w, Err ENoProject)
  | Some root =>
      match findSession (dk w) root with
      | Err e => (w, Err e)
      | Ok sid =>
          match SessionContainers (dk w) sid with
          | None => (w, Err EFind)
          | Some cs =>
              let '(d1, failed) := removeAll (dk w) cs in
              let d2 := (NetworkRemove d1 (networkNamePrefix ++ sid)).1 in
              if failed then (setDk w d2, Err EContainersLeft)
              else (runCleanup (setDk w d2) (RemoveCredentials sid), Ok sid)
          end
      end
  end.
End sandbox.
