(* ===== verification/SandboxSpec.v ===== *)
(** * What starting and stopping a sandbox guarantees

    Theorems about [Sandbox.v] over any runtime that satisfies [DockerSpec]:
    a failed start takes back what it created, a successful one leaves an
    isolated sandbox behind, and stopping removes one session and no other. *)

From S2P Require Import Prelude GoStrings Presets Config ProxyServer MonitorUI Container Sandbox.
Open Scope Z_scope.

Section spec.
Context {D : Type} `{DockerSpec D} (env : hostEnv).
Local Abbreviation world := (@Sandbox.world D).
Local Abbreviation M := (@Sandbox.M D).

(** ** What a world has gained *)

(** The containers, networks, configuration files and session directories of
    [w] are those of [w0] and the given ones. *)
Record gained (w0 : world) (nc : list (gostring * createSpec)) (nn : list (gostring * netSpec))
    (nf : gmap gostring (option ProxyConfig)) (nd : gset gostring) (w : world) : Prop := {
  g_ctr : containers (dk w) ≡ₚ nc ++ containers (dk w0);
  g_net : networks (dk w) ≡ₚ nn ++ networks (dk w0);
  g_file : configFiles w = nf ∪ configFiles w0;
  g_filed : nf ##ₘ configFiles w0;
  g_dir : sessionDirs w = nd ∪ sessionDirs w0;
}.

Lemma gained_refl w : gained w [] [] ∅ ∅ w.
Proof. split; [done|done|by rewrite (left_id_L ∅ (∪))|apply map_disjoint_empty_l|by rewrite (left_id_L ∅ (∪))]. Qed.

Lemma gained_same w0 nc nn nf nd w d :
  gained w0 nc nn nf nd w → same (dk w) d → gained w0 nc nn nf nd (setDk w d).
Proof. intros [? ? ? ? ?] [Hc Hn]. split; cbn; rewrite ?Hc, ?Hn; done. Qed.

(** What a list of clean-ups removes. *)
Definition ctrsOf (cs : list cleanup) : list gostring :=
  omap (λ c, match c with RemoveContainer id => Some id | _ => None end) cs.
Definition netsOf (cs : list cleanup) : list gostring :=
  omap (λ c, match c with RemoveNetwork id => Some id | _ => None end) cs.
Definition filesOf (cs : list cleanup) : list gostring :=
  omap (λ c, match c with RemoveFile p => Some p | _ => None end) cs.
Definition dirsOf (cs : list cleanup) : list gostring :=
  omap (λ c, match c with RemoveCredentials s => Some s | _ => None end) cs.

(** ** The clean-ups *)

(** Whether a clean-up does its work, and, in a run of clean-ups, which do and
    which do not. *)
Definition removed (w : world) (c : cleanup) : bool :=
  match c with
  | RemoveNetwork id => (NetworkRemove (dk w) id).2
  | RemoveContainer id => (StopAndRemove (dk w) id).2
  | RemoveFile _ => rmFileOk env
  | RemoveCredentials _ => rmDirOk env
  end.

Fixpoint removals (ok : bool) (w : world) (cs : list cleanup) : list cleanup :=
  match cs with
  | [] => []
  | c :: cs => (if Bool.eqb (removed w c) ok then [c] else []) ++ removals ok (runCleanup env w c) cs
  end.

(** The things of these clean-ups are gone, and nothing else. *)
Record cleaned (cs : list cleanup) (w w' : world) : Prop := {
  cl_ctr : containers (dk w') = filter (λ x, x.1 ∉ ctrsOf cs) (containers (dk w));
  cl_net : networks (dk w') = filter (λ x, x.1 ∉ netsOf cs) (networks (dk w));
  cl_file : configFiles w' = filter (λ kv, kv.1 ∉ filesOf cs) (configFiles w);
  cl_dir : sessionDirs w' = sessionDirs w ∖ list_to_set (dirsOf cs);
}.

Lemma cleaned_nil w : cleaned [] w w.
Proof.
  split; cbn; rewrite ?filter_id; try done; try (intros; apply not_elem_of_nil).
  - symmetry. apply map_filter_id. intros. apply not_elem_of_nil.
  - set_solver.
Qed.

Lemma cleaned_same w w' :
  same (dk w) (dk w') → configFiles w' = configFiles w → sessionDirs w' = sessionDirs w → cleaned [] w w'.
Proof. intros [Hc Hn] Hf Hd. destruct (cleaned_nil w). split; rewrite ?Hc, ?Hn, ?Hf, ?Hd; done. Qed.

Lemma cleaned_one w c : netsOf [c] ⊆ (networks (dk w)).*1 →
  cleaned (if removed w c then [c] else []) w (runCleanup env w c).
Proof.
  assert (Hf : ∀ m : gmap gostring (option ProxyConfig), filter (λ kv, kv.1 ∉ @nil gostring) m = m).
  { intros m. apply map_filter_id. intros. apply not_elem_of_nil. }
  assert (Hn : ∀ {A} (l : list (gostring * A)), filter (λ x, x.1 ∉ @nil gostring) l = l).
  { intros A l. apply filter_id. intros. apply not_elem_of_nil. }
  intros Hin. destruct c as [id|p|s|id]; cbn in *.
  - destruct (NetworkRemove (dk w) id) as [d r] eqn:E. assert (Hid : id ∈ (networks (dk w)).*1) by set_solver.
    apply net_remove_spec in E as [Hc E]. cbn. destruct r; [|by apply cleaned_same].
    unfold without in E. rewrite decide_True in E by done.
    split; cbn; rewrite ?Hn, ?Hf; try done; [|set_solver]. rewrite E. apply list_filter_iff. set_solver.
  - destruct (rmFileOk env); [|apply cleaned_nil]. split; cbn; rewrite ?Hn; try done; [|set_solver].
    apply map_eq. intros k. rewrite map_lookup_filter. cbn.
    destruct (decide (k = p)) as [->|Hk]; [rewrite lookup_delete_eq|rewrite lookup_delete_ne by done].
    + destruct (configFiles w !! p); cbn; [|done]. rewrite option_guard_False; [done|set_solver].
    + destruct (configFiles w !! k); cbn; [|done]. rewrite option_guard_True; [done|set_solver].
  - destruct (rmDirOk env); [|apply cleaned_nil]. split; cbn; rewrite ?Hn, ?Hf; try done. set_solver.
  - destruct (StopAndRemove (dk w) id) as [d r] eqn:E.
    apply (StopAndRemove_spec (dk w) id) in E as [Hnet E]. cbn. destruct r; [|by apply cleaned_same].
    split; cbn; rewrite ?Hn, ?Hf; try done; [|set_solver]. rewrite E. apply list_filter_iff. set_solver.
Qed.

Lemma cleaned_app cs1 cs2 w w1 w2 : cleaned cs1 w w1 → cleaned cs2 w1 w2 → cleaned (cs1 ++ cs2) w w2.
Proof.
  intros [c1 n1 f1 d1] [c2 n2 f2 d2].
  split; unfold ctrsOf, netsOf, filesOf, dirsOf in *; rewrite omap_app.
  - rewrite c2, c1, list_filter_filter. apply list_filter_iff. set_solver.
  - rewrite n2, n1, list_filter_filter. apply list_filter_iff. set_solver.
  - rewrite f2, f1, map_filter_filter. apply map_filter_ext. set_solver.
  - rewrite d2, d1. set_solver.
Qed.

Lemma cleaned_fold cs w :
  netsOf cs ⊆ (networks (dk w)).*1 → NoDup (netsOf cs) →
  cleaned (removals true w cs) w (fold_left (runCleanup env) cs w).
Proof.
  revert w. induction cs as [|c cs IH]; intros w Hin Hnd; [apply cleaned_nil|]. cbn [fold_left removals].
  assert (Hc : cleaned (if removed w c then [c] else []) w (runCleanup env w c)).
  { apply cleaned_one. unfold netsOf in *. cbn in *. destruct c; set_solver. }
  eapply cleaned_app; [destruct (removed w c); exact Hc|]. apply IH.
  - rewrite (cl_net _ _ _ Hc). intros n Hn.
    assert (Hn' : n ∈ netsOf (c :: cs)) by (unfold netsOf in *; cbn; destruct c; set_solver).
    apply Hin, list_elem_of_fmap in Hn' as (x & -> & Hx). apply list_elem_of_fmap. exists x. split; [done|].
    apply list_elem_of_filter. split; [|done].
    destruct (removed w c); [|apply not_elem_of_nil]. destruct c; cbn in *; try apply not_elem_of_nil.
    apply NoDup_cons in Hnd as [Hnd _]. set_solver.
  - unfold netsOf in *. cbn in Hnd. destruct c; try done. by apply NoDup_cons in Hnd as [_ Hnd].
Qed.

(** Every clean-up either works or fails. *)
Lemma removals_split w cs : removals true w cs ++ removals false w cs ≡ₚ cs.
Proof.
  revert w. induction cs as [|c cs IH]; intros w; [done|]. cbn [removals].
  destruct (removed w c); cbn; rewrite <- ?Permutation_middle, IH; done.
Qed.

Lemma omap_removals {B} (f : cleanup → option B) w cs :
  omap f (removals true w (reverse cs)) ++ omap f (removals false w (reverse cs)) ≡ₚ omap f cs.
Proof. by rewrite <- omap_app, removals_split, reverse_Permutation. Qed.

(** The removed part of a list whose keys are all different. *)
Lemma filter_removed {A} (rs fs : list gostring) (l1 l2 l3 : list (gostring * A)) :
  NoDup ((l1 ++ l2 ++ l3).*1) → rs ++ fs ≡ₚ l2.*1 →
  ∃ l2', filter (λ x, x.1 ∉ rs) (l1 ++ l2 ++ l3) = l1 ++ l2' ++ l3 ∧ l2'.*1 ≡ₚ fs ∧ l2' ⊆ l2.
Proof.
  rewrite !fmap_app. intros Hnd Hrs. apply NoDup_app in Hnd as (_ & H1 & Hnd).
  apply NoDup_app in Hnd as (Hl2 & H2 & _).
  assert (Hin : ∀ (x : gostring * A) l, x ∈ l → x.1 ∈ l.*1) by (intros; by apply list_elem_of_fmap_2).
  assert (Hr : ∀ k, k ∈ rs → k ∈ l2.*1) by (intros k; rewrite <- Hrs; set_solver).
  exists (filter (λ x, x.1 ∉ rs) l2). split_and!; [|clear H1 H2|].
  - rewrite !filter_app. rewrite (filter_id _ l1), (filter_id _ l3); [done|..];
      intros x Hx; specialize (Hin _ _ Hx); intros Hx'%Hr; set_solver.
  - assert (Hcomm : (filter (λ x, x.1 ∉ rs) l2).*1 = filter (.∉ rs) (l2.*1)).
    { clear. induction l2 as [|x l IH]; [done|]. rewrite fmap_cons, !filter_cons.
      case_decide; cbn; by rewrite ?IH. }
    rewrite Hcomm, <- Hrs, filter_app. rewrite <- Hrs in Hl2. apply NoDup_app in Hl2 as (_ & Hdis & _).
    rewrite (filter_empty _ rs), (filter_id _ fs) by (intros x Hx; naive_solver). done.
  - intros x Hx%list_elem_of_filter. tauto.
Qed.

(** What a start that failed still has of what it gained: the things in [nc],
    [nn], [nf] and [nd], which are exactly those whose removal failed. *)
Definition kept (failed : list cleanup) (nc : list (gostring * createSpec)) (nn : list (gostring * netSpec))
    (nf : gmap gostring (option ProxyConfig)) (nd : gset gostring) : Prop :=
  nc.*1 ≡ₚ ctrsOf failed ∧ nn.*1 ≡ₚ netsOf failed ∧ dom nf = list_to_set (filesOf failed) ∧
  nd = list_to_set (dirsOf failed).

Lemma kept_none nc nn nf nd : kept [] nc nn nf nd → nc = [] ∧ nn = [] ∧ nf = ∅ ∧ nd = ∅.
Proof.
  intros (Hc & Hn & Hf & ->). cbn in *. apply Permutation_nil_r, fmap_nil_inv in Hc, Hn.
  split_and!; [done..| |done]. by apply dom_empty_inv_L.
Qed.

Lemma removals_files w cs : filesOf (removals true w cs) = (if rmFileOk env then filesOf cs else []) ∧
  filesOf (removals false w cs) = if rmFileOk env then [] else filesOf cs.
Proof.
  revert w. induction cs as [|c cs IH]; intros w; [by destruct (rmFileOk env)|]. cbn [removals].
  destruct (IH (runCleanup env w c)) as [IH1 IH2]. unfold filesOf in *. rewrite !omap_app, IH1, IH2.
  destruct c; cbn; try (by destruct (rmFileOk env)); by repeat case_match.
Qed.
Lemma removals_dirs w cs : dirsOf (removals true w cs) = (if rmDirOk env then dirsOf cs else []) ∧
  dirsOf (removals false w cs) = if rmDirOk env then [] else dirsOf cs.
Proof.
  revert w. induction cs as [|c cs IH]; intros w; [by destruct (rmDirOk env)|]. cbn [removals].
  destruct (IH (runCleanup env w c)) as [IH1 IH2]. unfold dirsOf in *. rewrite !omap_app, IH1, IH2.
  destruct c; cbn; try (by destruct (rmDirOk env)); by repeat case_match.
Qed.

(** Clean-ups for everything gained but [lc], [lf] and [ld] leave only those and
    what could not be removed. *)
Lemma runCleanups_gained w0 lc nc nn lf nf ld nd w cs :
  gained w0 (lc ++ nc) nn (lf ∪ nf) (ld ∪ nd) w → lf ##ₘ nf →
  ctrsOf cs ≡ₚ nc.*1 → netsOf cs = nn.*1 → (∀ k, k ∈ filesOf cs ↔ k ∈ dom nf) → list_to_set (dirsOf cs) = nd →
  nd ## ld ∪ sessionDirs w0 →
  ∃ nc' nn' nf' nd', kept (removals false w (reverse cs)) nc' nn' nf' nd' ∧ nc' ⊆ nc ∧ nn' ⊆ nn ∧ nf' ⊆ nf ∧
    gained w0 (lc ++ nc') nn' (lf ∪ nf') (ld ∪ nd') (runCleanups env w cs).
Proof.
  intros [Gc Gn Gf Gfd Gd] Hlf Hc Hn Hf Hd Hdis.
  assert (Hnn : NoDup (([] ++ nn ++ networks (dk w0)).*1)) by (cbn; rewrite <- Gn; apply network_ids).
  assert (Hcn : NoDup ((lc ++ nc ++ containers (dk w0)).*1))
    by (rewrite app_assoc, <- Gc; apply container_ids).
  assert (Hrev : cleaned (removals true w (reverse cs)) w (runCleanups env w cs)).
  { assert (Hp : netsOf (reverse cs) ≡ₚ nn.*1) by (unfold netsOf; by rewrite reverse_Permutation; fold (netsOf cs); rewrite Hn).
    apply cleaned_fold.
    - intros n Hn'. rewrite Hp in Hn'. rewrite Gn, fmap_app. set_solver.
    - rewrite Hp. cbn in Hnn. rewrite fmap_app in Hnn. by apply NoDup_app in Hnn as (? & _). }
  destruct Hrev as [Rc Rn Rf Rd].
  destruct (filter_removed (ctrsOf (removals true w (reverse cs))) (ctrsOf (removals false w (reverse cs)))
              lc nc _ Hcn) as (nc' & Fc & Pc & Sc).
  { rewrite <- Hc. apply omap_removals. }
  destruct (filter_removed (netsOf (removals true w (reverse cs))) (netsOf (removals false w (reverse cs)))
              [] nn _ Hnn) as (nn' & Fn & Pn & Sn).
  { rewrite <- Hn. apply omap_removals. }
  destruct (removals_files w (reverse cs)) as [Ft Ff], (removals_dirs w (reverse cs)) as [Dt Df].
  assert (Hfr : ∀ k, k ∈ filesOf (reverse cs) ↔ k ∈ dom nf).
  { intros k. unfold filesOf. by rewrite reverse_Permutation, <- Hf. }
  assert (Hdr : list_to_set (C := gset gostring) (dirsOf (reverse cs)) = nd).
  { unfold dirsOf. by rewrite reverse_Permutation. }
  exists nc', nn', (if rmFileOk env then ∅ else nf), (if rmDirOk env then ∅ else nd).
  split; [unfold kept; split_and!; try done|split; [done|split; [done|split; [|split; try done]]]].
  - rewrite Ff. destruct (rmFileOk env); [by rewrite dom_empty_L|]. apply set_eq. intros k.
    by rewrite <- Hfr, elem_of_list_to_set.
  - rewrite Df. by destruct (rmDirOk env).
  - destruct (rmFileOk env); [apply map_empty_subseteq|done].
  - rewrite Rc, Gc, <- app_assoc, Fc. by rewrite app_assoc.
  - rewrite Rn, Gn. exact (eq_ind_r (λ x, x ≡ₚ _) (reflexivity _) Fn).
  - rewrite Rf, Gf, Ft. destruct (rmFileOk env).
    + rewrite map_filter_union, map_filter_union by done.
      rewrite (right_id_L ∅ (∪)), <- (right_id_L ∅ (∪) lf). f_equal; [f_equal|].
      * rewrite (right_id_L ∅ (∪)). apply map_filter_id. intros k x Hk. cbn. rewrite Hfr.
        intros [y Hy]%elem_of_dom. by apply (proj1 (map_disjoint_spec _ _) Hlf k x y).
      * apply map_empty_filter. intros k x Hk. cbn. rewrite Hfr. intros Hnot. apply Hnot.
        by apply elem_of_dom_2 in Hk.
      * apply map_filter_id. intros k x Hk. cbn. rewrite Hfr. intros [y Hy]%elem_of_dom.
        apply (proj1 (map_disjoint_spec _ _) Gfd k y x); [|done]. by apply lookup_union_Some_r.
    + apply map_filter_id. intros. apply not_elem_of_nil.
  - apply map_disjoint_union_l in Gfd as [? ?]. destruct (rmFileOk env); [|by apply map_disjoint_union_l].
    by rewrite (right_id_L ∅ (∪)).
  - rewrite Rd, Gd, Dt. destruct (rmDirOk env); [rewrite Hdr|]; set_solver.
Qed.

(** ** Reasoning about steps that may fail *)

Definition triple {A} (P : world → list cleanup → Prop) (m : M A)
    (Q : A → world → list cleanup → Prop) (E : world → list cleanup → Prop) : Prop :=
  ∀ w cs, P w cs →
    match m w cs with
    | (w', cs', Ok a) => Q a w' cs'
    | (w', cs', Err _) => E w' cs'
    end.

Lemma triple_bind {A B} P (m : M A) (k : A → M B) R Q E :
  triple P m R E → (∀ a, triple (R a) (k a) Q E) → triple P (bindM m k) Q E.
Proof.
  intros Hm Hk w cs HP. unfold bindM. specialize (Hm w cs HP).
  destruct (m w cs) as [[w' cs'] [a|e]]; [by apply Hk|done].
Qed.

Lemma triple_conseq {A} P P' (m : M A) Q Q' E :
  triple P' m Q' E → (∀ w cs, P w cs → P' w cs) → (∀ a w cs, Q' a w cs → Q a w cs) → triple P m Q E.
Proof.
  intros Hm HP HQ w cs Hw. specialize (Hm w cs (HP _ _ Hw)). destruct (m w cs) as [[w' cs'] [a|e]]; eauto.
Qed.

Section rules.
Context (P E : world → list cleanup → Prop) (HE : ∀ w cs, P w cs → E w cs).

Lemma triple_ret {A} (a : A) (Q : A → world → list cleanup → Prop) :
  (∀ w cs, P w cs → Q a w cs) → triple P (retM a) Q E.
Proof. intros HQ w cs Hw. by apply HQ. Qed.

Lemma triple_get {A} (o : option A) e : triple P (getM o e) (λ a w cs, o = Some a ∧ P w cs) E.
Proof. intros w cs Hw. destruct o; cbn; auto. Qed.

Lemma triple_guard b e : triple P (guardM b e) (λ _ w cs, b = true ∧ P w cs) E.
Proof. intros w cs Hw. destruct b; cbn; auto. Qed.

Lemma triple_read {A} (f : D → option A) e :
  triple P (readM f e) (λ a w cs, f (dk w) = Some a ∧ P w cs) E.
Proof. intros w cs Hw. unfold readM. destruct (f (dk w)) eqn:Ef; cbn; auto. Qed.

Lemma triple_port r : triple P (portM r) (λ p w cs, r = Ok p ∧ P w cs) E.
Proof. intros w cs Hw. destruct r; cbn; auto. Qed.

Lemma triple_merge cfg :
  triple P (mergeM env cfg)
    (λ m w cs, Merge (registry env) cfg (cliAllow env) (cliPresets env) = Ok m ∧ P w cs) E.
Proof. intros w cs Hw. unfold mergeM. destruct (Merge _ _ _ _); cbn; auto. Qed.

(** A call that creates and removes nothing. *)
Lemma triple_call_same {A} (f : D → D * option A) e :
  (∀ w cs, P w cs → P (setDk w (f (dk w)).1) cs) → triple P (callM f e) (λ _, P) E.
Proof. intros HP w cs Hw. specialize (HP _ _ Hw). unfold callM. destruct (f (dk w)) as [d [a|]]; auto. Qed.

Lemma triple_do_same f e :
  (∀ w cs, P w cs → P (setDk w (f (dk w)).1) cs) → triple P (doM f e) (λ _, P) E.
Proof.
  intros HP. apply triple_call_same. intros w cs Hw. specialize (HP _ _ Hw). by destruct (f (dk w)).
Qed.

Lemma triple_status f e :
  triple P (λ w cs, guardM (f w) e w cs) (λ _, P) E.
Proof. intros w cs Hw. destruct (f w); cbn; auto. Qed.
End rules.

Lemma triple_defer P c E (Q : () → world → list cleanup → Prop) :
  (∀ w cs, P w cs → Q () w (cs ++ [c])) → triple P (deferM c) Q E.
Proof. intros HQ w cs Hw. by apply HQ. Qed.

(** ** The stages of a start *)

(** What has been gained and the clean-ups pushed for it. *)
Definition stage w0 nc nn nf nd (pushed : list cleanup) : world → list cleanup → Prop :=
  λ w cs, gained w0 nc nn nf nd w ∧ cs = pushed.

(** What a failed start does not try to take back: a proxy container that could
    not be connected or started and a credential directory that could not be
    filled; and a configuration file that could neither be written to its end
    nor removed. *)
Definition leftover (root : gostring) (lc : list (gostring * createSpec))
    (lf : gmap gostring (option ProxyConfig)) (ld : gset gostring) : Prop :=
  (lc = [] ∨ ∃ id cfg, lc = [(id, proxySpec cfg)] ∧ pSessionID cfg = newID env ∧ pProjectDir cfg = root) ∧
  (lf = ∅ ∨ rmFileOk env = false ∧ tempWritten env = false ∧ ∃ path, lf = {[ path := None ]}) ∧
  (ld = ∅ ∨ ld = {[ newID env ]}).

Definition recoverable (root : gostring) (w0 w : world) (cs : list cleanup) : Prop :=
  ∃ lc nc nn lf nf ld nd, gained w0 (lc ++ nc) nn (lf ∪ nf) (ld ∪ nd) w ∧ leftover root lc lf ld ∧ lf ##ₘ nf ∧
    ctrsOf cs ≡ₚ nc.*1 ∧ netsOf cs = nn.*1 ∧ (∀ k, k ∈ filesOf cs ↔ k ∈ dom nf) ∧
    list_to_set (dirsOf cs) = nd ∧ nd ## ld ∪ sessionDirs w0.

Lemma stage_recoverable root w0 nc nn nf nd pushed w cs :
  ctrsOf pushed ≡ₚ nc.*1 → netsOf pushed = nn.*1 → (∀ k, k ∈ filesOf pushed ↔ k ∈ dom nf) →
  list_to_set (dirsOf pushed) = nd → nd ## sessionDirs w0 →
  stage w0 nc nn nf nd pushed w cs → recoverable root w0 w cs.
Proof.
  intros ? ? ? ? ? [Hg ->]. exists [], nc, nn, ∅, nf, ∅, nd.
  rewrite !(left_id_L ∅ (∪)). split_and!; try done; [|apply map_disjoint_empty_l]. split; auto.
Qed.

Lemma stage_same w0 nc nn nf nd pushed w cs d :
  stage w0 nc nn nf nd pushed w cs → same (dk w) d → stage w0 nc nn nf nd pushed (setDk w d) cs.
Proof. intros [Hg ->] Hs. split; [by apply gained_same|done]. Qed.

Lemma triple_pure {A} (F : Prop) P (m : M A) Q E :
  (F → triple P m Q E) → triple (λ w cs, F ∧ P w cs) m Q E.
Proof. intros Hm w cs [HF HP]. by apply Hm. Qed.

Lemma triple_exists {A X} (P : X → world → list cleanup → Prop) (m : M A) Q E :
  (∀ x, triple (P x) m Q E) → triple (λ w cs, ∃ x, P x w cs) m Q E.
Proof. intros Hm w cs [x HP]. by apply (Hm x). Qed.

(** *** Before anything is created *)

Section start.
Context (w0 : world) (root : gostring) (u : userInfo) (daemon : bool).
Context (fresh_dir : newID env ∉ sessionDirs w0).
Context (fresh_file : ∀ m, m !! tempName env m = None).

Definition early : world → list cleanup → Prop := λ w cs,
  same (dk w0) (dk w) ∧ sessionDirs w = sessionDirs w0 ∧ configFiles w = configFiles w0 ∧ cs = [].

Lemma early_stage w cs : early w cs → stage w0 [] [] ∅ ∅ [] w cs.
Proof.
  intros ([Hc Hn] & Hd & Hf & ->). split; [|done]. destruct (gained_refl w0).
  split; rewrite ?Hc, ?Hn, ?Hd, ?Hf; done.
Qed.

Lemma early_recoverable w cs : early w cs → recoverable root w0 w cs.
Proof. intros He. eapply stage_recoverable; [..|by apply early_stage]; try done; set_solver. Qed.
Hint Resolve early_recoverable : core.

Lemma early_same w cs d : early w cs → same (dk w) d → early (setDk w d) cs.
Proof. intros (Hs & Hd & Hf & ->) Hs'. split_and!; try done. cbn. by etrans. Qed.

(** The images that were used, with the digest the runtime gave for them. *)
Definition verifiedImages : Prop :=
  (local env = true ∨ ∃ d g, same (dk w0) d ∧ ImageRepoDigest d (uImage u) = Some g ∧ verifyImage env g = true) ∧
  (∃ d g, same (dk w0) d ∧ ImageRepoDigest d ProxyImage = Some g ∧ verifyProxyImage env g = true).

Lemma ensureImages_triple :
  triple early (ensureImages env u) (λ _ w cs, verifiedImages ∧ early w cs) (recoverable root w0).
Proof.
  unfold ensureImages. eapply triple_bind.
  { apply triple_do_same; [exact early_recoverable|]. intros w cs Hw. apply early_same, EnsureImage_same. done. }
  intros []. eapply (triple_bind _ _ _ (λ _ w cs, _ ∧ early w cs)).
  { instantiate (1 := local env = true ∨ ∃ d g, same (dk w0) d ∧ ImageRepoDigest d (uImage u) = Some g ∧
                        verifyImage env g = true).
    destruct (local env) eqn:Hl; [apply triple_ret; auto|].
    eapply triple_bind; [apply triple_read, early_recoverable|]. intros g w cs [Hg Hw]. cbn.
    destruct (verifyImage env g) eqn:Hv; cbn; [|auto]. split; [|done]. right. exists (dk w), g.
    split_and!; [apply Hw|done|done]. }
  intros []. apply triple_pure. intros HF. eapply triple_bind.
  { apply triple_do_same; [exact early_recoverable|]. intros w cs Hw. apply early_same, EnsureImage_same. done. }
  intros []. eapply triple_bind; [apply triple_read, early_recoverable|]. intros g w cs [Hg Hw]. cbn.
  destruct (verifyProxyImage env g) eqn:Hv; cbn; [|auto]. split; [|done]. split; [done|].
  exists (dk w), g. split_and!; [apply Hw|done|done].
Qed.

Lemma loadConfig_triple :
  triple early (loadConfig env) (λ cfg w cs, (∃ i, load env i = Some cfg) ∧ early w cs) (recoverable root w0).
Proof.
  assert (Hg : ∀ i e, triple early (getM (load env i) e)
                        (λ cfg w cs, (∃ i, load env i = Some cfg) ∧ early w cs) (recoverable root w0)).
  { intros i e. eapply triple_conseq; [apply triple_get, early_recoverable|done|]. intros ? ? ? [? ?]; eauto. }
  unfold loadConfig. eapply triple_bind; [apply Hg|]. intros cfg. apply triple_pure. intros Hcfg.
  assert (Hd : triple early (bindM (guardM (dialogOk env) ESetup) (λ _, getM (load env 1) EConfig))
                 (λ cfg w cs, (∃ i, load env i = Some cfg) ∧ early w cs) (recoverable root w0)).
  { eapply triple_bind; [apply triple_guard, early_recoverable|]. intros []. apply triple_pure. intros _. apply Hg. }
  destruct (reconfigure env); [apply Hd|]. destruct (negb _); [apply Hd|]. apply triple_ret; auto.
Qed.

Lemma ensureVolumes_triple : triple early (ensureVolumes u) (λ _, early) (recoverable root w0).
Proof.
  unfold ensureVolumes.
  eapply triple_bind; [|intros []]; apply triple_do_same; try exact early_recoverable; intros w cs Hw;
    apply early_same, EnsureVolume_same; done.
Qed.

(** *** Creating things *)

Lemma createNetwork_triple name :
  triple early (callM (λ d, CreateNetwork d name (rand env)) ENetwork)
    (λ info w cs, ∃ net, nInternal net = true ∧ stage w0 [] [(netID info, net)] ∅ ∅ [] w cs)
    (recoverable root w0).
Proof.
  intros w cs Hw. unfold callM. destruct (CreateNetwork _ _ _) as [d [info|]] eqn:E;
    apply CreateNetwork_spec in E as [Hc Hn].
  - destruct Hn as (net & Hn & Hi & _). exists net. split; [done|].
    destruct (early_stage _ _ Hw) as [[Gc Gn Gf Gd Gs] ->]. split; [|done].
    split; cbn; rewrite ?Hc, ?Hn, ?Gn; done.
  - apply early_recoverable, early_same; done.
Qed.

Definition pushed1 (info : NetworkInfo) : list cleanup := [RemoveNetwork (netID info)].
Definition pushed2 (info : NetworkInfo) (path : gostring) : list cleanup :=
  pushed1 info ++ [RemoveFile path].
Definition pushed3 (info : NetworkInfo) (path : gostring) : list cleanup :=
  pushed2 info path ++ [RemoveCredentials (newID env)].
Definition pushed4 (info : NetworkInfo) (path pid : gostring) : list cleanup :=
  pushed3 info path ++ [RemoveContainer pid].

Definition stage1 info net := stage w0 [] [(netID info, net)] ∅ ∅ (pushed1 info).
Definition stage2 info net path pconf := stage w0 [] [(netID info, net)] {[ path := Some pconf ]} ∅ (pushed2 info path).
Definition stage3 info net path pconf :=
  stage w0 [] [(netID info, net)] {[ path := Some pconf ]} {[ newID env ]} (pushed3 info path).
Definition stage4 info net path pconf pid spec :=
  stage w0 [(pid, spec)] [(netID info, net)] {[ path := Some pconf ]} {[ newID env ]} (pushed4 info path pid).

Lemma stage1_recoverable info net w cs : stage1 info net w cs → recoverable root w0 w cs.
Proof. apply stage_recoverable; try done; set_solver. Qed.
Lemma stage2_recoverable info net path pconf w cs : stage2 info net path pconf w cs → recoverable root w0 w cs.
Proof. apply stage_recoverable; try done. intros k. rewrite dom_singleton_L. set_solver. Qed.
Lemma stage3_recoverable info net path pconf w cs : stage3 info net path pconf w cs → recoverable root w0 w cs.
Proof.
  apply stage_recoverable; try done; [intros k; rewrite dom_singleton_L|cbn|]; set_solver.
Qed.
Lemma stage4_recoverable info net path pconf pid spec w cs :
  stage4 info net path pconf pid spec w cs → recoverable root w0 w cs.
Proof.
  apply stage_recoverable; try done; [intros k; rewrite dom_singleton_L|cbn|]; set_solver.
Qed.

Lemma writeTemp_triple info net pconf :
  triple (stage1 info net) (writeTemp env pconf)
    (λ path w cs, (∃ m, path = tempName env m) ∧
       stage w0 [] [(netID info, net)] {[ path := Some pconf ]} ∅ (pushed1 info) w cs)
    (recoverable root w0).
Proof.
  intros w cs Hw. unfold writeTemp. destruct (tempCreated env); [|by eapply stage1_recoverable].
  pose proof (fresh_file (configFiles w)) as Hfr. pose proof (stage1_recoverable _ _ _ _ Hw) as Hrec.
  destruct Hw as [[Gc Gn Gf Gd Gs] ->]. rewrite (left_id_L ∅ (∪)) in Gf.
  assert (Hg : ∀ f, gained w0 [] [(netID info, net)] {[ tempName env (configFiles w) := f ]} ∅
    (MkWorld (dk w) (sessionDirs w) (<[tempName env (configFiles w) := f]> (configFiles w)))).
  { intros f. split; cbn; try done; rewrite Gf in *; [by rewrite insert_union_singleton_l|].
    by apply map_disjoint_singleton_l. }
  destruct (tempWritten env) eqn:Hwr; [split; [by eexists|]; by split|]. cbn [runCleanup].
  destruct (rmFileOk env) eqn:Hrm; cbn.
  - rewrite delete_insert_id by done. by destruct w.
  - exists [], [], [(netID info, net)], {[ tempName env (configFiles w) := None ]}, ∅, ∅, ∅.
    rewrite !(right_id_L ∅ (∪)). split_and!; try done; [|apply map_disjoint_empty_r|set_solver..].
    split_and!; [by left| |by left]. right. split_and!; eauto.
Qed.

Lemma writeCredentials_triple info net path pconf :
  triple (stage2 info net path pconf) (writeCredentials env (newID env))
    (λ _, stage w0 [] [(netID info, net)] {[ path := Some pconf ]} {[ newID env ]} (pushed2 info path))
    (recoverable root w0).
Proof.
  intros w cs Hw. unfold writeCredentials. destruct (mkdirOk env); [|by eapply stage2_recoverable].
  destruct Hw as [[Gc Gn Gf Gd Gs] ->].
  assert (Hg : gained w0 [] [(netID info, net)] {[ path := Some pconf ]} {[ newID env ]}
                 (MkWorld (dk w) ({[ newID env ]} ∪ sessionDirs w) (configFiles w))).
  { split; cbn; try done. rewrite Gs. set_solver. }
  destruct (credsWritten env); [by split|].
  exists [], [], [(netID info, net)], ∅, {[ path := Some pconf ]}, {[ newID env ]}, ∅.
  rewrite (right_id_L ∅ (∪)), (left_id_L ∅ (∪)).
  split_and!; try done; [|apply map_disjoint_empty_l|set_solver..]. split; auto.
Qed.

Lemma startProxy_triple info net path pconf cfg :
  pSessionID cfg = newID env → pProjectDir cfg = root →
  triple (stage3 info net path pconf) (callM (λ d, StartProxyContainer d cfg) EProxy)
    (λ pid, stage w0 [(pid, proxySpec cfg)] [(netID info, net)] {[ path := Some pconf ]} {[ newID env ]}
              (pushed3 info path))
    (recoverable root w0).
Proof.
  intros Hsid Hroot w cs Hw. unfold callM.
  destruct (StartProxyContainer _ _) as [d r] eqn:E. apply StartProxyContainer_spec in E as [Hn Hc].
  assert (Hg : ∀ id, containers d ≡ₚ (id, proxySpec cfg) :: containers (dk w) →
    gained w0 [(id, proxySpec cfg)] [(netID info, net)] {[ path := Some pconf ]} {[ newID env ]} (setDk w d)).
  { intros id Hc'. destruct Hw as [[Gc Gn Gf Gd Gs] ->]. split; cbn; rewrite ?Hn, ?Hc', ?Gc; done. }
  destruct r as [pid|]; [by split; [apply Hg|apply Hw]|]. destruct Hc as [Hc|[id Hc]].
  - eapply stage3_recoverable, stage_same; done.
  - destruct Hw as [_ ->].
    exists [(id, proxySpec cfg)], [], [(netID info, net)], ∅, {[ path := Some pconf ]}, ∅, {[ newID env ]}.
    rewrite !(left_id_L ∅ (∪)), app_nil_r. split_and!; try done; [by apply Hg|..]; cbn.
    + split_and!; [right; by exists id, cfg|by left..].
    + apply map_disjoint_empty_l.
    + intros k. rewrite dom_singleton_L. set_solver.
    + set_solver.
    + set_solver.
Qed.

(** *** The infrastructure *)

Definition infraReady (infra : sessionInfra) (w : world) (cs : list cleanup) : Prop :=
  let info := iNetworkInfo infra in
  ∃ net path cfg merged controlPort self tls,
    (nInternal net = true ∧ iSessionID infra = newID env ∧ verifiedImages ∧
     (∃ i, load env i = Some cfg) ∧ tlsCreds env = Some tls ∧ binary env = Some self ∧
     (∃ m, path = tempName env m) ∧
     Merge (registry env) cfg (cliAllow env) (cliPresets env) = Ok merged ∧
     49152 ≤ iProxyPort infra ≤ 65535 ∧ 49152 ≤ controlPort ≤ 65535 ∧ iProxyPort infra ≠ controlPort ∧
     iProxyPort infra ∉ mAllowHostPorts merged ∧ controlPort ∉ mAllowHostPorts merged) ∧
    stage4 info net path (proxyConfig merged info (iProxyPort infra) controlPort daemon)
      (ProxyContainerID infra)
      (proxySpec (proxyContainerConfig root self path (newID env) info controlPort tls (mExtraHosts merged) daemon))
      w cs.

Lemma startSessionInfra_triple :
  triple early (startSessionInfra env root u daemon) infraReady (recoverable root w0).
Proof.
  unfold startSessionInfra.
  eapply triple_bind; [apply loadConfig_triple|]. intros cfg. apply triple_pure. intros Hload.
  eapply triple_bind; [apply triple_merge, early_recoverable|]. intros merged. apply triple_pure. intros Hm.
  eapply triple_bind; [apply ensureVolumes_triple|]. intros [].
  eapply triple_bind; [apply triple_get, early_recoverable|]. intros self. apply triple_pure. intros Hself.
  eapply triple_bind; [apply ensureImages_triple|]. intros []. apply triple_pure. intros Himg.
  eapply triple_bind; [apply createNetwork_triple|]. intros info.
  apply triple_exists. intros net. apply triple_pure. intros Hint.
  eapply triple_bind.
  { apply (triple_defer _ _ _ (λ _, stage1 info net)). intros w cs [Hg ->]. by split. }
  intros []. eapply triple_bind; [apply triple_port, stage1_recoverable|]. intros pp. apply triple_pure.
  intros Hpp%pickPort_range.
  eapply triple_bind; [apply triple_port, stage1_recoverable|]. intros cp. apply triple_pure.
  intros Hcp%pickPort_range.
  eapply triple_bind; [apply writeTemp_triple|]. intros path. apply triple_pure. intros Hpath.
  eapply triple_bind.
  { apply (triple_defer _ _ _ (λ _, stage2 info net path (proxyConfig merged info pp cp daemon))).
    intros w cs [Hg ->]. by split. }
  intros []. eapply triple_bind; [apply triple_get, stage2_recoverable|]. intros tls. apply triple_pure. intros Htls.
  eapply triple_bind; [apply writeCredentials_triple|]. intros dir.
  eapply triple_bind.
  { apply (triple_defer _ _ _ (λ _, stage3 info net path (proxyConfig merged info pp cp daemon))).
    intros w cs [Hg ->]. by split. }
  intros []. eapply triple_bind; [by apply startProxy_triple|]. intros pid.
  eapply triple_bind.
  { apply (triple_defer _ _ _ (λ _, stage4 info net path (proxyConfig merged info pp cp daemon) pid
      (proxySpec (proxyContainerConfig root self path (newID env) info cp tls (mExtraHosts merged) daemon)))).
    intros w cs [Hg ->]. by split. }
  intros []. apply triple_ret. intros w cs Hw. exists net, path, cfg, merged, cp, self, tls.
  split; [|exact Hw]. cbn. rewrite elem_of_app in Hcp. split_and!; try done; try lia; set_solver.
Qed.

(** *** The daemon *)

(** With the sandbox container. *)
Definition stage5 info net path pconf pid pspec bid bspec :=
  stage w0 [(bid, bspec); (pid, pspec)] [(netID info, net)] {[ path := Some pconf ]} {[ newID env ]}
    (pushed4 info path pid ++ [RemoveContainer bid]).

Lemma stage5_recoverable info net path pconf pid pspec bid bspec w cs :
  stage5 info net path pconf pid pspec bid bspec w cs → recoverable root w0 w cs.
Proof.
  apply stage_recoverable; try done; [cbn; by constructor|intros k; rewrite dom_singleton_L|cbn|]; set_solver.
Qed.

Lemma createSandbox_triple info net path pconf pid pspec cfg :
  triple (stage4 info net path pconf pid pspec)
    (callM (λ d, CreateSandboxContainer d cfg (dirsOk env) (localtime env)) ESandbox)
    (λ bid, stage w0 [(bid, sandboxSpec cfg (localtime env)); (pid, pspec)] [(netID info, net)]
              {[ path := Some pconf ]} {[ newID env ]} (pushed4 info path pid))
    (recoverable root w0).
Proof.
  intros w cs Hw. unfold callM, CreateSandboxContainer.
  destruct (dirsOk env); [|by eapply stage4_recoverable, stage_same].
  destruct (ContainerCreate _ _) as [d [bid|]] eqn:E; apply create_spec in E as [Hn Hc].
  - destruct Hw as [[Gc Gn Gf Gd Gs] ->]. split; [|done]. split; cbn; rewrite ?Hn, ?Hc, ?Gc; done.
  - eapply stage4_recoverable, stage_same; done.
Qed.

Lemma awaitSSH_triple P n i id :
  (∀ w cs, P w cs → recoverable root w0 w cs) → (∀ w cs d, P w cs → same (dk w) d → P (setDk w d) cs) →
  triple P (awaitSSH env n i id) (λ _, P) (recoverable root w0).
Proof.
  intros HE HS. revert i. induction n as [|n IH]; intros i; cbn [awaitSSH].
  { intros w cs Hw. by apply HE. }
  destruct (banner env i); [apply triple_ret; auto|].
  eapply triple_bind; [by apply triple_status|]. intros [].
  eapply triple_bind; [apply triple_call_same; [done|]|intros []; apply IH].
  intros w cs Hw. apply HS; [done|]. apply sleep_spec.
Qed.

(** The state [up] leaves behind. *)
Definition daemonReady (infra : sessionInfra) (pub : gostring) (w : world) (cs : list cleanup) : Prop :=
  let info := iNetworkInfo infra in
  ∃ net path cfg merged controlPort self tls bid,
    (nInternal net = true ∧ iSessionID infra = newID env ∧ verifiedImages ∧
     (∃ i, load env i = Some cfg) ∧ tlsCreds env = Some tls ∧ binary env = Some self ∧
     (∃ m, path = tempName env m) ∧
     Merge (registry env) cfg (cliAllow env) (cliPresets env) = Ok merged ∧
     49152 ≤ iProxyPort infra ≤ 65535 ∧ 49152 ≤ controlPort ≤ 65535 ∧ iProxyPort infra ≠ controlPort ∧
     iProxyPort infra ∉ mAllowHostPorts merged ∧ controlPort ∉ mAllowHostPorts merged) ∧
    stage5 info net path (proxyConfig merged info (iProxyPort infra) controlPort daemon)
      (ProxyContainerID infra)
      (proxySpec (proxyContainerConfig root self path (newID env) info controlPort tls (mExtraHosts merged) daemon))
      bid (sandboxSpec (sandboxConfig env root u infra (Some pub)) (localtime env)) w cs.

Lemma startDaemon_triple infra :
  triple (infraReady infra) (startDaemon env root u infra)
    (λ _ w cs, ∃ pub, daemonReady infra pub w cs) (recoverable root w0).
Proof.
  unfold infraReady. cbv zeta. apply triple_exists; intros net. apply triple_exists; intros path.
  apply triple_exists; intros cfg. apply triple_exists; intros merged. apply triple_exists; intros cp.
  apply triple_exists; intros self. apply triple_exists; intros tls. apply triple_pure. intros HF.
  set (info := iNetworkInfo infra) in *. unfold startDaemon.
  eapply triple_bind; [apply triple_get, stage4_recoverable|]. intros pub. apply triple_pure. intros _.
  eapply triple_bind; [apply triple_guard, stage4_recoverable|]. intros []. apply triple_pure. intros _.
  eapply triple_bind; [apply createSandbox_triple|]. intros bid. cbv beta.
  match goal with |- triple (stage w0 [_; (?pid, ?ps)] _ {[ _ := Some ?pconf ]} _ _) _ _ _ =>
    set (S5 := stage5 info net path pconf pid ps bid
                 (sandboxSpec (sandboxConfig env root u infra (Some pub)) (localtime env))) end.
  eapply triple_bind.
  { apply (triple_defer _ _ _ (λ _, S5)). intros w cs [Hg ->]. by split. }
  assert (HE : ∀ w cs, S5 w cs → recoverable root w0 w cs) by apply stage5_recoverable.
  assert (HS : ∀ w cs d, S5 w cs → same (dk w) d → S5 (setDk w d) cs) by (intros; by apply stage_same).
  intros []. eapply triple_bind.
  { apply triple_do_same; [exact HE|]. intros w cs Hw. apply HS; [done|].
    destruct (ContainerStart _ _) eqn:E. by apply start_spec in E. }
  intros []. eapply triple_bind.
  { apply triple_call_same; [exact HE|]. intros w cs Hw. apply HS; [done|]. apply sleep_spec. }
  intros []. eapply triple_bind; [by apply triple_status|]. intros [].
  eapply triple_bind; [by apply triple_read|]. intros port w cs [_ Hw].
  eapply triple_conseq; [by apply awaitSSH_triple|exact (λ _ _ x, x)| |exact Hw].
  intros [] w' cs' Hw'. exists pub, net, path, cfg, merged, cp, self, tls, bid. by split.
Qed.

Lemma upBody_triple :
  daemon = true →
  triple early (upBody env root u)
    (λ r w cs, r = Ready (newID env) ∧ ∃ infra pub, daemonReady infra pub w cs) (recoverable root w0).
Proof.
  intros Hd. pose proof startSessionInfra_triple as Hs. rewrite Hd in Hs at 1. unfold upBody.
  eapply triple_bind; [apply Hs|]. intros infra.
  eapply triple_bind; [apply startDaemon_triple|]. intros []. apply triple_ret.
  intros w cs (pub & Hw). split; [|by exists infra, pub].
  destruct Hw as (net & path & cfg & merged & cp & self & tls & bid & (_ & -> & _) & _). done.
Qed.
End start.

(** ** Isolation *)

(** How a sandbox container is confined: its only network is [net], it
    publishes no port, resolves names through the proxy, has a read-only root
    and no capabilities; the only writable mounts are the two volumes and the
    project, whose configuration directory is hidden by a later read-only
    mount. *)
Definition confined (s : createSpec) (net proxyIP root : gostring) : Prop :=
  dom (cEndpoints s) = {[ net ]} ∧ cNetworkMode s = [] ∧ cPortBindings s = ∅ ∧ cExposedPorts s = ∅ ∧
  cExtraHosts s = [] ∧ cDNS s = [proxyIP] ∧
  cReadonlyRootfs s = true ∧ cCapDrop s = [gs "ALL"] ∧ cSecurityOpt s = [gs "no-new-privileges"] ∧
  (∀ b, b ∈ cBinds s → b = homeVolumeName ++ gs ":" ++ HomeMountPath ∨
     b = linuxbrewVolumeName ++ gs ":" ++ LinuxbrewMountPath ∨ b = root ++ gs ":" ++ root ∨
     HasSuffix b (gs ":ro") = true) ∧
  (∃ before fake after, cBinds s = before ++ [root ++ gs ":" ++ root;
     fake ++ gs ":" ++ pathJoin root ProjectConfigDirName ++ gs ":ro"] ++ after).

Lemma HasSuffix_app_r s p q : HasSuffix p q = true → HasSuffix (s ++ p) q = true.
Proof.
  unfold HasSuffix. rewrite reverse_app. generalize (reverse p), (reverse q), (reverse s). clear.
  intros p q s. revert p. induction q as [|c q IH]; intros [|c' p]; cbn; try done.
  intros [-> Hp]%andb_prop. cbn. by apply IH.
Qed.

Lemma sandbox_confined root u infra pub lt :
  confined (sandboxSpec (sandboxConfig env root u infra pub) lt) (netID (iNetworkInfo infra))
    (ProxyIP (iNetworkInfo infra)) root.
Proof.
  split_and!; try done; [apply dom_singleton_L| |].
  - intros b. unfold sandboxSpec. cbn [cBinds]. unfold sandboxBinds. rewrite !elem_of_app. cbn [Daemon sandboxConfig].
    rewrite !elem_of_cons, elem_of_nil.
    intros [Hb|[Hb|Hb]].
    + destruct Hb as [->|[->|[->|[->|[->|[]]]]]]; auto; do 3 right; repeat apply HasSuffix_app_r; by vm_compute.
    + destruct lt; [|by apply elem_of_nil in Hb]. apply list_elem_of_singleton in Hb as ->. do 3 right.
      by vm_compute.
    + destruct pub; [|by apply elem_of_nil in Hb]. rewrite !elem_of_cons, elem_of_nil in Hb.
      destruct Hb as [->|[->|[->|[]]]]; do 3 right; repeat apply HasSuffix_app_r; by vm_compute.
  - unfold sandboxSpec. cbn [cBinds]. unfold sandboxBinds. eexists [_; _], _, _. done.
Qed.

(** ** [up] *)

(** What a successful [up] adds to a world: one internal network, the proxy and
    a confined sandbox on it from verified images, the credentials, and a
    configuration the proxy accepts. *)
Definition upAdds `{UnicodeTables} (root : gostring) (u : userInfo) (w w' : world) : Prop :=
  ∃ info net path pconf pid pspec bid bspec,
    gained w [(bid, bspec); (pid, pspec)] [(netID info, net)] {[ path := Some pconf ]} {[ newID env ]} w' ∧
    nInternal net = true ∧ verifiedImages w u ∧ cImage bspec = uImage u ∧ cImage pspec = ProxyImage ∧
    confined bspec (netID info) (ProxyIP info) root ∧
    cLabels bspec !! LabelSessionID = Some (newID env) ∧ cLabels pspec !! LabelSessionID = Some (newID env) ∧
    ProxyServer.ProxyIP pconf = ProxyIP info ∧
    (∃ cfg merged, Merge (registry env) cfg (cliAllow env) (cliPresets env) = Ok merged ∧
       ProxyServer.AllowHTTP pconf = mAllowHTTP merged ∧ ProxyServer.AllowDNS pconf = mAllowDNS merged) ∧
    is_ok (Run (NewServer pconf)) = true.

Lemma Run_ok `{UnicodeTables} pconf :
  is_ok (Allowlist.NewHTTPAllowlist (ProxyServer.AllowHTTP pconf)) = true →
  is_ok (Allowlist.NewDNSAllowlist (ProxyServer.AllowDNS pconf)) = true → is_ok (Run (NewServer pconf)) = true.
Proof.
  intros H1' H2'. assert (Hh : ProxyServer.AllowHTTP (NewServer pconf) = ProxyServer.AllowHTTP pconf) by (unfold NewServer; by case_bool_decide).
  assert (Hd : ProxyServer.AllowDNS (NewServer pconf) = ProxyServer.AllowDNS pconf) by (unfold NewServer; by case_bool_decide).
  unfold Run. rewrite Hh, Hd.
  destruct (Allowlist.NewHTTPAllowlist _); [|done]. by destruct (Allowlist.NewDNSAllowlist _).
Qed.

(** The two ways [up] gets past its checks. *)
Lemma UpAction_cases w w' r :
  newID env ∉ sessionDirs w → (∀ m, m !! tempName env m = None) →
  UpAction env w = (w', r) →
  match r with
  | Ok AlreadyRunning => w' = w
  | Ok (Ready sid) => sid = newID env ∧
      ∃ root u infra pub cs, resolveProjectAndUser env = Ok (root, u) ∧ root ≠ HomeDir u ∧
        daemonReady w root u true infra pub w' cs
  | Err e => w' = w ∨ ∃ root u w1 cs, resolveProjectAndUser env = Ok (root, u) ∧
      upBody env root u w [] = (w1, cs, Err e) ∧ recoverable root w w1 cs ∧ w' = runCleanups env w1 cs
  end.
Proof.
  intros Hdir Hfile. unfold UpAction.
  destruct (resolveProjectAndUser env) as [[root u]|e] eqn:Hres; [|intros [= <- <-]; by left].
  destruct (FindRunningSession (dk w) root) as [[s|]|]; [by intros [= <- <-]| |intros [= <- <-]; by left].
  destruct (FindAnySessionContainer (dk w) root) as [[|c o]|]; [|intros [= <- <-]; by left..].
  pose proof (upBody_triple w root u true Hdir Hfile eq_refl w []) as Hup.
  destruct (upBody env root u w []) as [[w1 cs1] [ur|e]] eqn:Hbody; intros [= <- <-].
  - destruct Hup as (-> & infra & pub & Hd); [by split_and!|]. split; [done|].
    exists root, u, infra, pub, cs1. split; [done|]. split; [|done].
    unfold resolveProjectAndUser in Hres. destruct (project env), (negb (projectExists env)),
      (currentUser env); try done. case_bool_decide; [done|]. by destruct (local env); simplify_eq.
  - right. exists root, u, w1, cs1. split_and!; try done. apply Hup. by split_and!.
Qed.

(** The labels by which a session's containers are found. *)
Lemma proxy_session_label cfg :
  pSessionID cfg ≠ [] → cLabels (proxySpec cfg) !! LabelSessionID = Some (pSessionID cfg).
Proof. intros Hs. cbn. unfold proxyLabels. rewrite bool_decide_false by done. apply lookup_insert_eq. Qed.

Lemma sandbox_session_label root u infra pub lt :
  cLabels (sandboxSpec (sandboxConfig env root u infra pub) lt) !! LabelSessionID = Some (iSessionID infra).
Proof.
  cbn. unfold sandboxLabels. rewrite !lookup_insert_ne by (intros Hx; vm_compute in Hx; discriminate Hx).
  by rewrite lookup_singleton_eq.
Qed.

(** The clean-ups of a failing [up] that fail themselves. *)
Definition failedRemovals (w : world) : list cleanup :=
  match resolveProjectAndUser env with
  | Ok (root, u) =>
      match upBody env root u w [] with
      | (w1, cs, Err _) => removals false w1 (reverse cs)
      | _ => []
      end
  | _ => []
  end.


End spec.

(** ** [down] *)

Section down.
Context {D : Type} `{DockerSpec D} (env : hostEnv).
Local Abbreviation world := (@Sandbox.world D).

(** Which of the listed containers are removed. *)
Lemma removeAll_spec d cs d' failed :
  removeAll d cs = (d', failed) → networks d' = networks d ∧
  ∃ rm, rm ⊆ scID <$> cs ∧ containers d' = filter (λ c, c.1 ∉ rm) (containers d) ∧
    (failed = false → scID <$> cs ⊆ rm).
Proof.
  revert d d' failed. induction cs as [|c cs IH]; intros d d' failed; cbn [removeAll].
  { intros [= <- <-]. split; [done|]. exists []. split_and!; [done| |done].
    symmetry. apply filter_id. intros. apply not_elem_of_nil. }
  destruct (StopAndRemove d (scID c)) as [d1 ok] eqn:E1. apply StopAndRemove_spec in E1 as [Hn1 Hc1].
  destruct (removeAll d1 cs) as [d2 f2] eqn:E2. apply IH in E2 as (Hn2 & rm & Hsub & Hc2 & Hf2).
  intros [= <- <-]. split; [congruence|]. exists ((if ok then [scID c] else []) ++ rm). split_and!.
  - rewrite fmap_cons. destruct ok; cbn; set_solver.
  - rewrite Hc2, Hc1. destruct ok; cbn [app]; [|done]. rewrite list_filter_filter. apply list_filter_iff.
    intros x. rewrite not_elem_of_cons. tauto.
  - rewrite fmap_cons. destruct ok; cbn; [|done]. intros Hf. specialize (Hf2 Hf). set_solver.
Qed.

Lemma NoDup_fst_unique {A} (l : list (gostring * A)) k a b :
  NoDup l.*1 → (k, a) ∈ l → (k, b) ∈ l → a = b.
Proof.
  induction l as [|[k' c] l IH]; cbn; [set_solver|]. intros [Hn Hnd]%NoDup_cons Ha Hb.
  assert (Hin : ∀ x, (k', x) ∈ l → False).
  { intros x Hx. apply Hn. by apply (list_elem_of_fmap_2 fst l (k', x)). }
  rewrite elem_of_cons in Ha, Hb. destruct Ha as [Ha|Ha], Hb as [Hb|Hb]; simplify_eq; try done;
    [exfalso; by eapply Hin..|by apply IH].
Qed.

Lemma filter_iff_in {A} (P1 P2 : A → Prop) `{∀ x, Decision (P1 x), ∀ x, Decision (P2 x)} (l : list A) :
  (∀ x, x ∈ l → P1 x ↔ P2 x) → filter P1 l = filter P2 l.
Proof.
  induction l as [|x l IH]; intros Hl; [done|]. rewrite !filter_cons.
  rewrite IH by (intros; apply Hl; by right).
  destruct (Hl x) as [H12 H21]; [left|]. by do 2 case_decide; auto; exfalso; auto.
Qed.

Definition inSession (sid : gostring) (c : gostring * createSpec) : Prop :=
  cLabels c.2 !! LabelSessionID = Some sid.
#[global] Instance inSession_dec sid c : Decision (inSession sid c).
Proof. unfold inSession. apply _. Defined.

(** The listed containers are exactly those of the session. *)
Lemma SessionContainers_spec d sid cs c :
  SessionContainers d sid = Some cs → c ∈ containers d → c.1 ∈ scID <$> cs ↔ inSession sid c.
Proof.
  unfold SessionContainers. destruct (ContainerList _ _ _) as [l|] eqn:E; [|done].
  intros [= <-] Hc. rewrite <- list_fmap_compose. cbn.
  change (c.1 ∈ sumID <$> l ↔ inSession sid c). split.
  - intros (x & Hx & Hin)%list_elem_of_fmap. destruct (list_sound _ _ _ _ E x Hin) as (s & Hs & _ & Hl).
    apply Forall_cons in Hl as [Hl _]. unfold hasLabel in Hl. cbn [fst snd] in Hl. unfold inSession.
    destruct c as [id s']. cbn [fst snd] in *. subst id.
    rewrite (NoDup_fst_unique _ _ _ _ (container_ids d) Hc Hs). exact Hl.
  - intros Hs. destruct c as [id s]. eapply list_complete; [exact E|exact Hc|]. by apply Forall_singleton.
Qed.

(** The session is one of the project. *)
Lemma findSession_spec d root sid :
  findSession d root = Ok sid → ∃ c, c ∈ containers d ∧
    cLabels c.2 !! LabelProjectDir = Some root ∧ label (cLabels c.2) LabelSessionID = sid.
Proof.
  unfold findSession, FindRunningSession, FindAnySessionContainer.
  assert (Hl : ∀ all fs x l, ContainerList d all ((LabelProjectDir, Some root) :: fs) = Some (x :: l) →
    ∃ c, c ∈ containers d ∧ cLabels c.2 !! LabelProjectDir = Some root ∧ sumLabels x = cLabels c.2).
  { intros all fs x l E. destruct (list_sound _ _ _ _ E x) as (s & Hs & Hx & Hf); [by left|].
    apply Forall_cons in Hf as [Hf _]. by exists (sumID x, s). }
  destruct (ContainerList d false _) as [[|x l]|] eqn:E1; [| |done].
  - destruct (ContainerList d true _) as [[|y l]|] eqn:E2; [done| |done].
    destruct (Hl _ _ _ _ E2) as (c & ? & ? & Hy). rewrite Hy.
    destruct (label (cLabels c.2) LabelSessionID) eqn:El; [done|]. intros [= <-]. eauto.
  - destruct (Hl _ _ _ _ E1) as (c & ? & ? & Hx). cbn. rewrite Hx. intros [= <-]. eauto.
Qed.

(** C32: [down] stops one session and no other.  When it reports success, every
    container of the session it found for the project is gone and its
    credentials are, if they could be removed; when a container could not be
    removed, the credentials are kept for another try; in every case the
    containers of all other sessions are untouched, the only network that may be
    gone is the session's, and no configuration file is removed. *)
Theorem down_removes_session w w' r :
  DownAction env w = (w', r) →
  configFiles w' = configFiles w ∧
  match r with
  | Ok sid =>
      containers (dk w') = filter (λ c, ¬ inSession sid c) (containers (dk w)) ∧
      (networks (dk w') = networks (dk w) ∨
       networks (dk w') = without (networkNamePrefix ++ sid) (networks (dk w))) ∧
      sessionDirs w' = (if rmDirOk env then sessionDirs w ∖ {[ sid ]} else sessionDirs w) ∧
      ∃ root c, project env = Some root ∧ c ∈ containers (dk w) ∧
        cLabels c.2 !! LabelProjectDir = Some root ∧ label (cLabels c.2) LabelSessionID = sid
  | Err EContainersLeft =>
      sessionDirs w' = sessionDirs w ∧
      ∃ sid, filter (λ c, ¬ inSession sid c) (containers (dk w')) =
             filter (λ c, ¬ inSession sid c) (containers (dk w))
  | Err _ => w' = w
  end.
Proof.
  unfold DownAction. destruct (project env) as [root|]; [|by intros [= <- <-]].
  destruct (findSession (dk w) root) as [sid|e] eqn:Hfind.
  2: { unfold findSession in Hfind. intros [= <- <-]. split; [done|]. destruct e; try done.
       by repeat (case_match; simplify_eq). }
  apply findSession_spec in Hfind as (c & Hin & Hproj & Hsid).
  destruct (SessionContainers (dk w) sid) as [cs|] eqn:Hcs; [|by intros [= <- <-]].
  destruct (removeAll (dk w) cs) as [d1 failed] eqn:Hrm.
  apply removeAll_spec in Hrm as (Hn & rm & Hsub & Hc & Hall).
  destruct (NetworkRemove d1 _) as [d2 ok] eqn:Hnr. apply net_remove_spec in Hnr as [Hc2 Hn2]. cbn [fst].
  assert (Hother : ∀ x, x ∈ containers (dk w) → x.1 ∈ rm → inSession sid x).
  { intros x Hx Hr. eapply SessionContainers_spec; eauto. }
  destruct failed; intros [= <- <-]; cbn [runCleanup].
  - split; [done|]. cbn. split; [done|]. exists sid. rewrite Hc2, Hc, list_filter_filter.
    apply filter_iff_in. intros x Hx. specialize (Hother x Hx). tauto.
  - split; [by destruct (rmDirOk env)|]. split_and!.
    + replace (dk _) with d2 by by destruct (rmDirOk env). rewrite Hc2, Hc.
      apply filter_iff_in. intros x Hx. split; [|by intros Hnot Hr; apply Hnot, Hother].
      intros Hr Hs. apply Hr, Hall; [done|]. by eapply SessionContainers_spec.
    + replace (dk _) with d2 by by destruct (rmDirOk env). rewrite Hn2, Hn. destruct ok; auto.
    + by destruct (rmDirOk env).
    + by exists root, c.
Qed.
End down.

(** ** A small runtime *)

(** Enough of a runtime to satisfy [DockerSpec]: lists of containers and
    networks, and whether a started container stays up. *)
Record toy := MkToy {
  tContainers : list (gostring * createSpec);
  tNetworks : list (gostring * netSpec);
  tRunning : gset gostring;
  tConnects : bool;
  tc_ids : NoDup tContainers.*1;
  tn_ids : NoDup tNetworks.*1;
}.

Lemma NoDup_fresh_cons {A} (l : list (gostring * A)) (a : A) :
  NoDup l.*1 → NoDup ((longerThan l.*1, a) :: l).*1.
Proof. intros. cbn. apply NoDup_cons. split; [apply (longerThan_fresh _ [])|done]. Qed.

Lemma NoDup_filter_fst {A} (P : gostring * A → Prop) `{∀ x, Decision (P x)} (l : list (gostring * A)) :
  NoDup l.*1 → NoDup (filter P l).*1.
Proof.
  induction l as [|x l IH]; [done|]. rewrite fmap_cons. intros [Hn Hnd]%NoDup_cons. rewrite filter_cons.
  case_decide; [|by apply IH]. rewrite fmap_cons. apply NoDup_cons. split; [|by apply IH].
  intros (y & Hy & Hin)%list_elem_of_fmap. apply Hn. rewrite Hy. apply list_elem_of_fmap_2.
  by apply list_elem_of_filter in Hin as [_ ?].
Qed.

Lemma NoDup_without n (l : list (gostring * netSpec)) : NoDup l.*1 → NoDup (without n l).*1.
Proof. intros. unfold without. case_decide; by apply NoDup_filter_fst. Qed.

Definition toyCreate (d : toy) (s : createSpec) : toy * option gostring :=
  let id := longerThan (tContainers d).*1 in
  (MkToy ((id, s) :: tContainers d) (tNetworks d) (tRunning d) (tConnects d)
     (NoDup_fresh_cons _ _ (tc_ids d)) (tn_ids d), Some id).

Definition toyRemove (d : toy) (id : gostring) : toy * bool :=
  (MkToy (filter (λ c, c.1 ≠ id) (tContainers d)) (tNetworks d) (tRunning d) (tConnects d)
     (NoDup_filter_fst _ _ (tc_ids d)) (tn_ids d), true).

Definition toyNet (d : toy) (s : netSpec) : toy * option gostring :=
  let id := longerThan (tNetworks d).*1 in
  (MkToy (tContainers d) ((id, s) :: tNetworks d) (tRunning d) (tConnects d)
     (tc_ids d) (NoDup_fresh_cons _ _ (tn_ids d)), Some id).

Definition toyNetRemove (d : toy) (n : gostring) : toy * bool :=
  (MkToy (tContainers d) (without n (tNetworks d)) (tRunning d) (tConnects d) (tc_ids d)
     (NoDup_without _ _ (tn_ids d)), true).

Definition toyStart (d : toy) (id : gostring) : toy * bool :=
  (MkToy (tContainers d) (tNetworks d) ({[ id ]} ∪ tRunning d) (tConnects d) (tc_ids d) (tn_ids d), true).

Definition toyMatch (d : toy) (all : bool) (fs : list labelFilter) (c : gostring * createSpec) : Prop :=
  (all = true ∨ c.1 ∈ tRunning d) ∧ Forall (hasLabel (cLabels c.2)) fs.
#[local] Instance toyMatch_dec d all fs c : Decision (toyMatch d all fs c).
Proof. unfold toyMatch. apply _. Defined.

Definition toyList (d : toy) (all : bool) (fs : list labelFilter) : option (list summary) :=
  Some ((λ c, MkSummary c.1 [gs "/" ++ cName c.2] (cLabels c.2) 0) <$> filter (toyMatch d all fs) (tContainers d)).

Definition toyInspect (d : toy) (id : gostring) : option inspection :=
  (λ c : nat * (gostring * createSpec),
     MkInspection (cLabels c.2.2) ((λ _, [MkBinding (gs "127.0.0.1") (gs "40022")]) <$> cPortBindings c.2.2)
       (if decide (id ∈ tRunning d) then gs "running" else gs "created") 0)
  <$> list_find (λ c, c.1 = id) (tContainers d).

#[local] Instance toy_docker : Docker toy := {|
  ContainerList := toyList;
  ContainerInspect := toyInspect;
  ContainerCreate := toyCreate;
  ContainerStart := toyStart;
  ContainerStop := λ d _, d;
  ContainerRemove := toyRemove;
  NetworkCreate := toyNet;
  NetworkConnect := λ d _ _ _, (d, tConnects d);
  NetworkRemove := toyNetRemove;
  ImageList := λ _ ref, Some [ref];
  ImagePull := λ d _, (d, true);
  ImageInspect := λ _ ref, Some [ref ++ gs "@sha256:00"];
  VolumeList := λ _ name, Some [name];
  VolumeCreate := λ d _ _, (d, true);
  sleep := λ d, d;
|}.

#[local] Instance toy_spec : DockerSpec toy.
Proof.
  refine {| containers := tContainers; networks := tNetworks |}; try (by intros; simplify_eq/=).
  - apply tc_ids.
  - apply tn_ids.
  - intros d all fs cs [= <-] c Hc. apply list_elem_of_fmap in Hc as (x & -> & Hx).
    apply list_elem_of_filter in Hx as [[_ Hf] Hx]. exists x.2. cbn. by destruct x.
  - intros d fs cs [= <-] id s Hin Hf. rewrite <- list_fmap_compose. apply list_elem_of_fmap.
    exists (id, s). split; [done|]. apply list_elem_of_filter. split; [|done]. split; [by left|done].
  - by intros d s d' r [= <- <-].
  - by intros d id d' r [= <- <-].
  - by intros d id d' r [= <- <-].
  - by intros d s d' r [= <- <-].
  - by intros d n d' r [= <- <-].
Defined.

(** One project, one user, everything working but possibly the proxy's network. *)
Definition demo_registry : PresetRegistry := NewPresetRegistry [].

Definition demo_host : hostEnv := {|
  project := Some (gs "/src/app"); projectExists := true;
  currentUser := Some (MkUser (gs "u") (gs "/home/u") 1000 (imageName (gs "1000") (gs "1000")));
  local := false; reconfigure := false; cliAllow := [gs "example.com:443"]; cliPresets := [];
  load := λ _, Some (MkConfig (MkGlobal [] [] [] [] [] []) (MkProject [] [] [] []));
  projectConfigExists := true; dialogOk := true; registry := demo_registry;
  binary := Some (gs "/usr/local/bin/vibepit"); verifyImage := λ _, true; verifyProxyImage := λ _, true;
  newID := gs "s1"; rand := Some (7, 9); draw1 := λ _, Some 1; draw2 := λ _, Some 2;
  tempName := λ m, longerThan (map_to_list m).*1; tempCreated := true; tempWritten := true; tlsCreds := Some (gs "k", gs "c", gs "ca");
  mkdirOk := true; credsWritten := true; keys := Some (gs "ssh-ed25519 AA"); sshWritten := true;
  stateDir := gs "/state"; dirsOk := true; localtime := true; termVar := gs "xterm"; colorTerm := [];
  banner := λ i, (2 <=? i)%nat; attempts := 60; rmDirOk := true; rmFileOk := true;
|}.

Definition demo_world (connects : bool) : Sandbox.world :=
  MkWorld (MkToy [] [] ∅ connects (NoDup_nil_2) (NoDup_nil_2)) ∅ ∅.

Lemma demo_temp m : m !! tempName demo_host m = None.
Proof.
  apply eq_None_not_Some. intros [f Hf]. apply (longerThan_fresh (map_to_list m).*1 []).
  apply list_elem_of_fmap. eexists (_, f). split; [done|]. by apply elem_of_map_to_list.
Qed.

#[local] Instance demo_tables : UnicodeTables.
Proof. refine {| lower_hi := λ r, r |}. lia. Defined.


(** After that [up], [down] takes the session away again, but not the
    configuration file. *)
Lemma down_removes_session_witness :
  let w := (UpAction demo_host (demo_world true)).1 in
  (DownAction demo_host w).2 = Ok (gs "s1") ∧ tContainers (dk (DownAction demo_host w).1) = [] ∧
  configFiles (DownAction demo_host w).1 = configFiles w ∧ size (configFiles w) = 1%nat.
Proof.
  intros w. split; [vm_compute; reflexivity|]. split; [vm_compute; reflexivity|].
  destruct (DownAction demo_host w) as [w' r] eqn:E.
  pose proof (down_removes_session demo_host w w' r E) as [Hf _]. split; [exact Hf|vm_compute; reflexivity].
Defined.
