(* ===== verification/HostClient.v ===== *)
(** * Reaching the runtime and the sandbox from the host ([container/client.go]:
      sockets and pull progress; [cmd/bootstrap_ssh.go], [cmd/exec.go],
      [cmd/status.go])

    Which daemon is used, how a pull is followed, how an SSH connection to the
    running sandbox is set up, what a remote command's end becomes, and what
    [vibepit status] prints. *)

From Stdlib Require Import SpecFloat.
From S2P Require Import Prelude GoStrings GoTime MonitorUI Container Sandbox.
Open Scope Z_scope.

(** ** Finding the daemon *)

Inductive clientErr := NoUser | NoSocket.

(** [ping host]: whether a client for the host can be made and answers. *)
Definition findSocket (ping : gostring → bool) (paths : list gostring) : option gostring :=
  snd <$> list_find (λ p, ping p = true) paths.

(** Where a daemon may listen, below a home directory and for a user. *)
Definition fallbackSockets (home uid : gostring) : list gostring :=
  [gs "unix://" ++ home ++ gs "/.docker/run/docker.sock";
   gs "unix:///run/user/" ++ uid ++ gs "/podman/podman.sock"].

(** [fromEnv] is the host of the environment, when its client can be made;
    [user] are the home directory and the numeric identifier. *)
Definition NewClient (fromEnv : option gostring) (ping : gostring → bool) (user : option (gostring * gostring)) :
    result clientErr gostring :=
  match (h ← fromEnv; if ping h then Some h else None) with
  | Some h => Ok h
  | None =>
      match user with
      | None => Err NoUser
      | Some (home, uid) =>
          match findSocket ping (fallbackSockets home uid) with Some p => Ok p | None => Err NoSocket end
      end
  end.

(** The environment's daemon comes first, then the sockets in order. *)
Lemma NewClient_find fromEnv ping home uid :
  NewClient fromEnv ping (Some (home, uid)) =
    match list_find (λ p, ping p = true) (option_list fromEnv ++ fallbackSockets home uid) with
    | Some (_, p) => Ok p
    | None => Err NoSocket
    end.
Proof.
  unfold NewClient, findSocket.
  generalize (fallbackSockets home uid). intros l. destruct fromEnv as [e|]; cbn.
  - destruct (ping e); cbn; [done|]. by destruct (list_find _ l) as [[i p]|].
  - by destruct (list_find _ l) as [[i p]|].
Qed.

(** A client is only returned for a daemon that answers, and one is found when
    one of the places has such a daemon. *)
Lemma NewClient_spec fromEnv ping home uid :
  match NewClient fromEnv ping (Some (home, uid)) with
  | Ok h => ping h = true
  | Err _ => ∀ p, p ∈ option_list fromEnv ++ fallbackSockets home uid → ping p = false
  end.
Proof.
  rewrite NewClient_find. destruct (list_find _ _) as [[i p]|] eqn:E.
  - by apply list_find_Some in E as (_ & ? & _).
  - apply list_find_None in E. rewrite Forall_forall in E. intros p Hp. apply not_true_is_false. by apply E.
Qed.

(** ** Following a pull *)

(** [%.1f] of a non-negative double: exact, halves to even. *)
Definition roundHalfEven (num den : Z) : Z :=
  let q := num / den in
  let r := num mod den in
  if 2 * r <? den then q else if den <? 2 * r then q + 1 else if Z.even q then q else q + 1.

Definition fixed1 (f : spec_float) : gostring :=
  let tenths := match f with
                | S754_finite _ m e => if 0 <=? e then Z.pos m * 2 ^ e * 10
                                       else roundHalfEven (Z.pos m * 10) (2 ^ (- e))
                | _ => 0
                end in
  Itoa (tenths / 10) ++ gs "." ++ Itoa (tenths mod 10).

Definition humanBytes (b : Z) : gostring :=
  let kb := 1024 in
  let mb := 1024 * kb in
  let gb := 1024 * mb in
  let scaled unit := fixed1 (SFdiv 53 1024 (float64 b) (float64 unit)) in
  if gb <=? b then scaled gb ++ gs " GB"
  else if mb <=? b then scaled mb ++ gs " MB"
  else if kb <=? b then scaled kb ++ gs " KB"
  else Itoa b ++ gs " B".

(** A message of the pull stream: one that does not decode, an error, or a
    layer's progress (current and total, when it has one). *)
Inductive pullMsg := Undecodable | PullError | Progress (id : gostring) (p : option (Z * Z)).

Record pullState := MkPull { layers : gmap gostring (Z * Z); wroteProgress : bool; shown : list gostring }.

(** Sums are taken in [int64]. *)
Definition totals (ls : gmap gostring (Z * Z)) : Z * Z :=
  map_fold (λ _ p acc, (wrap_int 64 (acc.1 + p.1), wrap_int 64 (acc.2 + p.2))) (0, 0) ls.

Definition percent (current total : Z) : Z :=
  Z.min (toInt (SFmul 53 1024 (SFdiv 53 1024 (float64 current) (float64 total)) (float64 100))) 100.

Definition progressLine (current total : Z) : gostring :=
  gs "             " ++
  (if 0 <? total then humanBytes current ++ gs " / " ++ humanBytes total ++ gs ", " ++ Itoa (percent current total) ++ gs "%"
   else humanBytes current).

Definition pullStep (isTerminal : bool) (s : pullState) (id : gostring) (p : Z * Z) : pullState :=
  let ls := <[id := p]> (layers s) in
  let '(current, total) := totals ls in
  if negb isTerminal || ((current =? 0) && (total =? 0)) then MkPull ls (wroteProgress s) (shown s)
  else MkPull ls true (shown s ++ [progressLine current total]).

(** The stream ends with the list; the result says whether the pull succeeded. *)
Fixpoint displayPullProgress (isTerminal : bool) (s : pullState) (ms : list pullMsg) : pullState * bool :=
  match ms with
  | [] => (if isTerminal && wroteProgress s
           then MkPull (layers s) true (shown s ++ [gs "             done"]) else s, true)
  | (Undecodable | PullError) :: _ => (s, false)
  | Progress id p :: ms =>
      match p with
      | Some p => if bool_decide (id = []) then displayPullProgress isTerminal s ms
                  else displayPullProgress isTerminal (pullStep isTerminal s id p) ms
      | None => displayPullProgress isTerminal s ms
      end
  end.

(** [PullImage]; a quiet pull only drains the stream, [readOk] says whether that
    succeeded, and does not look at it. *)
Definition PullImage (started quiet isTerminal readOk : bool) (ms : list pullMsg) : bool :=
  if negb started then false
  else if quiet then readOk
  else (displayPullProgress isTerminal (MkPull ∅ false []) ms).2.

(** A pull that is shown succeeds exactly when no message is an error. *)
Lemma displayPullProgress_ok isTerminal s ms :
  (displayPullProgress isTerminal s ms).2 = true ↔ Forall (λ m, ∃ id p, m = Progress id p) ms.
Proof.
  revert s. induction ms as [|m ms IH]; intros s; cbn; [by split; [constructor|]|].
  rewrite Forall_cons. destruct m as [| |id [p|]]; cbn.
  - split; [done|]. by intros [(? & ? & ?) _].
  - split; [done|]. by intros [(? & ? & ?) _].
  - case_bool_decide; rewrite IH; (split; [intros; split; [by eexists _, _|done]|by intros [_ ?]]).
  - rewrite IH. split; [intros; split; [by eexists _, _|done]|by intros [_ ?]].
Qed.

(** A quiet pull does not see the errors of the stream. *)
Lemma quiet_pull_ignores_errors isTerminal : PullImage true true isTerminal true [PullError] = true.
Proof. reflexivity. Qed.

Example humanBytes_ex :
  humanBytes 1023 = gs "1023 B" ∧ humanBytes 1536 = gs "1.5 KB" ∧ humanBytes (5 * 1024 * 1024) = gs "5.0 MB" ∧
  progressLine 512 1024 = gs "             512 B / 1.0 KB, 50%".
Proof. by vm_compute. Qed.

(** ** The SSH connection ([newSSHClient]) *)

Section ssh.
Context {D : Type} `{Docker D}.

Inductive sshErr := NoProjectRoot | FindFailed | NotRunning | NoProxyContainer | NoSSHPort | NoKey | NoHostKey | DialFailed.

Record sshConn := MkConn { dialled : gostring; clientKey : gostring; expectedHostKey : gostring; sandbox : RunningSession }.

(** [file sid name] is a credential file of a session; [parsePriv] and
    [parsePub] accept well-formed keys; [accepts] is whether the server at the
    address completes the handshake with this host key and client key. *)
Definition newSSHClient (d : D) (projectRoot : option gostring) (file : gostring → gostring → option gostring)
    (parsePriv parsePub : gostring → bool) (accepts : gostring → gostring → gostring → bool) :
    result sshErr sshConn :=
  match projectRoot with
  | None => Err NoProjectRoot
  | Some root =>
      match FindRunningSession d root with
      | None => Err FindFailed
      | Some None => Err NotRunning
      | Some (Some sb) =>
          match FindProxyContainerID d (rSessionID sb) with
          | None => Err NoProxyContainer
          | Some proxyID =>
              match FindPublishedPort d proxyID SSHContainerPort with
              | None => Err NoSSHPort
              | Some port =>
                  match file (rSessionID sb) (gs "ssh-key"), file (rSessionID sb) SSHHostPubFile with
                  | None, _ => Err NoKey
                  | _, None => Err NoHostKey
                  | Some priv, Some pub =>
                      if negb (parsePriv priv) then Err NoKey
                      else if negb (parsePub pub) then Err NoHostKey
                      else
                        let addr := gs "127.0.0.1:" ++ Itoa port in
                        if accepts addr pub priv then Ok (MkConn addr priv pub sb) else Err DialFailed
                  end
              end
          end
      end
  end.

(** A connection is to the port the session's own proxy publishes, and both
    sides are pinned to the keys written when the session was started. *)
Lemma newSSHClient_pinned d root file parsePriv parsePub accepts conn :
  newSSHClient d (Some root) file parsePriv parsePub accepts = Ok conn →
  ∃ sid proxyID port, rSessionID (sandbox conn) = sid ∧
    FindRunningSession d root = Some (Some (sandbox conn)) ∧
    FindProxyContainerID d sid = Some proxyID ∧ FindPublishedPort d proxyID SSHContainerPort = Some port ∧
    dialled conn = gs "127.0.0.1:" ++ Itoa port ∧
    file sid (gs "ssh-key") = Some (clientKey conn) ∧ file sid SSHHostPubFile = Some (expectedHostKey conn) ∧
    accepts (dialled conn) (expectedHostKey conn) (clientKey conn) = true.
Proof.
  unfold newSSHClient. intros Hc. repeat case_match; simplify_eq. cbn. by eexists _, _, _.
Qed.
End ssh.

(** [ExecAction]: how [session.Run] ended, and the error of the command. *)
Inductive runEnd := RunOK | RunExited (code : Z) | RunFailed.
Inductive execErr := ExitError (code : Z) | OtherError.

Definition execResultOf (r : runEnd) : option execErr :=
  match r with RunOK => None | RunExited code => Some (ExitError code) | RunFailed => Some OtherError end.

(** ** [vibepit status] *)

Inductive outLine := Heading (s : gostring) | Warning (s : gostring) | Blank | StatusLine (label text : gostring).

Section status.
Context {D : Type} `{Docker D}.
(** When a container was started, if known; and [Duration.String]. *)
Context (startedAt : D → gostring → option Z) (durationString : Z → gostring) (now : Z).

Definition containerLine (d : D) (c : SessionContainer) : outLine :=
  let status := ContainerStatus d (scID c) in
  let text := match startedAt d (scID c) with
              | Some t => status ++ gs ": " ++ scName c ++ gs " (up " ++
                          durationString (Z.quot (now - t) Second * Second) ++ gs ")"
              | None => status
              end in
  StatusLine (if bool_decide (scRole c = RoleProxy) then gs "Proxy" else gs "Sandbox") text.

Definition portText (p : option Z) : gostring :=
  match p with Some port => gs "127.0.0.1:" ++ Itoa port | None => gs "N/A" end.

(** The lines printed, and whether there was no error. *)
Definition printSessionStatus (d : D) (sessionID projectDir : gostring) (verbose : bool) : list outLine * bool :=
  let first := [StatusLine (gs "Session") sessionID; StatusLine (gs "Project") projectDir] in
  match SessionContainers d sessionID with
  | None => (first, false)
  | Some cs =>
      let ports :=
        if verbose then
          let proxyID := FindProxyContainerID d sessionID in
          [StatusLine (gs "API") (portText (proxyID ≫= FindControlPort d));
           StatusLine (gs "SSH") (portText (proxyID ≫= λ id, FindPublishedPort d id SSHContainerPort))]
        else [] in
      (first ++ (containerLine d <$> cs) ++ ports, true)
  end.

(** The loop over the sessions: those of the project are printed at once. *)
Fixpoint statusOwn (d : D) (root : gostring) (verbose : bool) (ss : list ProxySession) : list outLine * bool :=
  match ss with
  | [] => ([], true)
  | s :: ss =>
      if bool_decide (psProjectDir s = root) then
        let '(out, ok) := printSessionStatus d (psSessionID s) root verbose in
        if ok then let '(rest, ok') := statusOwn d root verbose ss in
                   (Heading (gs "This project:") :: out ++ rest, ok')
        else (Heading (gs "This project:") :: out, false)
      else statusOwn d root verbose ss
  end.

Fixpoint statusOthers (d : D) (verbose first : bool) (ss : list ProxySession) : list outLine * bool :=
  match ss with
  | [] => ([], true)
  | s :: ss =>
      let sep := if first then [] else [Blank] in
      let '(out, ok) := printSessionStatus d (psSessionID s) (psProjectDir s) verbose in
      if ok then let '(rest, ok') := statusOthers d verbose false ss in (sep ++ out ++ rest, ok')
      else (sep ++ out, false)
  end.

Definition StatusAction (d : D) (root home : gostring) (verbose : bool) : option (list outLine * bool) :=
  match ListProxySessions d with
  | None => None
  | Some [] => Some ([Warning (gs "No active sessions")], true)
  | Some ss =>
      let others := filter (λ s, psProjectDir s ≠ root) ss in
      let own := filter (λ s, psProjectDir s = root) ss in
      let isHome := bool_decide (home = root) in
      let '(out, ok) := statusOwn d root verbose ss in
      if negb ok then Some (out, false)
      else
        let heading :=
          if bool_decide (others = []) then []
          else (if bool_decide (own = []) && negb isHome then [Warning (gs "No active session for " ++ root)] else []) ++
               (if isHome then [] else [Blank; Heading (gs "Other projects:")]) in
        let '(rest, ok') := statusOthers d verbose true others in
        Some (out ++ heading ++ rest, ok')
  end.

(** The sessions named in the output. *)
Definition named (out : list outLine) : list gostring :=
  omap (λ l, match l with
             | StatusLine label text => if bool_decide (label = gs "Session") then Some text else None
             | _ => None
             end) out.

Lemma named_app a b : named (a ++ b) = named a ++ named b.
Proof. apply omap_app. Qed.

Lemma printSessionStatus_named d sid dir verbose out ok :
  printSessionStatus d sid dir verbose = (out, ok) → named out = [sid].
Proof.
  unfold printSessionStatus. destruct (SessionContainers d sid) as [cs|]; intros [= <- <-]; [|done].
  cbn. f_equal. rewrite named_app.
  assert (Hc : named (containerLine d <$> cs) = []).
  { induction cs as [|c cs IH]; [done|]. rewrite fmap_cons.
    change (named ([containerLine d c] ++ (containerLine d <$> cs)) = []). rewrite named_app, IH, app_nil_r.
    unfold containerLine. case_bool_decide; reflexivity. }
  rewrite Hc. by destruct verbose.
Qed.

Lemma statusOwn_named d root verbose ss out :
  statusOwn d root verbose ss = (out, true) → named out = psSessionID <$> filter (λ s, psProjectDir s = root) ss.
Proof.
  revert out. induction ss as [|s ss IH]; intros out; cbn [statusOwn]; [by intros [= <-]|].
  rewrite filter_cons. case_bool_decide as Hr; [rewrite decide_True by done|rewrite decide_False by done; apply IH].
  destruct (printSessionStatus d _ root verbose) as [o ok] eqn:E. apply printSessionStatus_named in E.
  destruct ok; [|done]. destruct (statusOwn d root verbose ss) as [rest ok'].
  intros [= <- ->]. change (named (Heading (gs "This project:") :: o ++ rest)) with (named (o ++ rest)).
  by rewrite named_app, E, (IH rest).
Qed.

Lemma statusOthers_named d verbose first ss out :
  statusOthers d verbose first ss = (out, true) → named out = psSessionID <$> ss.
Proof.
  revert first out. induction ss as [|s ss IH]; intros first out; cbn; [by intros [= <-]|].
  destruct (printSessionStatus d _ _ verbose) as [o ok] eqn:E. apply printSessionStatus_named in E.
  destruct ok; [|done]. destruct (statusOthers d verbose false ss) as [rest ok'] eqn:Er.
  intros [= <- ->]. rewrite !named_app, E, (IH false rest) by done. by destruct first.
Qed.

Lemma own_and_others root (ss : list ProxySession) :
  filter (λ s, psProjectDir s = root) ss ++ filter (λ s, psProjectDir s ≠ root) ss ≡ₚ ss.
Proof.
  induction ss as [|s ss IH]; [done|]. rewrite !filter_cons.
  destruct (decide (psProjectDir s = root)) as [Hs|Hs].
  - rewrite (decide_False (P := psProjectDir s ≠ root)) by tauto. cbn. by rewrite IH.
  - rewrite (decide_True (P := psProjectDir s ≠ root)) by done. by rewrite <- Permutation_middle, IH.
Qed.

(** Every running session is listed exactly once, the project's own first. *)
Lemma StatusAction_lists_all d root home verbose ss out :
  ListProxySessions d = Some ss → StatusAction d root home verbose = Some (out, true) →
  named out ≡ₚ psSessionID <$> ss.
Proof.
  intros Hl. unfold StatusAction. rewrite Hl. destruct ss as [|s0 ss0]; [by intros [= <-]|].
  set (ss := s0 :: ss0). destruct (statusOwn d root verbose ss) as [o ok] eqn:Eo.
  destruct ok; [|done]. cbn [negb].
  destruct (statusOthers d verbose true _) as [rest ok'] eqn:Er. intros [= <- ->].
  rewrite !named_app, (statusOwn_named _ _ _ _ _ Eo), (statusOthers_named _ _ _ _ _ Er).
  match goal with |- context [named ?h] => assert (Hh : named h = []) by (repeat case_match; reflexivity) end.
  rewrite Hh. cbn [app]. rewrite <- fmap_app. apply fmap_Permutation.
  apply own_and_others.
Qed.
End status.
