(* ===== verification/Connect.v ===== *)
(** * The end of a connection ([cmd/connect.go])

    When the shell a terminal was attached to ends, the client asks the server
    who else is there, and offers to shut the sandbox down only to the last one. *)

From S2P Require Import Prelude GoStrings Session Manager GoTime SshServer.
Open Scope Z_scope.

Definition tab : ascii := "009".
Definition newline : ascii := "010".

(** How [session.Wait] ended: with the exit status of the remote side, or
    without one. *)
Inductive waitResult := WaitStatus (code : Z) | WaitFailed.

Definition isSandboxDisconnect (r : waitResult) : bool :=
  match r with WaitStatus code => code =? DisconnectExitCode | WaitFailed => false end.

(** [channelStdinReader]: the chunks to come ([ch] is closed after them), and
    the rest of the last one. *)
Record channelStdinReader := MkStdin { sch : list bytes; sbuf : bytes }.

(** The loop skips empty chunks; [None] is end of file. *)
Fixpoint stdinFill (ch : list bytes) : option (bytes * list bytes) :=
  match ch with
  | [] => None
  | [] :: ch' => stdinFill ch'
  | data :: ch' => Some (data, ch')
  end.

Definition stdinRead (r : channelStdinReader) (n : nat) : option (bytes * channelStdinReader) :=
  match sbuf r with
  | _ :: _ => Some (take n (sbuf r), MkStdin (sch r) (drop n (sbuf r)))
  | [] => match stdinFill (sch r) with
          | None => None
          | Some (data, ch') => Some (take n data, MkStdin ch' (drop n data))
          end
  end.

(** [bufio.Reader.ReadString] over what is typed: up to and with the newline,
    [None] when the input ends before one. *)
Definition readString (r : channelStdinReader) : option bytes :=
  (λ kv, kv.1 ++ [newline]) <$> Cut (sbuf r ++ concat (sch r)) newline.

(** [strings.SplitN] into three. *)
Definition splitN3 (s : bytes) : list bytes :=
  match Cut s tab with
  | None => [s]
  | Some (a, rest) => match Cut rest tab with None => [a; rest] | Some (b, c) => [a; b; c] end
  end.

Definition row (id cmd age : bytes) : bytes :=
  gs "  " ++ padRight 12 id ++ gs " " ++ padRight 8 cmd ++ gs " " ++ age ++ [newline].

Definition detachedRow (line : bytes) : bytes :=
  match splitN3 line with [id; cmd; age] => row id cmd age | _ => [] end.

Definition promptText (r : SessionCountReply) : bytes :=
  gs "You were the last connection." ++ [newline] ++
  (if (0 <? DetachedPTY r) && bool_decide (DetachedInfo r ≠ []) then
     Itoa (DetachedPTY r) ++ gs " detached session(s) will be killed:" ++ [newline] ++
     concat (detachedRow <$> Split (DetachedInfo r) newline)
   else []) ++
  gs "Shut down the sandbox? [y/N] ".

Section connect.
Context `{UnicodeTables}.

Definition saysYes (answer : bytes) : bool :=
  let a := TrimSpace (ToLower answer) in bool_decide (a = gs "y") || bool_decide (a = gs "yes").

(** The text printed, and whether the sandbox is shut down.  [reply] is [None]
    when the server does not answer, refuses or answers something else. *)
Definition handleLastExit (isTerminal : bool) (reply : option SessionCountReply) (stdin : channelStdinReader) :
    bytes * bool :=
  if negb isTerminal then ([], false)
  else match reply with
       | None => ([], false)
       | Some r =>
           if (0 <? PTYConns r) || (0 <? ExecCount r) then ([], false)
           else (promptText r, match readString stdin with Some a => saysYes a | None => false end)
       end.

Inductive endResult := Disconnected | WaitError (r : waitResult) | Ended (text : bytes) (shutdown : bool).

(** [ConnectAction] from [session.Wait] on. *)
Definition connectEnd (wait : waitResult) (isTerminal : bool) (reply : option SessionCountReply)
    (stdin : channelStdinReader) : endResult :=
  match wait with
  | WaitStatus 0 => let '(text, shutdown) := handleLastExit isTerminal reply stdin in Ended text shutdown
  | _ => if isSandboxDisconnect wait then Disconnected else WaitError wait
  end.

(** ** What the prompt shows *)

Context `{Emulator} (command : bytes → bytes) (createdAt : bytes → Z).

Definition commandOf (info : SessionInfo) : bytes :=
  if bool_decide (command (ID info) = []) then gs "shell" else command (ID info).

Lemma formatCoarseDuration_line d : newline ∉ formatCoarseDuration d.
Proof.
  assert (Hi : ∀ z, newline ∉ Itoa z) by (intros; apply Itoa_printable; by vm_compute).
  assert (Hs : ∀ s, forallb (λ c, bool_decide (c ≠ newline)) (gs s) = true → newline ∉ gs s).
  { intros s Hs Hin%list_elem_of_In. rewrite forallb_forall in Hs. apply Hs in Hin.
    by apply bool_decide_eq_true in Hin. }
  unfold formatCoarseDuration.
  repeat case_match; rewrite ?not_elem_of_app; split_and?; try apply Hi; by apply Hs.
Qed.

Context (plain_commands : ∀ id, tab ∉ command id ∧ newline ∉ command id).

(** A session's line is read back as it was written. *)
Lemma detachedLine_parts now info :
  tab ∉ ID info → newline ∉ ID info →
  newline ∉ detachedLine command createdAt now info ∧
  splitN3 (detachedLine command createdAt now info) =
    [ID info; commandOf info; formatCoarseDuration (now - createdAt (ID info))].
Proof.
  intros Ht Hn. destruct (plain_commands (ID info)) as [Hct Hcn].
  assert (Hc : tab ∉ commandOf info ∧ newline ∉ commandOf info).
  { unfold commandOf. case_bool_decide; [|done]. split; apply (bool_decide_eq_true_1 _); by vm_compute. }
  change (detachedLine command createdAt now info) with
    (ID info ++ tab :: commandOf info ++ tab :: formatCoarseDuration (now - createdAt (ID info))).
  split.
  - rewrite !not_elem_of_app, !not_elem_of_cons, not_elem_of_app, not_elem_of_cons.
    split_and!; [exact Hn|discriminate|apply Hc|discriminate|apply formatCoarseDuration_line].
  - unfold splitN3. rewrite Cut_app by done. cbn. by rewrite Cut_app by apply Hc.
Qed.

(** The sessions shown to the last client. *)
Definition detachedInfos (w : world) : list SessionInfo := withStatus Detached (List (mgr w)).

Definition shownRow (now : Z) (info : SessionInfo) : bytes :=
  row (ID info) (commandOf info) (formatCoarseDuration (now - createdAt (ID info))).

Lemma plain_ids limit w info :
  0 ≤ limit → winv limit w → info ∈ detachedInfos w → tab ∉ ID info ∧ newline ∉ ID info ∧ ID info ≠ [].
Proof.
  intros Hl Hw Hin. apply list_elem_of_filter in Hin as [_ Hin].
  apply list_elem_of_fmap in Hin as ([id s] & -> & Hin%elem_of_map_to_list). cbn.
  destruct (mok_ids _ _ (mgr_ok_reachable limit _ Hl (wi_mgr _ _ Hw)) _ _ Hin) as [(n & _ & ->) _].
  unfold sessionID. split_and!; [| |by destruct (gs "session-") eqn:E].
  1, 2: rewrite not_elem_of_app; split; [apply (bool_decide_eq_true_1 _); by vm_compute|].
  1, 2: apply Itoa_printable; by vm_compute.
Qed.

Lemma shownRows limit w now :
  0 ≤ limit → winv limit w → detachedInfos w ≠ [] →
  let info := Join (detachedLine command createdAt now <$> detachedInfos w) [newline] in
  info ≠ [] ∧ concat (detachedRow <$> Split info newline) = concat (shownRow now <$> detachedInfos w).
Proof.
  intros Hl Hw Hne info.
  assert (Hp : Forall (λ i, newline ∉ detachedLine command createdAt now i ∧
    detachedRow (detachedLine command createdAt now i) = shownRow now i ∧ ID i ≠ []) (detachedInfos w)).
  { apply Forall_forall. intros i Hi. destruct (plain_ids limit w i Hl Hw Hi) as (Ht & Hn & Hid).
    destruct (detachedLine_parts now i Ht Hn) as [H1 H2]. split_and!; [done| |done].
    unfold detachedRow. by rewrite H2. }
  unfold info. rewrite Split_Join.
  - split; [|by rewrite <- list_fmap_compose; f_equal; apply Forall_fmap_ext;
               eapply Forall_impl; [exact Hp|]; by intros i (_ & ? & _)].
    destruct (detachedInfos w) as [|i [|j l]]; [done|..]; apply Forall_cons in Hp as ((_ & _ & Hid) & _);
      cbn; unfold detachedLine; cbn; by destruct (ID i).
  - by destruct (detachedInfos w).
  - apply Forall_fmap. eapply Forall_impl; [exact Hp|]. by intros i (? & _).
Qed.

(** C19: only the last one out is asked, and knows what is lost.  When a client's
    connection ends with a shutdown of the sandbox, its session had ended with a
    reported status of 0 (the server reports 0 for any exit of the shell and for
    leaving the selector), it sits at a terminal and typed a yes, and the server, when it
    counted, was running no other terminal and no command; whoever is asked sees
    one row for each detached session the shutdown would kill, with its own
    identifier, command and age.  A dropped connection never leads to the
    question. *)
Theorem last_one_out limit w now wait isTerminal stdin text shutdown :
  0 ≤ limit < 2 ^ 32 → wreachable limit w → Z.of_nat (length (handlers w)) < 2 ^ 32 →
  connectEnd wait isTerminal (Some (sessionCount command createdAt (srv w) (mgr w) now)) stdin =
    Ended text shutdown →
  wait = WaitStatus 0 ∧
  (text ≠ [] → isTerminal = true ∧ livePTYs (handlers w) = 0%nat ∧ execIDs (handlers w) = [] ∧
     text = gs "You were the last connection." ++ [newline] ++
       (if bool_decide (detachedInfos w = []) then []
        else Itoa (Z.of_nat (length (detachedInfos w))) ++ gs " detached session(s) will be killed:" ++
               [newline] ++ concat (shownRow now <$> detachedInfos w)) ++
       gs "Shut down the sandbox? [y/N] ") ∧
  (shutdown = true → text ≠ [] ∧
     ∃ line rest, sbuf stdin ++ concat (sch stdin) = line ++ newline :: rest ∧ saysYes (line ++ [newline]) = true).
Proof.
  intros Hl Hr Hb Hend.
  assert (Hw : winv limit w) by (apply (winv_reachable command createdAt); [done|lia]).
  destruct (sessionCount_exact command createdAt limit w now Hl Hr Hb) as (Hpty & Hex & Hsum & _).
  set (r := sessionCount command createdAt (srv w) (mgr w) now) in *.
  assert (Hwait : wait = WaitStatus 0 ∧ handleLastExit isTerminal (Some r) stdin = (text, shutdown)).
  { unfold connectEnd in Hend. destruct wait as [[|p|p]|]; try (by destruct (isSandboxDisconnect _)).
    destruct (handleLastExit isTerminal (Some r) stdin). by simplify_eq. }
  destruct Hwait as [-> Hlast]. split; [done|]. unfold handleLastExit in Hlast.
  destruct isTerminal; [|by simplify_eq/=]. cbn [negb] in Hlast.
  destruct (0 <? PTYConns r) eqn:E1; [by simplify_eq/=|]. destruct (0 <? ExecCount r) eqn:E2; [by simplify_eq/=|].
  cbn [orb] in Hlast. apply Z.ltb_ge in E1, E2.
  assert (Htext : text = promptText r) by congruence.
  assert (Hne : text ≠ []) by (rewrite Htext; discriminate). split.
  - intros _. split_and!; [done|lia|apply length_zero_iff_nil; lia|].
    rewrite Htext. unfold promptText. do 2 f_equal. f_equal.
    assert (Hdet : DetachedPTY r = Z.of_nat (length (detachedInfos w))).
    { unfold r, sessionCount. cbn [DetachedPTY]. unfold wrap_uint. apply Z.mod_small.
      split; [lia|]. pose proof (alive_statuses (mgr w)).
      pose proof (mok_active _ _ (mgr_ok_reachable limit _ (proj1 Hl) (wi_mgr _ _ Hw))). unfold active, detachedInfos in *. lia. }
    rewrite Hdet. destruct (decide (detachedInfos w = [])) as [Hd|Hd]; [by rewrite Hd|].
    rewrite (bool_decide_false (detachedInfos w = [])) by done.
    destruct (shownRows limit w now) as [Hi Hrows]; [lia|done..|].
    change (DetachedInfo r) with (Join (detachedLine command createdAt now <$> detachedInfos w) [newline]).
    rewrite bool_decide_true by exact Hi. rewrite Hrows, (proj2 (Z.ltb_lt _ _)); [done|].
    destruct (detachedInfos w); [done|cbn; lia].
  - intros ->. split; [done|]. injection Hlast as _ Hyes. unfold readString in Hyes.
    destruct (Cut _ _) as [[line rest]|] eqn:Hcut; [|done]. apply Cut_Some in Hcut as [-> _]. by exists line, rest.
Qed.
End connect.

(** ** An example *)

#[local] Instance ascii_lower : UnicodeTables.
Proof. refine {| lower_hi := λ r, r |}. lia. Defined.

(** A terminal whose shell is left running by a lost connection, then another
    one that is given up in the selector: one session is detached. *)
Definition demo_history : list action :=
  [AcceptPTY 80 24; ListSessions 0 true; AttachTarget 0;
   Mgr (MSession (sessionID 1) (LCloseBegin 0 DetachKeepalive)); Mgr (MSession (sessionID 1) (LDetach 0 9));
   CopyEnds 0 true true; OutputEnds 0 DetachKeepalive; AcceptPTY 80 24; ListSessions 1 true; Selected 1 SelQuit false].

Lemma last_one_out_witness :
  ∃ w, wrun (H := plain_emulator) demo_history (NewServer 5) = Some w ∧
    let reply := sessionCount (λ _, gs "bash") (λ _, 0) (srv w) (mgr w) (90 * Minute) in
    let e := connectEnd (WaitStatus 0) true (Some reply) (MkStdin [gs "Ye"; gs "s" ++ [newline]] []) in
    ∃ text, e = Ended text true ∧ Contains text (row (gs "session-1") (gs "bash") (gs "1h30m")) = true ∧
      livePTYs (handlers w) = 0%nat ∧ execIDs (handlers w) = [].
Proof.
  destruct (wrun (H := plain_emulator) demo_history (NewServer 5)) as [w|] eqn:E;
    [|vm_compute in E; discriminate E].
  exists w. split; [reflexivity|]. cbv zeta.
  assert (Hw : wreachable 5 w) by (eapply run_steps_reach; [apply reach_start|exact E]).
  assert (Hc : ∀ id : bytes, tab ∉ gs "bash" ∧ newline ∉ gs "bash").
  { intros _. split; apply (bool_decide_eq_true_1 _); vm_compute; reflexivity. }
  destruct (connectEnd (WaitStatus 0) true
              (Some (sessionCount (λ _, gs "bash") (λ _, 0) (srv w) (mgr w) (90 * Minute)))
              (MkStdin [gs "Ye"; gs "s" ++ [newline]] [])) as [|x|text shut] eqn:Hend.
  1, 2: vm_compute in E; injection E as <-; vm_compute in Hend; discriminate Hend.
  pose proof (last_one_out (λ _, gs "bash") (λ _, 0) Hc 5 w (90 * Minute) (WaitStatus 0) true
                (MkStdin [gs "Ye"; gs "s" ++ [newline]] []) text shut ltac:(lia) Hw) as Hl.
  vm_compute in E. injection E as <-.
  specialize (Hl ltac:(vm_compute; reflexivity) Hend). destruct Hl as (_ & Ht & _).
  exists text. apply (f_equal (λ e, match e with Ended t s => (t, s) | _ => ([], false) end)) in Hend.
  vm_compute in Hend. injection Hend as Htext Hshut.
  assert (Hne : text ≠ []) by (rewrite <- Htext; discriminate).
  destruct (Ht Hne) as (_ & Hp & He & _). rewrite <- Hshut. split; [reflexivity|].
  split; [rewrite <- Htext; vm_compute; reflexivity|]. split; [exact Hp|exact He].
Defined.
