(* ===== verification/StdinHandoff.v ===== *)
(** * Who reads the keyboard ([cmd/connect.go], [ConnectAction])

    One goroutine reads the terminal and sends what it reads to a channel of 16
    chunks; another copies the channel to the SSH session.  When the session is
    over the copier is stopped and waited for, and then the shutdown prompt reads
    the same channel.  The model is a step function over labels, one for each
    channel operation, read or write, so the theorems are about every
    interleaving. *)

From S2P Require Import Prelude GoStrings Session SshServer Connect.
Open Scope nat_scope.

Definition stdinCap : nat := 16.
Definition stdinBufSize : nat := 32 * 1024.

(** The copier is in its [select], in [stdinPipe.Write], or has closed [copyDone]. *)
Inductive copier := Selecting | Writing (data : bytes) | CopyDone.

Record handoff := MkHandoff {
  typed : bytes;             (* everything the terminal returned so far *)
  holding : option bytes;    (* read, waiting for room in the channel *)
  closed : bool;             (* [stdinCh] is closed *)
  stdinCh : list bytes;
  copy : copier;
  stopCopy : bool;           (* closed when [session.Wait] has returned *)
  piped : bytes;             (* accepted by the SSH session *)
  lost : bytes;              (* rest of a chunk whose write failed *)
  prompted : bytes;          (* received by the prompt's reader *)
}.

Definition handoff0 : handoff := MkHandoff [] None false [] Selecting false [] [] [].

Inductive hlabel :=
  | HRead (data : bytes)     (* [os.Stdin.Read] returns [n > 0] bytes *)
  | HSend                    (* [stdinCh <- data] *)
  | HEof                     (* [os.Stdin.Read] fails: the channel is closed *)
  | HTake                    (* the copier's receive case *)
  | HClosed                  (* the same, on the closed and drained channel *)
  | HWrite (n : nat) (ok : bool)  (* [stdinPipe.Write] returns *)
  | HWaitEnds                (* [session.Wait] returns; [close(stopCopy)] *)
  | HStop                    (* the copier's stop case *)
  | HPrompt.                 (* [channelStdinReader.Read] receives a chunk *)

Definition set_copy (s : handoff) (c : copier) : handoff :=
  MkHandoff (typed s) (holding s) (closed s) (stdinCh s) c (stopCopy s) (piped s) (lost s) (prompted s).
Definition set_ch (s : handoff) (h : option bytes) (ch : list bytes) : handoff :=
  MkHandoff (typed s) h (closed s) ch (copy s) (stopCopy s) (piped s) (lost s) (prompted s).

(** [stdinPipe.Write] took the whole chunk, or [n] bytes of it and failed. *)
Definition after_write (s : handoff) (n : nat) (ok : bool) (data : bytes) : handoff :=
  if ok then
    MkHandoff (typed s) (holding s) (closed s) (stdinCh s) Selecting (stopCopy s)
      (piped s ++ data) (lost s) (prompted s)
  else
    MkHandoff (typed s) (holding s) (closed s) (stdinCh s) CopyDone (stopCopy s)
      (piped s ++ take n data) (drop n data) (prompted s).

Definition hstep (l : hlabel) (s : handoff) : option handoff :=
  match l, holding s, copy s, stdinCh s with
  | HRead data, None, _, _ =>
      if negb (closed s) && bool_decide (data ≠ []) && (length data <=? stdinBufSize)%nat then
        Some (MkHandoff (typed s ++ data) (Some data) (closed s) (stdinCh s) (copy s) (stopCopy s)
                (piped s) (lost s) (prompted s))
      else None
  | HSend, Some data, _, ch =>
      if (length ch <? stdinCap)%nat then Some (set_ch s None (ch ++ [data])) else None
  | HEof, None, _, _ =>
      if closed s then None
      else Some (MkHandoff (typed s) None true (stdinCh s) (copy s) (stopCopy s)
                   (piped s) (lost s) (prompted s))
  | HTake, _, Selecting, data :: ch => Some (set_copy (set_ch s (holding s) ch) (Writing data))
  | HClosed, _, Selecting, [] => if closed s then Some (set_copy s CopyDone) else None
  | HWrite n ok, _, Writing data, _ =>
      Some (after_write s n ok data)
  | HWaitEnds, _, c, _ =>
      Some (MkHandoff (typed s) (holding s) (closed s) (stdinCh s) c true (piped s) (lost s) (prompted s))
  | HStop, _, Selecting, _ => if stopCopy s then Some (set_copy s CopyDone) else None
  | HPrompt, _, CopyDone, data :: ch =>
      if stopCopy s then
        Some (MkHandoff (typed s) (holding s) (closed s) ch CopyDone true
                (piped s) (lost s) (prompted s ++ data))
      else None
  | _, _, _, _ => None
  end.

Notation hrun := (run_steps hstep).
Notation hreach := (reach_from hstep handoff0).

(** ** The prompt's line

    [bufio.Reader.ReadString] collects what [Read] returns, at most [room] bytes
    at a time, until a newline shows up; [room] is never 0, as the reader makes
    room before it reads. *)
Fixpoint readLoop (fuel : nat) (room : nat) (r : channelStdinReader) (acc : bytes) : option (option bytes) :=
  match Cut acc newline with
  | Some (line, _) => Some (Some (line ++ [newline]))
  | None =>
      match fuel with
      | O => None
      | S fuel => match stdinRead r room with
                  | None => Some None
                  | Some (data, r') => readLoop fuel room r' (acc ++ data)
                  end
      end
  end.

(** What a reader has still to give. *)
Definition pending (r : channelStdinReader) : bytes := sbuf r ++ concat (sch r).

Lemma stdinFill_spec ch :
  match stdinFill ch with
  | None => concat ch = []
  | Some (data, ch') => data ≠ [] ∧ concat ch = data ++ concat ch'
  end.
Proof. induction ch as [|[|c d] ch IH]; cbn; [done|exact IH|done]. Qed.

(** A read returns the next bytes, at least one of them unless the input is over. *)
Lemma stdinRead_spec r n :
  0 < n →
  match stdinRead r n with
  | None => pending r = []
  | Some (data, r') => data ≠ [] ∧ pending r = data ++ pending r'
  end.
Proof.
  intros Hn. unfold stdinRead, pending. destruct (sbuf r) as [|c b] eqn:Eb.
  - pose proof (stdinFill_spec (sch r)) as Hf. destruct (stdinFill (sch r)) as [[data ch]|]; [|done].
    destruct Hf as [Hne Hc]. cbn. split; [by destruct data, n; try lia|].
    by rewrite app_assoc, take_drop.
  - cbn. split; [by destruct n; try lia|]. by rewrite app_assoc, take_drop.
Qed.

Lemma readLoop_acc fuel room r acc :
  0 < room → length (pending r) < fuel →
  readLoop fuel room r acc = Some ((λ kv, kv.1 ++ [newline]) <$> Cut (acc ++ pending r) newline).
Proof.
  intros Hroom. revert r acc. induction fuel as [|fuel IH]; intros r acc Hf; [lia|].
  cbn [readLoop]. destruct (Cut acc newline) as [[line rest]|] eqn:Hcut.
  - apply Cut_Some in Hcut as [-> Hl]. rewrite <- app_assoc. cbn. by rewrite Cut_app.
  - pose proof (stdinRead_spec r room Hroom) as Hr.
    destruct (stdinRead r room) as [[data r']|].
    + destruct Hr as [Hne Hp]. rewrite IH.
      * by rewrite Hp, app_assoc.
      * rewrite Hp, length_app in Hf. destruct data; [done|cbn in Hf; lia].
    + by rewrite Hr, app_nil_r, Hcut.
Qed.

(** However the input is cut into chunks, the loop returns the line that
    [Connect.readString] defines. *)
Lemma readLoop_readString fuel room r :
  0 < room → length (pending r) < fuel → readLoop fuel room r [] = Some (readString r).
Proof. intros. by rewrite readLoop_acc. Qed.

(** ** The hand-over *)

Definition inFlight (s : handoff) : bytes := match copy s with Writing data => data | _ => [] end.

Record hinv (s : handoff) : Prop := {
  hi_account : piped s ++ lost s ++ inFlight s ++ prompted s ++ concat (stdinCh s) ++
                 default [] (holding s) = typed s;
  hi_prompt : prompted s ≠ [] → stopCopy s = true ∧ copy s = CopyDone;
  hi_lost : lost s ≠ [] → copy s = CopyDone;
  hi_cap : length (stdinCh s) ≤ stdinCap;
  hi_closed : closed s = true → holding s = None;
}.

Lemma hinv_init : hinv handoff0.
Proof. split; cbn; [done..|unfold stdinCap; lia|done]. Qed.

Lemma hinv_step l s s' : hinv s → hstep l s = Some s' → hinv s'.
Proof.
  intros [Ha Hp Hl Hc Hcl] Hs.
  assert (Hp0 : copy s ≠ CopyDone → prompted s = []).
  { intros Hn. destruct (prompted s) eqn:E; [done|]. by destruct Hp as [_ ?]. }
  assert (Hl0 : copy s ≠ CopyDone → lost s = []).
  { intros Hn. destruct (lost s) eqn:E; [done|]. by rewrite Hl in Hn. }
  unfold hstep, after_write in Hs. unfold inFlight in *. destruct s as [ty ho cl ch cp st pi lo pr]; cbn [typed holding closed stdinCh copy stopCopy piped lost prompted] in *.
  destruct l; repeat (case_match; breflect); simplify_eq;
    try (rewrite Hp0, Hl0 in * by done); split; cbn; unfold inFlight; cbn;
    rewrite ?app_nil_r, ?app_nil_l, ?concat_app, ?length_app in *; cbn in *;
    rewrite ?app_nil_r in *; try done; try lia; try (by rewrite <- ?app_assoc).
  all: try (intros; congruence).
  by rewrite <- !app_assoc, (app_assoc (take n data)), take_drop.
Qed.

Lemma hinv_reach s : hreach s → hinv s.
Proof. induction 1; [apply hinv_init|by eapply hinv_step]. Qed.

(** What is lost is a part of one chunk, whose write failed. *)
Definition short (d : bytes) : Prop := length d ≤ stdinBufSize.
#[local] Opaque stdinBufSize.

Record linv (s : handoff) : Prop := {
  li_ch : Forall short (stdinCh s);
  li_holding : Forall short (option_list (holding s));
  li_write : short (inFlight s);
  li_lost : short (lost s);
}.

Lemma linv_step l s s' : linv s → hstep l s = Some s' → linv s'.
Proof.
  intros [Hc Hh Hw Hl] Hs. unfold hstep, after_write in Hs. unfold inFlight in *.
  destruct s as [ty ho cl ch cp st pi lo pr].
  cbn [typed holding closed stdinCh copy stopCopy piped lost prompted] in *.
  destruct l; repeat (case_match; breflect); simplify_eq; split; cbn; unfold inFlight, short in *; cbn in *;
    try done; try lia; try (by rewrite ?Forall_cons in *; tauto).
  all: try (by apply Forall_app); try (by constructor).
  all: rewrite length_drop; lia.
Qed.

Lemma linv_reach s : hreach s → linv s.
Proof. induction 1; [split; cbn; try done; apply Nat.le_0_l|by eapply linv_step]. Qed.

Lemma lost_failed ls s s' :
  hrun ls s = Some s' → lost s' ≠ [] → lost s = [] → ∃ n, HWrite n false ∈ ls.
Proof.
  revert s. induction ls as [|l ls IH]; intros s; cbn; [by intros [= ->]|].
  destruct (hstep l s) as [s1|] eqn:Hs; [|done]. cbn. intros Hr Hne Hl.
  destruct (decide (lost s1 = [])) as [Hl1|Hl1]; [destruct (IH s1 Hr Hne Hl1) as [n ?]; exists n; by right|].
  unfold hstep, after_write in Hs. destruct l as [|  | | | |n ok| | |]; repeat case_match; simplify_eq; cbn in Hl1; try done.
  exists n. left.
Qed.

(** Once the copier is done nothing more is written to the session. *)
Lemma done_stays l s s' :
  copy s = CopyDone → hstep l s = Some s' → copy s' = CopyDone ∧ piped s' = piped s ∧ lost s' = lost s.
Proof.
  intros Hc Hs. unfold hstep in Hs. rewrite Hc in Hs.
  destruct l; repeat case_match; simplify_eq; cbn; auto.
Qed.

Lemma done_run ls s s' :
  copy s = CopyDone → hrun ls s = Some s' → copy s' = CopyDone ∧ piped s' = piped s ∧ lost s' = lost s.
Proof.
  intros Hc. apply (run_steps_inv hstep (λ s1, copy s1 = CopyDone ∧ piped s1 = piped s ∧ lost s1 = lost s)); [|done]. intros l s1 s2 (Hc1 & <- & <-). by apply done_stays.
Qed.

Lemma hstep_write s n ok data :
  copy s = Writing data → hstep (HWrite n ok) s = Some (after_write s n ok data).
Proof. intros Hc. unfold hstep. rewrite Hc. by destruct (holding s), (stdinCh s), ok. Qed.

(** Stopping the copier never blocks for longer than the write it is in: one
    write, which the end of the session fails or completes, and one [select]. *)
Lemma copier_stops s n ok :
  stopCopy s = true →
  ∃ ls s', ls ∈ [[]; [HStop]; [HWrite n ok]; [HWrite n ok; HStop]] ∧ hrun ls s = Some s' ∧ copy s' = CopyDone.
Proof.
  intros Hs. destruct (copy s) as [|data|] eqn:Hc.
  - exists [HStop], (set_copy s CopyDone). split; [set_solver|]. cbn. unfold hstep.
    rewrite Hc, Hs. by destruct (holding s).
  - pose proof (λ ok, hstep_write s n ok data Hc) as Hw. destruct ok.
    + exists [HWrite n true; HStop], (set_copy (after_write s n true data) CopyDone). split; [set_solver|].
      unfold hrun. cbn [foldl mbind option_bind]. rewrite (Hw true). cbn [mbind option_bind]. split; [|done].
      unfold hstep. cbn. rewrite Hs. by destruct (holding s), (stdinCh s).
    + exists [HWrite n false], (after_write s n false data). split; [set_solver|].
      unfold hrun. cbn [foldl mbind option_bind]. by rewrite (Hw false).
  - exists [], s. split; [set_solver|done].
Qed.

(** C20: the keyboard has one reader at a time.  Whatever the interleaving, when
    the copier has been stopped and waited for, the session gets no more bytes,
    and the prompt continues where the session stopped: what was typed is what
    the session accepted, then what was lost, then what the prompt has read or
    will read.  Lost is at most the rest of one chunk, and only when the write of
    that chunk to the session failed; otherwise the answer to the prompt is the
    next line typed after what the session accepted.  Stopping the copier always
    succeeds. *)
Theorem stdin_handoff ls s n ok :
  hrun ls handoff0 = Some s → stopCopy s = true →
  (∃ ks s1, ks ∈ [[]; [HStop]; [HWrite n ok]; [HWrite n ok; HStop]] ∧
     hrun ks s = Some s1 ∧ copy s1 = CopyDone) ∧
  (copy s = CopyDone → ∀ ks s' line, hrun ks s = Some s' →
     piped s' = piped s ∧ lost s' = lost s ∧ length (lost s) ≤ stdinBufSize ∧
     (lost s ≠ [] → ∃ n, HWrite n false ∈ ls) ∧
     (readString (MkStdin (stdinCh s' ++ option_list (holding s')) (prompted s')) = Some line →
      ∃ before rest, line = before ++ [newline] ∧ newline ∉ before ∧
        typed s' = piped s ++ lost s ++ line ++ rest)).
Proof.
  intros Hrun Hst. split; [by apply copier_stops|]. intros Hc ks s' line Hks.
  destruct (done_run _ _ _ Hc Hks) as (Hc' & Hp & Hl).
  assert (Hr : hreach s) by (eapply run_steps_reach, Hrun; constructor).
  split_and!; [done..|apply (li_lost _ (linv_reach _ Hr))|by intros; eapply lost_failed|].
  assert (Hi : hinv s') by (apply hinv_reach; eapply run_steps_reach, Hks; eapply run_steps_reach, Hrun; constructor).
  pose proof (hi_account _ Hi) as Ha. unfold inFlight in Ha. rewrite Hc', Hp, Hl in Ha. cbn in Ha.
  unfold readString. cbn [sbuf sch]. destruct (Cut _ _) as [[before rest]|] eqn:Hcut; [|done].
  intros [= <-]. apply Cut_Some in Hcut as [Hcut Hn]. exists before, rest.
  split_and!; [done..|]. rewrite <- Ha. do 2 f_equal. cbn [fst]. rewrite <- app_assoc. cbn [app].
  rewrite <- Hcut, concat_app. do 2 f_equal. destruct (holding s'); cbn; by rewrite ?app_nil_r.
Qed.

(** The user types [exit], the shell ends, and the answer that was typed ahead in
    two chunks goes to the prompt. *)
Definition demo_typing : list hlabel :=
  [HRead (gs "exit" ++ [newline]); HSend; HTake; HWrite 5 true; HRead (gs "y"); HSend; HWaitEnds; HStop].

Lemma stdin_handoff_witness :
  ∃ s s', hrun demo_typing handoff0 = Some s ∧
    hrun [HRead [newline]; HPrompt; HSend] s = Some s' ∧
    readString (MkStdin (stdinCh s' ++ option_list (holding s')) (prompted s')) = Some (gs "y" ++ [newline]) ∧
    ∃ rest, typed s' = (gs "exit" ++ [newline]) ++ [] ++ (gs "y" ++ [newline]) ++ rest.
Proof.
  destruct (hrun demo_typing handoff0) as [s|] eqn:E; [|vm_compute in E; discriminate E].
  pose proof (stdin_handoff demo_typing s 0 true E) as Ht.
  vm_compute in E. injection E as <-. destruct (Ht eq_refl) as [_ H].
  eexists _, _. split; [reflexivity|]. split; [vm_compute; reflexivity|].
  split; [vm_compute; reflexivity|].
  destruct (H eq_refl [HRead [newline]; HPrompt; HSend] _ (gs "y" ++ [newline]) ltac:(vm_compute; reflexivity))
    as (_ & _ & _ & _ & Hl).
  destruct Hl as (before & rest & _ & _ & Hty); [vm_compute; reflexivity|]. by exists rest.
Defined.
