(* ===== verification/Programs.v ===== *)
(** * Terminal programs from start to result ([cmd/monitor.go: runTUI],
      [cmd/session_ui.go: selectSession, pollSessionsCmd],
      [config/setup_ui.go: runPresetSelectorTUI])

    A program gives every message to its window until a screen asks to quit; what
    the user has chosen is then read from the screen.  This file runs the screens
    of [MonitorUI.v] and [PresetUI.v] and follows the choice to its caller. *)

From stdpp Require Import sorting.
From S2P Require Import Prelude GoStrings Presets Tui MonitorUI PresetUI Setup Sandbox.
Open Scope Z_scope.

(** ** Running a program *)

Section program.
Context (headerHeight : HeaderInfo → Z → Z → Z).
Context {S X C : Type} `{Screen S X C} (isQuit : C → bool).

Definition quits (cs : list (windowCmd C)) : bool :=
  existsb (λ c, match c with ScreenCmd c => isQuit c | DoTick => false end) cs.

(** [tea.Program.Run] on the messages that arrive, with their times; [None] when
    the program does not end by itself. *)
Fixpoint runTUI (w : Window) (s : S) (ms : list (msg X * Z)) : option S :=
  match ms with
  | [] => None
  | (m, now) :: ms' =>
      let '(w', s', cs) := windowUpdate headerHeight w s m now in
      if quits cs then Some s' else runTUI w' s' ms'
  end.

(** What holds of the first screen and is kept by the messages that can arrive
    holds of the last. *)
Lemma runTUI_inv (can : msg X → Prop) (I : S → Prop) w s ms s' :
  (∀ wd h, can (WindowSize wd h)) → (∀ s m w now, can m → I s → I (screen (Update s m w now))) →
  Forall (can ∘ fst) ms → I s → runTUI w s ms = Some s' → I s'.
Proof.
  intros Hsize Hup. revert w s. induction ms as [|[m now] ms IH]; intros w s Hms Hs; [done|]. cbn [runTUI].
  apply Forall_cons in Hms as [Hm Hms].
  assert (Hs' : I (windowUpdate headerHeight w s m now).1.2).
  { unfold windowUpdate. destruct (switched _); cbn; auto. }
  destruct (windowUpdate _ _ _ _ _) as [[w' s1] cs]. destruct (quits cs); [by intros [= <-]|]. by apply IH.
Qed.
End program.

Definition isQuitCmd (c : command) : bool := match c with Quit => true | _ => false end.

(** ** Choosing a session *)

Section sessions.
Context (headerHeight : HeaderInfo → Z → Z → Z).

(** The message of a poll. *)
Definition pollSessionsCmd (answer : result gostring (list ProxySession)) : msg custom :=
  Custom (SessionPollResult answer).

(** [None] when the program failed or nothing was selected. *)
Definition selectSession (ms : list (msg custom * Z)) (ss : list ProxySession) : option SessionInfo :=
  match runTUI headerHeight isQuitCmd (NewWindow selectorHeader) (SessionList (newSessionScreen ss false false)) ms with
  | Some (SessionList s) => MonitorUI.selected s
  | _ => None
  end.

(** Keys, ticks and resizes: a screen that does not poll gets nothing else. *)
Definition fromTerminal {X} (m : msg X) : Prop := match m with Custom _ => False | _ => True end.

(** The screen offers [ss] and has selected one of them, if any. *)
Definition offers (ss : list ProxySession) (s : screenState) : Prop :=
  match s with
  | SessionList s =>
      sessions s = sortSessions ss ∧ onSelect s = false ∧
      ∀ info, MonitorUI.selected s = Some info → ∃ ps, ps ∈ ss ∧ info = sessionInfoFromProxy ps
  | Monitor _ => False
  end.

Lemma sessionAt_offered s i ps ss : sessions s = sortSessions ss → sessionAt s i = Some ps → ps ∈ ss.
Proof.
  intros Hs. unfold sessionAt. rewrite Hs. destruct (_ && _); [|done]. intros Hl%list_elem_of_lookup_2.
  unfold sortSessions in Hl. by rewrite (merge_sort_Permutation session_le) in Hl.
Qed.

Lemma offers_update ss s m w now : fromTerminal m → offers ss s → offers ss (screen (Update s m w now)).
Proof.
  destruct s as [s|mo]; [|done]. cbn. intros Hm (Hs & Ho & Hsel). unfold Update, monitor_screens. cbn.
  destruct m as [wd h| |k|x]; cbn in Hm |- *; try done.
  - destruct (_ && _); by split_and!.
  - case_match; [|case_match; by split_and!].
    destruct (sessionAt s (Pos (cur s))) as [ps|] eqn:Hat; cbn; split_and!; try done.
    intros info [= <-]. exists ps. split; [by eapply sessionAt_offered|done].
Qed.

(** The user can only choose what is running. *)
Lemma selectSession_offered ms ss info :
  Forall (fromTerminal ∘ fst) ms → selectSession ms ss = Some info →
  ∃ ps, ps ∈ ss ∧ info = sessionInfoFromProxy ps.
Proof.
  unfold selectSession. intros Hms.
  destruct (runTUI _ _ _ _ _) as [s|] eqn:E; [|done].
  eapply (runTUI_inv headerHeight isQuitCmd fromTerminal (offers ss)) in E;
    [|done|by intros; apply offers_update|exact Hms|by split_and!].
  destruct s as [s|]; [|done]. intros Hsel. by apply E.
Qed.

(** [discoverSession] with the selector: a command works on a session that is
    running, and on one that matches if a session was named. *)
Lemma discover_running ms ss filter info :
  Forall (fromTerminal ∘ fst) ms → discoverSession ss filter (selectSession ms) = Some info →
  ∃ ps, ps ∈ ss ∧ info = sessionInfoFromProxy ps ∧ (filter = [] ∨ matchSession ps filter = true).
Proof.
  intros Hms. unfold discoverSession. destruct ss as [|s rest]; [done|]. case_bool_decide as Hf.
  - destruct rest as [|s2 rest].
    + intros [= <-]. exists s. split_and!; [left|done|by left].
    + intros (ps & Hin & ->)%selectSession_offered; [|done]. exists ps. by auto.
  - intros ([j ps] & (Hl & Hm & _)%list_find_Some & ->)%fmap_Some. exists ps. cbn.
    split_and!; [by eapply list_elem_of_lookup_2|done|by right].
Qed.
End sessions.

(** ** Choosing presets *)

Section presets.
Context (headerHeight : HeaderInfo → Z → Z → Z) (reg : PresetRegistry) (quote : gostring → gostring).

Definition setupHeader : HeaderInfo := MkHeader (gs "vibepit") (gs "setup").
Definition isQuitPresets (c : presetCmd) : bool := match c with QuitPresets => true end.

Inductive selectErr := ProgramFailed | NothingSelected.

(** The selection is a slice that is nil until the user confirms. *)
Definition runPresetSelectorTUI (ms : list (msg Empty_set * Z)) (preChecked : gmap gostring bool)
    (detected : list gostring) : result selectErr (list gostring) :=
  match runTUI headerHeight isQuitPresets (NewWindow setupHeader) (newPresetScreen reg preChecked detected) ms with
  | None => Err ProgramFailed
  | Some s => if bool_decide (selected s = []) then Err NothingSelected else Ok (selected s)
  end.

(** [RunFirstTimeSetup] with this dialog. *)
Definition firstTimeSetup (ms : list (msg Empty_set * Z)) (detected : list gostring) :
    option (list gostring * gostring) :=
  RunFirstTimeSetup quote detected (λ pre det, match runPresetSelectorTUI ms pre det with Ok l => Some l | Err _ => None end).

Lemma firstTimeSetup_nonempty ms detected l text : firstTimeSetup ms detected = Some (l, text) → l ≠ [].
Proof.
  unfold firstTimeSetup, RunFirstTimeSetup, runPresetSelectorTUI.
  destruct (runTUI _ _ _ _ _) as [s|]; [|done]. cbn. case_bool_decide; [done|]. by intros [= <- _].
Qed.
End presets.

(** Confirming with nothing checked is not told from leaving: the set-up fails,
    and with it the command. *)
Definition demo_presets : PresetRegistry := NewPresetRegistry [].

Lemma empty_selection_fails :
  let enter := [(KeyPress (gs "enter"), 0)] in
  let leave := [(KeyPress (gs "q"), 0)] in
  runPresetSelectorTUI (λ _ _ _, 1) demo_presets enter ∅ [] = Err NothingSelected ∧
  runPresetSelectorTUI (λ _ _ _, 1) demo_presets leave ∅ [] = Err NothingSelected.
Proof. split; vm_compute; reflexivity. Qed.
