(* ===== verification/Mtls.v ===== *)
(** * Mutual TLS of the control API ([proxy/mtls.go], [cmd/session.go])

    For every session the host makes a certificate authority, signs one server
    and one client certificate, forgets the authority's key, hands the server's
    material to the proxy through its environment and keeps the client's in the
    session directory.  Keys and signatures are symbolic: a certificate records
    the public key that verifies its signature.  The encodings (DER, PKCS 8, PEM)
    are the class [Encoding]; what [crypto/x509] and [crypto/tls] check of a
    certificate is written out. *)

From S2P Require Import Prelude GoStrings GoNet GoTime Container.
Open Scope Z_scope.

(** ** Keys and certificates *)

Class PKI := {
  priv : Type;
  pub : Type;
  Public : priv → pub;
  #[global] priv_eq_dec :: EqDecision priv;
  #[global] pub_eq_dec :: EqDecision pub;
}.

Inductive extKeyUsage := ExtKeyUsageServerAuth | ExtKeyUsageClientAuth.
Inductive keyUsage := KeyUsageCertSign | KeyUsageDigitalSignature.

#[global] Instance extKeyUsage_eq_dec : EqDecision extKeyUsage.
Proof. solve_decision. Defined.
#[global] Instance keyUsage_eq_dec : EqDecision keyUsage.
Proof. solve_decision. Defined.

(** The fields the program sets; times are in nanoseconds. *)
Record template := MkTemplate {
  SerialNumber : Z;
  Subject : gostring;
  NotBefore : Z;
  NotAfter : Z;
  IsCA : bool;
  BasicConstraintsValid : bool;
  KeyUsage : keyUsage;
  ExtKeyUsage : list extKeyUsage;
  IPAddresses : list IP;
}.

#[global] Instance template_eq_dec : EqDecision template.
Proof. solve_decision. Defined.

Section certificates.
Context `{PKI}.

Record Certificate := MkCert {
  tbs : template;
  Issuer : gostring;
  PublicKey : pub;
  signedBy : pub;      (* verifies the signature *)
}.

#[global] Instance Certificate_eq_dec : EqDecision Certificate.
Proof. solve_decision. Defined.

(** What survives the encoding: times have whole seconds, IPv4 addresses four
    bytes. *)
Definition canonical (t : template) : template :=
  MkTemplate (SerialNumber t) (Subject t) (NotBefore t / Second * Second) (NotAfter t / Second * Second)
    (IsCA t) (BasicConstraintsValid t) (KeyUsage t) (ExtKeyUsage t)
    ((λ ip, default ip (To4 ip)) <$> IPAddresses t).

(** ** Verification ([x509.Certificate.Verify] and [VerifyHostname])

    There are no intermediate certificates: a chain is the leaf alone, when it is
    itself a root, or the leaf and a root. *)

Definition validAt (c : Certificate) (now : Z) : bool :=
  (NotBefore (tbs c) <=? now) && (now <=? NotAfter (tbs c)).

Definition canSign (root : Certificate) : bool :=
  BasicConstraintsValid (tbs root) && IsCA (tbs root) && bool_decide (KeyUsage (tbs root) = KeyUsageCertSign).

Definition signs (now : Z) (root leaf : Certificate) : bool :=
  bool_decide (Subject (tbs root) = Issuer leaf) && bool_decide (signedBy leaf = PublicKey root) &&
  canSign root && validAt root now.

(** A certificate without extended usages is good for any. *)
Definition usable (u : extKeyUsage) (c : Certificate) : bool :=
  bool_decide (ExtKeyUsage (tbs c) = []) || bool_decide (u ∈ ExtKeyUsage (tbs c)).

Definition Verify (roots : list Certificate) (u : extKeyUsage) (now : Z) (c : Certificate) : bool :=
  validAt c now && usable u c &&
  (bool_decide (c ∈ roots) || existsb (λ r, signs now r c && usable u r) roots).

Definition ipEqual (a b : IP) : bool := bool_decide (default a (To4 a) = default b (To4 b)).
Definition VerifyHostname (c : Certificate) (ip : IP) : bool := existsb (ipEqual ip) (IPAddresses (tbs c)).

(** ** [tls.Config] and what a side accepts *)

Inductive clientAuthType := NoClientCert | RequireAndVerifyClientCert.

(** A nil pool stands for the roots of the system. *)
Record tlsConfig := MkTLS {
  MinVersion : Z;
  Certificates : list (Certificate * priv);
  ClientAuth : clientAuthType;
  ClientCAs : option (list Certificate);
  RootCAs : option (list Certificate);
}.

Definition VersionTLS13 : Z := 0x0304.

Context (systemRoots : list Certificate).

(** A peer that speaks TLS up to [version], presents a certificate and proves
    that it holds a key. *)
Record peer := MkPeer { version : Z; presented : option (Certificate * priv) }.

Definition holdsKey (p : Certificate * priv) : bool := bool_decide (PublicKey p.1 = Public p.2).

Definition serverAccepts (cfg : tlsConfig) (now : Z) (p : peer) : bool :=
  (MinVersion cfg <=? version p) &&
  match ClientAuth cfg with
  | NoClientCert => true
  | RequireAndVerifyClientCert =>
      match presented p with
      | None => false
      | Some ck => holdsKey ck && Verify (default systemRoots (ClientCAs cfg)) ExtKeyUsageClientAuth now ck.1
      end
  end.

Definition clientAccepts (cfg : tlsConfig) (ip : IP) (now : Z) (p : peer) : bool :=
  (MinVersion cfg <=? version p) &&
  match presented p with
  | None => false
  | Some ck => holdsKey ck && Verify (default systemRoots (RootCAs cfg)) ExtKeyUsageServerAuth now ck.1 &&
               VerifyHostname ck.1 ip
  end.

(** A configuration as a peer; Go speaks TLS 1.3. *)
Definition asPeer (cfg : tlsConfig) : peer := MkPeer VersionTLS13 (head (Certificates cfg)).

Definition handshake (server client : tlsConfig) (ip : IP) (now : Z) : bool :=
  serverAccepts server now (asPeer client) && clientAccepts client ip now (asPeer server).
End certificates.

#[global] Arguments peer {_}.
#[global] Arguments tlsConfig {_}.
#[global] Arguments Certificate {_}.

(** ** Encodings *)

Class Encoding `{PKI} := {
  MarshalCertificate : Certificate → gostring;
  ParseCertificate : gostring → option Certificate;
  MarshalPKCS8PrivateKey : priv → option gostring;
  ParsePKCS8PrivateKey : gostring → option priv;
  (** [pem.EncodeToMemory] of a block's type and bytes, and the blocks that
      repeated calls of [pem.Decode] find. *)
  EncodeToMemory : gostring → gostring → gostring;
  pemBlocks : gostring → list (gostring * gostring);
}.

Class EncodingSpec `{Encoding} : Prop := {
  parse_marshal t i p s : ParseCertificate (MarshalCertificate (MkCert (canonical t) i p s)) =
                            Some (MkCert (canonical t) i p s);
  marshal_ed25519 k : ∃ raw, MarshalPKCS8PrivateKey k = Some raw ∧ ParsePKCS8PrivateKey raw = Some k;
  pem_decode_encode ty b : pemBlocks (EncodeToMemory ty b) = [(ty, b)];
  pem_decode_nil : pemBlocks [] = [];
}.

(** ** Generating the credentials *)

Section mtls.
Context `{Encoding}.

Inductive mtlsErr :=
  | GenerateKeyFailed | GenerateSerialFailed | CreateCertFailed | ParseCertFailed
  | KeyPairFailed | EnvMissing | CAParseFailed | ReadFailed.

(** [x509.CreateCertificate]: the key must be that of a parsed parent (a template
    has none). *)
Definition CreateCertificate (t : template) (parent : Certificate + template) (p : pub) (k : priv) :
    option gostring :=
  match parent with
  | inl c => if bool_decide (PublicKey c = Public k)
             then Some (MarshalCertificate (MkCert (canonical t) (Subject (tbs c)) p (Public k))) else None
  | inr t' => Some (MarshalCertificate (MkCert (canonical t) (Subject t') p (Public k)))
  end.

Record MTLSCredentials := MkCreds {
  CACert : Certificate;
  caCertDER : gostring;
  ServerCert : Certificate;
  serverCertDER : gostring;
  serverKey : priv;
  ClientCert : Certificate;
  clientCertDER : gostring;
  clientKey : priv;
}.

Open Scope go_scope.

Definition orErr {A} (o : option A) (e : mtlsErr) : result mtlsErr A :=
  match o with Some a => Ok a | None => Err e end.

(** [rand.Int] below [1 << 128]; [draw] is the random source. *)
Definition randomSerial (draw : option Z) : result mtlsErr Z :=
  let? n := orErr draw GenerateSerialFailed in Ok (n mod 2 ^ 128).

(** The three key pairs and serial numbers are drawn in turn. *)
Definition GenerateMTLSCredentials (now lifetime : Z) (GenerateKey : nat → option priv)
    (draw : nat → option Z) : result mtlsErr MTLSCredentials :=
  let notAfter := now + lifetime in
  let? caPriv := orErr (GenerateKey 0%nat) GenerateKeyFailed in
  let? caSerial := randomSerial (draw 0%nat) in
  let caTemplate := MkTemplate caSerial (gs "Vibepit Ephemeral CA") now notAfter true true
                      KeyUsageCertSign [] [] in
  let? caDER := orErr (CreateCertificate caTemplate (inr caTemplate) (Public caPriv) caPriv) CreateCertFailed in
  let? ca := orErr (ParseCertificate caDER) ParseCertFailed in
  let? serverPriv := orErr (GenerateKey 1%nat) GenerateKeyFailed in
  let? serverSerial := randomSerial (draw 1%nat) in
  let serverTemplate := MkTemplate serverSerial (gs "vibepit proxy") now notAfter false false
                          KeyUsageDigitalSignature [ExtKeyUsageServerAuth] [v4InV6Prefix ++ [127; 0; 0; 1]] in
  let? serverDER := orErr (CreateCertificate serverTemplate (inl ca) (Public serverPriv) caPriv) CreateCertFailed in
  let? server := orErr (ParseCertificate serverDER) ParseCertFailed in
  let? clientPriv := orErr (GenerateKey 2%nat) GenerateKeyFailed in
  let? clientSerial := randomSerial (draw 2%nat) in
  let clientTemplate := MkTemplate clientSerial (gs "vibepit CLI") now notAfter false false
                          KeyUsageDigitalSignature [ExtKeyUsageClientAuth] [] in
  let? clientDER := orErr (CreateCertificate clientTemplate (inl ca) (Public clientPriv) caPriv) CreateCertFailed in
  let? client := orErr (ParseCertificate clientDER) ParseCertFailed in
  Ok (MkCreds ca caDER server serverDER serverPriv client clientDER clientPriv).

(** ** PEM *)

Definition CERTIFICATE : gostring := gs "CERTIFICATE".
Definition PRIVATE_KEY : gostring := gs "PRIVATE KEY".

Definition CACertPEM (c : MTLSCredentials) : gostring := EncodeToMemory CERTIFICATE (caCertDER c).
Definition ServerCertPEM (c : MTLSCredentials) : gostring := EncodeToMemory CERTIFICATE (serverCertDER c).
Definition ClientCertPEM (c : MTLSCredentials) : gostring := EncodeToMemory CERTIFICATE (clientCertDER c).
(** [None] is the panic of a key that cannot be marshalled. *)
Definition ServerKeyPEM (c : MTLSCredentials) : option gostring :=
  EncodeToMemory PRIVATE_KEY <$> MarshalPKCS8PrivateKey (serverKey c).
Definition ClientKeyPEM (c : MTLSCredentials) : option gostring :=
  EncodeToMemory PRIVATE_KEY <$> MarshalPKCS8PrivateKey (clientKey c).

(** [tls.X509KeyPair]: the first certificate is the leaf, the first block of a
    private-key type the key, and they must belong together. *)
Definition X509KeyPair (certPEM keyPEM : gostring) : option (Certificate * priv) :=
  '(_, der) ← list_find (λ b, b.1 = CERTIFICATE) (pemBlocks certPEM);
  '(_, raw) ← list_find (λ b, b.1 = PRIVATE_KEY ∨ HasSuffix b.1 (gs " PRIVATE KEY") = true) (pemBlocks keyPEM);
  c ← ParseCertificate der.2;
  k ← ParsePKCS8PrivateKey raw.2;
  if bool_decide (PublicKey c = Public k) then Some (c, k) else None.

(** [CertPool.AppendCertsFromPEM] on an empty pool: the certificates that parse. *)
Definition AppendCertsFromPEM (pem : gostring) : option (list Certificate) :=
  match omap (λ b, if bool_decide (b.1 = CERTIFICATE) then ParseCertificate b.2 else None) (pemBlocks pem) with
  | [] => None
  | pool => Some pool
  end.

(** ** The configurations *)

Definition ServerTLSConfig (c : MTLSCredentials) : result mtlsErr tlsConfig :=
  let? key := orErr (ServerKeyPEM c) KeyPairFailed in
  let? kp := orErr (X509KeyPair (ServerCertPEM c) key) KeyPairFailed in
  Ok (MkTLS VersionTLS13 [kp] RequireAndVerifyClientCert (Some [CACert c]) None).

Definition ClientTLSConfig (c : MTLSCredentials) : result mtlsErr tlsConfig :=
  let? key := orErr (ClientKeyPEM c) KeyPairFailed in
  let? kp := orErr (X509KeyPair (ClientCertPEM c) key) KeyPairFailed in
  Ok (MkTLS VersionTLS13 [kp] NoClientCert None (Some [CACert c])).

Definition EnvProxyTLSKey : gostring := gs "VIBEPIT_PROXY_TLS_KEY".
Definition EnvProxyTLSCert : gostring := gs "VIBEPIT_PROXY_TLS_CERT".
Definition EnvProxyCACert : gostring := gs "VIBEPIT_PROXY_CA_CERT".

Definition LoadServerTLSConfigFromEnv (Getenv : gostring → gostring) : result mtlsErr tlsConfig :=
  let keyPEM := Getenv EnvProxyTLSKey in
  let certPEM := Getenv EnvProxyTLSCert in
  let caPEM := Getenv EnvProxyCACert in
  if bool_decide (keyPEM = []) || bool_decide (certPEM = []) || bool_decide (caPEM = []) then Err EnvMissing
  else
    let? kp := orErr (X509KeyPair certPEM keyPEM) KeyPairFailed in
    let? pool := orErr (AppendCertsFromPEM caPEM) CAParseFailed in
    Ok (MkTLS VersionTLS13 [kp] RequireAndVerifyClientCert (Some pool) None).

(** The environment of a container: the last assignment of a variable counts. *)
Definition getenvOf (env : list gostring) (k : gostring) : gostring :=
  default [] (last (omap (λ e, match Cut e "=" with
                               | Some (k', v) => if bool_decide (k' = k) then Some v else None
                               | None => None
                               end) env)).

Lemma getenvOf_last env k v : "="%char ∉ k → getenvOf (env ++ [k ++ gs "=" ++ v]) k = v.
Proof.
  intros Hk. unfold getenvOf. rewrite omap_app. cbn [omap list_omap].
  rewrite (Cut_app k "=" v Hk : Cut (k ++ gs "=" ++ v) "=" = Some (k, v)).
  rewrite bool_decide_eq_true_2 by done. by rewrite last_snoc.
Qed.

(** ** The session directory ([cmd/session.go]) *)

(** Files with their permissions.  [os.WriteFile] keeps the permissions of a
    file that exists; [writeOk] says which writes succeed. *)
Definition perm0600 : Z := 6 * 64.
Definition perm0644 : Z := 6 * 64 + 4 * 8 + 4.

Local Abbreviation files := (gmap gostring (gostring * Z)).

Definition WriteFile (writeOk : gostring → bool) (fs : files) (path data : gostring) (perm : Z) : option files :=
  if writeOk path then
    Some (<[path := (data, default perm (snd <$> fs !! path))]> fs)
  else None.

Fixpoint writeAll (writeOk : gostring → bool) (fs : files) (dir : gostring)
    (todo : list (gostring * (gostring * Z))) : files * bool :=
  match todo with
  | [] => (fs, true)
  | (name, (data, perm)) :: todo' =>
      match WriteFile writeOk fs (pathJoin dir name) data perm with
      | Some fs' => writeAll writeOk fs' dir todo'
      | None => (fs, false)
      end
  end.

(** [ensureSessionDir] is the outcome of [os.MkdirAll]; Go ranges over the map of
    files in some order, [shuffle]. *)
Definition WriteSessionCredentials (mkdirOk : bool) (writeOk : gostring → bool)
    (shuffle : list (gostring * (gostring * Z)) → list (gostring * (gostring * Z)))
    (fs : files) (dir : gostring) (c : MTLSCredentials) : files * option gostring :=
  if negb mkdirOk then (fs, None)
  else match ClientKeyPEM c with
       | None => (fs, None)
       | Some key =>
           let '(fs', ok) := writeAll writeOk fs dir
             (shuffle [(gs "ca.pem", (CACertPEM c, perm0600)); (gs "client-key.pem", (key, perm0600));
                       (gs "client-cert.pem", (ClientCertPEM c, perm0600))]) in
           (fs', if ok then Some dir else None)
       end.

Definition ReadFile (fs : files) (path : gostring) : result mtlsErr gostring :=
  orErr (fst <$> fs !! path) ReadFailed.

Definition LoadSessionTLSConfig (fs : files) (dir : gostring) : result mtlsErr tlsConfig :=
  let? caCert := ReadFile fs (pathJoin dir (gs "ca.pem")) in
  let? clientCert := ReadFile fs (pathJoin dir (gs "client-cert.pem")) in
  let? clientKey := ReadFile fs (pathJoin dir (gs "client-key.pem")) in
  let? kp := orErr (X509KeyPair clientCert clientKey) KeyPairFailed in
  let? pool := orErr (AppendCertsFromPEM caCert) CAParseFailed in
  Ok (MkTLS VersionTLS13 [kp] NoClientCert None (Some pool)).

(** ** What the credentials are *)

Context `{!EncodingSpec}.

Definition caTemplateOf (n now notAfter : Z) : template :=
  canonical (MkTemplate n (gs "Vibepit Ephemeral CA") now notAfter true true KeyUsageCertSign [] []).
Definition serverTemplateOf (n now notAfter : Z) : template :=
  canonical (MkTemplate n (gs "vibepit proxy") now notAfter false false KeyUsageDigitalSignature
               [ExtKeyUsageServerAuth] [v4InV6Prefix ++ [127; 0; 0; 1]]).
Definition clientTemplateOf (n now notAfter : Z) : template :=
  canonical (MkTemplate n (gs "vibepit CLI") now notAfter false false KeyUsageDigitalSignature
               [ExtKeyUsageClientAuth] []).

(** Credentials made at [now] for [lifetime] with the authority's key [ca]. *)
Record made (now lifetime : Z) (ca : priv) (c : MTLSCredentials) : Prop := {
  made_ca : ∃ n, CACert c = MkCert (caTemplateOf n now (now + lifetime)) (gs "Vibepit Ephemeral CA")
                              (Public ca) (Public ca);
  made_server : ∃ n, ServerCert c = MkCert (serverTemplateOf n now (now + lifetime)) (gs "Vibepit Ephemeral CA")
                              (Public (serverKey c)) (Public ca);
  made_client : ∃ n, ClientCert c = MkCert (clientTemplateOf n now (now + lifetime)) (gs "Vibepit Ephemeral CA")
                              (Public (clientKey c)) (Public ca);
  made_ca_der : ParseCertificate (caCertDER c) = Some (CACert c);
  made_server_der : ParseCertificate (serverCertDER c) = Some (ServerCert c);
  made_client_der : ParseCertificate (clientCertDER c) = Some (ClientCert c);
}.

Lemma GenerateMTLSCredentials_made now lifetime gk draw c :
  GenerateMTLSCredentials now lifetime gk draw = Ok c → ∃ ca, gk 0%nat = Some ca ∧ made now lifetime ca c.
Proof.
  unfold GenerateMTLSCredentials, randomSerial, CreateCertificate, orErr.
  intros Hg. destruct (gk 0%nat) as [ca|]; [|done]. exists ca. split; [done|].
  destruct (draw 0%nat); [|done]. cbn -[canonical] in Hg.
  rewrite parse_marshal in Hg. cbn -[canonical] in Hg.
  destruct (gk 1%nat); [|done]. destruct (draw 1%nat); [|done]. cbn -[canonical] in Hg.
  rewrite bool_decide_eq_true_2 in Hg by done. cbn -[canonical] in Hg.
  rewrite parse_marshal in Hg. cbn -[canonical] in Hg.
  destruct (gk 2%nat); [|done]. destruct (draw 2%nat); [|done]. cbn -[canonical] in Hg.
  rewrite parse_marshal in Hg. cbn -[canonical] in Hg. injection Hg as <-.
  split; cbn [CACert ServerCert ClientCert serverKey clientKey caCertDER serverCertDER clientCertDER];
    try (by eexists); apply parse_marshal.
Qed.

Lemma X509KeyPair_pem der raw c k :
  ParseCertificate der = Some c → ParsePKCS8PrivateKey raw = Some k → PublicKey c = Public k →
  X509KeyPair (EncodeToMemory CERTIFICATE der) (EncodeToMemory PRIVATE_KEY raw) = Some (c, k).
Proof.
  intros Hc Hk Hp. unfold X509KeyPair. rewrite !pem_decode_encode. cbn -[PRIVATE_KEY CERTIFICATE HasSuffix].
  rewrite !decide_True by auto. cbn. rewrite Hc. cbn. rewrite Hk. cbn. by rewrite bool_decide_eq_true_2.
Qed.

Lemma AppendCertsFromPEM_pem der c :
  ParseCertificate der = Some c → AppendCertsFromPEM (EncodeToMemory CERTIFICATE der) = Some [c].
Proof. intros Hc. unfold AppendCertsFromPEM. rewrite pem_decode_encode. cbn. by rewrite Hc. Qed.

Lemma EncodeToMemory_nonempty ty b : EncodeToMemory ty b ≠ [].
Proof. intros He. pose proof (pem_decode_encode ty b) as Hd. by rewrite He, pem_decode_nil in Hd. Qed.

(** ** Every way to a configuration gives the same one *)

Definition serverCfg (c : MTLSCredentials) : tlsConfig :=
  MkTLS VersionTLS13 [(ServerCert c, serverKey c)] RequireAndVerifyClientCert (Some [CACert c]) None.
Definition clientCfg (c : MTLSCredentials) : tlsConfig :=
  MkTLS VersionTLS13 [(ClientCert c, clientKey c)] NoClientCert None (Some [CACert c]).

Lemma key_pem k : ∃ raw, ParsePKCS8PrivateKey raw = Some k ∧
  EncodeToMemory PRIVATE_KEY <$> MarshalPKCS8PrivateKey k = Some (EncodeToMemory PRIVATE_KEY raw).
Proof. destruct (marshal_ed25519 k) as (raw & -> & ?). by exists raw. Qed.

Section of_made.
Context now lifetime ca c (Hm : made now lifetime ca c).

Lemma server_pair key :
  ServerKeyPEM c = Some key → X509KeyPair (ServerCertPEM c) key = Some (ServerCert c, serverKey c).
Proof.
  unfold ServerKeyPEM, ServerCertPEM. destruct (key_pem (serverKey c)) as (raw & Hr & ->).
  intros [= <-]. apply X509KeyPair_pem; [apply Hm|done|]. by destruct (made_server _ _ _ _ Hm) as [n ->].
Qed.

Lemma client_pair key :
  ClientKeyPEM c = Some key → X509KeyPair (ClientCertPEM c) key = Some (ClientCert c, clientKey c).
Proof.
  unfold ClientKeyPEM, ClientCertPEM. destruct (key_pem (clientKey c)) as (raw & Hr & ->).
  intros [= <-]. apply X509KeyPair_pem; [apply Hm|done|]. by destruct (made_client _ _ _ _ Hm) as [n ->].
Qed.

Lemma ServerTLSConfig_ok : ServerTLSConfig c = Ok (serverCfg c).
Proof.
  unfold ServerTLSConfig. destruct (ServerKeyPEM c) as [key|] eqn:Hk.
  - cbn. by rewrite (server_pair key Hk).
  - unfold ServerKeyPEM in Hk. destruct (key_pem (serverKey c)) as (? & _ & Hk'). congruence.
Qed.

Lemma ClientTLSConfig_ok : ClientTLSConfig c = Ok (clientCfg c).
Proof.
  unfold ClientTLSConfig. destruct (ClientKeyPEM c) as [key|] eqn:Hk.
  - cbn. by rewrite (client_pair key Hk).
  - unfold ClientKeyPEM in Hk. destruct (key_pem (clientKey c)) as (? & _ & Hk'). congruence.
Qed.

Lemma LoadServerTLSConfigFromEnv_ok getenv key :
  ServerKeyPEM c = Some key → getenv EnvProxyTLSKey = key → getenv EnvProxyTLSCert = ServerCertPEM c →
  getenv EnvProxyCACert = CACertPEM c → LoadServerTLSConfigFromEnv getenv = Ok (serverCfg c).
Proof.
  intros Hk Hgk Hgc Hga. unfold LoadServerTLSConfigFromEnv. rewrite Hgk, Hgc, Hga.
  assert (Hkey : key ≠ []).
  { unfold ServerKeyPEM in Hk. apply fmap_Some in Hk as (raw & _ & ->). apply EncodeToMemory_nonempty. }
  rewrite !bool_decide_eq_false_2 by (done || apply EncodeToMemory_nonempty). cbn.
  rewrite (server_pair key Hk). cbn. unfold CACertPEM.
  by rewrite (AppendCertsFromPEM_pem _ _ (made_ca_der _ _ _ _ Hm)).
Qed.

Lemma LoadSessionTLSConfig_ok fs dir key :
  ClientKeyPEM c = Some key →
  fst <$> fs !! pathJoin dir (gs "ca.pem") = Some (CACertPEM c) →
  fst <$> fs !! pathJoin dir (gs "client-cert.pem") = Some (ClientCertPEM c) →
  fst <$> fs !! pathJoin dir (gs "client-key.pem") = Some key →
  LoadSessionTLSConfig fs dir = Ok (clientCfg c).
Proof.
  intros Hk Ha Hc Hkf. unfold LoadSessionTLSConfig, ReadFile. rewrite Ha, Hc, Hkf. cbn.
  rewrite (client_pair key Hk). cbn. unfold CACertPEM.
  by rewrite (AppendCertsFromPEM_pem _ _ (made_ca_der _ _ _ _ Hm)).
Qed.

(** ** Who is accepted *)

Definition window (t : Z) : Prop := now / Second * Second ≤ t ≤ (now + lifetime) / Second * Second.

Lemma validAt_made cert n t :
  tbs cert = caTemplateOf n now (now + lifetime) ∨ tbs cert = serverTemplateOf n now (now + lifetime) ∨
  tbs cert = clientTemplateOf n now (now + lifetime) →
  validAt cert t = true ↔ window t.
Proof.
  unfold validAt, window. rewrite andb_true_iff, !Z.leb_le. by intros [->|[->| ->]].
Qed.

Lemma Verify_made cert u t n :
  Issuer cert = gs "Vibepit Ephemeral CA" → signedBy cert = Public ca → usable u cert = true →
  tbs cert = serverTemplateOf n now (now + lifetime) ∨ tbs cert = clientTemplateOf n now (now + lifetime) →
  Verify [CACert c] u t cert = true ↔ window t.
Proof.
  intros Hi Hs Hu Ht. unfold Verify, signs. rewrite Hu, Hi, Hs, andb_true_r.
  destruct (made_ca _ _ _ _ Hm) as [m ->]. cbn [existsb tbs PublicKey]. unfold canSign, usable. cbn -[validAt].
  rewrite (bool_decide_eq_true_2 (Public ca = Public ca)) by done. cbn -[validAt].
  rewrite andb_true_iff, (validAt_made cert n) by naive_solver. split; [naive_solver|]. intros Hw.
  split; [done|]. apply orb_true_iff. right. rewrite orb_false_r, andb_true_r.
  apply (validAt_made _ m); [by left|done].
Qed.

Lemma Verify_root root u t cert : Verify [root] u t cert = true → cert = root ∨ signedBy cert = PublicKey root.
Proof.
  unfold Verify, signs. cbn. intros [_ Hv]%andb_true_iff.
  apply orb_true_iff in Hv as [Hv|Hv]; [left|right]; breflect.
  - by apply list_elem_of_singleton in Hv.
  - rewrite orb_false_r in Hv. by breflect.
Qed.

Context (systemRoots : list Certificate).

Lemma serverAccepts_made t p :
  serverAccepts systemRoots (serverCfg c) t p = true →
  ∃ cert k, presented p = Some (cert, k) ∧ VersionTLS13 ≤ version p ∧ PublicKey cert = Public k ∧
    (cert = CACert c ∨ signedBy cert = Public ca) ∧ cert ≠ ServerCert c.
Proof.
  unfold serverAccepts, serverCfg. cbn -[Verify]. intros [Hver Hp]%andb_true_iff.
  destruct (presented p) as [[cert k]|]; [|done]. apply andb_true_iff in Hp as [Hk Hv].
  unfold holdsKey in Hk. cbn [fst snd] in *. breflect. exists cert, k. split_and!; try done.
  - apply Verify_root in Hv as [?|Hs]; [by left|right]. by destruct (made_ca _ _ _ _ Hm) as [n Hca]; rewrite Hca in Hs.
  - intros ->. unfold Verify, usable in Hv. by destruct (made_server _ _ _ _ Hm) as [n Hs]; rewrite Hs, andb_false_r in Hv.
Qed.

(** The address of the control API. *)
Definition loopback : IP := [127; 0; 0; 1].

Lemma clientAccepts_made t p :
  clientAccepts systemRoots (clientCfg c) loopback t p = true →
  ∃ cert k, presented p = Some (cert, k) ∧ VersionTLS13 ≤ version p ∧ PublicKey cert = Public k ∧
    signedBy cert = Public ca ∧ cert ≠ ClientCert c.
Proof.
  unfold clientAccepts, clientCfg. cbn -[Verify VerifyHostname]. intros [Hver Hp]%andb_true_iff.
  destruct (presented p) as [[cert k]|]; [|done]. apply andb_true_iff in Hp as [[Hk Hv]%andb_true_iff Hh].
  unfold holdsKey in Hk. cbn [fst snd] in *. breflect. exists cert, k. split_and!; try done.
  - apply Verify_root in Hv as [->|Hs].
    + by destruct (made_ca _ _ _ _ Hm) as [n Hca]; rewrite Hca in Hh.
    + by destruct (made_ca _ _ _ _ Hm) as [n Hca]; rewrite Hca in Hs.
  - intros ->. by destruct (made_client _ _ _ _ Hm) as [n Hc]; rewrite Hc in Hh.
Qed.

Lemma handshake_made t :
  handshake systemRoots (serverCfg c) (clientCfg c) loopback t = true ↔ window t.
Proof.
  destruct (made_server _ _ _ _ Hm) as [ns Hs]. destruct (made_client _ _ _ _ Hm) as [nc Hc].
  assert (Vc : Verify [CACert c] ExtKeyUsageClientAuth t (ClientCert c) = true ↔ window t)
    by (eapply Verify_made; rewrite Hc; try done; by right).
  assert (Vs : Verify [CACert c] ExtKeyUsageServerAuth t (ServerCert c) = true ↔ window t)
    by (eapply Verify_made; rewrite Hs; try done; by left).
  unfold handshake, serverAccepts, clientAccepts, holdsKey, serverCfg, clientCfg, asPeer.
  cbn -[Verify VerifyHostname]. rewrite !andb_true_iff, Vc, Vs, Hs, Hc, !bool_decide_eq_true. cbn. naive_solver.
Qed.
End of_made.

(** Sessions with different authorities do not talk to each other. *)
Lemma sessions_isolated sys now lifetime ca c now' lifetime' ca' c' t :
  made now lifetime ca c → made now' lifetime' ca' c' → Public ca ≠ Public ca' →
  handshake sys (serverCfg c) (clientCfg c') loopback t = false.
Proof.
  intros Hm Hm' Hne. apply not_true_iff_false. intros [_ Hc]%andb_true_iff.
  apply (clientAccepts_made _ _ _ _ Hm') in Hc as (cert & k & [= <- <-] & _ & _ & Hs & _).
  destruct (made_server _ _ _ _ Hm) as [n Hn]. by rewrite Hn in Hs.
Qed.

(** ** From the host to the proxy and back *)

(** A file that was written holds its data, with the permissions it was given if
    it is new; every other file is as before. *)
Lemma writeAll_spec writeOk dir todo fs fs' :
  writeAll writeOk fs dir todo = (fs', true) → NoDup todo.*1 →
  (∀ name data perm, (name, (data, perm)) ∈ todo →
     fs' !! pathJoin dir name = Some (data, default perm (snd <$> fs !! pathJoin dir name))) ∧
  (∀ path, (∀ name, name ∈ todo.*1 → path ≠ pathJoin dir name) → fs' !! path = fs !! path).
Proof.
  revert fs. induction todo as [|[name [data perm]] todo IH]; intros fs; cbn.
  - intros [= <-] _. split; [by intros ??? ?%elem_of_nil|done].
  - unfold WriteFile. destruct (writeOk _); [|done]. intros Hw [Hn Hnd]%NoDup_cons.
    assert (Hne : ∀ n, n ∈ todo.*1 → pathJoin dir name ≠ pathJoin dir n)
      by (intros n Hin Heq; apply pathJoin_inj in Heq; congruence).
    destruct (IH _ Hw Hnd) as [Hin Hout]. split.
    + intros n' d' p' [[= -> -> ->]|Hin']%elem_of_cons; [by rewrite Hout, lookup_insert_eq|].
      rewrite (Hin n' d' p' Hin'), lookup_insert_ne; [done|].
      apply Hne, list_elem_of_fmap. by exists (n', (d', p')).
    + intros path Hp. rewrite Hout by (intros; apply Hp; by right).
      rewrite lookup_insert_ne; [done|]. intros <-. by eapply (Hp name); [left|].
Qed.

(** Nothing but the disk can make the writing fail: no key panics. *)
Lemma writeAll_ok dir todo fs : (writeAll (λ _, true) fs dir todo).2 = true.
Proof. revert fs. induction todo as [|[name [data perm]] todo IH]; intros fs; cbn; [done|apply IH]. Qed.

Lemma ServerKeyPEM_some c : ∃ key, ServerKeyPEM c = Some key.
Proof. destruct (key_pem (serverKey c)) as (raw & _ & Hk). by eexists. Qed.

Lemma WriteSessionCredentials_ok shuffle fs dir c :
  ∃ fs', WriteSessionCredentials true (λ _, true) shuffle fs dir c = (fs', Some dir).
Proof.
  unfold WriteSessionCredentials, ClientKeyPEM. destruct (key_pem (clientKey c)) as (raw & _ & ->). cbn [negb].
  match goal with |- context [writeAll _ _ _ ?l] => pose proof (writeAll_ok dir l fs) as Ho end.
  destruct (writeAll _ _ _ _) as [fs' ok]. cbn in Ho. subst ok. by exists fs'.
Qed.

Lemma getenv_proxySpec cfg :
  TLSKeyPEM cfg ≠ [] →
  let getenv := getenvOf (cEnv (proxySpec cfg)) in
  getenv EnvProxyTLSKey = TLSKeyPEM cfg ∧ getenv EnvProxyTLSCert = TLSCertPEM cfg ∧
  getenv EnvProxyCACert = Container.CACertPEM cfg.
Proof.
  intros Hk. cbn -[EnvProxyTLSKey EnvProxyTLSCert EnvProxyCACert getenvOf gs].
  rewrite bool_decide_eq_false_2 by done. unfold getenvOf.
  change (gs "VIBEPIT_PROXY_TLS_KEY=") with (EnvProxyTLSKey ++ gs "=").
  change (gs "VIBEPIT_PROXY_TLS_CERT=") with (EnvProxyTLSCert ++ gs "=").
  change (gs "VIBEPIT_PROXY_CA_CERT=") with (EnvProxyCACert ++ gs "=").
  assert (Hcut : ∀ k v, "="%char ∉ k → Cut (k ++ gs "=" ++ v) "=" = Some (k, v))
    by (intros; by apply Cut_app).
  rewrite <- !app_assoc. cbn [omap list_omap].
  rewrite !Hcut by (apply (bool_decide_unpack _); vm_compute; exact I). by split_and!.
Qed.

(** Writing the credentials gives every file its content, and the permissions of
    the user alone if it is new. *)
Lemma session_files writeOk shuffle fs fs' dir c :
  (∀ l, shuffle l ≡ₚ l) → WriteSessionCredentials true writeOk shuffle fs dir c = (fs', Some dir) →
  ∃ key, ClientKeyPEM c = Some key ∧ ∀ name data,
    (name, data) ∈ [(gs "ca.pem", CACertPEM c); (gs "client-key.pem", key); (gs "client-cert.pem", ClientCertPEM c)] →
    fs' !! pathJoin dir name = Some (data, default perm0600 (snd <$> fs !! pathJoin dir name)).
Proof.
  intros Hsh Hw. unfold WriteSessionCredentials in Hw. cbn [negb] in Hw.
  destruct (ClientKeyPEM c) as [key|]; [|done]. exists key. split; [done|].
  match type of Hw with context [shuffle ?l] => set (todo := l) in Hw end.
  destruct (writeAll _ _ _ _) as [fs1 ok] eqn:Hall. injection Hw as -> Hok. destruct ok; [|done].
  destruct (writeAll_spec _ _ _ _ _ Hall) as [Hin _].
  { rewrite Hsh. apply (bool_decide_unpack _). vm_compute. exact I. }
  intros name data Hn. apply Hin. rewrite Hsh. unfold todo. set_solver.
Qed.

(** C4: the control API of a session is open to those its authority certified,
    and of the certificates made for it only to the holder of the command line's
    key (or of the authority's own, which is not kept).  When the credentials are generated and written, the
    proxy, started with them in its environment, and the command line, from the
    session directory, load exactly the configurations the host could make in
    memory; their handshake on the loopback address succeeds at every moment of
    the certificates' lifetime and at no other; the proxy completes a handshake
    only with TLS 1.3 and a peer that holds the key of the authority's own
    certificate or of a certificate the authority signed, and never with the
    server certificate, so that of the three certificates that are made only the
    client's, with the client's key, and the authority's, with the authority's
    key, are let in; files of the session directory that are new are readable
    and writable by the user alone; the command line only with a server certificate the
    authority signed; and a proxy and a command line of sessions with different
    authorities never talk. *)
Theorem session_mtls sys now lifetime gk draw c fs fs' dir writeOk shuffle cfg key :
  (∀ l, shuffle l ≡ₚ l) →
  GenerateMTLSCredentials now lifetime gk draw = Ok c →
  WriteSessionCredentials true writeOk shuffle fs dir c = (fs', Some dir) →
  ServerKeyPEM c = Some key →
  TLSKeyPEM cfg = key → TLSCertPEM cfg = ServerCertPEM c → Container.CACertPEM cfg = CACertPEM c →
  ∃ server client,
    LoadServerTLSConfigFromEnv (getenvOf (cEnv (proxySpec cfg))) = Ok server ∧
    ServerTLSConfig c = Ok server ∧
    LoadSessionTLSConfig fs' dir = Ok client ∧ ClientTLSConfig c = Ok client ∧
    (∀ t, handshake sys server client loopback t = true ↔
          now / Second * Second ≤ t ≤ (now + lifetime) / Second * Second) ∧
    (∀ t p, serverAccepts sys server t p = true →
       ∃ cert k, presented p = Some (cert, k) ∧ VersionTLS13 ≤ version p ∧ PublicKey cert = Public k ∧
         (cert = CACert c ∨ signedBy cert = PublicKey (CACert c)) ∧ cert ≠ ServerCert c ∧
         (cert ∈ [CACert c; ServerCert c; ClientCert c] →
            cert = ClientCert c ∧ Public k = Public (clientKey c) ∨
            cert = CACert c ∧ Public k = PublicKey (CACert c))) ∧
    (∀ name, name ∈ [gs "ca.pem"; gs "client-key.pem"; gs "client-cert.pem"] →
       fs !! pathJoin dir name = None → snd <$> fs' !! pathJoin dir name = Some perm0600) ∧
    (∀ t p, clientAccepts sys client loopback t p = true →
       ∃ cert k, presented p = Some (cert, k) ∧ VersionTLS13 ≤ version p ∧ PublicKey cert = Public k ∧
         signedBy cert = PublicKey (CACert c) ∧ cert ≠ ClientCert c) ∧
    (∀ now' lifetime' gk' draw' c' server' client' t,
       GenerateMTLSCredentials now' lifetime' gk' draw' = Ok c' →
       PublicKey (CACert c') ≠ PublicKey (CACert c) →
       ServerTLSConfig c' = Ok server' → ClientTLSConfig c' = Ok client' →
       handshake sys server client' loopback t = false ∧ handshake sys server' client loopback t = false).
Proof.
  intros Hsh Hg Hw Hk Hck Hcc Hca. destruct (GenerateMTLSCredentials_made _ _ _ _ _ Hg) as (ca & _ & Hm).
  assert (Hcapub : PublicKey (CACert c) = Public ca) by (by destruct (made_ca _ _ _ _ Hm) as [n ->]).
  destruct (session_files _ _ _ _ _ _ Hsh Hw) as (ckey & Hckey & Hfiles).
  exists (serverCfg c), (clientCfg c). split_and!.
  - destruct (getenv_proxySpec cfg) as (H1' & H2' & H3'); [rewrite Hck|].
    { unfold ServerKeyPEM in Hk. apply fmap_Some in Hk as (raw & _ & ->). apply EncodeToMemory_nonempty. }
    eapply LoadServerTLSConfigFromEnv_ok; [done|done|congruence..].
  - by eapply ServerTLSConfig_ok.
  - eapply LoadSessionTLSConfig_ok; [done|exact Hckey|..]; (erewrite Hfiles; [done|]); set_solver.
  - by eapply ClientTLSConfig_ok.
  - intros t. by apply (handshake_made now lifetime ca).
  - intros t p Ha. rewrite Hcapub. apply (serverAccepts_made now lifetime ca c Hm) in Ha
      as (cert & k & Hp & Hv & Hpk & Hca' & Hns). exists cert, k. split_and!; try done.
    rewrite <- Hpk. destruct (made_client _ _ _ _ Hm) as [n Hcl]. clear Hca'. set_unfold.
    intros [->|[->|[->|[]]]]; [by right|done|]. left. split; [done|]. by rewrite Hcl.
  - intros name Hn Hnew. assert (∃ data, (name, data) ∈ [(gs "ca.pem", CACertPEM c); (gs "client-key.pem", ckey);
      (gs "client-cert.pem", ClientCertPEM c)]) as [data Hd] by set_solver.
    by rewrite (Hfiles _ _ Hd), Hnew.
  - rewrite Hcapub. by apply (clientAccepts_made now lifetime ca).
  - intros now' lifetime' gk' draw' c' server' client' t Hg' Hne Hs' Hc'.
    destruct (GenerateMTLSCredentials_made _ _ _ _ _ Hg') as (ca' & _ & Hm').
    rewrite Hcapub in Hne. destruct (made_ca _ _ _ _ Hm') as [n Hn]. rewrite Hn in Hne. cbn in Hne.
    rewrite (ServerTLSConfig_ok _ _ _ _ Hm') in Hs'. rewrite (ClientTLSConfig_ok _ _ _ _ Hm') in Hc'.
    injection Hs' as <-. injection Hc' as <-.
    split; eapply sessions_isolated; eauto.
Qed.
End mtls.

(** ** A concrete instance

    Keys are numbers, and an encoding writes the bits of the number that stands
    for a value. *)
#[local] Instance toy_pki : PKI := {| priv := N; pub := N; Public k := (2 * k)%N |}.

#[local] Instance extKeyUsage_countable : Countable extKeyUsage.
Proof.
  apply (inj_countable' (λ u, bool_decide (u = ExtKeyUsageServerAuth))
           (λ b : bool, if b then ExtKeyUsageServerAuth else ExtKeyUsageClientAuth)). by intros [].
Defined.
#[local] Instance keyUsage_countable : Countable keyUsage.
Proof.
  apply (inj_countable' (λ u, bool_decide (u = KeyUsageCertSign))
           (λ b : bool, if b then KeyUsageCertSign else KeyUsageDigitalSignature)). by intros [].
Defined.
#[local] Instance certificate_countable : Countable (Certificate (H := toy_pki)).
Proof.
  apply (inj_countable'
    (λ c : Certificate (H := toy_pki), ((SerialNumber (tbs c), Subject (tbs c), NotBefore (tbs c), NotAfter (tbs c)),
           (IsCA (tbs c), BasicConstraintsValid (tbs c), KeyUsage (tbs c), ExtKeyUsage (tbs c)),
           IPAddresses (tbs c), (Issuer c, PublicKey c : N, signedBy c : N)))
    (λ x, let '((n, s, nb, na), (ca, bc, ku, eku), ips, (i, p, k)) := x in
          MkCert (H := toy_pki) (MkTemplate n s nb na ca bc ku eku ips) i p k)).
  by intros [[] ? ? ?].
Defined.

Fixpoint bits_of (p : positive) : gostring :=
  match p with xH => gs "1" | xO p => "o"%char :: bits_of p | xI p => "i"%char :: bits_of p end.
Fixpoint of_bits (s : gostring) : option positive :=
  match s with
  | [] => None
  | c :: s' => if bool_decide (c = "1"%char) then Some 1%positive
               else if bool_decide (c = "o"%char) then xO <$> of_bits s' else xI <$> of_bits s'
  end.

Lemma of_bits_of p : of_bits (bits_of p) = Some p.
Proof. by induction p as [p IH|p IH|]; cbn; rewrite ?IH. Qed.

Definition toy_write {A} `{Countable A} (a : A) : gostring := bits_of (encode a).
Definition toy_read {A} `{Countable A} (s : gostring) : option A := of_bits s ≫= decode.

Lemma toy_read_write {A} `{Countable A} (a : A) : toy_read (toy_write a) = Some a.
Proof. unfold toy_read, toy_write. rewrite of_bits_of. cbn. apply decode_encode. Qed.

#[local] Instance toy_encoding : Encoding := {|
  MarshalCertificate := toy_write; ParseCertificate := toy_read;
  MarshalPKCS8PrivateKey k := Some (toy_write (k : N)); ParsePKCS8PrivateKey s := toy_read (A := N) s;
  EncodeToMemory ty b := toy_write (ty, b); pemBlocks s := option_list (toy_read s) |}.

#[local] Instance toy_encoding_spec : EncodingSpec.
Proof.
  split.
  - intros. apply toy_read_write.
  - intros k. eexists. split; [done|]. apply toy_read_write.
  - intros ty b. unfold pemBlocks, EncodeToMemory. cbn [toy_encoding]. by rewrite toy_read_write.
  - done.
Qed.

Definition demo_keys (i : nat) : option (@priv toy_pki) := Some (N.of_nat i).

Definition demo_serials (i : nat) : option Z := Some (Z.of_nat i).

Local Notation demo_gen := (GenerateMTLSCredentials (5 * Second + 7) (10 * Second) demo_keys demo_serials).

Definition demo_proxyCfg (key cert ca : gostring) : ProxyContainerConfig :=
  MkProxyCfg (gs "/bin/vibepit") (gs "/tmp/p.json") (gs "n1") (gs "10.0.0.2") 4000 (gs "p") (gs "s1")
    key cert ca (gs "/src") true 2222 [].

Lemma demo_proxyCfg_pem key cert ca :
  TLSKeyPEM (demo_proxyCfg key cert ca) = key ∧ TLSCertPEM (demo_proxyCfg key cert ca) = cert ∧
  Container.CACertPEM (demo_proxyCfg key cert ca) = ca.
Proof. done. Qed.

Lemma demo_gen_ok : is_ok demo_gen = true.
Proof. vm_compute. reflexivity. Qed.

Lemma session_mtls_witness :
  ∃ c key server client, demo_gen = Ok c ∧ ServerKeyPEM c = Some key ∧
    LoadServerTLSConfigFromEnv (getenvOf (cEnv (proxySpec (demo_proxyCfg key (ServerCertPEM c) (CACertPEM c))))) = Ok server ∧
    ClientTLSConfig c = Ok client ∧
    handshake [] server client loopback (9 * Second) = true.
Proof.
  pose proof demo_gen_ok as Hok. destruct demo_gen as [c|e] eqn:Hg; [|discriminate Hok].
  destruct (ServerKeyPEM_some c) as [key Hk].
  destruct (WriteSessionCredentials_ok reverse ∅ (gs "/state/s1") c) as [fs' Hw].
  exists c, key. destruct (demo_proxyCfg_pem key (ServerCertPEM c) (CACertPEM c)) as (Hp1 & Hp2 & Hp3).
  destruct (session_mtls [] (5 * Second + 7) (10 * Second) demo_keys demo_serials
    c ∅ fs' (gs "/state/s1") (λ _, true) reverse (demo_proxyCfg key (ServerCertPEM c) (CACertPEM c)) key
    (λ l, reverse_Permutation l) Hg Hw Hk Hp1 Hp2 Hp3)
    as (server & client & Hs & _ & _ & Hc & Hh & _).
  exists server, client. split; [reflexivity|]. split; [exact Hk|]. split; [exact Hs|]. split; [exact Hc|].
  apply Hh. unfold Second. vm_compute. split; discriminate.
Defined.
