(* ===== verification/SshAuth.v ===== *)
(** * SSH keys of a session ([keygen/keygen.go], [cmd/session.go], [cmd/vibed.go],
      [sshd/server.go: NewServer], [cmd/bootstrap_ssh.go])

    [up] makes two key pairs, writes them to the session directory, mounts the
    host key into the sandbox and passes the client's public key in the
    environment of the daemon; [connect] and [exec] read the other halves.  Keys
    are the symbolic ones of [Mtls.v]. *)

From S2P Require Import Prelude GoStrings MonitorUI Container Sandbox SandboxSpec Mtls HostClient.
Open Scope Z_scope.

Local Abbreviation files := (gmap gostring (gostring * Z)).

(** The text formats of golang.org/x/crypto/ssh. *)
Class SSHFormat `{PKI} := {
  MarshalPrivateKey : priv → option gostring;
  ParsePrivateKey : gostring → option priv;
  MarshalAuthorizedKey : pub → gostring;
  ParseAuthorizedKey : gostring → option pub;
}.

Class SSHFormatSpec `{SSHFormat} : Prop := {
  parse_private k text : MarshalPrivateKey k = Some text → ParsePrivateKey text = Some k;
  parse_authorized p : ParseAuthorizedKey (MarshalAuthorizedKey p) = Some p;
  authorized_nonempty p : MarshalAuthorizedKey p ≠ [];
}.

Section ssh_keys.
Context `{SSHFormat}.

(** ** Generating and writing *)

Inductive keyErr := KeyGenFailed | KeyMarshalFailed.

Definition GenerateEd25519Keypair (k : option priv) : result keyErr (gostring * gostring) :=
  match k with
  | None => Err KeyGenFailed
  | Some k => match MarshalPrivateKey k with
              | None => Err KeyMarshalFailed
              | Some privateKeyPEM => Ok (privateKeyPEM, MarshalAuthorizedKey (Public k))
              end
  end.

Definition SSHClientPrivFile : gostring := gs "ssh-key".
Definition SSHClientPubFile : gostring := gs "ssh-key.pub".

Definition WriteSSHCredentials (mkdirOk : bool) (writeOk : gostring → bool)
    (shuffle : list (gostring * (gostring * Z)) → list (gostring * (gostring * Z)))
    (fs : files) (dir clientPriv clientPub hostPriv hostPub : gostring) : files * bool :=
  if negb mkdirOk then (fs, false)
  else writeAll writeOk fs dir
    (shuffle [(SSHClientPrivFile, (clientPriv, perm0600)); (SSHClientPubFile, (clientPub, perm0644));
              (SSHHostPrivFile, (hostPriv, perm0600)); (SSHHostPubFile, (hostPub, perm0644))]).

(** ** The daemon *)

(** The manager is given by its limit and the path of its state file. *)
Record managerConfig := MkMgrCfg { maxSessions : Z; stateFilePath : gostring }.
Record server := MkServer { hostKey : priv; authorizedKey : pub; sessions : managerConfig }.

(** [sshd.NewServer]: the authorized key is parsed first; a key is accepted when
    it equals it. *)
Definition NewServer (HostKeyPEM AuthorizedKey : gostring) (mgr : managerConfig) : option server :=
  authorized ← ParseAuthorizedKey AuthorizedKey;
  host ← ParsePrivateKey HostKeyPEM;
  Some (MkServer host authorized mgr).

Definition PublicKeyAuth (s : server) (key : pub) : bool := bool_decide (key = authorizedKey s).

Inductive vibedErr := InitFailed | ReadHostKeyFailed | AuthorizedKeyUnset | CreateServerFailed | ListenFailed.

Definition SessionStatePath : gostring := gs "/tmp/vibed-sessions.json".

(** [VibedAction] up to the accept loop. *)
Definition VibedAction (initOk : bool) (hostKeyFile : option gostring) (Getenv : gostring → gostring)
    (listenOk : bool) : result vibedErr server :=
  if negb initOk then Err InitFailed
  else match hostKeyFile with
       | None => Err ReadHostKeyFailed
       | Some pem =>
           let key := Getenv SSHPubKeyEnv in
           if bool_decide (key = []) then Err AuthorizedKeyUnset
           else match NewServer pem key (MkMgrCfg 50 SessionStatePath) with
                | None => Err CreateServerFailed
                | Some srv => if listenOk then Ok srv else Err ListenFailed
                end
       end.

(** ** The handshake

    The server proves that it holds its host key and the client that it holds
    its own; [ssh.FixedHostKey] compares the former, [PublicKeyAuth] the latter. *)
Definition sshHandshake (s : server) (hostPubText privText : gostring) : bool :=
  match ParseAuthorizedKey hostPubText, ParsePrivateKey privText with
  | Some expected, Some k => bool_decide (Public (hostKey s) = expected) && PublicKeyAuth s (Public k)
  | _, _ => false
  end.

(** [newSSHClient] with these keys; [listening] is who answers at an address. *)
Definition dialSession {D} `{Docker D} (d : D) (root : gostring) (fs : files) (dir : gostring)
    (listening : gostring → option server) : result sshErr sshConn :=
  newSSHClient d (Some root) (λ _ name, fst <$> fs !! pathJoin dir name)
    (λ t, bool_decide (is_Some (ParsePrivateKey t))) (λ t, bool_decide (is_Some (ParseAuthorizedKey t)))
    (λ addr hostPub key, match listening addr with Some s => sshHandshake s hostPub key | None => false end).

Context `{!SSHFormatSpec}.

Lemma Generate_ok k p : GenerateEd25519Keypair k = Ok p →
  ∃ key, k = Some key ∧ MarshalPrivateKey key = Some p.1 ∧ p.2 = MarshalAuthorizedKey (Public key).
Proof.
  unfold GenerateEd25519Keypair. destruct k as [key|]; [|done].
  destruct (MarshalPrivateKey key) eqn:Hm; [|done]. intros [= <-]. by exists key.
Qed.

(** What [WriteSSHCredentials] leaves in the directory. *)
Lemma WriteSSHCredentials_spec writeOk shuffle fs fs' dir cpriv cpub hpriv hpub :
  (∀ l, shuffle l ≡ₚ l) →
  WriteSSHCredentials true writeOk shuffle fs dir cpriv cpub hpriv hpub = (fs', true) →
  Forall (λ '(name, (data, perm)),
      fs' !! pathJoin dir name = Some (data, default perm (snd <$> fs !! pathJoin dir name)))
    [(SSHClientPrivFile, (cpriv, perm0600)); (SSHClientPubFile, (cpub, perm0644));
     (SSHHostPrivFile, (hpriv, perm0600)); (SSHHostPubFile, (hpub, perm0644))].
Proof.
  intros Hsh Hw. unfold WriteSSHCredentials in Hw. cbn [negb] in Hw.
  apply writeAll_spec in Hw as [Hin _].
  - apply Forall_forall. intros [name [data perm]] Hn. apply Hin. by rewrite Hsh.
  - rewrite Hsh. apply (bool_decide_unpack _). vm_compute. exact I.
Qed.

(** The daemon of a session has the session's keys. *)
Lemma VibedAction_session host client hpriv cfg :
  MarshalPrivateKey host = Some hpriv → Daemon cfg = true →
  DaemonAuthorizedKey cfg = MarshalAuthorizedKey (Public client) →
  VibedAction true (Some hpriv) (getenvOf (sandboxEnv cfg)) true =
    Ok (MkServer host (Public client) (MkMgrCfg 50 SessionStatePath)).
Proof.
  intros Hh Hd Hk. unfold VibedAction. cbn [negb].
  assert (Hg : getenvOf (sandboxEnv cfg) SSHPubKeyEnv = DaemonAuthorizedKey cfg).
  { unfold sandboxEnv. rewrite Hd.
    match goal with |- getenvOf (?a ++ ?b ++ ?m ++ ?l) _ = _ => rewrite (app_assoc b m l), (app_assoc a (b ++ m) l) end.
    apply getenvOf_last.
    apply (bool_decide_unpack _). vm_compute. exact I. }
  rewrite Hg, Hk, bool_decide_eq_false_2 by apply authorized_nonempty.
  unfold NewServer. rewrite parse_authorized. cbn. by rewrite (parse_private _ _ Hh).
Qed.

Lemma sshHandshake_spec s host client cpriv :
  MarshalPrivateKey client = Some cpriv →
  sshHandshake s (MarshalAuthorizedKey (Public host)) cpriv = true ↔
  Public (hostKey s) = Public host ∧ Public client = authorizedKey s.
Proof.
  intros Hc. unfold sshHandshake, PublicKeyAuth. rewrite parse_authorized, (parse_private _ _ Hc).
  by rewrite andb_true_iff, !bool_decide_eq_true.
Qed.

(** C9: a session's terminal connection is authenticated on both sides.  After
    [up] has generated and written the keys, the daemon started with the mounted
    host key and its environment accepts exactly the session's client key;
    [connect] and [exec], from the session directory, reach it whenever the
    container runtime finds the session and it answers at the published port;
    whoever answers, they connect only to a server that holds the session's host
    key and is configured for the session's client key; and private keys that
    were not there before are readable by their owner only. *)
Theorem ssh_session_pinned {D} `{Docker D} (d : D) root client host cpriv cpub hpriv hpub
    writeOk shuffle fs fs' dir cfg :
  (∀ l, shuffle l ≡ₚ l) →
  GenerateEd25519Keypair (Some client) = Ok (cpriv, cpub) →
  GenerateEd25519Keypair (Some host) = Ok (hpriv, hpub) →
  WriteSSHCredentials true writeOk shuffle fs dir cpriv cpub hpriv hpub = (fs', true) →
  Daemon cfg = true → DaemonHostKeyPath cfg = pathJoin dir SSHHostPrivFile → DaemonAuthorizedKey cfg = cpub →
  ∃ srv,
    VibedAction true (fst <$> fs' !! DaemonHostKeyPath cfg) (getenvOf (sandboxEnv cfg)) true = Ok srv ∧
    (∀ key, PublicKeyAuth srv key = true ↔ key = Public client) ∧
    (∀ sb proxyID port listening,
       FindRunningSession d root = Some (Some sb) → FindProxyContainerID d (rSessionID sb) = Some proxyID →
       FindPublishedPort d proxyID SSHContainerPort = Some port →
       listening (gs "127.0.0.1:" ++ Itoa port) = Some srv →
       is_ok (dialSession d root fs' dir listening) = true) ∧
    (∀ listening conn, dialSession d root fs' dir listening = Ok conn →
       ∃ s, listening (dialled conn) = Some s ∧ Public (hostKey s) = Public host ∧
            authorizedKey s = Public client) ∧
    (∀ name, name ∈ [SSHClientPrivFile; SSHHostPrivFile] → fs !! pathJoin dir name = None →
       snd <$> fs' !! pathJoin dir name = Some perm0600).
Proof.
  intros Hsh Hc Hh Hw Hd Hpath Hkey.
  apply Generate_ok in Hc as (? & [= <-] & Hcp & Hcq). apply Generate_ok in Hh as (? & [= <-] & Hhp & Hhq).
  cbn [fst snd] in *. subst cpub hpub.
  pose proof (WriteSSHCredentials_spec _ _ _ _ _ _ _ _ _ Hsh Hw) as Hf.
  apply Forall_cons in Hf as [Hf1 Hf]. apply Forall_cons in Hf as [Hf2 Hf].
  apply Forall_cons in Hf as [Hf3 Hf]. apply Forall_cons in Hf as [Hf4 _].
  exists (MkServer host (Public client) (MkMgrCfg 50 SessionStatePath)). split_and!.
  - rewrite Hpath, Hf3. cbn [fmap option_fmap option_map fst]. by apply VibedAction_session.
  - intros key. unfold PublicKeyAuth. by rewrite bool_decide_eq_true.
  - intros sb proxyID port listening Hrun Hproxy Hport Hl. unfold dialSession, newSSHClient.
    rewrite Hrun, Hproxy, Hport. change (gs "ssh-key") with SSHClientPrivFile. rewrite Hf1, Hf4.
    cbn [fmap option_fmap option_map fst]. rewrite (parse_private _ _ Hcp), parse_authorized.
    rewrite !bool_decide_eq_true_2 by eauto. cbn [negb]. rewrite Hl.
    by rewrite (proj2 (sshHandshake_spec _ host client cpriv Hcp)).
  - intros listening conn Hc.
    apply newSSHClient_pinned in Hc as (sid & proxyID & port & _ & _ & _ & _ & _ & Hk & Hp & Ha).
    change (gs "ssh-key") with SSHClientPrivFile in Hk. rewrite Hf1 in Hk. rewrite Hf4 in Hp.
    injection Hk as Hk. injection Hp as Hp. destruct (listening _) as [s|]; [|done]. exists s.
    rewrite <- Hk, <- Hp in Ha. by apply (sshHandshake_spec s host client cpriv Hcp) in Ha as [? <-].
  - intros name [->|[->|[]%not_elem_of_nil]%elem_of_cons]%elem_of_cons Hn;
      [rewrite Hf1|rewrite Hf3]; by rewrite Hn.
Qed.
End ssh_keys.

(** ** What the sandbox can see *)

Section mounts.
Context {D : Type} `{Docker D}.

(** The host path of a bind, and whether mounting it makes a file visible. *)
Definition bindSource (b : gostring) : gostring := match Cut b ":" with Some (src, _) => src | None => b end.

Definition exposes (src path : gostring) : bool :=
  bool_decide (path = src) || HasPrefix path (pathJoin src []).

Lemma HasPrefix_app_head p a b : HasPrefix (p ++ a) (p ++ b) = HasPrefix a b.
Proof. induction p as [|c p IH]; cbn; [done|]. by rewrite bool_decide_eq_true_2. Qed.

Lemma bindSource_app src rest : ":"%char ∉ src → bindSource (src ++ gs ":" ++ rest) = src.
Proof. intros Hs. unfold bindSource. by rewrite (Cut_app src ":" rest Hs : Cut (src ++ gs ":" ++ rest) ":" = _). Qed.

(** Within one directory only the names matter. *)
Lemma exposes_names q x s :
  x ≠ [] → HasSuffix x (gs "/") = false →
  exposes (q ++ "/"%char :: x) (q ++ "/"%char :: s) = bool_decide (s = x) || HasPrefix s (x ++ gs "/").
Proof.
  intros Hx Hs. unfold exposes. f_equal.
  - apply bool_decide_ext. split; [by intros [= ?]%app_inv_head|by intros ->].
  - unfold pathJoin. assert (HasSuffix (q ++ "/"%char :: x) (gs "/") = false) as ->.
    { unfold HasSuffix in *. rewrite reverse_app, reverse_cons. destruct (reverse x) eqn:Hr; [|done].
      apply (f_equal reverse) in Hr. by rewrite reverse_involutive in Hr. }
    rewrite <- app_assoc. cbn -[gs]. rewrite HasPrefix_app_head. cbn -[gs]. by rewrite app_nil_r.
Qed.

Lemma exposes_relative c src q s :
  c ≠ "/"%char → q = [] ∨ HasPrefix q (gs "/") = true → exposes (c :: src) (q ++ "/"%char :: s) = false.
Proof.
  intros Hc Hq. assert (∃ k, q ++ "/"%char :: s = "/"%char :: k) as [k ->].
  { destruct Hq as [->|[k ->]%HasPrefix_spec]; by eexists. }
  unfold exposes. rewrite bool_decide_eq_false_2 by congruence.
  unfold pathJoin. destruct (HasSuffix _ _); cbn; by rewrite bool_decide_eq_false_2.
Qed.

Lemma Base_join p : Base (pathJoin p ProjectConfigDirName) = ProjectConfigDirName.
Proof.
  destruct (pathJoin_split p) as [q ->]. unfold Base. rewrite bool_decide_eq_false_2 by (by destruct q).
  rewrite reverse_app. reflexivity.
Qed.

Lemma no_colon_join dir x : ":"%char ∉ dir → ":"%char ∉ x → ":"%char ∉ pathJoin dir x.
Proof.
  intros Hd Hx. unfold pathJoin. destruct (HasSuffix _ _); rewrite !elem_of_app; [naive_solver|].
  change (gs "/") with ["/"%char]. rewrite list_elem_of_singleton. naive_solver.
Qed.

Lemma split_absolute dir q :
  HasPrefix dir (gs "/") = true → (∀ name, pathJoin dir name = q ++ "/"%char :: name) →
  q = [] ∨ HasPrefix q (gs "/") = true.
Proof.
  intros [k ->]%HasPrefix_spec Hq. specialize (Hq []). destruct q as [|c q]; [by left|right].
  unfold pathJoin in Hq. destruct (HasSuffix _ _); injection Hq as <- _; reflexivity.
Qed.

(** The names the sandbox gets from the session directory. *)
Definition mountedNames : list gostring :=
  [ProjectConfigDirName; gs "maven/settings.xml"; SSHHostPrivFile; SSHHostPubFile].

(** The sources of the sandbox's binds. *)
Lemma bind_sources (env : hostEnv) root u infra key lt b :
  ":"%char ∉ SessionDir infra → ":"%char ∉ root → ":"%char ∉ SelfBinary infra →
  b ∈ sandboxBinds (sandboxConfig env root u infra (Some key)) lt →
  bindSource b ∈ [root; SelfBinary infra; gs "/etc/localtime"] ∨
  bindSource b ∈ [homeVolumeName; linuxbrewVolumeName] ∨
  ∃ name, name ∈ mountedNames ∧ bindSource b = pathJoin (SessionDir infra) name.
Proof.
  intros Hd Hr Hs Hb. unfold sandboxBinds in Hb.
  cbn [HomeVolumeName LinuxbrewVolumeName ProjectDir RuntimeDir Daemon DaemonBinaryPath DaemonHostKeyPath
       DaemonHostPubPath sandboxConfig] in Hb.
  rewrite Base_join in Hb. rewrite !elem_of_app in Hb.
  assert (Hm : pathJoin (pathJoin (SessionDir infra) (gs "maven")) (gs "settings.xml") =
               pathJoin (SessionDir infra) (gs "maven/settings.xml")).
  { destruct (pathJoin_split (SessionDir infra)) as [q Hq]. rewrite !Hq. unfold pathJoin.
    assert (HasSuffix (q ++ "/"%char :: gs "maven") (gs "/") = false) as ->
      by (unfold HasSuffix; rewrite reverse_app; reflexivity).
    by rewrite <- app_assoc. }
  rewrite Hm in Hb.
  assert (Hj : ∀ x, ":"%char ∉ x → ":"%char ∉ pathJoin (SessionDir infra) x) by (intros; by apply no_colon_join).
  assert (Hc : Forall (λ x, ":"%char ∉ x) mountedNames)
    by (repeat constructor; apply (bool_decide_unpack _); vm_compute; exact I).
  unfold mountedNames in *. rewrite !Forall_cons in Hc. destruct Hc as (Hc1 & Hc2 & Hc3 & Hc4 & _).
  destruct Hb as [Hb|[Hb|Hb]].
  - rewrite !elem_of_cons, elem_of_nil in Hb. destruct Hb as [->|[->|[->|[->|[->|[]]]]]].
    + right. left. rewrite bindSource_app by (apply (bool_decide_unpack _); vm_compute; exact I). set_solver.
    + right. left. rewrite bindSource_app by (apply (bool_decide_unpack _); vm_compute; exact I). set_solver.
    + left. rewrite bindSource_app by done. set_solver.
    + right. right. exists ProjectConfigDirName. rewrite bindSource_app by auto. split; [set_solver|done].
    + right. right. exists (gs "maven/settings.xml"). split; [set_solver|].
      apply (bindSource_app _ (gs "/etc/vibepit/maven-settings.xml:ro")). auto.
  - destruct lt; [|by apply elem_of_nil in Hb]. apply list_elem_of_singleton in Hb as ->.
    left. right. right. left.
  - rewrite !elem_of_cons, elem_of_nil in Hb. destruct Hb as [->|[->|[->|[]]]].
    + left. rewrite bindSource_app by done. set_solver.
    + right. right. exists SSHHostPrivFile. rewrite bindSource_app by auto. split; [set_solver|done].
    + right. right. exists SSHHostPubFile. rewrite bindSource_app by auto. split; [set_solver|done].
Qed.

(** C10: the sandbox never sees the keys that open its own jail.  No bind of the
    daemon's container makes the client's SSH key or the client's TLS key of the
    session visible inside, unless the project directory itself, the mounted
    binary or the host's /etc/localtime is an ancestor of the session directory. *)
Theorem credentials_not_mounted (env : hostEnv) root u infra key lt secret b :
  HasPrefix (SessionDir infra) (gs "/") = true →
  ":"%char ∉ SessionDir infra → ":"%char ∉ root → ":"%char ∉ SelfBinary infra →
  secret ∈ [SSHClientPrivFile; gs "client-key.pem"] →
  (∀ p, p ∈ [root; SelfBinary infra; gs "/etc/localtime"] →
        exposes p (pathJoin (SessionDir infra) secret) = false) →
  b ∈ sandboxBinds (sandboxConfig env root u infra (Some key)) lt →
  exposes (bindSource b) (pathJoin (SessionDir infra) secret) = false.
Proof.
  intros Habs Hd Hr Hs Hsec Hp Hb. destruct (pathJoin_split (SessionDir infra)) as [q Hq].
  pose proof (split_absolute _ _ Habs Hq) as Hq0.
  destruct (bind_sources env root u infra key lt b Hd Hr Hs Hb) as [Hsrc|[Hsrc|(name & Hn & ->)]]; [auto| |].
  - rewrite Hq. rewrite !elem_of_cons, elem_of_nil in Hsrc.
    destruct Hsrc as [->|[->|[]]]; by apply exposes_relative.
  - rewrite !Hq. unfold mountedNames in Hn. rewrite !elem_of_cons, elem_of_nil in Hn.
    rewrite !elem_of_cons, elem_of_nil in Hsec.
    destruct Hn as [->|[->|[->|[->|[]]]]], Hsec as [->|[->|[]]];
      (rewrite exposes_names; [vm_compute; reflexivity|done|reflexivity]).
Qed.

(** A project directory above the session directory is mounted with the keys. *)
Lemma project_above_state_exposes (env : hostEnv) root u infra key lt secret :
  ":"%char ∉ root → exposes root (pathJoin (SessionDir infra) secret) = true →
  ∃ b, b ∈ sandboxBinds (sandboxConfig env root u infra (Some key)) lt ∧
       exposes (bindSource b) (pathJoin (SessionDir infra) secret) = true.
Proof.
  intros Hr He. exists (root ++ gs ":" ++ root). split.
  - unfold sandboxBinds. apply elem_of_app. left. right. right. left.
  - by rewrite bindSource_app.
Qed.
End mounts.

(** ** Witnesses: the keys and the container runtime of the earlier examples *)

#[local] Existing Instance toy_pki.
#[local] Existing Instance toy_docker.

#[local] Instance toy_format : SSHFormat := {|
  MarshalPrivateKey k := Some (toy_write (k : N)); ParsePrivateKey s := toy_read (A := N) s;
  MarshalAuthorizedKey p := toy_write (p : N); ParseAuthorizedKey s := toy_read (A := N) s |}.

#[local] Instance toy_format_spec : SSHFormatSpec.
Proof.
  split.
  - intros k text [= <-]. apply toy_read_write.
  - intros p. apply toy_read_write.
  - intros p He. pose proof (toy_read_write (A := N) p) as Hr. cbn in He. by rewrite He in Hr.
Qed.

Definition demo_user : userInfo := MkUser (gs "u") (gs "/home/u") 1000 (gs "img").
Definition demo_infra : sessionInfra :=
  MkInfra (gs "s1") (gs "/home/u/.local/state/vibepit/sessions/s1") (gs "/usr/bin/vibepit")
    (MkNetworkInfo (gs "n") (gs "10.0.0.2") (gs "10.0.0.3")) 4000 (gs "p").

Definition demo_key : @priv toy_pki := 7%N.
Definition demo_host_key : @priv toy_pki := 9%N.
Definition demo_pub (k : @priv toy_pki) : gostring := MarshalAuthorizedKey (Public k).
Definition demo_priv (k : @priv toy_pki) : gostring := toy_write (A := N) k.
Definition demo_files : gmap gostring (gostring * Z) :=
  (WriteSSHCredentials true (λ _, true) reverse ∅ (SessionDir demo_infra)
    (demo_priv demo_key) (demo_pub demo_key) (demo_priv demo_host_key) (demo_pub demo_host_key)).1.
Definition demo_cfg : SandboxContainerConfig :=
  sandboxConfig demo_host (gs "/src") demo_user demo_infra (Some (demo_pub demo_key)).

Lemma WriteSSHCredentials_ok shuffle fs dir a b c d :
  WriteSSHCredentials true (λ _, true) shuffle fs dir a b c d =
    ((WriteSSHCredentials true (λ _, true) shuffle fs dir a b c d).1, true).
Proof.
  unfold WriteSSHCredentials. cbn [negb].
  match goal with |- writeAll _ _ _ ?l = _ => pose proof (writeAll_ok dir l fs) as Ho end.
  destruct (writeAll _ _ _ _) as [fs' ok]. cbn in *. by subst ok.
Qed.

Lemma ssh_session_pinned_witness :
  ∃ srv, (∀ key, PublicKeyAuth srv key = true ↔ key = Public demo_key) ∧
    snd <$> demo_files !! pathJoin (SessionDir demo_infra) SSHClientPrivFile = Some perm0600.
Proof.
  assert (Hc : GenerateEd25519Keypair (Some demo_key) = Ok (demo_priv demo_key, demo_pub demo_key))
    by (vm_compute; reflexivity).
  assert (Hh : GenerateEd25519Keypair (Some demo_host_key) = Ok (demo_priv demo_host_key, demo_pub demo_host_key))
    by (vm_compute; reflexivity).
  assert (Hw : WriteSSHCredentials true (λ _, true) reverse ∅ (SessionDir demo_infra)
    (demo_priv demo_key) (demo_pub demo_key) (demo_priv demo_host_key) (demo_pub demo_host_key) = (demo_files, true))
    by (apply WriteSSHCredentials_ok).
  destruct (ssh_session_pinned (dk (demo_world true)) (gs "/src") demo_key demo_host_key _ _ _ _
    (λ _, true) reverse ∅ demo_files (SessionDir demo_infra) demo_cfg
    (λ l, reverse_Permutation l) Hc Hh Hw eq_refl eq_refl eq_refl) as (srv & _ & Hk & _ & _ & Hp).
  exists srv. split; [exact Hk|]. apply Hp; [left|reflexivity].
Defined.

Lemma credentials_not_mounted_witness :
  Forall (λ b, exposes (bindSource b) (pathJoin (SessionDir demo_infra) SSHClientPrivFile) = false)
    (sandboxBinds (sandboxConfig demo_host (gs "/home/u/src") demo_user demo_infra (Some (gs "k"))) true).
Proof.
  apply Forall_forall. intros b.
  apply (credentials_not_mounted demo_host (gs "/home/u/src") demo_user demo_infra (gs "k") true SSHClientPrivFile b);
    try (vm_compute; reflexivity); try (apply (bool_decide_unpack _); vm_compute; exact I).
  intros p. rewrite !elem_of_cons, elem_of_nil. by intros [->|[->|[->|[]]]]; vm_compute.
Defined.
