(* ===== verification/ProxyRun.v ===== *)
(** * The proxy from start to exit ([proxy/server.go: NewServer, Run],
      [proxy/dns.go: ListenAndServe])

    [ProxyServer.v] is about the requests; this file is about the services around
    them.  [Run] starts a goroutine for each, which serves until it fails and then
    sends its error to one channel; [Run] returns the first error, or shuts the
    two HTTP servers down when its context is cancelled. *)

From stdpp Require Import functions.
From S2P Require Import Prelude GoStrings GoTime Mtls ProxyServer.
Open Scope Z_scope.

(** ** Configuration *)

Inductive newServerErr := ReadConfigFailed | ParseConfigFailed.

(** [decode] is [json.Unmarshal]. *)
Definition NewServerFromFile (decode : gostring → option ProxyConfig) (file : option gostring) :
    result newServerErr ProxyConfig :=
  match file with
  | None => Err ReadConfigFailed
  | Some data => match decode data with
                 | None => Err ParseConfigFailed
                 | Some cfg => Ok (NewServer cfg)
                 end
  end.

Record httpServer := MkHttpServer {
  Addr : gostring; ReadHeaderTimeout : Z; ReadTimeout : Z; WriteTimeout : Z; IdleTimeout : Z }.

Definition portAddr (port : Z) : gostring := gs ":" ++ Itoa port.

Definition httpProxyReadHeaderTimeout : Z := 10 * Second.
Definition httpProxyIdleTimeout : Z := 2 * 60 * Second.
Definition controlAPIReadTimeout : Z := 15 * Second.
Definition controlAPIWriteTimeout : Z := 30 * Second.

(** A tunnel may be silent for long, so only the header of a proxied request has
    a deadline. *)
Definition proxyServer (cfg : ProxyConfig) : httpServer :=
  MkHttpServer (portAddr (ProxyPort cfg)) httpProxyReadHeaderTimeout 0 0 httpProxyIdleTimeout.
Definition controlServer (cfg : ProxyConfig) : httpServer :=
  MkHttpServer (portAddr (ControlAPIPort cfg)) httpProxyReadHeaderTimeout controlAPIReadTimeout
    controlAPIWriteTimeout httpProxyIdleTimeout.

(** ** Services *)

Inductive service := HTTP | DNS | Control | Forwarder.
#[global] Instance service_eq_dec : EqDecision service.
Proof. solve_decision. Defined.

Inductive svcErr := TLSFailed | ListenFailed | ServeFailed.
#[global] Instance svcErr_eq_dec : EqDecision svcErr.
Proof. solve_decision. Defined.

(** A service's goroutine: before it listens, serving, about to send its error,
    and gone. *)
Inductive svcState := Starting | Serving | Sending (e : svcErr) | Over.
#[global] Instance svcState_eq_dec : EqDecision svcState.
Proof. solve_decision. Defined.

Definition services (cfg : ProxyConfig) : list service :=
  [HTTP; DNS; Control] ++ (if bool_decide (SSHForwardAddr cfg = []) then [] else [Forwarder]).

(** The DNS server listens on UDP and TCP; the first of the two to fail decides.
    Both errors fit into the channel. *)
Definition dnsListenAndServe (errs : list svcErr) : option svcErr := head errs.

Inductive runResult := ServiceError (e : svcErr) | ContextError.
Inductive runPC := Selecting | ShutdownHTTP | ShutdownControl | Returned (r : runResult).

Section run.
Context `{Encoding} (cfg : ProxyConfig) (Getenv : gostring → gostring).

Record proc := MkProc {
  pc : runPC;
  svc : service → svcState;
  errCh : list svcErr;                (* buffered, one slot for each service *)
  cancelled : bool;
  shut : list service;                (* servers that were shut down *)
  listener : option tlsConfig;        (* the control API listens with this *)
  sent : list (service * svcErr);     (* history *)
}.

Definition startProc : proc :=
  MkProc Selecting (λ sv, if bool_decide (sv ∈ services cfg) then Starting else Over) [] false [] None [].

Definition setSvc (s : proc) (sv : service) (st : svcState) : proc :=
  MkProc (pc s) (<[sv := st]> (svc s)) (errCh s) (cancelled s) (shut s) (listener s) (sent s).
Definition setPC (s : proc) (p : runPC) (sh : list service) (ch : list svcErr) : proc :=
  MkProc p (svc s) ch (cancelled s) sh (listener s) (sent s).

Inductive plabel :=
  | PListen (sv : service) (ok : bool)
  | PFail (sv : service)
  | PClosed (sv : service)
  | PSend (sv : service)
  | PCancel
  | PReturnErr
  | PDone
  | PShutdown.

(** Starting a service.  The control API first loads its TLS configuration and
    does not listen without it. *)
Definition listen (s : proc) (sv : service) (ok : bool) : proc :=
  match sv with
  | Control =>
      match LoadServerTLSConfigFromEnv Getenv with
      | Err _ => setSvc s Control (Sending TLSFailed)
      | Ok tls =>
          if ok then MkProc (pc s) (<[Control := Serving]> (svc s)) (errCh s) (cancelled s) (shut s) (Some tls) (sent s)
          else setSvc s Control (Sending ListenFailed)
      end
  | _ => setSvc s sv (if ok then Serving else Sending ListenFailed)
  end.

Definition procStep (l : plabel) (s : proc) : option proc :=
  match l with
  | PListen sv ok => if bool_decide (svc s sv = Starting) then Some (listen s sv ok) else None
  | PFail sv => if bool_decide (svc s sv = Serving) then Some (setSvc s sv (Sending ServeFailed)) else None
  | PClosed sv =>
      (* http.ErrServerClosed is not reported *)
      if bool_decide (sv ∈ shut s) && bool_decide (svc s sv = Starting ∨ svc s sv = Serving)
      then Some (setSvc s sv Over) else None
  | PSend sv =>
      match svc s sv with
      | Sending e =>
          if (length (errCh s) <? length (services cfg))%nat then
            Some (MkProc (pc s) (<[sv := Over]> (svc s)) (errCh s ++ [e]) (cancelled s) (shut s) (listener s)
                    (sent s ++ [(sv, e)]))
          else None
      | _ => None
      end
  | PCancel => Some (MkProc (pc s) (svc s) (errCh s) true (shut s) (listener s) (sent s))
  | PReturnErr =>
      match pc s, errCh s with
      | Selecting, e :: ch => Some (setPC s (Returned (ServiceError e)) (shut s) ch)
      | _, _ => None
      end
  | PDone => match pc s with
             | Selecting => if cancelled s then Some (setPC s ShutdownHTTP (shut s) (errCh s)) else None
             | _ => None
             end
  | PShutdown =>
      match pc s with
      | ShutdownHTTP => Some (setPC s ShutdownControl (HTTP :: shut s) (errCh s))
      | ShutdownControl => Some (setPC s (Returned ContextError) (Control :: shut s) (errCh s))
      | _ => None
      end
  end.

Notation procReach := (reach_from procStep startProc).
Notation procRun := (run_steps procStep).

(** ** The invariant *)

Definition live (s : proc) : nat := length (filter (λ sv, svc s sv ≠ Over) (services cfg)).

#[local] Arguments live : simpl never.
#[local] Arguments services : simpl never.

Record pinv (s : proc) : Prop := {
  pi_room : (length (errCh s) + live s ≤ length (services cfg))%nat;
  pi_known : ∀ sv, svc s sv ≠ Over → sv ∈ services cfg;
  pi_sent : (sent s).*2 = match pc s with Returned (ServiceError e) => e :: errCh s | _ => errCh s end;
  pi_listener : ∀ tls, listener s = Some tls → LoadServerTLSConfigFromEnv Getenv = Ok tls;
  pi_serving : svc s Control = Serving → listener s ≠ None;
  pi_returned : match pc s with
                | Selecting => True
                | ShutdownHTTP => cancelled s = true
                | ShutdownControl => cancelled s = true ∧ HTTP ∈ shut s
                | Returned ContextError => cancelled s = true ∧ HTTP ∈ shut s ∧ Control ∈ shut s
                | Returned (ServiceError e) => True
                end;
}.

(** A goroutine that is about to send finds a free slot. *)
Lemma live_pos s sv : pinv s → svc s sv ≠ Over → (length (errCh s) < length (services cfg))%nat.
Proof.
  intros [Hr Hk _ _ _ _] Hs. assert (Hin : sv ∈ filter (λ sv, svc s sv ≠ Over) (services cfg))
    by (apply list_elem_of_filter; auto).
  unfold live in Hr. destruct (filter _ _) as [|x l]; [by apply elem_of_nil in Hin|]. cbn [length] in Hr. lia.
Qed.

Lemma live_setSvc s sv st : svc s sv ≠ Over → (live (setSvc s sv st) ≤ live s)%nat.
Proof.
  intros Hs. apply filter_length_mono. intros x. cbn. destruct (decide (x = sv)) as [->|Hne]; [done|].
  by rewrite fn_lookup_insert_ne.
Qed.

Lemma live_over s s' sv :
  pinv s → svc s sv ≠ Over → svc s' = <[sv := Over]> (svc s) → (live s' < live s)%nat.
Proof.
  intros Hi Hs Hs'. unfold live. rewrite Hs'. apply (filter_length_strict _ _ _ sv); [|by apply Hi|done|].
  - intros x. destruct (decide (x = sv)) as [->|Hne]; [done|]. by rewrite fn_lookup_insert_ne.
  - rewrite fn_lookup_insert. auto.
Qed.

Lemma pinv_start : pinv startProc.
Proof.
  split; try done.
  - unfold live. rewrite filter_id; [done|]. intros sv Hsv. cbn [svc startProc]. by rewrite bool_decide_eq_true_2.
  - intros sv. cbn [svc startProc]. by case_bool_decide.
Qed.

Lemma pinv_setSvc s sv st :
  pinv s → svc s sv ≠ Over → (sv = Control → st ≠ Serving) → pinv (setSvc s sv st).
Proof.
  intros Hi Hs Hst. pose proof (live_setSvc s sv st Hs). destruct Hi as [Hr Hk Hsent Hl Hsv Hret].
  split; cbn; try done; [lia| |].
  - intros x. destruct (decide (x = sv)) as [->|Hne]; [auto|]. rewrite fn_lookup_insert_ne by done. apply Hk.
  - destruct (decide (sv = Control)) as [->|Hne]; [rewrite fn_lookup_insert; by intros ->; destruct Hst|].
    rewrite fn_lookup_insert_ne by done. apply Hsv.
Qed.

Lemma pinv_listen s sv ok : pinv s → svc s sv = Starting → pinv (listen s sv ok).
Proof.
  intros Hi Hs. assert (Hne : svc s sv ≠ Over) by congruence.
  destruct sv; cbn; try (apply pinv_setSvc; by destruct ok).
  destruct (LoadServerTLSConfigFromEnv Getenv) as [tls|e] eqn:Htls; [|by apply pinv_setSvc].
  destruct ok; [|by apply pinv_setSvc].
  pose proof (live_setSvc s Control Serving Hne) as Hlive. destruct Hi as [Hr Hk Hsent Hl Hsv Hret].
  unfold live in *. cbn in Hlive. split; cbn; try done; [unfold live; cbn; lia| |congruence].
  intros x. destruct (decide (x = Control)) as [->|Hx]; [auto|]. rewrite fn_lookup_insert_ne by done. apply Hk.
Qed.

Lemma pinv_step l s s' : pinv s → procStep l s = Some s' → pinv s'.
Proof.
  intros Hi Hs. pose proof Hi as [Hr Hk Hsent Hl Hsv Hret].
  destruct l as [sv ok|sv|sv|sv| | | |]; cbn [procStep] in Hs.
  - case_bool_decide; [|done]. injection Hs as <-. by apply pinv_listen.
  - case_bool_decide; [|done]. injection Hs as <-. apply pinv_setSvc; [done|congruence|done].
  - destruct (_ && _) eqn:Hg; [|done]. injection Hs as <-.
    apply andb_true_iff in Hg as [_ [Hg|Hg]%bool_decide_eq_true]; apply pinv_setSvc; congruence.
  - destruct (svc s sv) as [| |e|] eqn:He; try done. destruct (Nat.ltb_spec (length (errCh s)) (length (services cfg)));
      [|done]. injection Hs as <-.
    assert (Hne : svc s sv ≠ Over) by congruence.
    pose proof (pinv_setSvc s sv Over Hi Hne ltac:(done)) as [_ Hk' _ _ Hsv' _].
    split; cbn; try done.
    + rewrite length_app. cbn. match goal with |- (_ + live ?s1 ≤ _)%nat =>
        pose proof (live_over s s1 sv Hi Hne eq_refl) end. lia.
    + rewrite fmap_app, Hsent. by destruct (pc s) as [| | |[e'|]].
  - injection Hs as <-. split; cbn; try done. destruct (pc s) as [| | |[]]; naive_solver.
  - destruct (pc s), (errCh s) as [|e ch] eqn:He; try done. injection Hs as <-. split; cbn; try done.
    match goal with |- (_ + live ?s1 ≤ _)%nat => change (live s1) with (live s) end. cbn in Hr. lia.
  - destruct (pc s) eqn:Hp; try done. destruct (cancelled s) eqn:Hc; [|done]. injection Hs as <-. by split.
  - destruct (pc s) eqn:Hp; try done; injection Hs as <-; split; cbn; try done; set_solver.
Qed.

Lemma pinv_reach s : procReach s → pinv s.
Proof. apply (reach_inv procStep pinv); [apply pinv_start|by intros; eapply pinv_step]. Qed.

Lemma send_enabled s sv e : pinv s → svc s sv = Sending e → ∃ s', procStep (PSend sv) s = Some s' ∧
  pc s' = pc s ∧ errCh s' = errCh s ++ [e].
Proof.
  intros Hi He. pose proof (live_pos s sv Hi ltac:(congruence)). cbn [procStep]. rewrite He.
  rewrite (proj2 (Nat.ltb_lt _ _)) by done. by eexists.
Qed.

(** C16: the proxy's services fail together and safely.  In every interleaving of
    the services, of failures and of a cancellation: a service that fails can
    always report it at once, so no goroutine is left blocked; the control API
    serves only on a listener with the TLS configuration loaded from the
    environment, which requires TLS 1.3 and a verified client certificate, and
    never when it cannot be loaded; an error [Run] returns is the first that any
    service reported, and it returns the context's error only when it was
    cancelled and both HTTP servers were shut down; and once a service failed or the
    context is cancelled [Run] can return. *)
Theorem proxy_services s :
  procReach s →
  (∀ sv e, svc s sv = Sending e → is_Some (procStep (PSend sv) s)) ∧
  (svc s Control = Serving → ∃ tls, listener s = Some tls ∧ LoadServerTLSConfigFromEnv Getenv = Ok tls ∧
     ClientAuth tls = RequireAndVerifyClientCert ∧ MinVersion tls = VersionTLS13 ∧ is_Some (ClientCAs tls)) ∧
  (∀ r, pc s = Returned r → match r with
     | ServiceError e => ∃ sv later, sent s = (sv, e) :: later
     | ContextError => cancelled s = true ∧ HTTP ∈ shut s ∧ Control ∈ shut s
     end) ∧
  (cancelled s = true ∨ errCh s ≠ [] ∨ (∃ sv e, svc s sv = Sending e) →
     ∃ ls s' r, procRun ls s = Some s' ∧ pc s' = Returned r).
Proof.
  intros Hi%pinv_reach. pose proof Hi as [Hr Hk Hsent Hl Hsv Hret]. split_and!.
  - intros sv e He. destruct (send_enabled s sv e Hi He) as (s' & -> & _). by eexists.
  - intros Hc. destruct (listener s) as [tls|] eqn:Hls; [|by destruct (Hsv Hc)]. exists tls.
    pose proof (Hl tls eq_refl) as Htls. split_and!; try done; unfold LoadServerTLSConfigFromEnv in Htls;
      repeat case_match; try done; repeat (destruct (orErr _ _); cbn in Htls; [|done]); by injection Htls as <-.
  - intros r Hp. rewrite Hp in Hret, Hsent. destruct r as [e|]; [|done].
    destruct (sent s) as [|[sv e'] later]; [done|]. injection Hsent as -> _. by exists sv, later.
  - intros Hgo. destruct (pc s) eqn:Hp.
    + destruct (errCh s) as [|e ch] eqn:He.
      * destruct Hgo as [Hc|[[]|(sv & e & Hs)]]; [|done|].
        -- exists [PDone; PShutdown; PShutdown]. cbn. rewrite Hp, Hc. by eexists _, _.
        -- destruct (send_enabled s sv e Hi Hs) as (s1 & Hs1 & Hp1 & He1). exists [PSend sv; PReturnErr].
           cbn [run_steps]. rewrite Hs1. cbn. rewrite Hp1, Hp, He1, He. by eexists _, _.
      * exists [PReturnErr]. cbn. rewrite Hp, He. by eexists _, _.
    + exists [PShutdown; PShutdown]. cbn. rewrite Hp. by eexists _, _.
    + exists [PShutdown]. cbn. rewrite Hp. by eexists _, _.
    + by exists [], s, r.
Qed.
End run.

(** A proxy without its TLS variables: the control API reports it, and the whole
    proxy stops. *)
Definition demo_cfg : ProxyConfig := MkProxyConfig [] [] [] [] [] [] [] [] 3128 4000 0 (gs "10.0.0.3:2222").

Definition demo_labels : list plabel :=
  [PListen HTTP true; PListen Forwarder true; PListen Control true; PSend Control; PFail HTTP; PReturnErr; PSend HTTP].

Lemma proxy_services_witness :
  ∃ s, run_steps (procStep (H0 := toy_encoding) demo_cfg (λ _, [])) demo_labels (startProc demo_cfg) = Some s ∧
    pc s = Returned (ServiceError TLSFailed) ∧ listener s = None ∧
    ∃ sv later, sent s = (sv, TLSFailed) :: later.
Proof.
  destruct (run_steps (procStep (H0 := toy_encoding) demo_cfg (λ _, [])) demo_labels (startProc demo_cfg)) as [s|] eqn:E;
    [|vm_compute in E; discriminate E].
  pose proof (proxy_services demo_cfg (λ _, []) s (run_steps_reach _ _ _ _ _ (reach_start _ _) E)) as (_ & _ & Hret & _).
  exists s. split; [reflexivity|].
  assert (Hs : pc s = Returned (ServiceError TLSFailed) ∧ listener s = None)
    by (vm_compute in E; injection E as <-; split; reflexivity).
  destruct Hs as [Hp Hl]. split; [exact Hp|]. split; [exact Hl|]. exact (Hret _ Hp).
Defined.
