(* ===== verification/ClientRun.v ===== *)
(** * The client commands ([cmd/connect.go: ConnectAction], [cmd/exec.go: ExecAction],
      [main.go])

    Both commands open a connection and a session and run something over it;
    [connect] also switches the terminal to raw mode, or re-runs itself inside
    ward.  An action is modelled by the trace of what it acquires, releases and
    does; [defer] is the continuation that every return goes through. *)

From S2P Require Import Prelude GoStrings Cleanup WardRun Session Manager SshServer Shell Container HostClient Connect Mtls.
Open Scope Z_scope.

(** ** Traces *)

Inductive resource := RConn | RSession | RRaw | RSignal.
Inductive effect :=
  | Acquire (r : resource)
  | Release (r : resource)
  | RunWard (o : Options) (status : gostring)
  | RequestPty (term : gostring) (rows cols : Z)
  | StartShell
  | RunRemote (cmd : gostring)
  | Print (text : gostring)
  | Shutdown.

#[global] Instance resource_eq_dec : EqDecision resource.
Proof. solve_decision. Defined.

Definition isAcquire (r : resource) (e : effect) : bool :=
  match e with Acquire r' => bool_decide (r' = r) | _ => false end.
Definition isRelease (r : resource) (e : effect) : bool :=
  match e with Release r' => bool_decide (r' = r) | _ => false end.

Inductive actionErr := EConnect | ESession | EExecutable | EWard | ERaw | EPty | EPipe | EShell | EWait
  | EExit (code : Z) | EDown.

Definition outcome : Type := list effect * option actionErr.

(** [restoreOnce]: the terminal is restored by the first call only. *)
Definition restoreTerminal (tr : list effect) : list effect :=
  if existsb (isRelease RRaw) tr then tr else tr ++ [Release RRaw].

(** ** [connect] *)

Definition wardParent : gostring := gs "VIBEPIT_WARD_PARENT".

(** What the host and the server answer. *)
Record connectEnv := MkConnectEnv {
  connected : bool;                       (* newSSHClient *)
  sessionOk : bool;
  barFlag : bool;
  environ : list gostring;                (* os.Environ() *)
  executable : option gostring;
  arguments : list gostring;              (* os.Args[1:] *)
  pid : Z;
  sandbox : RunningSession;
  wardResult : Z * bool;                  (* ward's exit code, and that there was no error *)
  rawOk : bool;
  termSize : option (Z * Z);
  termEnv : gostring;
  ptyOk : bool;
  pipeOk : bool;
  shellOk : bool;
  waited : waitResult;                    (* session.Wait *)
  terminalIn : bool;
  reply : option SessionCountReply;
  typedAfter : channelStdinReader;        (* the keyboard, from when the copier stopped *)
  downOk : bool;
}.

Section connect.
Context `{UnicodeTables}.

(** [strings.ReplaceAll(dir, home, "~")] on valid UTF-8: an empty pattern matches
    before and after every character. *)
Definition homeAsTilde (dir home : gostring) : gostring :=
  if bool_decide (home = []) then gs "~" ++ flat_map (λ r, encodeRune r ++ gs "~") (runes dir)
  else ReplaceAll dir home (gs "~").

Definition statusText (e : connectEnv) : gostring :=
  gs "╱╱ " ++ homeAsTilde (rProjectDir (sandbox e)) (getenvOf (environ e) (gs "HOME")) ++
  gs " ╱╱ " ++ rSessionID (sandbox e).

Definition wardOptions (e : connectEnv) (exe : gostring) : Options :=
  NewWrapper (MkOptions (exe :: arguments e) "000"%char [wardParent ++ gs "=" ++ Itoa (pid e)] true true).

(** [session.Wait] and what follows, with the terminal raw and signals on. *)
Definition afterShell (e : connectEnv) (tr : list effect) : outcome :=
  let tr := restoreTerminal tr in
  match connectEnd (waited e) (terminalIn e) (reply e) (typedAfter e) with
  | Disconnected =>
      (tr ++ [Print (newline :: gs "Disconnected from the sandbox. Your session is still running — reconnect with 'vibepit connect'." ++ [newline])], None)
  | WaitError _ => (tr, Some EWait)
  | Ended text shutdown =>
      (* handleLastExit closes the connection before it prompts *)
      let tr := if terminalIn e then tr ++ [Release RConn] else tr in
      let tr := if bool_decide (text = []) then tr else tr ++ [Print text] in
      if shutdown then (tr ++ [Shutdown], if downOk e then None else Some EDown) else (tr, None)
  end.

Definition interactive (e : connectEnv) (tr : list effect) : outcome :=
  if negb (rawOk e) then (tr, Some ERaw)
  else
    let tr := tr ++ [Acquire RRaw] in
    let defer := λ o : outcome, (restoreTerminal o.1, o.2) in
    let '(w, h) := default (80, 24) (termSize e) in
    if negb (ptyOk e) then defer (tr ++ [RequestPty (termEnv e) h w], Some EPty)
    else
      let tr := tr ++ [RequestPty (termEnv e) h w] in
      if negb (pipeOk e) then defer (tr, Some EPipe)
      else if negb (shellOk e) then defer (tr ++ [StartShell], Some EShell)
      else
        let tr := tr ++ [StartShell; Acquire RSignal] in
        let defer2 := λ o : outcome, defer (o.1 ++ [Release RSignal], o.2) in
        defer2 (afterShell e tr).

Definition ConnectAction (e : connectEnv) : outcome :=
  if negb (connected e) then ([], Some EConnect)
  else
    let defer := λ o : outcome, (o.1 ++ [Release RConn], o.2) in
    if negb (sessionOk e) then defer ([Acquire RConn], Some ESession)
    else
      let tr := [Acquire RConn; Acquire RSession] in
      let defer2 := λ o : outcome, defer (o.1 ++ [Release RSession], o.2) in
      if barFlag e && bool_decide (getenvOf (environ e) wardParent = []) then
        match executable e with
        | None => defer2 (tr, Some EExecutable)
        | Some exe =>
            let '(code, ok) := wardResult e in
            defer2 (tr ++ [RunWard (wardOptions e exe) (statusText e)],
                    if negb ok then Some EWard else if code =? 0 then None else Some (EExit code))
        end
      else defer2 (interactive e tr).
End connect.

(** Without HOME every character of the path is set off by a tilde. *)
Lemma status_without_home e :
  getenvOf (environ e) (gs "HOME") = [] → rProjectDir (sandbox e) = gs "/a" → rSessionID (sandbox e) = gs "x" →
  statusText e = gs "╱╱ ~/~a~ ╱╱ x".
Proof. intros Hh Hp Hs. unfold statusText. rewrite Hh, Hp, Hs. reflexivity. Qed.

(** ** [exec] *)

Definition ExecAction (connected sessionOk pipeOk : bool) (args : list gostring) (r : runEnd) : outcome :=
  if negb connected then ([], Some EConnect)
  else
    let defer := λ o : outcome, (o.1 ++ [Release RConn], o.2) in
    if negb sessionOk then defer ([Acquire RConn], Some ESession)
    else
      let tr := [Acquire RConn; Acquire RSession] in
      let defer2 := λ o : outcome, defer (o.1 ++ [Release RSession], o.2) in
      if negb pipeOk then defer2 (tr, Some EPipe)
      else defer2 (tr ++ [RunRemote (buildRemoteCommand args)],
                   match execResultOf r with
                   | None => None
                   | Some (ExitError code) => Some (EExit code)
                   | Some OtherError => Some EWait
                   end).

(** [session.Run]: status 0 is success, another an [ssh.ExitError]; a channel that
    closes without one is a failure. *)
Definition runEndOf (status : option Z) : runEnd :=
  match status with Some 0 => RunOK | Some c => RunExited c | None => RunFailed end.

(** ** [main] *)

(** The arguments of the command line: a binary called vibed is the daemon. *)
Definition mainArgs (self : gostring) (args : list gostring) : list gostring :=
  if bool_decide (Base self = gs "vibed") then [self; gs "vibed"] else args.

(** The argument of [os.Exit], and what the parent process sees of it. *)
Definition exitCode (err : option actionErr) : Z :=
  match err with None => 0 | Some (EExit code) => code | Some _ => 1 end.
Definition processStatus (code : Z) : Z := wrap_uint 8 code.


(** ** What the commands guarantee *)

Fixpoint count (f : effect → bool) (tr : list effect) : nat :=
  match tr with [] => 0 | e :: tr' => (if f e then 1 else 0) + count f tr' end.

(** Everything that is acquired is released, the terminal exactly once. *)
Definition balanced (tr : list effect) : bool :=
  forallb (λ r, (count (isAcquire r) tr <=? count (isRelease r) tr)%nat) [RConn; RSession; RRaw; RSignal] &&
  (count (isAcquire RRaw) tr =? count (isRelease RRaw) tr)%nat && (count (isRelease RRaw) tr <=? 1)%nat.

Definition talks (e : effect) : bool := match e with Print _ | Shutdown => true | _ => false end.

(** While the terminal is raw nothing is printed and nothing is asked. *)
Fixpoint quietWhileRaw (raw : bool) (tr : list effect) : bool :=
  match tr with
  | [] => true
  | e :: tr' => negb (raw && talks e) &&
                quietWhileRaw (match e with Acquire RRaw => true | Release RRaw => false | _ => raw end) tr'
  end.

Definition okTrace (tr : list effect) : bool := balanced tr && quietWhileRaw false tr.

Section connect_spec.
Context `{UnicodeTables}.

Definition isWard (e : effect) : bool := match e with RunWard _ _ => true | _ => false end.

(** What an interactive connection does, whatever happens. *)
Lemma interactive_ok e tr :
  tr = [Acquire RConn; Acquire RSession] →
  okTrace ((interactive e tr).1 ++ [Release RSession; Release RConn]) = true ∧
  existsb isWard ((interactive e tr).1 ++ [Release RSession; Release RConn]) = false ∧
  (Shutdown ∈ (interactive e tr).1 → shellOk e = true ∧
     ∃ text, connectEnd (waited e) (terminalIn e) (reply e) (typedAfter e) = Ended text true).
Proof.
  intros ->. unfold interactive, afterShell.
  destruct (rawOk e); cbn [negb]; [|split_and!; [reflexivity..|set_solver]].
  destruct (default (80, 24) (termSize e)) as [w h].
  destruct (ptyOk e); cbn [negb]; [|split_and!; [reflexivity..|set_solver]].
  destruct (pipeOk e); cbn [negb]; [|split_and!; [reflexivity..|set_solver]].
  destruct (shellOk e); cbn [negb]; [|split_and!; [reflexivity..|set_solver]].
  destruct (connectEnd _ _ _ _) as [|r|text shutdown]; [split_and!; [reflexivity..|set_solver]..|].
  destruct (terminalIn e), (bool_decide (text = [])), shutdown; (split_and!; [reflexivity..|set_solver]).
Qed.

Lemma not_ward tr o st : existsb isWard tr = false → RunWard o st ∉ tr.
Proof.
  intros He Hin. enough (existsb isWard tr = true) by congruence. apply existsb_elem. by exists (RunWard o st).
Qed.

(** Ward is entered only with --bar and outside ward. *)
Lemma ConnectAction_direct e :
  barFlag e && bool_decide (getenvOf (environ e) wardParent = []) = false →
  okTrace (ConnectAction e).1 = true ∧ existsb isWard (ConnectAction e).1 = false ∧
  (Shutdown ∈ (ConnectAction e).1 → shellOk e = true ∧
     ∃ text, connectEnd (waited e) (terminalIn e) (reply e) (typedAfter e) = Ended text true).
Proof.
  intros Hb. destruct (interactive_ok e _ eq_refl) as (Hi & Hw & Hs). unfold ConnectAction. rewrite Hb.
  destruct (connected e); cbn [negb]; [|split_and!; [reflexivity..|set_solver]].
  destruct (sessionOk e); cbn [negb]; [|split_and!; [reflexivity..|set_solver]].
  cbn [fst snd]. rewrite <- app_assoc. split_and!; [done..|]. intros [|Hin]%elem_of_app; [auto|set_solver].
Qed.

Lemma ConnectAction_ward e :
  barFlag e && bool_decide (getenvOf (environ e) wardParent = []) = true →
  okTrace (ConnectAction e).1 = true ∧ Shutdown ∉ (ConnectAction e).1 ∧
  ∀ o st, RunWard o st ∈ (ConnectAction e).1 →
    (∃ exe, o = wardOptions e exe) ∧
    ∀ code, wardResult e = (code, true) → exitCode (ConnectAction e).2 = code.
Proof.
  intros Hb. unfold ConnectAction. rewrite Hb.
  destruct (connected e); cbn [negb]; [|split_and!; [reflexivity|set_solver..]].
  destruct (sessionOk e); cbn [negb]; [|split_and!; [reflexivity|set_solver..]].
  destruct (executable e) as [exe|]; [|split_and!; [reflexivity|set_solver..]].
  destruct (wardResult e) as [code ok]. split_and!; [reflexivity|set_solver|]. intros o st Ho. split.
  - exists exe. set_solver.
  - intros code' [= -> ->]. cbn. by destruct (Z.eqb_spec code' 0).
Qed.

(** C21: [connect] leaves nothing behind and asks nobody twice.  On every path,
    errors included, the connection, the session, the signal handler and the raw
    mode it acquired are released, the terminal exactly once, and nothing is
    printed or asked while the terminal is raw.  Ward is started only with --bar
    and outside ward, and the command that ward runs does not start ward again.
    The sandbox is shut down only from a session whose shell was started and
    whose end asks for it, and an error of ward's child becomes the command's
    own exit code. *)
Theorem connect_action e :
  okTrace (ConnectAction e).1 = true ∧
  (∀ o st, RunWard o st ∈ (ConnectAction e).1 →
     barFlag e = true ∧ getenvOf (environ e) wardParent = [] ∧
     (∀ e' o' st', environ e' = childEnv (environ e) o → RunWard o' st' ∉ (ConnectAction e').1) ∧
     (∀ code, wardResult e = (code, true) → exitCode (ConnectAction e).2 = code)) ∧
  (Shutdown ∈ (ConnectAction e).1 → shellOk e = true ∧
     ∃ text, connectEnd (waited e) (terminalIn e) (reply e) (typedAfter e) = Ended text true).
Proof.
  destruct (barFlag e && bool_decide (getenvOf (environ e) wardParent = [])) eqn:Hb.
  - destruct (ConnectAction_ward e Hb) as (Hok & Hs & Hw). breflect. split_and!; [done| |done].
    intros o st Ho. destruct (Hw o st Ho) as [[exe ->] Hc]. split_and!; try done.
    intros e' o' st' He'. apply not_ward, ConnectAction_direct. rewrite He'. unfold childEnv.
    change (Env (wardOptions e exe)) with [wardParent ++ gs "=" ++ Itoa (pid e)].
    rewrite getenvOf_last by (apply (bool_decide_unpack _); vm_compute; exact I).
    rewrite bool_decide_eq_false_2 by apply Itoa_word. by destruct (barFlag e').
  - destruct (ConnectAction_direct e Hb) as (Hok & Hw & Hs). split_and!; [done| |done].
    intros o st Ho. by apply (not_ward _ o st) in Hw.
Qed.
End connect_spec.

(** ** From the command in the sandbox to the status of [vibepit exec] *)

(** What the shell that ran [vibepit exec] sees of a remote command. *)
Definition execStatus (r : execResult) : Z :=
  match r with RunOk => 0 | RunExit code => processStatus code | RunError => 1 end.

Lemma wrap_8_32 z : wrap_uint 8 (wrap_uint 32 z) = wrap_uint 8 z.
Proof. unfold wrap_uint. change (2 ^ 32) with (2 ^ 8 * 2 ^ 24). rewrite Z.rem_mul_r by lia. zlia. Qed.

Section exec.
Context `{Emulator} (command : bytes → bytes) (createdAt : bytes → Z).

Lemma ExecAction_status args st :
  okTrace (ExecAction true true true args (runEndOf (Some st))).1 = true ∧
  exitCode (ExecAction true true true args (runEndOf (Some st))).2 = st.
Proof. by destruct st. Qed.

(** C22: [vibepit exec] ends like the command it ran.  Whatever else happens on the
    server, when the command of a running handler ends, the handler sends exactly
    one exit status, and the client that receives it releases its session and
    connection and ends with the status of the command, at the 8 bits a process
    status has: 0 for success, the exit code of the command (255 for one killed by
    a signal, whose code is -1), and 1 when it could not be run. *)
Theorem exec_status limit w i h id r w' args :
  wreachable limit w → Z.of_nat (length (handlers w)) < 2 ^ 64 →
  handlers w !! i = Some h → pc h = ExecRunning id → wstep w (RunEnds i r) = Some w' →
  ∃ h' st, handlers w' !! i = Some h' ∧ statuses h' = [st] ∧
    let '(tr, err) := ExecAction true true true args (runEndOf (Some st)) in
    okTrace tr = true ∧ RunRemote (buildRemoteCommand args) ∈ tr ∧
    processStatus (exitCode err) = execStatus r.
Proof.
  intros Hw Hn Hl Hp Hs. pose proof (winv_reachable command createdAt limit w Hw Hn) as Hi.
  pose proof (Forall_lookup_1 _ _ _ _ (wi_status _ _ Hi) Hl) as Hst. unfold status_ok in Hst. rewrite Hp in Hst.
  cbn in Hs. rewrite Hl in Hs. cbn in Hs. rewrite Hp in Hs. injection Hs as <-.
  unfold runEnds. cbn [handlers]. rewrite list_lookup_insert_eq by (by eapply lookup_lt_Some).
  eexists _, _. split; [done|]. cbn [Exit statuses]. rewrite Hst. split; [done|].
  match goal with |- context [runEndOf (Some ?x)] => destruct (ExecAction_status args x) as [Hok Hc] end.
  destruct (ExecAction _ _ _ _ _) as [tr err] eqn:He. cbn in Hok, Hc. split_and!; [done| |].
  - unfold ExecAction in He. cbn in He. injection He as <- _. set_solver.
  - rewrite Hc. unfold processStatus. destruct r; cbn [codeOf execStatus]; rewrite wrap_8_32; done.
Qed.
End exec.

(** ** Witness: a command killed by a signal *)

#[local] Existing Instance plain_emulator.

Lemma exec_status_witness :
  ∃ w w' h st, wrun [AcceptExec (gs "sleep")] (SshServer.NewServer 5) = Some w ∧
    wstep w (RunEnds 0 (RunExit (-1))) = Some w' ∧ handlers w' !! 0%nat = Some h ∧ statuses h = [st] ∧
    processStatus (exitCode (ExecAction true true true [gs "sleep"] (runEndOf (Some st))).2) = 255.
Proof.
  destruct (wrun [AcceptExec (gs "sleep")] (SshServer.NewServer 5)) as [w|] eqn:E; [|vm_compute in E; discriminate E].
  assert (Hw : wreachable 5 w) by (eapply run_steps_reach; [apply reach_start|exact E]).
  vm_compute in E. injection E as <-.
  destruct (exec_status (λ _, []) (λ _, 0) 5 _ 0%nat _ 1 (RunExit (-1)) _ [gs "sleep"] Hw eq_refl eq_refl eq_refl eq_refl)
    as (h & st & Hh & Hst & Hex).
  eexists _, _, h, st. split; [reflexivity|]. split; [reflexivity|]. split; [exact Hh|]. split; [exact Hst|].
  destruct (ExecAction true true true [gs "sleep"] (runEndOf (Some st))) as [tr err]. exact (proj2 (proj2 Hex)).
Defined.
