(* ===== verification/Trust.v ===== *)
(** * Whose signatures are trusted ([cosign/verify.go], [cosign/image.go],
      [cmd/bootstrap.go: currentUserInfo, startSessionInfra])

    Three signers are trusted: the release workflow for the binary, the image
    workflow for the sandbox, and the distroless project for the proxy.  Each is
    given to the Sigstore libraries as an issuer and a subject or a regular
    expression for it.  This file says whom the expressions accept, and follows
    the verified digests of [Caches.v] to the containers that [up] creates. *)

From S2P Require Import Prelude GoStrings Caches Container Sandbox SandboxSpec.
Open Scope Z_scope.

(** ** Regular expressions

    The fragment of Go's syntax the patterns use: anchors, escaped and plain
    characters, and the dot with or without a star. *)

Inductive retok := RBegin | REnd | RLit (c : ascii) | RAny | RAnyStar.

Fixpoint reParse (s : gostring) : list retok :=
  match s with
  | [] => []
  | c :: s' =>
      if bool_decide (c = "^"%char) then RBegin :: reParse s'
      else if bool_decide (c = "$"%char) then REnd :: reParse s'
      else if bool_decide (c = "."%char) then
        match s' with
        | c' :: s'' => if bool_decide (c' = "*"%char) then RAnyStar :: reParse s'' else RAny :: reParse s'
        | [] => [RAny]
        end
      else if bool_decide (c = "\"%char) then
        match s' with c' :: s'' => RLit c' :: reParse s'' | [] => [] end
      else RLit c :: reParse s'
  end.

(** A match that starts here; [first] says that here is the start of the text.
    The dot does not match a newline. *)
Fixpoint matchHere (ts : list retok) (first : bool) (s : gostring) : bool :=
  match ts with
  | [] => true
  | RBegin :: ts' => first && matchHere ts' first s
  | REnd :: ts' => bool_decide (s = []) && matchHere ts' first s
  | RLit c :: ts' => match s with x :: s' => bool_decide (x = c) && matchHere ts' false s' | [] => false end
  | RAny :: ts' => match s with x :: s' => bool_decide (x ≠ LF) && matchHere ts' false s' | [] => false end
  | RAnyStar :: ts' =>
      (fix star first s := matchHere ts' first s ||
         match s with x :: s' => bool_decide (x ≠ LF) && star false s' | [] => false end) first s
  end.

Fixpoint matchFrom (ts : list retok) (first : bool) (s : gostring) : bool :=
  matchHere ts first s || match s with _ :: s' => matchFrom ts false s' | [] => false end.

(** [regexp.MatchString] *)
Definition MatchString (pattern s : gostring) : bool := matchFrom (reParse pattern) true s.

(** An expression that is anchored at its start matches at the start or not at
    all. *)
Lemma matchFrom_begin ts s : matchFrom (RBegin :: ts) true s = matchHere ts true s.
Proof.
  destruct s as [|x s]; cbn; [by rewrite orb_false_r|].
  assert (Hn : matchFrom (RBegin :: ts) false s = false) by (induction s; cbn; done).
  by rewrite Hn, orb_false_r.
Qed.

Lemma matchHere_lits l ts first s :
  l ≠ [] → matchHere ((RLit <$> l) ++ ts) first s = HasPrefix s l && matchHere ts false (drop (length l) s).
Proof.
  revert first s. induction l as [|c l IH]; [done|]. intros first [|x s] _; [done|]. cbn.
  destruct (bool_decide_reflect (x = c)) as [->|Hn]; cbn; [|by rewrite ?bool_decide_false by congruence].
  destruct l as [|c' l]; [cbn; by rewrite ?bool_decide_true|].
  rewrite IH by done. by rewrite ?bool_decide_true.
Qed.

(** ** The signers *)

Definition OIDCIssuer : gostring := gs "https://token.actions.githubusercontent.com".
Definition BinarySANRegex : gostring :=
  gs "^https://github\.com/bernd/vibepit/\.github/workflows/build\.yml@refs/tags/v.*".
Definition ImageSANRegex : gostring :=
  gs "^https://github\.com/bernd/vibepit/\.github/workflows/docker-publish\.yml@refs/heads/main$".
Definition ProxyImageOIDCIssuer : gostring := gs "https://accounts.google.com".
Definition ProxyImageSubject : gostring := gs "keyless@distroless.iam.gserviceaccount.com".

(** An issuer, and a subject or else an expression for it. *)
Record certIdentity := MkCertID { Issuer : gostring; Subject : gostring; SubjectRegExp : gostring }.

Definition identityOf (id : identity) : certIdentity :=
  match id with
  | VibepitWorkflow => MkCertID OIDCIssuer [] ImageSANRegex
  | DistrolessKeyless => MkCertID ProxyImageOIDCIssuer ProxyImageSubject []
  end.
Definition binaryIdentity : certIdentity := MkCertID OIDCIssuer [] BinarySANRegex.

(** Whom an identity means. *)
Definition means (id : certIdentity) (issuer subject : gostring) : bool :=
  bool_decide (issuer = Issuer id) &&
  (if bool_decide (Subject id = []) then MatchString (SubjectRegExp id) subject
   else bool_decide (subject = Subject id)).

Definition binarySAN : gostring := gs "https://github.com/bernd/vibepit/.github/workflows/build.yml@refs/tags/v".
Definition imageSAN : gostring :=
  gs "https://github.com/bernd/vibepit/.github/workflows/docker-publish.yml@refs/heads/main".

(** The release workflow, run for a tag that starts with v. *)
Lemma means_binary issuer subject :
  means binaryIdentity issuer subject = true ↔ issuer = OIDCIssuer ∧ HasPrefix subject binarySAN = true.
Proof.
  unfold means. cbn [Issuer Subject SubjectRegExp binaryIdentity]. rewrite (bool_decide_eq_true_2 ([] = [])) by done.
  rewrite andb_true_iff, bool_decide_eq_true. apply and_iff_compat_l. unfold MatchString.
  assert (Hp : reParse BinarySANRegex = RBegin :: (RLit <$> binarySAN) ++ [RAnyStar]) by (vm_compute; reflexivity).
  rewrite Hp, matchFrom_begin, matchHere_lits by (intros Hx; vm_compute in Hx; discriminate Hx).
  destruct (drop _ _); cbn; by rewrite andb_true_r.
Qed.

(** Exactly the image workflow of the main branch. *)
Lemma means_image issuer subject :
  means (identityOf VibepitWorkflow) issuer subject = true ↔ issuer = OIDCIssuer ∧ subject = imageSAN.
Proof.
  unfold means. cbn [Issuer Subject SubjectRegExp identityOf]. rewrite (bool_decide_eq_true_2 ([] = [])) by done.
  rewrite andb_true_iff, bool_decide_eq_true. apply and_iff_compat_l. unfold MatchString.
  assert (Hp : reParse ImageSANRegex = RBegin :: (RLit <$> imageSAN) ++ [REnd]) by (vm_compute; reflexivity).
  rewrite Hp, matchFrom_begin, matchHere_lits by (intros Hx; vm_compute in Hx; discriminate Hx).
  cbn [matchHere]. rewrite andb_true_r. split.
  - intros [Hx Hd]%andb_prop. apply bool_decide_eq_true in Hd. apply HasPrefix_spec in Hx as [k ->].
    rewrite drop_app_length in Hd. subst k. by rewrite app_nil_r.
  - intros ->. apply andb_true_iff. split; [by vm_compute|]. by rewrite drop_all, bool_decide_true.
Qed.

Lemma means_proxy issuer subject :
  means (identityOf DistrolessKeyless) issuer subject = true ↔
  issuer = ProxyImageOIDCIssuer ∧ subject = ProxyImageSubject.
Proof.
  unfold means. cbn [Issuer Subject SubjectRegExp identityOf].
  rewrite (bool_decide_eq_false_2 (ProxyImageSubject = [])) by (intros Hx; vm_compute in Hx; discriminate Hx).
  by rewrite andb_true_iff, !bool_decide_eq_true.
Qed.

(** ** The binary ([VerifyBlob]) *)

(** The Sigstore client: how many proofs of each kind a verifier asks for, and
    its verdict on a bundle and an artifact. *)
Record verifierOptions := MkVerifier {
  signedCertificateTimestamps : Z; transparencyLog : Z; observerTimestamps : Z }.

Class Sigstore := {
  trustRoot : Type;
  sigBundle : Type;
  LoadJSON : gostring → option sigBundle;
  verifyEntity : trustRoot → verifierOptions → sigBundle → gostring → certIdentity → bool;
}.

(** An artifact that is accepted was signed by someone the identity means. *)
Class SigstoreSpec `{Sigstore} := {
  blobSigned : gostring → gostring → gostring → Prop;
  verify_sound : ∀ tm o b artifact id, verifyEntity tm o b artifact id = true →
    ∃ issuer subject, blobSigned artifact issuer subject ∧ means id issuer subject = true;
}.

Definition newVerifier : verifierOptions := MkVerifier 1 1 1.

Inductive blobErr := ELoadBundle | ETrustedRoot | ECreateVerifier | ECreateIdentity | EOpenArtifact | EBlobVerification.

(** [bundle] and [artifact] are what the files hold, [root] the trusted root if it
    can be fetched; the library may refuse to make a verifier or an identity. *)
Definition VerifyBlob `{Sigstore} (artifact bundle : option gostring) (root : option trustRoot)
    (verifierOk identityOk : bool) : option blobErr :=
  match bundle ≫= LoadJSON with
  | None => Some ELoadBundle
  | Some b =>
      match root with
      | None => Some ETrustedRoot
      | Some tm =>
          if negb verifierOk then Some ECreateVerifier
          else if negb identityOk then Some ECreateIdentity
          else match artifact with
          | None => Some EOpenArtifact
          | Some data =>
              if verifyEntity tm newVerifier b data binaryIdentity then None else Some EBlobVerification
          end
      end
  end.

(** An archive that is accepted was signed by the release workflow. *)
Lemma VerifyBlob_signed `{SigstoreSpec} artifact bundle root v i :
  VerifyBlob (Some artifact) bundle root v i = None →
  ∃ subject, blobSigned artifact OIDCIssuer subject ∧ HasPrefix subject binarySAN = true.
Proof.
  unfold VerifyBlob. destruct (bundle ≫= LoadJSON) as [b|]; [|done]. destruct root as [tm|]; [|done].
  destruct v, i; try done. cbn [negb]. destruct (verifyEntity _ _ _ _ _) eqn:Hv; [|done]. intros _.
  destruct (verify_sound _ _ _ _ _ Hv) as (issuer & subject & Hs & [-> Hp]%means_binary). by exists subject.
Qed.

(** ** Users and their images *)

(** [os/user.User]; identifiers are texts. *)
Record osUser := MkOsUser { osUid : gostring; osGid : gostring; osUsername : gostring; osHomeDir : gostring }.

(** An identifier that is no number counts as 0. *)
Definition currentUserInfo (u : option osUser) : option userInfo :=
  u ← u;
  Some (MkUser (osUsername u) (osHomeDir u) (match Atoi (osUid u) with Ok n => n | Err _ => 0 end)
          (imageName (osUid u) (osGid u))).

Lemma imageName_not_proxy uid gid : imageName uid gid ≠ ProxyImage.
Proof. unfold imageName. intros Hx. vm_compute in Hx. discriminate Hx. Qed.

Lemma localImage_not_proxy : localImage ≠ ProxyImage.
Proof. intros Hx. vm_compute in Hx. discriminate Hx. Qed.

(** ** From the verified digest to the container *)

(** What the program relies on: a name keeps meaning the same image until it is
    pulled again. *)
Class ImageLaws (D : Type) `{Docker D} := {
  inspect_create : ∀ d s, ImageInspect (ContainerCreate d s).1 = ImageInspect d;
  inspect_start : ∀ d id, ImageInspect (ContainerStart d id).1 = ImageInspect d;
  inspect_net : ∀ d s, ImageInspect (NetworkCreate d s).1 = ImageInspect d;
  inspect_connect : ∀ d n id ip, ImageInspect (NetworkConnect d n id ip).1 = ImageInspect d;
  inspect_volume : ∀ d n ls, ImageInspect (VolumeCreate d n ls).1 = ImageInspect d;
  inspect_sleep : ∀ d, ImageInspect (sleep d) = ImageInspect d;
  inspect_pull : ∀ d ref other, other ≠ ref → ImageInspect (ImagePull d ref).1 other = ImageInspect d other;
}.

Section images.
Context {D : Type} `{DockerSpec D} `{!ImageLaws D} (env : hostEnv).

(** A step that pulls nothing. *)
Definition pullsNothing {A} (m : M A) : Prop :=
  ∀ w cs, ImageInspect (dk (m w cs).1.1) = ImageInspect (dk w).

Lemma pullsNothing_bind {A B} (m : M A) (k : A → M B) :
  pullsNothing m → (∀ a, pullsNothing (k a)) → pullsNothing (bindM m k).
Proof.
  intros Hm Hk w cs. unfold bindM. specialize (Hm w cs). destruct (m w cs) as [[w' cs'] [a|e]]; [|done].
  rewrite (Hk a w' cs'). exact Hm.
Qed.

Lemma pullsNothing_get {A} (o : option A) e : pullsNothing (getM o e).
Proof. by destruct o. Qed.
Lemma pullsNothing_guard b e : pullsNothing (guardM b e).
Proof. by destruct b. Qed.
Lemma pullsNothing_read {A} (f : D → option A) e : pullsNothing (readM f e).
Proof. intros w cs. unfold readM. by destruct (f (dk w)). Qed.
Lemma pullsNothing_status f e : pullsNothing (λ w cs, guardM (f w) e w cs).
Proof. intros w cs. by destruct (f w). Qed.
Lemma pullsNothing_port r : pullsNothing (portM r).
Proof. by destruct r. Qed.
Lemma pullsNothing_call {A} (f : D → D * option A) e :
  (∀ d, ImageInspect (f d).1 = ImageInspect d) → pullsNothing (callM f e).
Proof. intros Hf w cs. unfold callM. specialize (Hf (dk w)). by destruct (f (dk w)) as [d [a|]]. Qed.
Lemma pullsNothing_do f e : (∀ d, ImageInspect (f d).1 = ImageInspect d) → pullsNothing (doM f e).
Proof. intros Hf. apply pullsNothing_call. intros d. specialize (Hf d). by destruct (f d). Qed.
Lemma pullsNothing_temp cfg : pullsNothing (writeTemp env cfg).
Proof. intros w cs. unfold writeTemp, runCleanup. by destruct (tempCreated env), (tempWritten env), (rmFileOk env). Qed.
Lemma pullsNothing_creds sid : pullsNothing (writeCredentials env sid).
Proof. intros w cs. unfold writeCredentials. by destruct (mkdirOk env). Qed.
Lemma pullsNothing_network name rand e : pullsNothing (callM (λ d, CreateNetwork d name rand) e).
Proof.
  apply pullsNothing_call. intros d. unfold CreateNetwork. destruct rand as [[b0 b1]|]; [|done]. cbn.
  match goal with |- context [NetworkCreate d ?s] => rewrite <- (inspect_net d s) end.
  by destruct (NetworkCreate _ _) as [d1 [id|]].
Qed.
Lemma pullsNothing_proxy cfg e : pullsNothing (callM (λ d, StartProxyContainer d cfg) e).
Proof.
  apply pullsNothing_call. intros d. unfold StartProxyContainer. rewrite <- (inspect_create d (proxySpec cfg)).
  destruct (ContainerCreate _ _) as [d1 [id|]]; [|done]. cbn.
  rewrite <- (inspect_connect d1 (pNetworkID cfg) id (pProxyIP cfg)).
  destruct (NetworkConnect _ _ _ _) as [d2 [|]]; [|done]. cbn. rewrite <- (inspect_start d2 id).
  by destruct (ContainerStart _ _) as [d3 [|]].
Qed.
Lemma pullsNothing_sandbox cfg lt e : pullsNothing (callM (λ d, CreateSandboxContainer d cfg (dirsOk env) lt) e).
Proof.
  apply pullsNothing_call. intros d. unfold CreateSandboxContainer.
  destruct (dirsOk env); [apply inspect_create|done].
Qed.
Hint Resolve pullsNothing_bind pullsNothing_get pullsNothing_guard pullsNothing_read pullsNothing_status
  pullsNothing_port pullsNothing_temp pullsNothing_creds pullsNothing_network pullsNothing_proxy
  pullsNothing_sandbox : pulls.

Lemma pullsNothing_defer c : pullsNothing (deferM c).
Proof. done. Qed.
Lemma pullsNothing_ret {A} (a : A) : pullsNothing (retM a).
Proof. done. Qed.
Hint Resolve pullsNothing_defer pullsNothing_ret : pulls.

Lemma pullsNothing_await n i id : pullsNothing (awaitSSH env n i id).
Proof.
  revert i. induction n as [|n IH]; intros i; cbn [awaitSSH]; [done|].
  destruct (banner env i); [done|]. apply pullsNothing_bind; [apply pullsNothing_status|]. intros [].
  apply pullsNothing_bind; [apply pullsNothing_call, inspect_sleep|auto].
Qed.

Lemma pullsNothing_daemon root u infra : pullsNothing (startDaemon env root u infra).
Proof.
  unfold startDaemon. repeat (apply pullsNothing_bind; [auto with pulls|intros ?]);
    [apply pullsNothing_do; intros d; apply inspect_start|apply pullsNothing_call, inspect_sleep|].
  apply pullsNothing_await.
Qed.

(** The images of a session: what their names mean was verified. *)
Definition imagesVerified (u : userInfo) (d : D) : Prop :=
  (local env = true ∨ ∃ g, ImageRepoDigest d (uImage u) = Some g ∧ verifyImage env g = true) ∧
  ∃ g, ImageRepoDigest d ProxyImage = Some g ∧ verifyProxyImage env g = true.

Lemma ImageRepoDigest_inspect d d' ref :
  ImageInspect d' ref = ImageInspect d ref → ImageRepoDigest d' ref = ImageRepoDigest d ref.
Proof. unfold ImageRepoDigest. by intros ->. Qed.

Lemma triple_pulls {A} u (m : M A) :
  pullsNothing m →
  triple (λ w _, imagesVerified u (dk w)) m (λ _ w _, imagesVerified u (dk w)) (λ _ _, True).
Proof.
  intros Hm w cs Hi. specialize (Hm w cs). destruct (m w cs) as [[w' cs'] [a|e]]; [|done].
  cbn in Hm. unfold imagesVerified.
  by rewrite !(ImageRepoDigest_inspect (dk w) (dk w')) by (by rewrite Hm).
Qed.

Lemma triple_any {A} (m : M A) : triple (λ (_ : @world D) _, True) m (λ _ _ _, True) (λ _ _, True).
Proof. intros w cs _. by destruct (m w cs) as [[? ?] [?|?]]. Qed.

Lemma EnsureImage_other d ref other :
  other ≠ ref → ImageInspect (EnsureImage d ref).1 other = ImageInspect d other.
Proof.
  intros Hn. unfold EnsureImage. destruct (ImageList d ref) as [[|]|]; [|done..]. by apply inspect_pull.
Qed.

Lemma ensureImages_verified u :
  uImage u ≠ ProxyImage →
  triple (λ (_ : @world D) _, True) (ensureImages env u) (λ _ w _, imagesVerified u (dk w)) (λ _ _, True).
Proof.
  intros Hne. unfold ensureImages. eapply triple_bind; [apply triple_any|]. intros [].
  eapply (triple_bind _ _ _ (λ _ w _, local env = true ∨
            ∃ g, ImageRepoDigest (dk w) (uImage u) = Some g ∧ verifyImage env g = true)).
  { destruct (local env); [apply triple_ret; auto|].
    eapply triple_bind; [by apply triple_read|]. intros g w cs [Hg _]. cbn.
    destruct (verifyImage env g) eqn:Hv; cbn; [|done]. right. by exists g. }
  intros []. eapply triple_bind.
  { apply triple_do_same; [done|]. intros w cs [Hl|(g & Hg & Hv)]; [by left|]. right. exists g. split; [|done].
    rewrite <- Hg. by apply ImageRepoDigest_inspect, EnsureImage_other. }
  intros []. eapply triple_bind; [by apply triple_read|]. intros g w cs [Hg Hw]. cbn.
  destruct (verifyProxyImage env g) eqn:Hv; cbn; [|done]. split; [done|]. by exists g.
Qed.

Lemma startSessionInfra_images root u daemon :
  uImage u ≠ ProxyImage →
  triple (λ (_ : @world D) _, True) (startSessionInfra env root u daemon)
    (λ _ w _, imagesVerified u (dk w)) (λ _ _, True).
Proof.
  intros Hne. unfold startSessionInfra. do 4 (eapply triple_bind; [apply triple_any|intros ?]).
  eapply triple_bind; [by apply ensureImages_verified|]. intros []. apply triple_pulls.
  repeat (apply pullsNothing_bind; [auto with pulls|intros ?]). done.
Qed.

Lemma upBody_images root u :
  uImage u ≠ ProxyImage →
  triple (λ (_ : @world D) _, True) (upBody env root u) (λ _ w _, imagesVerified u (dk w)) (λ _ _, True).
Proof.
  intros Hne. unfold upBody. eapply triple_bind; [by apply startSessionInfra_images|]. intros infra.
  apply triple_pulls, pullsNothing_bind; [apply pullsNothing_daemon|done].
Qed.

(** What [up] created, with the images' names. *)
Lemma upBody_created w root u w' cs r :
  newID env ∉ sessionDirs w → (∀ m, m !! tempName env m = None) →
  upBody env root u w [] = (w', cs, Ok r) → ∀ id s,
  (id, s) ∈ containers (dk w') → (id, s) ∈ containers (dk w) ∨ cImage s = uImage u ∨ cImage s = ProxyImage.
Proof.
  intros Hdir Hfile Hup id s. pose proof (upBody_triple env w root u true Hdir Hfile eq_refl w []) as Ht.
  rewrite Hup in Ht. destruct Ht as (_ & infra & pub & net & path & cfg & merged & cp & self & tls & bid & _ & Hg & _);
    [by split_and!|].
  destruct Hg as [Hc _ _ _]. rewrite Hc. rewrite elem_of_app, !elem_of_cons, elem_of_nil.
  intros [[[= _ ->]|[[= _ ->]|[]]]|Hin]; [by right; left|by right; right|by left].
Qed.
End images.

(** ** The chain of trust *)

Lemma runCalls_calls parse c calls n k e : (runCalls parse c calls).2 !! n = Some (k, e) → k ∈ calls.
Proof.
  revert c n. induction calls as [|k0 l IH]; intros c n; [done|]. cbn.
  destruct (verifyAs _ _ _ _ _) as [c1 e0]. specialize (IH c1).
  destruct (runCalls parse c1 l) as [c2 out]. cbn in *. destruct n as [|n]; cbn.
  - intros [= -> _]. apply list_elem_of_here.
  - intros Hn. apply list_elem_of_further. eauto.
Qed.

Section chain.
Context {D : Type} `{DockerSpec D} `{!ImageLaws D}.
Context (ParseReference : gostring → bool) (parse_plain : ∀ r, ParseReference r = true → plain r).
(** Who signed which image; a check that succeeds found such a signature. *)
Context (imageSigned : gostring → gostring → gostring → Prop).
(** Every check of an image that was made, by any command. *)
Context (calls : list call).
Context (check_sound : ∀ k, k ∈ calls → signature (Caches.env k) (who k) (ref k) = true →
           ∃ issuer subject, imageSigned (ref k) issuer subject ∧
             means (identityOf (who k)) issuer subject = true).

(** A check of this kind and reference was made and succeeded. *)
Definition accepted (id : identity) (g : gostring) : Prop :=
  ∃ n k, (runCalls ParseReference None calls).2 !! n = Some (k, None) ∧ who k = id ∧ ref k = g.

(** Signed by one of the two signers of images. *)
Definition trusted (g : gostring) : Prop :=
  imageSigned g OIDCIssuer imageSAN ∨ imageSigned g ProxyImageOIDCIssuer ProxyImageSubject.

Lemma accepted_trusted id g : accepted id g → trusted g.
Proof.
  intros (n & k & Hn & _ & <-). assert (Hh : holds None []) by by split.
  destruct (runCalls_sound ParseReference parse_plain None [] calls n k Hh Hn)
    as [[Hin|(m & k' & _ & Hm & <- & (_ & _ & Hs))] _]; [by apply not_elem_of_nil in Hin|].
  destruct (check_sound k') as (issuer & subject & Hsig & Hid); [by eapply runCalls_calls|done|].
  destruct (who k'); [apply means_image in Hid as [-> ->]|apply means_proxy in Hid as [-> ->]]; [by left|by right].
Qed.

Context (env : hostEnv) (osu : option osUser).
Context (user_ok : currentUser env = currentUserInfo osu).
Context (image_checks : ∀ g, verifyImage env g = true → accepted VibepitWorkflow g).
Context (proxy_checks : ∀ g, verifyProxyImage env g = true → accepted DistrolessKeyless g).

Lemma resolved_image root u :
  resolveProjectAndUser env = Ok (root, u) → uImage u ≠ ProxyImage ∧ (local env = true → uImage u = localImage).
Proof.
  unfold resolveProjectAndUser. destruct (project env), (negb (projectExists env)); try done.
  rewrite user_ok. destruct osu as [o|]; [|done]. cbn. case_bool_decide; [done|].
  destruct (local env); intros [= _ <-]; cbn; [|by split; [apply imageName_not_proxy|]].
  split; [apply localImage_not_proxy|done].
Qed.

End chain.

(** ** The example session

    Both digests are checked once, by an [up] of the earlier example. *)

#[local] Existing Instance toy_docker.
#[local] Existing Instance toy_spec.

#[local] Instance toy_images : ImageLaws toy.
Proof. by split. Qed.

Definition demo_osUser : osUser := MkOsUser (gs "1000") (gs "1000") (gs "u") (gs "/home/u").
Definition demo_digest : gostring := imageName (gs "1000") (gs "1000") ++ gs "@sha256:00".
Definition demo_proxyDigest : gostring := ProxyImage ++ gs "@sha256:00".

Definition demo_signed (g issuer subject : gostring) : Prop :=
  (g, issuer, subject) = (demo_digest, OIDCIssuer, imageSAN) ∨
  (g, issuer, subject) = (demo_proxyDigest, ProxyImageOIDCIssuer, ProxyImageSubject).

Definition demo_checks : list call :=
  [MkCall VibepitWorkflow demo_digest (MkAnswers true (λ _ _, true) true);
   MkCall DistrolessKeyless demo_proxyDigest (MkAnswers true (λ _ _, true) true)].

Definition demo_up : hostEnv :=
  {| project := project demo_host; projectExists := projectExists demo_host;
     currentUser := currentUser demo_host; local := local demo_host; reconfigure := reconfigure demo_host;
     cliAllow := cliAllow demo_host; cliPresets := cliPresets demo_host; load := load demo_host;
     projectConfigExists := projectConfigExists demo_host; dialogOk := dialogOk demo_host;
     registry := registry demo_host; binary := binary demo_host;
     verifyImage := λ g, bool_decide (g = demo_digest);
     verifyProxyImage := λ g, bool_decide (g = demo_proxyDigest);
     newID := newID demo_host; rand := rand demo_host; draw1 := draw1 demo_host; draw2 := draw2 demo_host;
     tempName := tempName demo_host; tempCreated := tempCreated demo_host; tempWritten := tempWritten demo_host; tlsCreds := tlsCreds demo_host;
     mkdirOk := mkdirOk demo_host; credsWritten := credsWritten demo_host; keys := keys demo_host;
     sshWritten := sshWritten demo_host; stateDir := stateDir demo_host; dirsOk := dirsOk demo_host;
     localtime := localtime demo_host; termVar := termVar demo_host; colorTerm := colorTerm demo_host;
     banner := banner demo_host; attempts := attempts demo_host; rmDirOk := rmDirOk demo_host; rmFileOk := rmFileOk demo_host |}.

Lemma demo_checks_sound k : k ∈ demo_checks → signature (Caches.env k) (who k) (ref k) = true →
  ∃ issuer subject, demo_signed (ref k) issuer subject ∧ means (identityOf (who k)) issuer subject = true.
Proof.
  unfold demo_checks. rewrite !elem_of_cons, elem_of_nil. intros [->|[->|[]]] _.
  - exists OIDCIssuer, imageSAN. split; [by left|by apply means_image].
  - exists ProxyImageOIDCIssuer, ProxyImageSubject. split; [by right|by apply means_proxy].
Qed.

Lemma demo_accepted : accepted demo_parse demo_checks VibepitWorkflow demo_digest ∧
  accepted demo_parse demo_checks DistrolessKeyless demo_proxyDigest.
Proof.
  assert (Hout : (runCalls demo_parse None demo_checks).2 = (λ k, (k, None)) <$> demo_checks).
  { unfold demo_checks. cbn [runCalls who ref Caches.env]. unfold verifyAs. cbn [trustedRoot signature writable negb].
    replace (demo_parse demo_digest) with true by (vm_compute; reflexivity).
    replace (demo_parse demo_proxyDigest) with true by (vm_compute; reflexivity). cbn [negb].
    replace (isDigestVerified (cacheVerifiedDigest true None demo_digest) demo_proxyDigest) with false
      by (vm_compute; reflexivity). done. }
  split; [exists 0%nat|exists 1%nat]; rewrite Hout; eexists; split; try reflexivity; split; reflexivity.
Qed.

Lemma demo_user_ok : currentUser demo_up = currentUserInfo (Some demo_osUser).
Proof. vm_compute. reflexivity. Qed.

