(* ===== verification/Update.v ===== *)
(** * The update command ([cmd/update.go: runUpdate, runList, runCheck,
      runImageUpdate])

    The command updates the binary ([SelfUpdate.v]) and the two container images,
    or only lists releases or says whether there is a newer one.  It works on the
    files of the host, the container runtime and the cache of verified digests. *)

From S2P Require Import Prelude GoStrings Releases SelfUpdate Caches Container Sandbox SandboxSpec Trust.
Open Scope Z_scope.

(** ** Images *)

Inductive imageErr := NoUser | NoRuntime | PullFailed | NoDigest | BadSignature (e : verifyErr).

Section images.
Context {D : Type} `{Docker D} (ParseReference : gostring → bool).

(** One image: pulled, resolved to a digest, and verified. *)
Definition updateImage (id : identity) (a : answers) (img : gostring) (d : D) (c : cache) :
    D * cache * option imageErr :=
  match ImagePull d img with
  | (d1, false) => (d1, c, Some PullFailed)
  | (d1, true) =>
      match ImageRepoDigest d1 img with
      | None => (d1, c, Some NoDigest)
      | Some g => let '(c1, e) := verifyAs ParseReference id a c g in (d1, c1, BadSignature <$> e)
      end
  end.

(** [a1] and [a2] are what the world answers during the two verifications. *)
Definition runImageUpdate (u : option osUser) (clientOk : bool) (a1 a2 : answers) (d : D) (c : cache) :
    D * cache * option imageErr :=
  match u with
  | None => (d, c, Some NoUser)
  | Some u =>
      if negb clientOk then (d, c, Some NoRuntime)
      else match updateImage VibepitWorkflow a1 (imageName (osUid u) (osGid u)) d c with
           | (d1, c1, Some e) => (d1, c1, Some e)
           | (d1, c1, None) => updateImage DistrolessKeyless a2 ProxyImage d1 c1
           end
  end.
End images.

(** ** Listings *)

Section update.
Context `{Semver} `{UnicodeTables}.
Context (Get : gostring → option httpResponse).
Context (decodeIndex : gostring → option ChannelIndex).
Context (decodeMeta : gostring → option VersionMetadata).
Context (sha256 : gostring → gostring) (cosign : gostring → gostring → bool).
Context (untar : gostring → option (list (option (gostring * gostring)))).
Context (tempFile : gmap gostring (gostring * Z) → gostring → gostring).
Context (fault : faults).
Context (current os arch : gostring).

Definition releaseLine (r : ReleaseEntry) : gostring :=
  padRight 20 (Version r) ++ gs " " ++ Timestamp r ++
  (if bool_decide (Version r = current) then gs "  (installed)" else []).

Definition runList (pre : bool) : result updErr (list gostring) :=
  let? ic := ResolveChannel Get decodeIndex pre in
  Ok ((padRight 20 (gs "VERSION") ++ gs " TIMESTAMP") :: (releaseLine <$> Releases ic.1)).

Definition availableText (latest channel : gostring) : gostring :=
  gs "Update available: " ++ current ++ gs " -> " ++ latest ++ gs " (" ++ channel ++ gs " channel)".

Definition runCheck (pre : bool) : result updErr (list gostring) :=
  let? ic := ResolveChannel Get decodeIndex pre in
  Ok [if ShouldUpdate current (Latest ic.1) (isCrossChannel current ic.2)
      then availableText (Latest ic.1) ic.2 else gs "Already up to date."].

(** ** The command *)

Context {D : Type} `{Docker D} (ParseReference : gostring → bool).

Record host := MkUpdHost { files : gmap gostring (gostring * Z); runtime : D; digests : cache }.

(** What the user, the host and the registries answer during one command. *)
Record updateEnv := MkUpdateEnv {
  originalPath : gostring; binPath : gostring; answer : gostring;
  osUserOf : option osUser; clientOk : bool; sandboxCheck : answers; proxyCheck : answers }.

Inductive commandErr :=
  | EFlags | EListing (e : updErr) | EBinary (e : updErr) | EImages (e : imageErr)
  | EBoth (e : updErr) (i : imageErr).

Definition binaryPart (e : updateEnv) (f : updateFlags) (fs : gmap gostring (gostring * Z)) :
    gmap gostring (gostring * Z) * result updErr outcome :=
  runBinaryUpdate Get decodeIndex decodeMeta sha256 cosign untar tempFile fault fs current os arch
    (fUse f) (originalPath e) (binPath e) (fPre f) (fYes f) (answer e).

Definition imagePart (e : updateEnv) (h : host) : D * cache * option imageErr :=
  runImageUpdate ParseReference (osUserOf e) (clientOk e) (sandboxCheck e) (proxyCheck e) (runtime h) (digests h).

(** The new state, what a listing prints, and the error. *)
Definition UpdateAction (e : updateEnv) (f : updateFlags) (h : host) : host * list gostring * option commandErr :=
  if negb (validateUpdateFlags f) then (h, [], Some EFlags)
  else if fList f then
    match runList (fPre f) with Ok ls => (h, ls, None) | Err x => (h, [], Some (EListing x)) end
  else if fCheck f then
    match runCheck (fPre f) with Ok ls => (h, ls, None) | Err x => (h, [], Some (EListing x)) end
  else
    let binOnly := fBin f || bool_decide (fUse f ≠ []) in
    let '(fs1, binErr) :=
      if fImages f then (files h, None)
      else match binaryPart e f (files h) with
           | (fs1, Ok _) => (fs1, None)
           | (fs1, Err x) => (fs1, Some x)
           end in
    let '(d1, c1, imgErr) := if binOnly then (runtime h, digests h, None) else imagePart e h in
    (MkUpdHost fs1 d1 c1, [],
     match binErr, imgErr with
     | Some b, Some i => Some (EBoth b i)
     | Some b, None => Some (EBinary b)
     | None, Some i => Some (EImages i)
     | None, None => None
     end).

(** [--check] and the update itself come to the same decision. *)
Lemma check_agrees pre :
  match runCheck pre, chooseUpdate Get decodeIndex decodeMeta current os arch [] pre with
  | Ok [line], Ok None => line = gs "Already up to date."
  | Ok [line], Ok (Some (m, _)) =>
      ∃ latest channel, line = availableText latest channel ∧ FetchVersionMetadata Get decodeMeta latest = Ok m
  | Ok [line], Err _ => ∃ latest channel, line = availableText latest channel
  | Err e, r => r = Err e
  | _, _ => False
  end.
Proof.
  unfold runCheck, chooseUpdate. rewrite (bool_decide_eq_false_2 (([] : gostring) ≠ [])) by (by intros []).
  destruct (ResolveChannel Get decodeIndex pre) as [[idx ch]|e]; [|done]. cbn.
  destruct (ShouldUpdate _ _ _); [|done]. destruct (FetchVersionMetadata _ _ _) as [m|e] eqn:Hm; cbn; [|by eauto].
  destruct (FindAsset m os arch); cbn; eauto.
Qed.

(** The image part once more, one image at a time. *)
Context (parse_plain : ∀ r, ParseReference r = true → plain r).

Lemma updateImage_spec id a img d c rs d' c' r :
  holds c rs → updateImage ParseReference id a img d c = (d', c', r) →
  d' = (ImagePull d img).1 ∧
  ∃ new, holds c' (rs ++ new) ∧
    (r = None → ∃ g, ImageRepoDigest d' img = Some g ∧ (g ∈ rs ∨ checked ParseReference (MkCall id g a)) ∧
       (new = [] ∨ new = [g] ∧ checked ParseReference (MkCall id g a)) ∧
       (writable a = true → g ∈ rs ++ new)).
Proof.
  intros Hh. unfold updateImage. destruct (ImagePull d img) as [d1 [|]]; cbn.
  2: { intros [= <- <- <-]. split; [done|]. exists []. by rewrite app_nil_r. }
  destruct (ImageRepoDigest d1 img) as [g|] eqn:Hg.
  2: { intros [= <- <- <-]. split; [done|]. exists []. by rewrite app_nil_r. }
  pose proof (verifyAs_spec ParseReference parse_plain c rs (MkCall id g a) Hh) as Hv. cbn in Hv.
  destruct (verifyAs _ _ _ _ _) as [c1 e]. destruct Hv as (new & Hh' & Hnew & He). intros [= <- <- <-].
  split; [done|]. exists new. split; [done|].
  destruct e; [done|]. intros _. exists g. destruct He as [He Hw]. split_and!; try done. naive_solver.
Qed.

(** What the names of the two images mean afterwards is in the cache [rs] that
    was there before, or its signature by its own publisher was checked in this
    command; and it will be accepted without the network if the cache could be
    written.  (Should both names mean one image, the first check covers it.) *)
Definition imagesChecked (u : osUser) (a1 a2 : answers) (rs : list gostring) (d : D) (c : cache) : Prop :=
  ∃ g1 g2, ImageRepoDigest d (imageName (osUid u) (osGid u)) = Some g1 ∧ ImageRepoDigest d ProxyImage = Some g2 ∧
    (g1 ∈ rs ∨ checked ParseReference (MkCall VibepitWorkflow g1 a1)) ∧
    (g2 ∈ rs ∨ checked ParseReference (MkCall DistrolessKeyless g2 a2) ∨
       g2 = g1 ∧ checked ParseReference (MkCall VibepitWorkflow g1 a1)) ∧
    (writable a1 = true → ∀ offline, (VerifyImage ParseReference offline c g1).2 = None) ∧
    (writable a2 = true → ∀ offline, (VerifyProxyImage ParseReference offline c g2).2 = None).

Lemma known_offline id a c rs g : holds c rs → g ∈ rs → (verifyAs ParseReference id a c g).2 = None.
Proof. intros Hh Hin. unfold verifyAs. by rewrite (proj2 (isDigestVerified_holds ParseReference c rs g Hh) Hin). Qed.

Context `{!DockerSpec D} `{!ImageLaws D}.

Lemma pull_same d img : same d (ImagePull d img).1.
Proof. destruct (ImagePull d img) eqn:E. by apply pull_spec in E. Qed.

Lemma runImageUpdate_spec u ok a1 a2 d c rs d' c' r :
  holds c rs → runImageUpdate ParseReference u ok a1 a2 d c = (d', c', r) →
  same d d' ∧ (r = None → ∃ u', u = Some u' ∧ imagesChecked u' a1 a2 rs d' c').
Proof.
  intros Hh. unfold runImageUpdate. destruct u as [u|]; [|by intros [= <- <- <-]].
  destruct ok; [|by intros [= <- <- <-]]. cbn [negb].
  destruct (updateImage _ VibepitWorkflow _ _ _ _) as [[d1 c1] r1] eqn:E1.
  destruct (updateImage_spec _ _ _ _ _ _ _ _ _ Hh E1) as (Hd1 & new & Hh1 & Hr1).
  destruct r1 as [x|]; [intros [= <- <- <-]; subst d1; by split; [apply pull_same|]|]. intros E2.
  destruct (updateImage_spec _ _ _ _ _ _ _ _ _ Hh1 E2) as (Hd2 & new2 & Hh2 & Hr2).
  split; [subst d1 d'; etrans; apply pull_same|]. intros ->.
  destruct (Hr1 eq_refl) as (g1 & Hg1 & Hc1 & Hn1 & Hw1), (Hr2 eq_refl) as (g2 & Hg2 & Hc2 & _ & Hw2).
  exists u. split; [done|]. exists g1, g2. split_and!; try done.
  - rewrite <- Hg1. apply ImageRepoDigest_inspect. subst d'. apply inspect_pull, imageName_not_proxy.
  - destruct Hc2 as [[?|Hin]%elem_of_app|?]; [by left| |by right; left]. right. right.
    destruct Hn1 as [->|[-> ?]]; [by apply elem_of_nil in Hin|]. by apply list_elem_of_singleton in Hin.
  - intros Hw off. eapply known_offline; [exact Hh2|]. apply elem_of_app. left. auto.
  - intros Hw off. eapply known_offline; [exact Hh2|]. auto.
Qed.

Lemma check_line pre out :
  runCheck pre = Ok out → ∃ line, out = [line] ∧
    (line = gs "Already up to date." ↔ chooseUpdate Get decodeIndex decodeMeta current os arch [] pre = Ok None).
Proof.
  pose proof (check_agrees pre) as Hc. destruct (runCheck pre) as [[|line [|? ?]]|]; try done.
  intros [= <-]. exists line. split; [done|].
  destruct (chooseUpdate _ _ _ _ _ _ _ _) as [[[m a]|]|x]; [|by rewrite Hc|].
  1: destruct Hc as (latest & channel & -> & _). 2: destruct Hc as (latest & channel & ->).
  all: by split; [unfold availableText; cbn; intros [=]|].
Qed.

Lemma update_idle e f h h' out err :
  UpdateAction e f h = (h', out, err) → negb (validateUpdateFlags f) || fList f || fCheck f = true →
  h' = h ∧ (validateUpdateFlags f = true → fCheck f = true → err = None → runCheck (fPre f) = Ok out).
Proof.
  unfold UpdateAction. destruct (validateUpdateFlags f) eqn:Hv; cbn [negb orb]; [|by intros [= <- <- <-]].
  destruct (fList f) eqn:Hl.
  - destruct (runList _); intros [= <- <- <-] _; (split; [done|]); intros _ Hc; unfold validateUpdateFlags in Hv;
      rewrite Hl, Hc in Hv; cbn in Hv; by rewrite !andb_false_r in Hv.
  - destruct (fCheck f); [|done]. by destruct (runCheck _); intros [= <- <- <-].
Qed.

(** C28: [update] does what its flags say, and no more.  No container or network
    is touched.  With conflicting flags, --list and --check nothing changes at
    all, and --check announces a newer version exactly when an update would look
    for it.  Otherwise the binary and the images are updated independently, each
    unless the flags leave it out, one of them at least, whatever happens to the
    other, and the command fails exactly when one of them does.  After a
    successful update of the images, each of the two names means an image that the
    cache of verified images listed before, or whose signature by its publisher
    this command has checked, and a later [up] accepts it without the network if
    the cache could be written. *)
Theorem update_command e f h h' out err rs :
  holds (digests h) rs → UpdateAction e f h = (h', out, err) →
  let idle := negb (validateUpdateFlags f) || fList f || fCheck f in
  let binOnly := fBin f || bool_decide (fUse f ≠ []) in
  same (runtime h) (runtime h') ∧
  (idle = true → h' = h) ∧
  (validateUpdateFlags f = true → fCheck f = true → err = None →
     ∃ line, out = [line] ∧
       (line = gs "Already up to date." ↔
        chooseUpdate Get decodeIndex decodeMeta current os arch [] (fPre f) = Ok None)) ∧
  (idle = false →
     (fImages f = true → binOnly = false) ∧
     files h' = (if fImages f then files h else (binaryPart e f (files h)).1) ∧
     (err = None ↔ (fImages f = true ∨ is_ok (binaryPart e f (files h)).2 = true) ∧
                   (binOnly = true ∨ (imagePart e h).2 = None)) ∧
     (binOnly = true → runtime h' = runtime h ∧ digests h' = digests h) ∧
     (binOnly = false → err = None → ∃ u, osUserOf e = Some u ∧
        imagesChecked u (sandboxCheck e) (proxyCheck e) rs (runtime h') (digests h'))).
Proof.
  intros Hh Hu. cbv zeta. destruct (negb (validateUpdateFlags f) || fList f || fCheck f) eqn:Hidle.
  { destruct (update_idle _ _ _ _ _ _ Hu Hidle) as [-> Hc]. split_and!; try done.
    intros. apply check_line. auto. }
  apply orb_false_elim in Hidle as [[Hv Hl]%orb_false_elim Hc].
  assert (Hf : fImages f = true → fBin f || bool_decide (fUse f ≠ []) = false).
  { apply negb_false_iff in Hv. unfold validateUpdateFlags in Hv. intros Hi. rewrite Hi in Hv.
    by destruct (fBin f), (bool_decide (fUse f ≠ [])). }
  unfold UpdateAction in Hu. rewrite Hv, Hl, Hc in Hu.
  destruct (if fImages f then _ else _) as [fs1 binErr] eqn:Hb.
  assert (Hbin : fs1 = (if fImages f then files h else (binaryPart e f (files h)).1) ∧
                 (binErr = None ↔ fImages f = true ∨ is_ok (binaryPart e f (files h)).2 = true)).
  { destruct (fImages f); [injection Hb as <- <-; split; [done|]; naive_solver|].
    destruct (binaryPart e f (files h)) as [? [?|?]]; injection Hb as <- <-; cbn; naive_solver. }
  destruct Hbin as [Hfs Hbe].
  destruct (fBin f || bool_decide (fUse f ≠ [])) eqn:Hbo; cbn in Hu.
  - injection Hu as <- _ <-. cbn. split_and!; try done; [intros; congruence|]. intros _. split_and!; try done.
    rewrite <- Hbe. destruct binErr; naive_solver.
  - destruct (imagePart e h) as [[d1 c1] imgErr] eqn:Hi. injection Hu as <- _ <-. cbn.
    destruct (runImageUpdate_spec _ _ _ _ _ _ _ _ _ _ Hh Hi) as [Hs Hok].
    split_and!; try done; [intros; congruence|]. intros _. split_and!; try done.
    + rewrite <- Hbe. destruct binErr, imgErr; naive_solver.
    + intros _ He. apply Hok. by destruct binErr, imgErr.
Qed.
End update.

(** ** Whose binary is installed *)

(** The signature check of [SelfUpdate.v] is [VerifyBlob]. *)
Definition cosignCheck `{Sigstore} (root : option trustRoot) (archive bundle : gostring) : bool :=
  bool_decide (VerifyBlob (Some archive) (Some bundle) root true true = None).

(** An archive that may be installed was signed by the release workflow, for a tag
    that starts with v. *)
Lemma verified_by_release_workflow `{SigstoreSpec} root Get sha256 untar fault a archive content :
  verified Get sha256 (cosignCheck root) untar fault a archive content →
  ∃ subject, blobSigned archive OIDCIssuer subject ∧ HasPrefix subject binarySAN = true.
Proof. intros (_ & _ & (bundle & _ & Hv%bool_decide_eq_true) & _). by eapply VerifyBlob_signed. Qed.

(** ** Example: the images are updated, and later accepted offline *)

#[local] Existing Instance toy_docker.
#[local] Existing Instance toy_spec.
#[local] Existing Instance toy_images.
#[local] Existing Instance byte_semver.
#[local] Existing Instance ascii_tables.

Definition demo_env : updateEnv :=
  let ok := MkAnswers true (λ _ _, true) true in
  MkUpdateEnv demo_bin demo_bin [] (Some demo_osUser) true ok ok.
Definition demo_flags : updateFlags := MkFlags false true false false false false [].
Definition demo_update_host : host := MkUpdHost demo_fs (dk (demo_world true)) None.

Definition demo_run : host * list gostring * option commandErr :=
  UpdateAction demo_server (λ _, None) (λ _, Some demo_release) (λ d, d) (λ _ _, true) demo_untar longName
    (demo_faults false false) (gs "0.1.0") (gs "linux") (gs "amd64")
    demo_parse demo_env demo_flags demo_update_host.

Lemma update_command_witness :
  demo_run.2 = None ∧
  ∃ g, ImageRepoDigest (runtime demo_run.1.1) (imageName (gs "1000") (gs "1000")) = Some g ∧
    ∀ offline, (VerifyImage demo_parse offline (digests demo_run.1.1) g).2 = None.
Proof.
  assert (Hr : demo_run.2 = None) by (vm_compute; reflexivity). split; [exact Hr|].
  destruct demo_run as [[h' out] err] eqn:E. cbn [fst snd] in *.
  destruct (update_command demo_server (λ _, None) (λ _, Some demo_release) (λ d, d) (λ _ _, true) demo_untar longName
    (demo_faults false false) (gs "0.1.0") (gs "linux") (gs "amd64")
    demo_parse demo_parse_plain demo_env demo_flags demo_update_host h' out err []
    (conj (Forall_nil_2 _) eq_refl) E) as (_ & _ & _ & Hrun).
  destruct (Hrun eq_refl) as (_ & _ & _ & _ & Himg).
  destruct (Himg eq_refl Hr) as (u & Hu & g1 & g2 & Hg & _ & _ & _ & Hoff & _).
  injection Hu as <-. exists g1. split; [exact Hg|]. exact (Hoff eq_refl).
Defined.
