(* ===== verification/ProjectFile.v ===== *)
(** * The project configuration file on disk ([config/setup.go])

    [Setup.v] has the texts; here they are written and read back.  The set-up and
    the reconfiguration run a dialogue, write the template over the project's
    file and leave it to the next [Load] to decode what they wrote.  The YAML
    library stays a parameter, of which one documented thing is used: on block
    lists of plain or double-quoted scalars it decodes what [readDoc] reads. *)

From S2P Require Import Prelude GoStrings Allowlist Config Setup.

(** ** Writing a file *)

(** [os.WriteFile] truncates the file and writes it; a write that fails may have
    written a part. *)
Inductive writeResult := WriteOk | WriteNoOpen | WriteTorn (n : nat).

Definition osWriteFile (r : writeResult) (f : fileState) (text : gostring) : fileState * bool :=
  match r with
  | WriteOk => (Contents text, true)
  | WriteNoOpen => (f, false)
  | WriteTorn n => (Contents (take n text), false)
  end.

Inductive setupErr := LoadProjectFailed | DialogFailed | MkdirFailed | WriteFailed.

Section files.
Context (Quote : gostring → gostring) (parse : gostring → option ProjectConfig).
(** The preset selector, from what is checked at first and what was detected. *)
Context (dialog : gmap gostring bool → list gostring → option (list gostring)).
(** Whether the directory can be made, and what becomes of the write. *)
Context (mkdirOk : bool) (wr : writeResult).

Definition writeConfigFile (f : fileState) (presets allowHTTP allowDNS : list gostring) :
    fileState * option setupErr :=
  if negb mkdirOk then (f, Some MkdirFailed)
  else match osWriteFile wr f (writeReconfiguredProjectConfig Quote presets allowHTTP allowDNS) with
       | (f', true) => (f', None)
       | (f', false) => (f', Some WriteFailed)
       end.

(** What was selected is returned with the error of the write, which is what the
    callers look at. *)
Definition firstTimeSetupFile (f : fileState) (detected : list gostring) : fileState * result setupErr (list gostring) :=
  let preChecked := fold_left (λ m d, <[d := true]> m) detected {[ gs "default" := true ]} in
  match dialog preChecked detected with
  | None => (f, Err DialogFailed)
  | Some selected =>
      match writeConfigFile f selected [] [] with
      | (f', None) => (f', Ok selected)
      | (f', Some e) => (f', Err e)
      end
  end.

Definition reconfigureFile (f : fileState) (detected : list gostring) : fileState * result setupErr (list gostring) :=
  match loadFile parse zeroProject f with
  | None => (f, Err LoadProjectFailed)
  | Some cfg =>
      let preChecked := fold_left (λ m p, <[p := true]> m) (pPresets cfg) ∅ in
      match dialog preChecked detected with
      | None => (f, Err DialogFailed)
      | Some selected =>
          match writeConfigFile f selected (pAllowHTTP cfg) (pAllowDNS cfg) with
          | (f', None) => (f', Ok selected)
          | (f', Some e) => (f', Err e)
          end
      end
  end.
End files.

(** ** Reading the template back *)

Definition is_letter (c : ascii) : bool :=
  (0x41 <=? b2z c)%Z && (b2z c <=? 0x5a)%Z || (0x61 <=? b2z c)%Z && (b2z c <=? 0x7a)%Z.
Definition scalarChar (c : ascii) : bool := is_digit c || is_letter c || bool_decide (c ∈ gs ".-_:*/").

(** Words that YAML 1.1 or 1.2 resolves to a null or a boolean, in any case. *)
Definition reservedScalars : list gostring :=
  gs <$> ["null"; "true"; "false"; "yes"; "no"; "on"; "off"; "y"; "n"]%string.

(** Plain scalars that are strings whatever follows them: they start with a letter,
    as no number or date does, do not end in a colon and are not reserved. *)
Definition plainScalar (v : gostring) : bool :=
  match v with c :: _ => is_letter c | [] => false end && forallb scalarChar v &&
  negb (HasSuffix v (gs ":")) && bool_decide ((lower_byte <$> v) ∉ reservedScalars).

Definition dquote : ascii := "034"%char.
Definition quoted (v : gostring) : gostring := dquote :: v ++ [dquote].

Definition readScalar (s : gostring) : option gostring :=
  match s with
  | c :: s' =>
      if bool_decide (c = dquote) then
        let v := take (length s' - 1) s' in
        if bool_decide (s = quoted v) && forallb scalarChar v then Some v else None
      else if plainScalar s then Some s else None
  | [] => None
  end.

Definition skipLine (l : gostring) : bool := bool_decide (l = []) || HasPrefix l (gs "#").
Definition itemPrefix : gostring := gs "  - ".
Definition projectKeys : list gostring := [gs "presets"; gs "allow-http"; gs "allow-dns"].
Definition keyOf (l : gostring) : option gostring := snd <$> list_find (λ k, l = k ++ gs ":") projectKeys.

Local Abbreviation sections := (list (gostring * list gostring)).

(** A line in front of a text of which the items before its first key, and its
    sections, are known. *)
Definition addLine (l : gostring) (r : list gostring * sections) : option (list gostring * sections) :=
  let '(items, secs) := r in
  if skipLine l then Some (items, secs)
  else if HasPrefix l itemPrefix then v ← readScalar (drop (length itemPrefix) l); Some (v :: items, secs)
  else k ← keyOf l; if bool_decide (k ∈ secs.*1) then None else Some ([], (k, items) :: secs).

Fixpoint readLines (ls : list gostring) : option (list gostring * sections) :=
  match ls with
  | [] => Some ([], [])
  | l :: ls' => r ← readLines ls'; addLine l r
  end.

Definition readText (t : gostring) : option (list gostring * sections) := readLines (Split t LF).

Definition section (secs : sections) (k : gostring) : list gostring :=
  default [] (snd ∘ snd <$> list_find (λ p, p.1 = k) secs).

Definition readDoc (t : gostring) : option ProjectConfig :=
  match readText t with
  | Some ([], secs) =>
      Some (MkProject (section secs (gs "presets")) (section secs (gs "allow-http")) (section secs (gs "allow-dns")) [])
  | _ => None
  end.

(** What is used of the YAML library and of [strconv.Quote]: keys at the margin,
    each once, with block lists of items that are double-quoted, or plain strings
    in the sense above, decode to those items. *)
Class YamlSubset (Quote : gostring → gostring) (parse : gostring → option ProjectConfig) : Prop := {
  yaml_block_lists t cfg : readDoc t = Some cfg → parse t = Some cfg;
  quote_plain v : forallb scalarChar v = true → Quote v = quoted v;
}.

(** Values that survive: plain scalars, and patterns that start with a star. *)
Definition safeEntry (v : gostring) : bool :=
  plainScalar v || HasPrefix v (gs "*") && forallb scalarChar v.

Lemma readText_line l t : LF ∉ l → readText (l ++ LF :: t) = (r ← readText t; addLine l r).
Proof. intros Hl. unfold readText. by rewrite Split_app_sep. Qed.

(** Comments and empty lines do not matter. *)
Definition commentBlock (c : gostring) : Prop :=
  c = concat ((λ l, l ++ [LF]) <$> removelast (Split c LF)) ∧
  Forall (λ l, skipLine l = true) (removelast (Split c LF)).
#[global] Instance commentBlock_dec c : Decision (commentBlock c).
Proof. unfold commentBlock. apply _. Defined.

Lemma removelast_sublist {A} (P : A → Prop) l : Forall P l → Forall P (removelast l).
Proof.
  intros Hl. induction Hl as [|x l Hx Hl IH]; cbn; [done|]. destruct l; [done|]. by constructor.
Qed.

Lemma readText_comments c t : commentBlock c → readText (c ++ t) = readText t.
Proof.
  intros [Hc Hs]. rewrite Hc. pose proof (removelast_sublist _ _ (Split_no_sep c LF)) as Hno. clear Hc.
  induction Hs as [|l ls Hl Hs IH]; [done|]. apply Forall_cons in Hno as [Hn Hno].
  rewrite fmap_cons. cbn [concat]. rewrite <- !app_assoc. cbn [app]. rewrite readText_line, (IH Hno) by done.
  destruct (readText t) as [[items secs]|]; cbn; [|done]. by rewrite Hl.
Qed.

Lemma scalarChar_no_LF v : forallb scalarChar v = true → LF ∉ v.
Proof. intros Hv Hin. rewrite forallb_forall in Hv. apply list_elem_of_In, Hv in Hin. by vm_compute in Hin. Qed.

Lemma plainScalar_chars v : plainScalar v = true → forallb scalarChar v = true ∧ readScalar v = Some v.
Proof.
  intros Hv. pose proof Hv as Hv'. unfold plainScalar in Hv'.
  apply andb_true_iff in Hv' as [[[Hc Hf]%andb_true_iff _]%andb_true_iff _]. split; [done|].
  destruct v as [|c v]; [done|]. cbn [readScalar]. rewrite Hv. rewrite bool_decide_eq_false_2; [done|].
  intros ->. by vm_compute in Hc.
Qed.

Lemma readScalar_quoted v : forallb scalarChar v = true → readScalar (quoted v) = Some v.
Proof.
  intros Hv. unfold quoted at 1. cbn [readScalar]. rewrite bool_decide_eq_true_2 by done.
  rewrite length_app. cbn [length]. replace (length v + 1 - 1)%nat with (length v) by lia.
  rewrite take_app_length. change (dquote :: v ++ [dquote]) with (quoted v).
  by rewrite bool_decide_eq_true_2, Hv.
Qed.

(** One item. *)
Lemma readText_item s v t :
  LF ∉ s → readScalar s = Some v →
  readText (itemPrefix ++ s ++ LF :: t) = ('(items, secs) ← readText t; Some (v :: items, secs)).
Proof.
  intros Hs Hv. rewrite app_assoc, readText_line.
  2: { rewrite elem_of_app. intros [Hin|Hin]; [|done]. revert Hin. apply (bool_decide_unpack _). vm_compute. exact I. }
  destruct (readText t) as [[items secs]|]; cbn [mbind option_bind]; [|done]. unfold addLine.
  assert (Hp : skipLine (itemPrefix ++ s) = false ∧ HasPrefix (itemPrefix ++ s) itemPrefix = true) by (by destruct s).
  destruct Hp as [-> ->]. rewrite drop_app_length. by rewrite Hv.
Qed.

Section template.
Context {Quote : gostring → gostring} {parse : gostring → option ProjectConfig} `{!YamlSubset Quote parse}.

Lemma formatted_item v :
  safeEntry v = true → LF ∉ formatYAMLListValue Quote v ∧ readScalar (formatYAMLListValue Quote v) = Some v.
Proof.
  unfold safeEntry, formatYAMLListValue. intros [Hp|[Hs Hc]%andb_true_iff]%orb_true_iff.
  - pose proof (plainScalar_chars v Hp) as [Hc Hr].
    destruct (HasPrefix v (gs "*")) eqn:Hs; [|split; [by apply scalarChar_no_LF|done]].
    exfalso. destruct v as [|c v]; [done|]. cbn in Hs. apply andb_true_iff in Hs as [<-%bool_decide_eq_true _]. by vm_compute in Hp.
  - rewrite Hs, quote_plain by done. split; [|by apply readScalar_quoted].
    unfold quoted. intros [Hin|[Hin|Hin]%elem_of_app]%elem_of_cons; [done|by apply scalarChar_no_LF in Hc|set_solver].
Qed.

(** A list of items. *)
Lemma readText_items (fmt : gostring → gostring) vs t items secs :
  Forall (λ v, LF ∉ fmt v ∧ readScalar (fmt v) = Some v) vs → readText t = Some (items, secs) →
  readText (concat ((λ v, itemPrefix ++ fmt v ++ [LF]) <$> vs) ++ t) = Some (vs ++ items, secs).
Proof.
  intros Hvs Ht. induction Hvs as [|v vs [Hl Hr] _ IH]; [done|]. rewrite fmap_cons. cbn [concat].
  rewrite <- !app_assoc. cbn [app]. by rewrite (readText_item _ v), IH.
Qed.

(** A section, present or commented out. *)
Definition present (k : gostring) (vs : list gostring) : sections := if bool_decide (vs = []) then [] else [(k, vs)].

Lemma readText_section k (fmt : gostring → gostring) vs placeholder t secs :
  k ∈ projectKeys → k ∉ secs.*1 → commentBlock placeholder →
  Forall (λ v, LF ∉ fmt v ∧ readScalar (fmt v) = Some v) vs → readText t = Some ([], secs) →
  readText ((if (0 <? length vs)%nat then k ++ gs ":" ++ [LF] ++ concat ((λ v, itemPrefix ++ fmt v ++ [LF]) <$> vs)
             else placeholder) ++ t) = Some ([], present k vs ++ secs).
Proof.
  intros Hk Hnk Hph Hvs Ht. unfold present. destruct vs as [|v vs].
  { cbn [length Nat.ltb Nat.leb]. rewrite bool_decide_eq_true_2 by done. by rewrite readText_comments. }
  rewrite bool_decide_eq_false_2 by done. cbn [length Nat.ltb Nat.leb].
  match goal with |- readText ((?a ++ ?b ++ ?c ++ ?x) ++ t) = _ =>
      replace ((a ++ b ++ c ++ x) ++ t) with ((a ++ b) ++ LF :: (x ++ t)) by (by rewrite <- !app_assoc) end.
  assert (Hkey : LF ∉ k ++ gs ":" ∧ skipLine (k ++ gs ":") = false ∧
                 HasPrefix (k ++ gs ":") itemPrefix = false ∧ keyOf (k ++ gs ":") = Some k).
  { unfold projectKeys in Hk. rewrite !elem_of_cons, elem_of_nil in Hk.
    destruct Hk as [->|[->|[->|[]]]]; (split; [apply (bool_decide_unpack _); vm_compute; exact I|by vm_compute]). }
  destruct Hkey as (Hl & H1 & H2 & H3). rewrite readText_line by done.
  rewrite (readText_items fmt (v :: vs) t [] secs Hvs Ht). cbn [mbind option_bind]. unfold addLine.
  rewrite H1, H2, H3. cbn [mbind option_bind]. by rewrite bool_decide_eq_false_2, app_nil_r.
Qed.

Lemma yaml_section_read comment key entries examples t secs :
  key ∈ projectKeys → key ∉ secs.*1 → commentBlock ([LF] ++ comment ++ [LF]) →
  commentBlock (gs "# " ++ key ++ gs ":" ++ [LF] ++ concat ((λ d, gs "#   - " ++ d ++ [LF]) <$> examples)) →
  Forall (λ v, safeEntry v = true) entries → readText t = Some ([], secs) →
  readText (writeYAMLListSection Quote comment key entries examples ++ t) = Some ([], present key entries ++ secs).
Proof.
  intros Hk Hnk Hc Hph He Ht. unfold writeYAMLListSection.
  match goal with |- readText (([LF] ++ _ ++ [LF] ++ ?x) ++ t) = _ =>
    replace (([LF] ++ comment ++ [LF] ++ x) ++ t) with (([LF] ++ comment ++ [LF]) ++ x ++ t)
      by (by rewrite <- !app_assoc) end.
  rewrite readText_comments by done.
  apply (readText_section key (formatYAMLListValue Quote)); try done.
  eapply Forall_impl; [exact He|]. apply formatted_item.
Qed.

Lemma presets_read presets t secs :
  gs "presets" ∉ secs.*1 → Forall (λ v, plainScalar v = true) presets → readText t = Some ([], secs) →
  readText (writePresetsSection presets ++ t) = Some ([], present (gs "presets") presets ++ secs).
Proof.
  intros Hn Hp Ht. unfold writePresetsSection. rewrite <- !app_assoc.
  do 5 (rewrite readText_comments by (apply (bool_decide_unpack _); vm_compute; exact I)).
  change (line "presets:" ++ ?x) with (gs "presets" ++ gs ":" ++ [LF] ++ x).
  apply (readText_section (gs "presets") (λ v, v)); try done; [apply (bool_decide_unpack _); vm_compute; exact I..|].
  eapply Forall_impl; [exact Hp|]. intros v [Hc Hr]%plainScalar_chars. split; [by apply scalarChar_no_LF|done].
Qed.

Lemma template_read presets http dns :
  Forall (λ v, plainScalar v = true) presets → Forall (λ v, safeEntry v = true) http →
  Forall (λ v, safeEntry v = true) dns →
  readText (writeReconfiguredProjectConfig Quote presets http dns) =
    Some ([], present (gs "presets") presets ++ present (gs "allow-http") http ++ present (gs "allow-dns") dns).
Proof.
  intros Hp Hh Hd. unfold writeReconfiguredProjectConfig.
  assert (Hkeys : ∀ k vs x, x ∈ (present k vs).*1 → x = k).
  { intros k vs x. unfold present. case_bool_decide; cbn; set_solver. }
  rewrite readText_comments by (apply (bool_decide_unpack _); vm_compute; exact I).
  apply presets_read; [|done|].
  { rewrite fmap_app. intros [H1%Hkeys|H1%Hkeys]%elem_of_app; vm_compute in H1; discriminate. }
  apply yaml_section_read; try done; try (apply (bool_decide_unpack _); vm_compute; exact I).
  { intros H1%Hkeys. vm_compute in H1. discriminate. }
  rewrite <- (app_nil_r (writeYAMLListSection _ _ _ _ _)), <- (app_nil_r (present _ dns)).
  apply yaml_section_read; try done; try (apply (bool_decide_unpack _); vm_compute; exact I).
Qed.

(** The template decodes to what it was written from. *)
Lemma template_loads presets http dns :
  Forall (λ v, plainScalar v = true) presets → Forall (λ v, safeEntry v = true) http →
  Forall (λ v, safeEntry v = true) dns →
  parse (writeReconfiguredProjectConfig Quote presets http dns) = Some (MkProject presets http dns []).
Proof.
  intros Hp Hh Hd. apply (yaml_block_lists (Quote := Quote)). unfold readDoc. rewrite template_read by done.
  do 2 f_equal; unfold section, present;
    by destruct presets, http, dns.
Qed.

(** ** Set-up and reconfiguration *)

Lemma fold_checked (ps : list gostring) (m : gmap gostring bool) p :
  fold_left (λ m d, <[d := true]> m) ps m !! p = Some true ↔ p ∈ ps ∨ m !! p = Some true.
Proof.
  revert m. induction ps as [|q ps IH]; intros m; cbn; [set_solver|]. rewrite IH, elem_of_cons.
  destruct (decide (p = q)) as [->|Hne]; [rewrite lookup_insert_eq|rewrite lookup_insert_ne by done]; naive_solver.
Qed.

(** What a write leaves behind. *)
Lemma writeConfigFile_spec mkdirOk wr f presets http dns :
  let text := writeReconfiguredProjectConfig Quote presets http dns in
  match writeConfigFile Quote mkdirOk wr f presets http dns with
  | (f', None) => f' = Contents text
  | (f', Some WriteFailed) => f' = f ∨ ∃ n, f' = Contents (take n text)
  | (f', Some _) => f' = f
  end.
Proof. unfold writeConfigFile. destruct mkdirOk; [|done]. destruct wr; cbn; eauto. Qed.

(** C26: the project file survives its own editor.  A first set-up offers the
    default and the detected presets checked, a reconfiguration those of the file;
    when either succeeds the file loads to exactly the selected presets and, after
    a reconfiguration, the [allow-http] and [allow-dns] entries it had before, but
    no host ports; when the dialogue is left, the file cannot be loaded or the
    directory cannot be made the file is as before; and only a failed write can
    leave a file behind that is neither, a part of the new text.  The file loads
    so where presets are plain words, which start with a letter and are not
    reserved, and entries such words or patterns with a leading star. *)
Theorem project_file_lifecycle dialog mkdirOk wr f detected :
  match firstTimeSetupFile Quote dialog mkdirOk wr f detected with
  | (f', Ok selected) =>
      (∃ pre, dialog pre detected = Some selected ∧
         ∀ p, pre !! p = Some true ↔ p ∈ detected ∨ p = gs "default") ∧
      (Forall (λ v, plainScalar v = true) selected →
       loadFile parse zeroProject f' = Some (MkProject selected [] [] []))
  | (f', Err WriteFailed) =>
      f' = f ∨ ∃ n selected, f' = Contents (take n (writeProjectConfig Quote selected))
  | (f', Err _) => f' = f
  end ∧
  match reconfigureFile Quote parse dialog mkdirOk wr f detected with
  | (f', Ok selected) =>
      ∃ cfg pre, loadFile parse zeroProject f = Some cfg ∧ dialog pre detected = Some selected ∧
        (∀ p, pre !! p = Some true ↔ p ∈ pPresets cfg) ∧
        (Forall (λ v, plainScalar v = true) selected →
         Forall (λ v, safeEntry v = true) (pAllowHTTP cfg) → Forall (λ v, safeEntry v = true) (pAllowDNS cfg) →
         loadFile parse zeroProject f' = Some (MkProject selected (pAllowHTTP cfg) (pAllowDNS cfg) []))
  | (f', Err WriteFailed) =>
      f' = f ∨ ∃ n cfg selected, f' = Contents (take n (RunReconfigure Quote cfg selected))
  | (f', Err _) => f' = f
  end.
Proof.
  split.
  - unfold firstTimeSetupFile. destruct (dialog _ _) as [selected|] eqn:Hd; [|done].
    pose proof (writeConfigFile_spec mkdirOk wr f selected [] []) as Hw.
    destruct (writeConfigFile _ _ _ _ _ _ _) as [f' [[]|]]; try done.
    + destruct Hw as [->|[n ->]]; [by left|right]. by exists n, selected.
    + cbv zeta in Hw. subst f'. split; [|by intros Hs; apply template_loads]. eexists. split; [exact Hd|]. intros p.
      rewrite fold_checked, lookup_singleton_Some. naive_solver.
  - unfold reconfigureFile. destruct (loadFile parse zeroProject f) as [cfg|] eqn:Hl; [|done].
    destruct (dialog _ _) as [selected|] eqn:Hd; [|done].
    pose proof (writeConfigFile_spec mkdirOk wr f selected (pAllowHTTP cfg) (pAllowDNS cfg)) as Hw.
    destruct (writeConfigFile _ _ _ _ _ _ _) as [f' [[]|]]; try done.
    + destruct Hw as [->|[n ->]]; [by left|right]. by exists n, cfg, selected.
    + cbv zeta in Hw. subst f'. eexists cfg, _. split; [done|]. split; [exact Hd|]. split.
      * intros p. rewrite fold_checked, lookup_empty. naive_solver.
      * intros. by apply template_loads.
Qed.
End template.

(** An [allow-http] entry of ordinary characters survives. *)
Lemma valid_entry_safe e c e' :
  ValidateHTTPEntry e = None → e = c :: e' → forallb scalarChar e = true →
  is_letter c = true ∨ c = "*"%char → safeEntry e = true.
Proof.
  intros (d & p & Hw)%ValidateHTTPEntry_None He Hs Hc. unfold safeEntry. rewrite Hs, He.
  destruct Hc as [Hc| ->]; [|by rewrite orb_true_iff; right]. rewrite <- He. apply orb_true_iff. left.
  pose proof (wf_http_port _ _ _ Hw) as [Hcol _]. destruct Hw as (Heq & _ & _ & _ & Hne & _).
  unfold plainScalar. rewrite Hs. rewrite He at 1. rewrite Hc. cbn [andb].
  apply andb_true_iff. split.
  - apply negb_true_iff, not_true_iff_false. intros Hsuf. apply Hcol.
    destruct (exists_last Hne) as (q & x & ->). unfold HasSuffix in Hsuf.
    rewrite Heq, app_comm_cons, app_assoc, reverse_snoc in Hsuf. cbn in Hsuf.
    apply andb_true_iff in Hsuf as [Hx%bool_decide_eq_true _]. set_solver.
  - apply bool_decide_eq_true. rewrite Heq. intros Hres.
    assert (Hin : ":"%char ∈ lower_byte <$> (d ++ ":"%char :: p))
      by (apply list_elem_of_fmap; exists ":"%char; split; [done|set_solver]).
    revert Hin. revert Hres. generalize (lower_byte <$> (d ++ ":"%char :: p)). intros v Hv.
    assert (Hall : Forall (λ v, ":"%char ∉ v) reservedScalars) by (apply (bool_decide_unpack _); vm_compute; exact I).
    rewrite Forall_forall in Hall. by apply Hall.
Qed.

(** Only a leading star is quoted: an entry that the validation accepts and YAML
    reads as a comment is written as it is. *)
Lemma indicator_not_quoted Quote :
  ValidateHTTPEntry (gs "#a.example:443") = None ∧
  formatYAMLListValue Quote (gs "#a.example:443") = gs "#a.example:443" ∧
  readScalar (formatYAMLListValue Quote (gs "#a.example:443")) = None.
Proof. split_and!; vm_compute; reflexivity. Qed.

(** ** A concrete file *)

#[local] Instance demo_yaml : YamlSubset quoted readDoc.
Proof. by split. Qed.

Definition demo_old : fileState :=
  Contents (writeReconfiguredProjectConfig quoted [gs "default"] [gs "*.example.com:443"; gs "go.dev:*"] [gs "corp.test"]).

Lemma project_file_lifecycle_witness :
  let r := reconfigureFile quoted readDoc (λ _ _, Some [gs "default"; gs "pkg-go"]) true WriteOk demo_old [] in
  r.2 = Ok [gs "default"; gs "pkg-go"] ∧
  loadFile readDoc zeroProject r.1 =
    Some (MkProject [gs "default"; gs "pkg-go"] [gs "*.example.com:443"; gs "go.dev:*"] [gs "corp.test"] []).
Proof.
  assert (Hgen : ∀ dialog f f' cfg selected,
    reconfigureFile quoted readDoc dialog true WriteOk f [] = (f', Ok selected) →
    loadFile readDoc zeroProject f = Some cfg → Forall (λ v, plainScalar v = true) selected →
    Forall (λ v, safeEntry v = true) (pAllowHTTP cfg) → Forall (λ v, safeEntry v = true) (pAllowDNS cfg) →
    loadFile readDoc zeroProject f' = Some (MkProject selected (pAllowHTTP cfg) (pAllowDNS cfg) [])).
  { intros dialog f f' cfg selected Hr Hc H1 H2 H3.
    pose proof (proj2 (project_file_lifecycle dialog true WriteOk f [])) as Hl. rewrite Hr in Hl.
    destruct Hl as (cfg' & pre & Hc' & _ & _ & Hload). rewrite Hc in Hc'. injection Hc' as <-. by apply Hload. }
  intros r. split; [vm_compute; reflexivity|].
  refine (Hgen _ demo_old _ (MkProject [gs "default"] [gs "*.example.com:443"; gs "go.dev:*"] [gs "corp.test"] [])
            [gs "default"; gs "pkg-go"] _ _ _ _ _).
  - apply (surjective_pairing r).
  - vm_compute. reflexivity.
  - apply (bool_decide_unpack _). vm_compute. exact I.
  - apply (bool_decide_unpack _). vm_compute. exact I.
  - apply (bool_decide_unpack _). vm_compute. exact I.
Defined.
