(* ===== verification/Diagnostics.v ===== *)
(** * Diagnostics of containers ([container/client.go: FindProxyIP, RemoveVolume,
      ContainerLogs, ContainerStartedAt, StreamLogs, displayDockerHost],
      [cmd/up.go: logContainerDiag])

    What the program prints about containers, read from the runtime through a few
    more operations than [Container.v] uses.  The runtime's log stream has a
    format of its own for containers without a terminal, which is written out
    here because the program passes it on as text. *)

From S2P Require Import Prelude GoStrings GoNet GoTime Container.
Open Scope Z_scope.

(** ** The runtime *)

Record LogsOptions := MkLogs { ShowStdout : bool; ShowStderr : bool; Tail : gostring; Follow : bool }.

(** A log reader yields pieces and then its end or an error; an inspected
    container has its start time as text, unless it has no state, and the
    addresses of its networks, in the order of the map's iteration. *)
Class DockerDiag (D : Type) `{Docker D} := {
  dockerLogs : D → gostring → LogsOptions → option (list gostring * bool);
  inspectStarted : D → gostring → option (option gostring);
  inspectNetworks : D → gostring → option (list gostring);
  VolumeRemove : D → gostring → bool → D * bool;
}.

Section diagnostics.
Context {D : Type} `{DockerDiag D}.

Inductive proxyIPErr := ListFailed | NoProxy | InspectFailed | NoAddress.

(** The first proxy of any session, and the first address found. *)
Definition FindProxyIP (d : D) : result proxyIPErr gostring :=
  match ContainerList d false [(LabelVibepit, Some (gs "true")); (LabelRole, Some RoleProxy)] with
  | None => Err ListFailed
  | Some [] => Err NoProxy
  | Some (c :: _) =>
      match inspectNetworks d (sumID c) with
      | None => Err InspectFailed
      | Some addrs => match snd <$> list_find (λ a, a ≠ []) addrs with
                      | Some a => Ok a
                      | None => Err NoAddress
                      end
      end
  end.

Definition RemoveVolume (d : D) (name : gostring) : D * bool := VolumeRemove d name false.

(** [io.ReadAll]. *)
Definition ContainerLogs (d : D) (id : gostring) (tail : Z) : option gostring :=
  match dockerLogs d id (MkLogs true true (Itoa tail) false) with
  | Some (chunks, true) => Some (concat chunks)
  | _ => None
  end.

(** [io.Copy] to a writer that takes [room] pieces before it fails. *)
Definition StreamLogs (d : D) (id : gostring) (room : option nat) : list gostring * bool :=
  match dockerLogs d id (MkLogs true true [] true) with
  | None => ([], false)
  | Some (chunks, ended) =>
      match room with
      | Some n => if (n <? length chunks)%nat then (take n chunks, false) else (chunks, ended)
      | None => (chunks, ended)
      end
  end.

(** The zero time is [None]; [Parse] is [time.Parse] of the layout RFC3339Nano,
    [None] also for the zero time itself. *)
Definition ContainerStartedAt (Parse : gostring → option Z) (d : D) (id : gostring) : option Z :=
  match inspectStarted d id with
  | None | Some None => None
  | Some (Some text) => Parse text
  end.

(** The text of the message. *)
Definition logContainerDiag (d : D) (name id : gostring) : gostring :=
  let status := ContainerStatus d id in
  match ContainerLogs d id 20 with
  | Some ((_ :: _) as logs) => name ++ gs " " ++ status ++ gs " — logs:" ++ ["010"%char] ++ logs
  | _ => name ++ gs " " ++ status
  end.
End diagnostics.

(** [EvalSymlinks] of the socket's path; the message is printed with [debug]
    only. *)
Definition displayDockerHost (debug : bool) (host : gostring) (EvalSymlinks : gostring → option gostring) :
    option gostring :=
  let host' :=
    if HasPrefix host (gs "unix://") then
      let path := drop 7 host in
      match EvalSymlinks path with
      | Some resolved => if bool_decide (resolved = path) then host
                         else gs "unix://" ++ path ++ gs " -> " ++ resolved
      | None => host
      end
    else host in
  if debug then Some (gs "Using container daemon at " ++ host') else None.

(** ** The log stream of a container without a terminal

    Frames: the stream's number, three zero bytes and the length in four bytes,
    most significant first, then the bytes. *)

Definition byte_of (z : Z) : ascii := ascii_of_N (Z.to_N z).

Definition frameHeader (stream : Z) (n : nat) : gostring :=
  let n := Z.of_nat n in
  byte_of <$> [stream; 0; 0; 0; n / 2 ^ 24 mod 256; n / 2 ^ 16 mod 256; n / 2 ^ 8 mod 256; n mod 256].

Definition multiplex (frames : list (Z * gostring)) : gostring :=
  concat ((λ f, frameHeader f.1 (length f.2) ++ f.2) <$> frames).

Lemma length_multiplex frames :
  length (multiplex frames) = (8 * length frames + length (concat frames.*2))%nat.
Proof.
  induction frames as [|[s p] frames IH]; [done|]. unfold multiplex in *. rewrite !fmap_cons. cbn [concat].
  rewrite !length_app, IH. cbn -[Nat.mul]. lia.
Qed.

Section logs.
Context {D : Type} `{DockerDiag D}.

(** Logs of a container without a terminal are returned with eight bytes for each
    frame that are not part of them. *)
Lemma logs_keep_headers d id tail frames chunks :
  dockerLogs d id (MkLogs true true (Itoa tail) false) = Some (chunks, true) →
  concat chunks = multiplex frames → frames ≠ [] →
  ∃ text, ContainerLogs d id tail = Some text ∧ text ≠ concat frames.*2 ∧
    length text = (length (concat frames.*2) + 8 * length frames)%nat.
Proof.
  intros Hl Hc Hne. unfold ContainerLogs. rewrite Hl, Hc. eexists. split; [reflexivity|].
  pose proof (length_multiplex frames) as Hlen. destruct frames as [|f frames]; [done|].
  split; [|rewrite Hlen; lia]. intros Heq. rewrite Heq in Hlen. cbn [length] in Hlen. lia.
Qed.

(** What is copied is a prefix of the stream, and all of it when there is no
    error. *)
Lemma StreamLogs_prefix d id room chunks ended :
  dockerLogs d id (MkLogs true true [] true) = Some (chunks, ended) →
  (StreamLogs d id room).1 `prefix_of` chunks ∧ ((StreamLogs d id room).2 = true → (StreamLogs d id room).1 = chunks).
Proof.
  intros Hl. unfold StreamLogs. rewrite Hl. destruct room as [n|]; [|done]. case_match; [|done].
  cbn [fst snd]. split; [|done]. exists (drop n chunks). by rewrite take_drop.
Qed.

(** The address is one of the first proxy's. *)
Lemma FindProxyIP_spec d a :
  FindProxyIP d = Ok a → a ≠ [] ∧ ∃ c cs addrs,
    ContainerList d false [(LabelVibepit, Some (gs "true")); (LabelRole, Some RoleProxy)] = Some (c :: cs) ∧
    inspectNetworks d (sumID c) = Some addrs ∧ a ∈ addrs.
Proof.
  unfold FindProxyIP. destruct (ContainerList _ _ _) as [[|c cs]|] eqn:Hc; [done| |done].
  destruct (inspectNetworks _ _) as [addrs|] eqn:Hn; [|done].
  destruct (list_find _ addrs) as [[i x]|] eqn:Hf; [|done]. intros [= <-].
  apply list_find_Some in Hf as (Hi & Hx & _). split; [done|]. exists c, cs, addrs.
  split; [done|]. split; [done|]. by eapply list_elem_of_lookup_2.
Qed.
End logs.
