(* ===== verification/Commands.v ===== *)
(** * The command line ([cmd/root.go] and the command constructors of [cmd/])

    The commands and flags are data that a library interprets: it selects a
    command by name and answers reads of flags.  The library is an interface,
    [Cli], with what its documentation promises of a plain command line; the
    containers are started with such command lines of the same program, which
    select the commands meant for them. *)

From S2P Require Import Prelude GoStrings Config Container Sandbox ClientRun.

(** ** Flags and commands *)

Inductive flagKind := BoolFlag | StringFlag | StringSliceFlag.
#[global] Instance flagKind_eq_dec : EqDecision flagKind.
Proof. solve_decision. Defined.

Record Flag := MkFlag {
  flagName : gostring;
  flagAliases : list gostring;
  kind : flagKind;
  Required : bool;
}.
#[global] Instance Flag_eq_dec : EqDecision Flag.
Proof. solve_decision. Defined.

(** The [Action] of a command, by the function it calls. *)
Inductive action :=
  | DoRun | DoUp | DoConnect | DoExec | DoDown | DoStatus | DoAllowHTTP | DoAllowDNS
  | DoProxy | DoVibed | DoMonitor | DoUpdate.
#[global] Instance action_eq_dec : EqDecision action.
Proof. solve_decision. Defined.

Record Command := MkCommand {
  cmdName : gostring;
  cmdAliases : list gostring;
  Category : gostring;
  Hidden : bool;
  SkipFlagParsing : bool;
  Flags : list Flag;
  Action : action;
}.
#[global] Instance Command_eq_dec : EqDecision Command.
Proof. solve_decision. Defined.

Definition bool_flag (name : gostring) (aliases : list gostring) : Flag := MkFlag name aliases BoolFlag false.
Definition plain (name : gostring) (flags : list Flag) (act : action) : Command :=
  MkCommand name [] [] false false flags act.

Definition debugFlag : gostring := gs "debug".
Definition versionFlag : gostring := gs "version".
Definition localFlag : gostring := gs "local".
Definition allowFlag : gostring := gs "allow".
Definition presetFlag : gostring := gs "preset".
Definition reconfigureFlag : gostring := gs "reconfigure".
Definition connectBarFlag : gostring := gs "bar".
Definition statusVerboseFlag : gostring := gs "verbose".

Definition sessionFlag : Flag := MkFlag (gs "session") [] StringFlag false.

Definition sandboxFlags : list Flag :=
  [bool_flag localFlag [gs "L"];
   MkFlag allowFlag [gs "a"] StringSliceFlag false;
   MkFlag presetFlag [gs "p"] StringSliceFlag false;
   bool_flag reconfigureFlag [gs "r"]].

Definition RunCommand : Command := plain (gs "run") sandboxFlags DoRun.
Definition UpCommand : Command := plain (gs "up") sandboxFlags DoUp.
Definition ConnectCommand : Command :=
  MkCommand (gs "connect") [gs "c"] [] false false [bool_flag connectBarFlag [gs "b"]] DoConnect.
Definition ExecCommand : Command := MkCommand (gs "exec") [] [] false true [] DoExec.
Definition DownCommand : Command := plain (gs "down") [] DoDown.
Definition StatusCommand : Command := plain (gs "status") [bool_flag statusVerboseFlag [gs "v"]] DoStatus.
Definition AllowHTTPCommand : Command :=
  plain (gs "allow-http") [bool_flag (gs "no-save") []; sessionFlag] DoAllowHTTP.
Definition AllowDNSCommand : Command :=
  plain (gs "allow-dns") [bool_flag (gs "no-save") []; sessionFlag] DoAllowDNS.
Definition ProxyCommand : Command :=
  MkCommand (gs "proxy") [] (gs "Internal") true false [MkFlag (gs "config") [] StringFlag true] DoProxy.
Definition VibedCommand : Command := MkCommand (gs "vibed") [] [] true false [] DoVibed.
Definition MonitorCommand : Command :=
  MkCommand (gs "monitor") [gs "m"; gs "tv"] (gs "Utilities") false false [sessionFlag] DoMonitor.
Definition UpdateCommand : Command :=
  MkCommand (gs "update") [] (gs "Utilities") false false
    [bool_flag (gs "yes") [gs "y"]; bool_flag (gs "bin") []; bool_flag (gs "images") [];
     MkFlag (gs "use") [] StringFlag false; bool_flag (gs "list") []; bool_flag (gs "check") [];
     bool_flag (gs "pre") []] DoUpdate.

Record RootApp := MkRoot {
  appName : gostring;
  DefaultCommand : gostring;
  rootFlags : list Flag;
  Commands : list Command;
}.

Definition RootCommand : RootApp := {|
  appName := gs "vibepit";
  DefaultCommand := gs "run";
  rootFlags := [bool_flag debugFlag []; bool_flag versionFlag []];
  Commands := [RunCommand; UpCommand; ConnectCommand; ExecCommand; DownCommand; StatusCommand;
               AllowHTTPCommand; AllowDNSCommand; ProxyCommand; VibedCommand; MonitorCommand; UpdateCommand];
|}.

(** [Before]: with [--version] the process ends with status 0 before any action;
    [None] means that it goes on. *)
Definition Before (version : bool) (Version CommitID : gostring) : option (gostring * Z) :=
  if version then Some (Version ++ gs " (" ++ CommitID ++ gs ")" ++ ["010"%char], 0%Z) else None.

(** ** Project root ([resolveProjectRoot]) *)

(** [first] is the first argument, empty without one; [Getwd] may fail; [Abs]
    makes a path absolute. *)
Definition resolveProjectRoot (first : gostring) (Getwd : option gostring) (Abs : gostring → option gostring)
    (git : gostring → option gostring) : option gostring :=
  dir ← (if bool_decide (first = []) then Getwd else Some first);
  abs ← Abs dir;
  Some (FindProjectRoot abs (git abs)).

(** A project that is named is found wherever the command runs, even from a
    directory that is gone. *)
Lemma resolveProjectRoot_named first wd wd' Abs git :
  first ≠ [] → resolveProjectRoot first wd Abs git = resolveProjectRoot first wd' Abs git.
Proof. intros Hf. unfold resolveProjectRoot. by rewrite bool_decide_eq_false_2. Qed.

(** ** Paths of the program *)

(** The binary to mount into the containers: the running one with symbolic links
    resolved, where the error of resolving them is dropped, and on macOS the
    embedded one. *)
Definition selfBinary (Executable : option gostring) (EvalSymlinks : gostring → option gostring)
    (darwin : bool) (CachedProxyBinary : option gostring) : option gostring :=
  exe ← Executable;
  if darwin then CachedProxyBinary else Some (default [] (EvalSymlinks exe)).

(** [ResolveBinaryPath] of the update does report it: the original path and the
    resolved one. *)
Definition ResolveBinaryPath (Executable : option gostring) (Abs EvalSymlinks : gostring → option gostring) :
    option (gostring * gostring) :=
  exe ← Executable;
  abs ← Abs exe;
  real ← EvalSymlinks abs;
  Some (abs, real).

(** A binary whose links cannot be resolved is mounted from the empty path. *)
Lemma unresolved_binary exe EvalSymlinks :
  EvalSymlinks exe = None →
  selfBinary (Some exe) EvalSymlinks false None = Some [] ∧ ResolveBinaryPath (Some exe) Some EvalSymlinks = None.
Proof. intros He. unfold selfBinary, ResolveBinaryPath. cbn. by rewrite He. Qed.

(** The directory of a session, made if it is not there. *)
Definition ensureSessionDir (base legacy : gostring) (exists_ MkdirAll : gostring → bool) (sessionID : gostring) :
    option gostring :=
  let dir := sessionDir base legacy exists_ sessionID in
  if MkdirAll dir then Some dir else None.

(** A session that was started by an older version is found where it is, and is
    not moved. *)
Lemma ensureSessionDir_legacy base legacy exists_ mk sid :
  exists_ (pathJoin base sid) = false → exists_ (pathJoin legacy sid) = true → mk (pathJoin legacy sid) = true →
  ensureSessionDir base legacy exists_ mk sid = Some (pathJoin legacy sid).
Proof. intros H1 H2 H3. unfold ensureSessionDir, sessionDir. rewrite H1, H2. cbn. by rewrite H3. Qed.

(** ** The library *)

Definition names (c : Command) : list gostring := cmdName c :: cmdAliases c.

(** The commands a word may mean. *)
Definition called (app : RootApp) (word : gostring) : list Command :=
  filter (λ c, word ∈ names c) (Commands app).

(** The command line that names a command and gives it flags, [--name value]. *)
Definition commandLine (self name : gostring) (given : list (gostring * gostring)) : list gostring :=
  self :: name :: (given ≫= λ '(n, v), [gs "--" ++ n; v]).

(** Flags that may be given to [c] in this way: each once, declared to take a
    text, with a value that does not look like a flag, and no required one is
    left out. *)
Record givenOk (c : Command) (given : list (gostring * gostring)) : Prop := {
  gv_once : NoDup given.*1;
  gv_declared : Forall (λ nv, nv.1 ∈ flagName <$> filter (λ f, kind f = StringFlag) (Flags c)) given;
  gv_values : Forall (λ nv, nv.2 ≠ [] ∧ head nv.2 ≠ Some "-"%char) given;
  gv_required : Forall (λ f, Required f = true → flagName f ∈ given.*1) (Flags c);
}.

(** What the command-line library does with the arguments of the process: the
    command it runs, and the value its action reads for a flag. *)
Class Cli := {
  selects : RootApp → list gostring → option Command;
  flagValue : gostring → list gostring → option gostring;
  cli_selects : ∀ app c self given, called app (cmdName c) = [c] → SkipFlagParsing c = false →
    givenOk c given → selects app (commandLine self (cmdName c) given) = Some c;
  cli_flag : ∀ app c self given n v, called app (cmdName c) = [c] → SkipFlagParsing c = false →
    givenOk c given → (n, v) ∈ given → flagValue n (commandLine self (cmdName c) given) = Some v;
}.

(** ** The command lines of the containers *)

Ltac decided := apply (bool_decide_unpack _); vm_compute; exact I.

Section containers.
Context `{Cli}.

Lemma proxy_flags : givenOk ProxyCommand [(gs "config", ProxyConfigPath)].
Proof. split; decided. Qed.

(** What starts the proxy container. *)
Lemma proxy_container_selects cfg :
  selects RootCommand (cCmd (proxySpec cfg)) = Some ProxyCommand ∧
  flagValue (gs "config") (cCmd (proxySpec cfg)) = Some ProxyConfigPath.
Proof.
  assert (Hc : ∃ self, cCmd (proxySpec cfg) = commandLine self (cmdName ProxyCommand) [(gs "config", ProxyConfigPath)]).
  { eexists. vm_compute. reflexivity. }
  destruct Hc as [self ->]. assert (Hn : called RootCommand (cmdName ProxyCommand) = [ProxyCommand]) by decided.
  split; [by apply cli_selects, proxy_flags|]. eapply cli_flag; [exact Hn|done|apply proxy_flags|by left].
Qed.

(** What starts the sandbox in daemon mode; [Abs] of an absolute path is itself. *)
Lemma sandbox_container_selects env root u infra key lt :
  ∃ self, cEntrypoint (sandboxSpec (sandboxConfig env root u infra (Some key)) lt) = [self] ∧
    selects RootCommand (mainArgs self [self]) = Some VibedCommand.
Proof.
  eexists. split; [reflexivity|]. match goal with |- selects _ (mainArgs ?s _) = _ => set (self := s) end.
  assert (Hc : mainArgs self [self] = commandLine self (cmdName VibedCommand) []) by (vm_compute; reflexivity).
  rewrite Hc. apply cli_selects; [decided|done|split; decided].
Qed.
End containers.

(** ** A concrete library *)

Fixpoint toy_flagValue (name : gostring) (argv : list gostring) : option gostring :=
  match argv with
  | a :: ((v :: _) as rest) => if bool_decide (a = gs "--" ++ name) then Some v else toy_flagValue name rest
  | _ => None
  end.

Definition toy_selects (app : RootApp) (argv : list gostring) : option Command :=
  match argv with
  | _ :: name :: _ => match called app name with [c] => Some c | _ => None end
  | _ => None
  end.

Lemma toy_flagValue_skip name a argv : a ≠ gs "--" ++ name → toy_flagValue name (a :: argv) = toy_flagValue name argv.
Proof. intros Ha. destruct argv; cbn; [done|]. by rewrite bool_decide_eq_false_2. Qed.

Lemma toy_flagValue_given name v given :
  Forall (λ nv : gostring * gostring, nv.2 ≠ [] ∧ head nv.2 ≠ Some "-"%char) given → NoDup given.*1 →
  (name, v) ∈ given → toy_flagValue name (given ≫= λ '(n, v), [gs "--" ++ n; v]) = Some v.
Proof.
  induction given as [|[n x] given IH]; [set_solver|]. intros [[_ Hx] Hv]%Forall_cons [Hn Hnd]%NoDup_cons Hin.
  change (toy_flagValue name ((gs "--" ++ n) :: x :: (given ≫= λ '(n, v), [gs "--" ++ n; v])) = Some v).
  apply elem_of_cons in Hin as [[= <- <-]|Hin]; [cbn; by rewrite bool_decide_eq_true_2|].
  rewrite !toy_flagValue_skip; [by apply IH| |].
  - intros ->. by cbn in Hx.
  - intros [= ->]. apply Hn, list_elem_of_fmap. by exists (name, v).
Qed.

#[local] Instance toy_cli : Cli.
Proof.
  refine {| selects := toy_selects; flagValue n argv := toy_flagValue n (drop 2 argv) |}.
  - intros app c self given Hc _ _. cbn. by rewrite Hc.
  - intros app c self given n v Hc Hs [Ho _ Hv _] Hin. by apply toy_flagValue_given.
Defined.
