(* ===== verification/System.v ===== *)
(** * The system as a whole ([cmd/up.go], [cmd/proxy.go], [proxy/server.go])

    The host starts the containers ([Sandbox.v]) and goes away; what then decides
    about every request is the proxy in its container.  Here the two meet: the
    proxy's process is started from the container that [up] created, with the
    command line, the bind-mounted configuration and the environment of that
    container, its services and its requests interleave freely, and the statement
    is about what leaves the sandbox and who may change it, from the files and
    flags the user gave to the last entry of the log. *)

From S2P Require Import Prelude GoStrings GoNet GoTime Presets Config Container Sandbox SandboxSpec.
From S2P Require Import SshAuth Allowlist LogBuffer Mtls ProxyServer ProxyRun Commands.
Open Scope Z_scope.

Section proxy_process.
Context `{UnicodeTables} `{Encoding} `{Cli}.
Context {Body : Type} (decode : Body → option (list gostring)).
Context (systemRoots : list Certificate).

Local Abbreviation event := (ProxyServer.event (Body := Body)).
Local Abbreviation apiRequest := (ControlApi.apiRequest Body).

(** ** A running proxy *)

(** The process of [ProxyRun.v] around the store of [ProxyServer.v], with the
    events served and the API calls accepted so far. *)
Record sys := MkSys {
  sConfig : ProxyConfig;
  sEnv : gostring → gostring;
  sProc : proc;
  sStore : ProxyServer.world;
  sServed : list event;
  sCalls : list (peer * Z * apiRequest);
}.

Inductive slabel :=
  | LProc (l : plabel)
  | LServe (ev : event)
  | LCall (p : peer) (now : Z) (r : apiRequest).

Definition serviceOf (ev : event) : service :=
  match ev with
  | EConnect _ _ _ | ERequest _ _ _ => HTTP
  | EQuery _ _ _ => DNS
  | EApi _ => Control
  end.

(** A service takes requests while it serves, before it is shut down and before
    the process ends. *)
Definition takes (s : proc) (sv : service) : bool :=
  bool_decide (svc s sv = Serving) && negb (bool_decide (sv ∈ shut s)) &&
  match pc s with Returned _ => false | _ => true end.

Definition serveEvent (s : sys) (ev : event) : sys :=
  MkSys (sConfig s) (sEnv s) (sProc s) (ProxyServer.step decode (sStore s) ev).1 (sServed s ++ [ev]) (sCalls s).

(** A call of the control API is served after the handshake only. *)
Definition sessionStep (l : slabel) (s : sys) : option sys :=
  match l with
  | LProc l' => (λ p, MkSys (sConfig s) (sEnv s) p (sStore s) (sServed s) (sCalls s))
                  <$> procStep (sConfig s) (sEnv s) l' (sProc s)
  | LServe (EApi _) => None
  | LServe ev => if takes (sProc s) (serviceOf ev) then Some (serveEvent s ev) else None
  | LCall p now r =>
      if takes (sProc s) Control then
        match listener (sProc s) with
        | Some tls =>
            if serverAccepts systemRoots tls now p then
              let s' := serveEvent s (EApi r) in
              Some (MkSys (sConfig s') (sEnv s') (sProc s') (sStore s') (sServed s') (sCalls s ++ [(p, now, r)]))
            else Some s
        | None => None
        end
      else None
  end.

(** ** From a container to its process *)

(** A bind is [source:target] with options after another colon. *)
Definition bindTarget (b : gostring) : gostring :=
  match Cut b ":" with
  | Some (_, rest) => match Cut rest ":" with Some (t, _) => t | None => rest end
  | None => b
  end.

Definition mountedFile {A} (s : createSpec) (files : gmap gostring A) (path : gostring) : option A :=
  '(_, b) ← list_find (λ b, bindTarget b = path) (cBinds s); files !! bindSource b.

(** The action of [ProxyCommand], up to the point where the services start. *)
Definition ProxyAction (file : option ProxyConfig) : option (ProxyConfig * ProxyServer.world) :=
  match file with
  | None => None
  | Some cfg => match Run (NewServer cfg) with Ok w => Some (NewServer cfg, w) | Err _ => None end
  end.

Definition bootProxy (files : gmap gostring (option ProxyConfig)) (s : createSpec) : option sys :=
  c ← selects RootCommand (cCmd s);
  if bool_decide (Action c = DoProxy) then
    path ← flagValue (gs "config") (cCmd s);
    '(cfg, w) ← ProxyAction (mjoin (mountedFile s files path));
    Some (MkSys cfg (getenvOf (cEnv s)) (startProc cfg) w [] [])
  else None.

(** ** The invariant *)

Record booted (s : sys) : Prop := {
  bo_run : Run (sConfig s) = Ok (sStore s);
  bo_proc : sProc s = startProc (sConfig s);
  bo_served : sServed s = [];
  bo_calls : sCalls s = [];
}.

Lemma bootProxy_booted files s s0 : bootProxy files s = Some s0 → booted s0 ∧ sEnv s0 = getenvOf (cEnv s).
Proof.
  unfold bootProxy. destruct (selects _ _); [|done]. cbn. case_bool_decide; [|done].
  destruct (flagValue _ _) as [path|]; [|done]. cbn. unfold ProxyAction.
  destruct (mjoin (mountedFile _ _ _)) as [cfg|]; [|done]. destruct (Run (NewServer cfg)) as [w|] eqn:Hr; [|done].
  by intros [= <-].
Qed.

Record sessionInv (s0 s : sys) : Prop := {
  si_config : sConfig s = sConfig s0;
  si_env : sEnv s = sEnv s0;
  si_proc : reach_from (procStep (sConfig s0) (sEnv s0)) (startProc (sConfig s0)) (sProc s);
  si_store : sStore s = ProxyServer.run decode (sStore s0) (sServed s);
  si_calls : ∀ r, EApi r ∈ sServed s → ∃ p now, (p, now, r) ∈ sCalls s;
  si_auth : ∀ p now r, (p, now, r) ∈ sCalls s →
    ∃ tls, LoadServerTLSConfigFromEnv (sEnv s0) = Ok tls ∧ serverAccepts systemRoots tls now p = true;
}.

Lemma session_inv_start s : booted s → sessionInv s s.
Proof.
  intros [Hr Hp Hs Hc]. split; try done; rewrite ?Hp, ?Hs, ?Hc; try done; try set_solver.
  apply reach_start.
Qed.

Lemma run_snoc w evs ev :
  ProxyServer.run decode w (evs ++ [ev]) = (ProxyServer.step decode (ProxyServer.run decode w evs) ev).1.
Proof. unfold ProxyServer.run. by rewrite fold_left_app. Qed.

Lemma session_inv_step s0 l s s' : sessionInv s0 s → sessionStep l s = Some s' → sessionInv s0 s'.
Proof.
  intros [Hc He Hp Hst Hca Hau] Hs. destruct l as [l|ev|p now r]; cbn [sessionStep] in Hs.
  - apply fmap_Some in Hs as (pr & Hs & ->). split; try done. cbn. rewrite Hc, He in Hs. by eapply reach_next.
  - assert (Hev : ∃ sv, (if takes (sProc s) sv then Some (serveEvent s ev) else None) = Some s' ∧ ∀ r, ev ≠ EApi r)
      by (destruct ev; try done; eexists; (split; [exact Hs|by intros ? [=]])).
    clear Hs. destruct Hev as (sv & Hev & Hne). destruct (takes _ _); [|done]. injection Hev as <-. split; try done; cbn -[ProxyServer.run ProxyServer.step].
    + by rewrite Hst, run_snoc.
    + intros r [Hr|Hr%list_elem_of_singleton]%elem_of_app; [by apply Hca|]. by destruct (Hne r).
  - destruct (takes _ _); [|done]. destruct (listener (sProc s)) as [tls|] eqn:Hl; [|done].
    destruct (serverAccepts _ _ _ _) eqn:Hacc; injection Hs as <-; [|done]. split; try done; cbn -[ProxyServer.run ProxyServer.step].
    + by rewrite Hst, run_snoc.
    + intros r' [Hr|Hr%list_elem_of_singleton]%elem_of_app.
      * destruct (Hca _ Hr) as (p' & t' & ?). exists p', t'. set_solver.
      * injection Hr as ->. exists p, now. set_solver.
    + intros p' t' r' [Hin|Hin%list_elem_of_singleton]%elem_of_app; [by eapply Hau|]. simplify_eq.
      exists tls. split; [|done]. by eapply pi_listener; [eapply pinv_reach|].
Qed.

Lemma session_inv_reach s0 s : booted s0 → reach_from sessionStep s0 s → sessionInv s0 s.
Proof. intros Hb. apply reach_inv; [by apply session_inv_start|]. intros l a b. apply session_inv_step. Qed.

(** ** What may leave the sandbox *)

(** An allowed entry of the log is covered by an entry of the configuration or by
    one that an accepted API call added, or is the gateway on an open port. *)
Definition mayReach (http dns : gostring → Prop) (ports : list Z) (calls : list (peer * Z * apiRequest))
    (e : LogEntry) : Prop :=
  match ESource e with
  | SourceProxy =>
      (∃ entry, http_grants entry (Domain e) (Port e) ∧
         (http entry ∨ ∃ p now r, (p, now, r) ∈ calls ∧ entry ∈ http_added decode (EApi r))) ∨
      (Domain e = gs "host.vibepit" ∧ ∃ n, Atoi (Port e) = Ok n ∧ n ∈ ports)
  | SourceDNS =>
      (∃ entry, dns_grants entry (Domain e) ∧
         (dns entry ∨ ∃ p now r, (p, now, r) ∈ calls ∧ entry ∈ dns_added decode (EApi r))) ∨
      Domain e = gs "host.vibepit"
  end.

Lemma mayReach_mono http http' dns dns' ports calls e :
  (∀ x, http x → http' x) → (∀ x, dns x → dns' x) →
  mayReach http dns ports calls e → mayReach http' dns' ports calls e.
Proof. intros Hh Hd. unfold mayReach. destruct (ESource e); naive_solver. Qed.

Lemma added_by_valid ep valid ev x :
  x ∈ added_by decode ep valid ev → valid (added_by decode ep valid ev) = true ∧ ∃ r, ev = EApi r.
Proof.
  unfold added_by. destruct ev as [| | |r]; try by intros ?%elem_of_nil. case_bool_decide; [|by intros ?%elem_of_nil].
  destruct (decode _) as [l|]; [|by intros ?%elem_of_nil].
  destruct (valid l) eqn:Hv; [by eauto|by intros ?%elem_of_nil].
Qed.

Lemma entries_valid {E} (check : list gostring → option E) (one : gostring → option E) ep (evs : list event) :
  (∀ es, check es = None ↔ Forall (λ x, one x = None) es) →
  Forall (λ x, one x = None) (evs ≫= added_by decode ep (λ es, bool_decide (check es = None))).
Proof.
  intros Hc. apply Forall_forall. intros x Hx. apply list_elem_of_bind in Hx as (ev & Hx & _).
  destruct (added_by_valid _ _ _ _ Hx) as [Hv _].
  apply bool_decide_eq_true, Hc in Hv. rewrite Forall_forall in Hv. by apply Hv.
Qed.

(** Every added entry came with an accepted call. *)
Lemma added_call s0 s ep valid x :
  sessionInv s0 s → x ∈ sServed s ≫= added_by decode ep valid →
  ∃ p now r, (p, now, r) ∈ sCalls s ∧ x ∈ added_by decode ep valid (EApi r).
Proof.
  intros Hi (ev & Hx & Hev)%list_elem_of_bind.
  destruct (added_by_valid _ _ _ _ Hx) as [_ [r ->]].
  destruct (si_calls _ _ Hi r Hev) as (p & now & ?). eauto 10.
Qed.

Lemma Run_fields cfg w :
  Run cfg = Ok w → ValidateHTTPEntries (AllowHTTP cfg) = None ∧ ValidateDNSEntries (AllowDNS cfg) = None ∧
  (∀ n, n ∈ w_ports w → n ∈ AllowHostPorts cfg).
Proof.
  unfold Run, NewHTTPAllowlist, NewDNSAllowlist.
  destruct (ValidateHTTPEntries _); [done|]. destruct (ValidateDNSEntries _); [done|]. intros [= <-].
  split_and!; try done. cbn. intros n. case_bool_decide; cbn; set_solver.
Qed.
Lemma justified_mayReach s0 s e :
  booted s0 → sessionInv s0 s → justified (sStore s) e →
  mayReach (λ x, x ∈ AllowHTTP (sConfig s0)) (λ x, x ∈ AllowDNS (sConfig s0)) (AllowHostPorts (sConfig s0)) (sCalls s) e.
Proof.
  intros Hb Hi. pose proof (Run_fields _ _ (bo_run _ Hb)) as (Hvh & Hvd & Hports).
  destruct (rules_provenance decode _ _ (sServed s) (bo_run _ Hb)) as (Hh & Hd & Hset & _).
  rewrite <- (si_store _ _ Hi) in Hh, Hd, Hset.
  assert (Hn : ∀ n, n ∈ w_ports (sStore s) → n ∈ AllowHostPorts (sConfig s0)).
  { intros n Hn. apply Hports. unfold settings in Hset. by injection Hset as _ _ <- _ _. }
  unfold justified, mayReach. destruct (ESource e).
  - intros [Ha|(-> & _ & Hp)].
    + left. rewrite Hh in Ha. apply HTTPAllows_rules in Ha as (_ & x & [Hx|Hx]%elem_of_app & Hg).
      * by eauto.
      * exists x. split; [done|right]. by eapply added_call.
      * apply first_error_None. apply Forall_app. split; [by apply first_error_None|].
        apply (entries_valid ValidateHTTPEntries). intros es. apply first_error_None.
    + right. split; [done|]. unfold HttpProxy.isHostPortAllowed in Hp. destruct (Atoi (Port e)) as [n|]; [|done].
      apply bool_decide_eq_true in Hp. by eauto.
  - intros [Ha|[-> _]]; [|by right]. left. rewrite Hd in Ha.
    assert (Hok : NewDNSAllowlist (AllowDNS (sConfig s0) ++ (sServed s ≫= dns_added decode)) =
                  Ok (parseDNSRule <$> (AllowDNS (sConfig s0) ++ (sServed s ≫= dns_added decode)))).
    { unfold NewDNSAllowlist. rewrite (proj2 (first_error_None ValidateDNSEntry _)); [done|].
      apply Forall_app. split; [by apply first_error_None|].
      apply (entries_valid ValidateDNSEntries). intros es. apply first_error_None. }
    apply (DNSAllows_spec _ _ _ Hok) in Ha as (_ & x & [Hx|Hx]%elem_of_app & Hg); [by eauto|].
    exists x. split; [done|right]. by eapply added_call.
Qed.
End proxy_process.

(** ** The containers of a session *)

Lemma bindTarget_ro src dst : ":"%char ∉ src → ":"%char ∉ dst → bindTarget (src ++ gs ":" ++ dst ++ gs ":ro") = dst.
Proof.
  intros Hs Hd. unfold bindTarget.
  rewrite (Cut_app src ":" (dst ++ gs ":ro") Hs : Cut (src ++ gs ":" ++ dst ++ gs ":ro") ":" = _).
  by rewrite (Cut_app dst ":" (gs "ro") Hd : Cut (dst ++ gs ":ro") ":" = _).
Qed.

(** The proxy finds its configuration. *)
Lemma mountedFile_config {A} (files : gmap gostring A) cfg :
  ":"%char ∉ BinaryPath cfg → ":"%char ∉ ConfigPath cfg →
  mountedFile (proxySpec cfg) files ProxyConfigPath = files !! ConfigPath cfg.
Proof.
  intros Hb Hc. unfold mountedFile. cbn [cBinds proxySpec list_find].
  rewrite (bindTarget_ro (BinaryPath cfg) ProxyBinaryPath) by (done || decided).
  rewrite decide_False by (by vm_compute).
  rewrite (bindTarget_ro (ConfigPath cfg) ProxyConfigPath) by (done || decided).
  rewrite decide_True by done. cbn [fmap option_fmap option_map mbind option_bind prod_map].
  unfold id. cbn [snd].
  by rewrite (bindSource_app (ConfigPath cfg) (ProxyConfigPath ++ gs ":ro")).
Qed.

Lemma bootProxy_proxySpec `{UnicodeTables} `{Cli} {Body} `{Encoding} files cfg pconf :
  ":"%char ∉ BinaryPath cfg → ":"%char ∉ ConfigPath cfg → files !! ConfigPath cfg = Some (Some pconf) →
  is_ok (Run (NewServer pconf)) = true →
  ∃ s0 : sys (Body := Body), bootProxy files (proxySpec cfg) = Some s0 ∧ sConfig s0 = NewServer pconf.
Proof.
  intros Hb Hc Hf Hok. unfold bootProxy. destruct (proxy_container_selects cfg) as [-> ->].
  cbn [mbind option_bind]. rewrite bool_decide_eq_true_2 by done.
  rewrite mountedFile_config, Hf by done. cbn [mjoin option_join ProxyAction].
  destruct (Run (NewServer pconf)); [|done]. cbn. by eexists.
Qed.

(** How the sandbox, the proxy and the host are connected: the sandbox is
    confined to the session's network and sent to the proxy's ports there, the
    proxy publishes its ports on the loopback address of the host only, and its
    own ports are none that the sandbox may reach on the host. *)
Record wired (root : gostring) (info : NetworkInfo) (pspec bspec : createSpec) (cfg : ProxyServer.ProxyConfig) : Prop := {
  wi_confined : confined bspec (netID info) (Container.ProxyIP info) root;
  wi_http : gs "HTTP_PROXY=http://" ++ JoinHostPort (Container.ProxyIP info) (Itoa (ProxyServer.ProxyPort cfg)) ∈ cEnv bspec;
  wi_https : gs "HTTPS_PROXY=http://" ++ JoinHostPort (Container.ProxyIP info) (Itoa (ProxyServer.ProxyPort cfg)) ∈ cEnv bspec;
  wi_ip : ProxyServer.ProxyIP cfg = Container.ProxyIP info;
  wi_dns : dnsPort cfg = 53;
  wi_ssh : SSHForwardAddr cfg = SandboxIP info ++ gs ":2222";
  wi_label : cLabels pspec !! LabelControlPort = Some (Itoa (ProxyServer.ControlAPIPort cfg));
  wi_loopback : ∀ port bs b, cPortBindings pspec !! port = Some bs → b ∈ bs → HostIP b = gs "127.0.0.1";
  wi_ports : ProxyServer.ProxyPort cfg ≠ ProxyServer.ControlAPIPort cfg ∧
    ProxyServer.ProxyPort cfg ∉ AllowHostPorts cfg ∧ ProxyServer.ControlAPIPort cfg ∉ AllowHostPorts cfg;
}.

Lemma proxyBindings_loopback cfg port bs b :
  proxyBindings cfg !! port = Some bs → b ∈ bs → HostIP b = gs "127.0.0.1".
Proof.
  unfold proxyBindings. intros Hl Hb.
  assert (Hbs : ∃ p, bs = [MkBinding (gs "127.0.0.1") p]).
  { destruct (0 <? SSHPort cfg).
    - apply lookup_insert_Some in Hl as [[_ <-]|[_ [_ <-]%lookup_singleton_Some]]; by eexists.
    - apply lookup_singleton_Some in Hl as [_ <-]. by eexists. }
  destruct Hbs as [p ->]. by apply list_elem_of_singleton in Hb as ->.
Qed.

Section session.
Context `{UnicodeTables} `{EncodingSpec} `{Cli} {D : Type} `{DockerSpec D}.
Context {Body : Type} (decode : Body → option (list gostring)) (systemRoots : list Certificate).
Context (env : hostEnv).
Local Abbreviation hostWorld := (@Sandbox.world D).

(** What [up] leaves behind, from the configuration to the proxy that boots. *)
Definition sessionUp (w' : hostWorld) (root : gostring) (cfg : Config) (merged : MergedConfig)
    (pspec bspec : createSpec) (info : NetworkInfo) (s0 : sys (Body := Body)) : Prop :=
  (∃ pid bid net, (pid, pspec) ∈ containers (dk w') ∧ (bid, bspec) ∈ containers (dk w') ∧
     (netID info, net) ∈ networks (dk w') ∧ nInternal net = true) ∧
  (∃ i, load env i = Some cfg) ∧ Merge (registry env) cfg (cliAllow env) (cliPresets env) = Ok merged ∧
  bootProxy (configFiles w') pspec = Some s0 ∧ wired root info pspec bspec (sConfig s0) ∧
  AllowHTTP (sConfig s0) = mAllowHTTP merged ∧ AllowDNS (sConfig s0) = mAllowDNS merged ∧
  AllowHostPorts (sConfig s0) = pAllowHostPorts (Project cfg).

Lemma NewServer_fields pconf :
  let cfg := NewServer pconf in
  AllowHTTP cfg = AllowHTTP pconf ∧ AllowDNS cfg = AllowDNS pconf ∧ AllowHostPorts cfg = AllowHostPorts pconf ∧
  ProxyServer.ProxyIP cfg = ProxyServer.ProxyIP pconf ∧ ProxyServer.ProxyPort cfg = ProxyServer.ProxyPort pconf ∧
  ProxyServer.ControlAPIPort cfg = ProxyServer.ControlAPIPort pconf ∧ DNSPort cfg = DNSPort pconf ∧
  SSHForwardAddr cfg = SSHForwardAddr pconf.
Proof. unfold NewServer. by case_bool_decide. Qed.

Lemma wired_session root u infra pub lt pconf pspec self path sid info cp tls hosts merged :
  info = iNetworkInfo infra →
  pspec = proxySpec (proxyContainerConfig root self path sid info cp tls hosts true) →
  pconf = proxyConfig merged info (iProxyPort infra) cp true →
  iProxyPort infra ≠ cp → iProxyPort infra ∉ mAllowHostPorts merged → cp ∉ mAllowHostPorts merged →
  wired root info pspec (sandboxSpec (sandboxConfig env root u infra (Some pub)) lt) (NewServer pconf).
Proof.
  intros -> -> -> Hne Hp Hc.
  destruct (NewServer_fields (proxyConfig merged (iNetworkInfo infra) (iProxyPort infra) cp true))
    as (_ & _ & Ports & IP & PP & CP & DP & SSH).
  split; rewrite ?Ports, ?IP, ?PP, ?CP, ?SSH; try done.
  - apply sandbox_confined.
  - cbn -[gs]. unfold sandboxEnv. cbn -[gs]. do 4 right. left.
  - cbn -[gs]. unfold sandboxEnv. cbn -[gs]. do 5 right. left.
  - unfold dnsPort. by rewrite DP.
  - cbn -[gs]. unfold proxyLabels. cbn -[gs]. case_bool_decide;
      rewrite !lookup_insert_ne by (intros Hx; vm_compute in Hx; discriminate Hx); apply lookup_singleton_eq.
  - intros port bs b. apply proxyBindings_loopback.
Qed.

Lemma up_session w w' sid :
  newID env ∉ sessionDirs w → (∀ m, m !! tempName env m = None) →
  (∀ m, ":"%char ∉ tempName env m) → (∀ self, binary env = Some self → ":"%char ∉ self) →
  UpAction env w = (w', Ok (Ready sid)) →
  ∃ root cfg merged pspec bspec info s0 tls,
    sessionUp w' root cfg merged pspec bspec info s0 ∧ tlsCreds env = Some tls ∧
    ∃ pcfg, pspec = proxySpec pcfg ∧ (TLSKeyPEM pcfg, TLSCertPEM pcfg, Container.CACertPEM pcfg) = tls.
Proof.
  intros Hdir Hfile Hcolon Hself Hup. apply UpAction_cases in Hup as (_ & root & u & infra & pub & cs & _ & _ & Hd); [|done..].
  destruct Hd as (net & path & cfg & merged & cp & self & tls & bid & HF & Hg & _).
  destruct HF as (Hint & Hsid & _ & Hload & Htls & Hbin & [m ->] & Hm & _ & _ & Hne & Hp & Hc).
  set (info := iNetworkInfo infra) in *. set (path := tempName env m) in *.
  set (pcfg := proxyContainerConfig root self path (newID env) info cp tls (mExtraHosts merged) true) in *.
  set (pconf := proxyConfig merged info (iProxyPort infra) cp true) in *.
  set (bspec := sandboxSpec _ _) in *.
  assert (Hlook : configFiles w' !! path = Some (Some pconf)).
  { destruct Hg as [_ _ Gf _ _]. rewrite Gf. by apply lookup_union_Some_l, lookup_singleton_eq. }
  destruct (bootProxy_proxySpec (Body := Body) (configFiles w') pcfg pconf) as (s0 & Hboot & Hcfg);
    [by apply Hself|by apply Hcolon|done|by apply Run_ok; eapply (Merge_valid (registry env) cfg)|].
  exists root, cfg, merged, (proxySpec pcfg), bspec, info, s0, tls. split_and!.
  - split_and!; try done.
    + exists (ProxyContainerID infra), bid, net. destruct Hg as [Gc Gn _ _ _]. rewrite Gc, Gn. set_solver.
    + rewrite Hcfg. by eapply wired_session.
    + rewrite Hcfg. apply (NewServer_fields pconf).
    + rewrite Hcfg. apply (NewServer_fields pconf).
    + rewrite Hcfg. destruct (NewServer_fields pconf) as (_ & _ & -> & _). cbn. unfold Merge in Hm.
      destruct (ValidateHTTPEntries _); [done|]. destruct (ValidateDNSEntries _); [done|]. by injection Hm as <-.
  - done.
  - exists pcfg. split; [done|]. by destruct tls as [[] ?].
Qed.

(** The proxy's TLS configuration is the session's. *)
Lemma session_tls now lifetime gk draw c key pcfg :
  GenerateMTLSCredentials now lifetime gk draw = Ok c → ServerKeyPEM c = Some key →
  (TLSKeyPEM pcfg, TLSCertPEM pcfg, Container.CACertPEM pcfg) = (key, ServerCertPEM c, CACertPEM c) →
  LoadServerTLSConfigFromEnv (getenvOf (cEnv (proxySpec pcfg))) = Ok (serverCfg c).
Proof.
  intros Hg Hk [= Hck Hcc Hca]. destruct (GenerateMTLSCredentials_made _ _ _ _ _ Hg) as (ca & _ & Hm).
  destruct (getenv_proxySpec pcfg) as (H1' & H2' & H3'); [rewrite Hck|].
  { unfold ServerKeyPEM in Hk. apply fmap_Some in Hk as (raw & _ & ->). apply EncodeToMemory_nonempty. }
  eapply LoadServerTLSConfigFromEnv_ok; [done|done|congruence..].
Qed.

(** Who holds a key that opens the control API. *)
Definition authorised (c : MTLSCredentials) (p : peer) : Prop :=
  ∃ cert k, presented p = Some (cert, k) ∧ VersionTLS13 ≤ version p ∧ PublicKey cert = Public k ∧
    (cert = CACert c ∨ signedBy cert = PublicKey (CACert c)) ∧ cert ≠ ServerCert c.

Lemma accepted_authorised now lifetime gk draw c t p :
  GenerateMTLSCredentials now lifetime gk draw = Ok c →
  serverAccepts systemRoots (serverCfg c) t p = true → authorised c p.
Proof.
  intros (ca & _ & Hm)%GenerateMTLSCredentials_made Ha.
  assert (Hpub : PublicKey (CACert c) = Public ca) by (by destruct (made_ca _ _ _ _ Hm) as [n ->]).
  unfold authorised. rewrite Hpub. by eapply serverAccepts_made.
Qed.

(** The session's own client is served while the certificates are valid. *)
Lemma client_served now lifetime gk draw c s0 s client t r :
  GenerateMTLSCredentials now lifetime gk draw = Ok c → ClientTLSConfig c = Ok client →
  LoadServerTLSConfigFromEnv (sEnv s0) = Ok (serverCfg c) → sessionInv decode systemRoots s0 s →
  now / Second * Second ≤ t ≤ (now + lifetime) / Second * Second → takes (sProc s) Control = true →
  ∃ s', sessionStep decode systemRoots (LCall (asPeer client) t r) s = Some s' ∧
    sStore s' = (ProxyServer.step decode (sStore s) (EApi r)).1.
Proof.
  intros (ca & _ & Hm)%GenerateMTLSCredentials_made Hc Htls Hi Ht Htakes.
  rewrite (ClientTLSConfig_ok _ _ _ _ Hm) in Hc. injection Hc as <-. cbn [sessionStep]. rewrite Htakes.
  pose proof (pinv_reach _ _ _ (si_proc _ _ _ _ Hi)) as Hp. unfold takes in Htakes.
  apply andb_true_iff in Htakes as [[Hs%bool_decide_eq_true _]%andb_true_iff _].
  destruct (listener (sProc s)) as [tls|] eqn:Hl; [|by destruct (pi_serving _ _ _ Hp Hs)].
  apply (pi_listener _ _ _ Hp) in Hl. rewrite Htls in Hl. injection Hl as <-.
  apply (handshake_made now lifetime ca c Hm systemRoots t) in Ht. apply andb_true_iff in Ht as [-> _].
  by eexists.
Qed.

(** What the user's files and flags, the presets and the accepted calls allow. *)
Definition covered (cfg : Config) (calls : list (peer * Z * ControlApi.apiRequest Body)) : LogEntry → Prop :=
  mayReach decode (requested (registry env) cfg (cliAllow env) (cliPresets env))
    (λ x, x ∈ gAllowDNS (Global cfg) ∨ x ∈ pAllowDNS (Project cfg)) (pAllowHostPorts (Project cfg)) calls.

Lemma covered_session cfg merged s0 s e :
  Merge (registry env) cfg (cliAllow env) (cliPresets env) = Ok merged →
  AllowHTTP (sConfig s0) = mAllowHTTP merged → AllowDNS (sConfig s0) = mAllowDNS merged →
  AllowHostPorts (sConfig s0) = pAllowHostPorts (Project cfg) →
  booted s0 → sessionInv decode systemRoots s0 s → justified (sStore s) e → covered cfg (sCalls s) e.
Proof.
  intros Hm Hh Hd Hp Hb Hi Hj. pose proof (justified_mayReach _ _ _ _ _ Hb Hi Hj) as Hr. rewrite Hh, Hd, Hp in Hr.
  pose proof (Merge_spec (registry env) cfg (cliAllow env) (cliPresets env)) as Hms. rewrite Hm in Hms.
  destruct Hms as (_ & _ & Hreq & Hdns & _). eapply mayReach_mono; [..|exact Hr]; intros x; [apply Hreq|apply Hdns].
Qed.

End session.

(** ** A concrete session *)

Definition withCreds (tls : gostring * gostring * gostring) : hostEnv :=
  {| project := project demo_host; projectExists := projectExists demo_host;
     currentUser := currentUser demo_host; local := local demo_host; reconfigure := reconfigure demo_host;
     cliAllow := cliAllow demo_host; cliPresets := cliPresets demo_host; load := load demo_host;
     projectConfigExists := projectConfigExists demo_host; dialogOk := dialogOk demo_host;
     registry := registry demo_host; binary := binary demo_host;
     verifyImage := verifyImage demo_host; verifyProxyImage := verifyProxyImage demo_host;
     newID := newID demo_host; rand := rand demo_host; draw1 := draw1 demo_host; draw2 := draw2 demo_host;
     tempName := tempName demo_host; tempCreated := tempCreated demo_host; tempWritten := tempWritten demo_host; tlsCreds := Some tls;
     mkdirOk := mkdirOk demo_host; credsWritten := credsWritten demo_host; keys := keys demo_host;
     sshWritten := sshWritten demo_host; stateDir := stateDir demo_host; dirsOk := dirsOk demo_host;
     localtime := localtime demo_host; termVar := termVar demo_host; colorTerm := colorTerm demo_host;
     banner := banner demo_host; attempts := attempts demo_host; rmDirOk := rmDirOk demo_host; rmFileOk := rmFileOk demo_host |}.

#[local] Existing Instances toy_cli toy_docker toy_spec toy_pki toy_encoding toy_encoding_spec ascii_only.

Local Notation demo_gen := (GenerateMTLSCredentials (5 * Second + 7) (10 * Second) demo_keys demo_serials).

(** The proxy serves, a stranger calls its API in vain, the command line opens a
    second host, and the sandbox connects to both. *)
Definition demo_session (client : tlsConfig) : list (slabel (Body := list gostring)) :=
  let allow := ControlApi.MkApiRequest (gs "POST") (gs "/allow-http") [] [gs "evil.test:443"] in
  [LProc (PListen HTTP true); LProc (PListen Control true);
   LServe (EConnect demo_resolver 1 (gs "example.com:443"));
   LCall (MkPeer VersionTLS13 None) (9 * Second) allow;
   LServe (EConnect demo_resolver 2 (gs "evil.test:443"));
   LCall (asPeer client) (9 * Second) allow;
   LServe (EConnect demo_resolver 3 (gs "evil.test:443"))].

Definition demo_final : option (sys (Body := list gostring)) :=
  match demo_gen with
  | Ok c =>
      match ServerKeyPEM c, ClientTLSConfig c with
      | Some key, Ok client =>
          let w := (UpAction (withCreds (key, ServerCertPEM c, CACertPEM c)) (SandboxSpec.demo_world true)).1 in
          match tContainers (dk w) with
          | [_; (_, pspec)] =>
              s0 ← bootProxy (configFiles w) pspec;
              run_steps (sessionStep (λ b, Some b) []) (demo_session client) s0
          | _ => None
          end
      | _, _ => None
      end
  | Err _ => None
  end.

Example demo_session_runs :
  (λ s, (length (sCalls s), EAction <$> Entries (w_log (sStore s)))) <$> demo_final =
  Some (1%nat, [ActionAllow; ActionBlock; ActionAllow]).
Proof. vm_compute. reflexivity. Qed.

Lemma demo_temp_colon m : ":"%char ∉ tempName demo_host m.
Proof. intros [Hc _]%elem_of_replicate. discriminate Hc. Qed.

